(* ===== verification/_CoqProject ===== *)
-Q . S2P
Prelude.v
Wire.v
Toy.v
Text.v
Channel.v
Registry.v
RegistryFacts.v
RegistryProps.v
Races.v
Locks.v
Permissions.v
Jwt.v
DeviceStore.v
StoreFiles.v
EventStore.v
World.v
EventBus.v
BusRace.v
Commands.v
Router.v
RouterFacts.v
RouterProps.v
ActionProps.v
RegisterProps.v
RouterRuns.v
ForwardRace.v
ActionRace.v
Connection.v
Session.v
Reassembly.v
Sandbox.v
Supervisor.v
SupervisorProps.v
StopRace.v
Config.v
TopoSort.v
Loader.v
Kernel.v
Gateway.v
Api.v
ApiServer.v
Bridge.v
Calendar.v
Table.v
Pairing.v
PairingProps.v
Client.v
Daemon.v
PidLock.v
Main.v
Shim.v
Cgroup.v
Landlock.v
Metrics.v
Startup.v
System.v
