(* ===== verification/Prelude.v ===== *)
(** * Verification of the Vynkor kernel

    Vynkor is a microkernel for plugins: a process that plugins (local
    processes on a Unix socket, devices and browsers on a WebSocket) register
    with, and that routes their frames, actions and events under permissions,
    supervises their processes, and bridges to other kernels.  This library
    is a shallow embedding of its Rust sources ([src/src/]) with the theorems
    that make it correct.

    ** The parts and where they are modelled

    - [Prelude]: results, machine integers, Rust string operations, the state
      monad [State] with its reasoning rules, the iteration order of hash
      maps ([HashIter]), shared tactics and hint databases.
    - [Wire]: the messages of the protocol, [ipc/framing.rs],
      [utils/errors.rs], and the interface [WireCrate] of the external crates
      [vynkor-wire], [prost] and [hmac] with the laws the proofs use
      ([WireLaws]).  [Toy]: a concrete instance for witnesses.  [Text]:
      trimming, UTF-8 and hexadecimal text.
    - [Channel]: the bounded write channels of connections, as a shared store
      indexed by channel identity ([ipc/connection.rs], type [Outbound]).
    - [Registry], [RegistryFacts], [RegistryProps]: [plugins/registry.rs];
      the maps of [PluginRegistry] as one record, every operation a function
      on it, the invariant [registry_ok].  [Races]: registration and
      unregistration as threads of single map operations with the shard
      locks they hold, interleaved freely; [Locks]: the acquisitions of every
      method, and that the tasks of the kernel cannot deadlock.
    - [Permissions]: [auth/permissions.rs].  [Jwt]: [auth/jwt.rs].
      [DeviceStore]: [auth/device_store.rs]; [StoreFiles]: its writes as
      system calls on a directory, its operations as processes.
    - [EventStore]: the outbox of [events/store.rs] as the map of its rows.
      [EventBus]: [events/bus.rs]; [BusRace]: its calls as threads of single
      map operations.
    - [World]: the state shared by the tasks of the kernel and the helpers of
      [ipc/protocol/helpers.rs], in the monad [K].
    - [Commands]: [kernel/commands.rs].  [Router]: [ipc/protocol/router.rs],
      one definition per arm of the kernel handler, [forward], [broadcast],
      and [router_step], one turn of the loop; [RouterFacts] its frame
      lemmas, [RouterProps], [ActionProps], [RegisterProps] its theorems,
      [RouterRuns] concrete runs; [ForwardRace], [ActionRace]: [forward] and
      the requests for actions with a registry state of its own for each
      read.
    - [Connection]: the read, write and accept loops of [ipc/connection.rs]
      and [ipc/server.rs]; [Session]: the read loop as a whole;
      [Reassembly]: fragments in any order.
    - [Sandbox]: what a spawned process is given ([plugins/fsaccess.rs],
      [plugins/supervisor/spawn.rs], [plugins/runner.rs]).
    - [Supervisor], [SupervisorProps]: [plugins/supervisor/], as a
      transition system over its interleaved tasks; [StopRace]: stops and
      manual restarts as single map operations among them.
    - [Config]: [utils/config.rs].  [TopoSort], [Loader]:
      [plugins/loader.rs].
    - [Kernel]: boot checks, disconnect loop and shutdown of
      [kernel/orchestrator/], [utils/tls.rs].
    - [Gateway]: [api/websocket.rs].  [Api]: [api/routes.rs],
      [api/middleware.rs], [api/rate_limit.rs] and their composition in
      [api/server.rs]; [ApiServer]: what [create_router_full] builds and the
      eviction of idle keys.  [Bridge]: [bridge/mod.rs], [utils/url.rs].
    - [Calendar], [Table]: the dates and tables the command line prints.
      [Pairing], [PairingProps]: [cli/device.rs], [cli/token.rs].  [Client]:
      [cli/plugin.rs], [cli/devices.rs].  [Daemon]: the flags, checks, PID
      file and signals of [main.rs], the log level of [utils/logging.rs];
      [PidLock]: the PID file as a lock, a step relation over inodes;
      [Main]: the dispatch [run_kernel] over them.
    - [Shim]: [plugins/shim.rs] and [plugins/seccomp.rs].  [Cgroup]:
      [plugins/runner.rs].  [Landlock]: the rules of [plugins/fsaccess.rs],
      composed with the shim and the supervisor's environment.
    - [Metrics]: the resource samples of [plugins/metrics.rs].  [Startup]:
      the opening of the outbox, the binding of the socket, the order of
      [run_with_components], the tracing filter of [utils/logging.rs], the
      signal loop.
    - [System]: the running kernel of [run_with_components] as one step
      relation [node_step] over the tasks above, the bridge of a client
      kernel included.

    ** How the parts interact

    A connection loop hands parsed and authenticated frames to the router
    over a queue; the router reads and changes the registry, the bus and the
    counters of [World], and answers by queueing [Outbound] items on write
    channels, which the write loops drain.  The disconnect loop, the retry
    worker, the supervisor, the watchdog and the REST handlers act on the
    same registry and bus.  The clients of the registry and of the bus are
    verified against their transition systems ([registry_step], [bus_step]):
    every handler of every task is a sequence of such steps, so the
    invariants hold in the running kernel between handlers that do not
    overlap ([System]).  The command line acts on the
    kernel through files (the credential store, the PID file), signals and
    REST requests: its theorems compose it with [DeviceStore], [Jwt],
    [Gateway], [Router] and [Api] at those points. The supervisor starts a
    plugin through the shim: [Landlock] follows a restriction from the
    configuration through the environment to the rules the plugin runs
    under.

    ** What the theorems show

    - Isolation and authority: who a unicast, a broadcast, an event, an
      action request or an action response can reach and under which
      permissions ([RouterProps], [ActionProps]); what a registration proves
      about its token, device credential and permissions ([RegisterProps]);
      what REST requests, WebSocket upgrades, kernel commands and hosts
      behind a bridge may do ([Api], [Gateway], [ActionProps], [Bridge]).
    - Consistency: the registry invariant, the mirrored subscription maps,
      the action index as a refinement of a scan, registration and
      unregistration as inverses, preservation by every handler of the
      running kernel, and which connections its plugins are registered on
      ([System]).
    - Concurrency: the identity maps of the registry stay consistent in every
      interleaving of single map operations, which alone compute what the
      operations compute ([Races]); no deadlock on their locks, iterations
      included ([Locks]);
      what forwarding and requests for actions guarantee while plugins leave
      between their reads ([ForwardRace], [ActionRace]); subscription calls
      for different plugins are linearizable ([BusRace]); when a stop that
      is recorded is terminal ([StopRace]).
    - Crash safety: the credential store holds the old or the new rows
      whichever system call a write stops at, no file with rows in it is ever
      open to others, and of any sequence of killed and completed commands
      exactly those that report success take effect ([StoreFiles]).
    - Integrity of the byte path: MAC checks, activation order and tagging on
      both transports, reassembly in any order and over time within bounds, a
      frame across a bridge and a gateway.
    - Bounded resources: reassembly buffers, connection caps (sequential and
      under interleaving), error budgets, timeouts and sweeps, restart
      budgets and backoff, log buffers, redeliveries.
    - Lifecycle: accounting of process entries under interleaving,
      terminality of stops, crash loops, watchdog, boot order and boot
      effects, boot checks, disconnection, shutdown.
    - The command line: what a pairing gives a device and a revocation takes
      from it, end to end ([PairingProps]); what plugin commands may change
      ([Client]); which configuration a background kernel runs on, what stop
      and restart signal, that the PID file admits one kernel ([Daemon],
      [PidLock], [Main]); the calendar arithmetic against a day count
      ([Calendar]).
    - The sandbox: fail-closed admission, escalation to SIGKILL ([Shim]),
      the process limit and the namespaces ([Cgroup]), which files a plugin
      can change under the rules the kernel took ([Landlock]).
    - Theorems whose doc comment describes a defect state what the code does
      where it departs from its intention (requirements and subscriptions
      lost or leaked, stranded entries, a sort that does not end, half-paired
      devices, flags lost in the background, PID files removed from under a
      running kernel, registrations on dead connections, index rows,
      subscriptions, permission checks and stops that a race defeats, a
      credential store that two commands at once empty, a start that takes
      the socket before it is refused).

    ** Modelling decisions

    - External crates and the operating system are type-class parameters
      ([WireCrate], [JwtCrate], [StoreCrates], [Governor], [SerdeJson],
      [ManifestCrate], [ConfigCrates], [UrlCrate], [PairCrates],
      [ClientCrates], [Clap], [LandlockCrate], [Float], [Sharding],
      [BurstQuota]) or arguments (clock readings, random bytes, file
      contents, the results of writes, spawns, exits).  Laws are assumed only
      where a theorem names a [..Laws] class or a predicate such as
      [json_is_utf8] and [full_is_supported], and each such theorem is
      applied at a concrete instance.
    - Integers are [Z] with the wrap-around, saturation and casts of the
      source written out ([u64_succ], [as_u32], [usize_sub], ...; overflow
      wraps, as in a release build); times are in
      nanoseconds, milliseconds or seconds as in the source.  Theorems about
      counters assume fewer than 2^64 steps where they say so.
    - [DashMap] and [HashMap] are [gmap]s; where the source iterates, the
      order is the arbitrary but fixed one of [HashIter].
    - A handler of the router runs to its end against one clock reading and
      one state, except in [ForwardRace] and [ActionRace]; an operation of
      the registry, the bus or the supervisor's tables is one step, except in
      [Races], [BusRace] and [StopRace], which show what that abstracts from,
      and an operation of the credential store, except in [StoreFiles]; a
      task of [System] is interrupted between handlers only; a
      [send().await] puts its item at the end of the queue.
      The supervisor and the WebSocket counters, whose correctness depends
      on interleaving, are transition systems whose steps are the pieces
      between suspension points.
    - The system calls of the sandbox are answered by an oracle that sees the
      whole history ([Cgroup]) or by a record of outcomes ([Shim],
      [Landlock]); the processes around the PID file are interleaved freely.
    - A database call takes a flag whether it succeeds.  Logging, tracing
      and metrics are omitted.
    - Fuel: [TopoSort.kahn] has one turn per active plugin and one to stop;
      [topo_sort_correct] shows it always suffices for unique ids and
      [topo_sort_duplicate_diverges] that no fuel does without.  The wait of
      a restart ([wait_pid_gone]) has one look per 50 ms of its five seconds
      and one to stop; [restart_exclusive] shows 101 suffice.

    ** Not modelled

    Socket, file and process system calls, TLS, axum, tungstenite, clap,
    qrcode, SQLite and the durability of its file, governor, and the Landlock
    and seccomp crates themselves: what they answer is an argument or a
    class.
    The Prometheus counters, which nothing reads back, and the OpenTelemetry
    exporter; module declarations, constructors that only copy their
    arguments, and re-exports; the wrappers of [ipc/framing.rs] that only
    convert the error of the wire crate.

    ** Limits

    The handlers of the router for broadcasts, streams and sessions read one
    registry state each; the monitor, the watchdog and the spawns of the
    supervisor are cut at their suspension points, not at their map
    operations. *)

From Stdlib Require Export Ascii ZArith Lia.
From stdpp Require Export base gmap sets strings pretty fin_maps tactics.
From stdpp Require Export list.

(** ** Results

    Rust's [Result<A, E>], with the monad operations of stdpp so that the
    [?] operator reads as a bind. *)

Inductive Result (E A : Type) : Type :=
| Ok (a : A)
| Err (e : E).
Arguments Ok {_ _} _.
Arguments Err {_ _} _.

#[export] Instance Result_ret {E} : MRet (Result E) := fun A a => Ok a.
#[export] Instance Result_bind {E} : MBind (Result E) :=
  fun A B f r => match r with Ok a => f a | Err e => Err e end.

Definition is_ok {E A} (r : Result E A) : bool :=
  match r with Ok _ => true | Err _ => false end.

Definition is_err {E A} (r : Result E A) : bool := negb (is_ok r).

(** [Option::ok_or_else]. *)
Definition ok_or {E A} (e : E) (o : option A) : Result E A :=
  match o with Some a => Ok a | None => Err e end.

(** [Option::is_some] as a boolean. *)
Definition is_some {A} (o : option A) : bool :=
  match o with Some _ => true | None => false end.

(** [bool_decide] specialised to equality: Rust's [==]. *)
Declare Scope vyn_scope.
Delimit Scope vyn_scope with vyn.
Notation "x ==? y" := (bool_decide (x = y)) (at level 70) : vyn_scope.
Notation "x <>? y" := (negb (bool_decide (x = y))) (at level 70) : vyn_scope.
Notation "x ∈? l" := (bool_decide (x ∈ l)) (at level 70) : vyn_scope.
Open Scope vyn_scope.

(** ** Machine integers *)

Definition u16_max : Z := 2 ^ 16 - 1.
Definition u32_max : Z := 2 ^ 32 - 1.
Definition u64_max : Z := 2 ^ 64 - 1.
Definition usize_max : Z := u64_max.

(** [as u32] of a [usize]. *)
Definition as_u32 (n : Z) : Z := n mod 2 ^ 32.

(** [AtomicU64::fetch_add(1)]: the counter wraps. *)
Definition u64_succ (n : Z) : Z := (n + 1) mod 2 ^ 64.

(** [+] and [-] on [usize] where overflow is not checked: both wrap. *)
Definition usize_add (a b : Z) : Z := (a + b) mod 2 ^ 64.
Definition usize_sub (a b : Z) : Z := (a - b) mod 2 ^ 64.

(** A difference that wraps and is added again wraps back. *)
Lemma usize_add_sub (a b c : Z) : (0 <= a + b - c < 2 ^ 64 -> usize_add a (usize_sub b c) = a + b - c)%Z.
Proof.
  intros Hb. unfold usize_add, usize_sub. rewrite Zplus_mod_idemp_r, Z.add_sub_assoc. by apply Z.mod_small.
Qed.

(** [u64::saturating_sub] and [u64::saturating_mul]. *)
Definition u64_saturating_sub (a b : Z) : Z := Z.max 0 (a - b).
Definition u64_saturating_mul (a b : Z) : Z := Z.min u64_max (a * b).

(** ** Strings

    Rust strings are UTF-8 byte sequences; [string] is a sequence of
    bytes, so [String.length] is [str::len]. *)

Fixpoint split_once (c : ascii) (s : string) : option (string * string) :=
  match s with
  | EmptyString => None
  | String a s' =>
      if decide (a = c) then Some (EmptyString, s')
      else match split_once c s' with
           | Some (p, q) => Some (String a p, q)
           | None => None
           end
  end.

(** [s.split(c).next()]: the part before the first [c]; never [None]. *)
Definition split_first (c : ascii) (s : string) : string :=
  match split_once c s with Some (p, _) => p | None => s end.

Fixpoint contains_char (c : ascii) (s : string) : bool :=
  match s with
  | EmptyString => false
  | String a s' => bool_decide (a = c) || contains_char c s'
  end.

Fixpoint strip_prefix (p s : string) : option string :=
  match p, s with
  | EmptyString, _ => Some s
  | String a p', String b s' => if decide (a = b) then strip_prefix p' s' else None
  | String _ _, EmptyString => None
  end.

Definition starts_with (p s : string) : bool := is_some (strip_prefix p s).

Definition ascii_to_lower (a : ascii) : ascii :=
  let n := N_of_ascii a in
  if (N.leb 65 n && N.leb n 90)%bool then ascii_of_N (n + 32) else a.

Definition ascii_to_upper (a : ascii) : ascii :=
  let n := N_of_ascii a in
  if (N.leb 97 n && N.leb n 122)%bool then ascii_of_N (n - 32) else a.

Fixpoint string_map (f : ascii -> ascii) (s : string) : string :=
  match s with
  | EmptyString => EmptyString
  | String a s' => String (f a) (string_map f s')
  end.

Definition to_ascii_lowercase : string -> string := string_map ascii_to_lower.
Definition to_ascii_uppercase : string -> string := string_map ascii_to_upper.

Definition is_ascii_alphanumeric (a : ascii) : bool :=
  let n := N_of_ascii a in
  (N.leb 48 n && N.leb n 57) || (N.leb 65 n && N.leb n 90) || (N.leb 97 n && N.leb n 122).

Fixpoint string_forallb (f : ascii -> bool) (s : string) : bool :=
  match s with
  | EmptyString => true
  | String a s' => f a && string_forallb f s'
  end.

Definition is_empty (s : string) : bool := bool_decide (s = EmptyString).

(** The bytes of a string, as [u8] values. *)
Fixpoint string_bytes (s : string) : list Z :=
  match s with
  | EmptyString => []
  | String a s' => Z.of_N (N_of_ascii a) :: string_bytes s'
  end.

(** [{n}] of an unsigned integer in a format string. *)
Definition show (n : Z) : string := pretty n.

(** ** The state monad

    Handlers of the kernel run to completion on one task, so a handler is a
    state transformer; [for_each] is a Rust [for] loop over a collected
    list. *)

Definition State (S A : Type) : Type := S -> A * S.

#[export] Instance State_ret {S} : MRet (State S) := fun A a s => (a, s).
#[export] Instance State_bind {S} : MBind (State S) :=
  fun A B f m s => let '(a, s') := m s in f a s'.

Definition gets {S A} (f : S -> A) : State S A := fun s => (f s, s).
Definition modify {S} (f : S -> S) : State S unit := fun s => (tt, f s).

Fixpoint for_each {S A} (f : A -> State S unit) (l : list A) : State S unit :=
  match l with
  | [] => mret tt
  | a :: l' => _ ← f a; for_each f l'
  end.

Definition run {S A} (m : State S A) (s : S) : A * S := m s.
Definition exec {S A} (m : State S A) (s : S) : S := (m s).2.
Definition eval {S A} (m : State S A) (s : S) : A := (m s).1.

(** Partial correctness triples (the monad is total, so they are total
    too), with the rules the components share. *)
Definition triple {S A} (P : S -> Prop) (m : State S A) (Q : A -> S -> Prop) : Prop :=
  forall s, P s -> Q (eval m s) (exec m s).

#[warnings="-closed-notation-not-level-0"]
Notation "{{ P }} m {{ Q }}" := (triple P m Q)
  (at level 20, P at level 99, m at level 99, Q at level 99) : vyn_scope.

Lemma triple_ret {S A} (P : S -> Prop) (a : A) (Q : A -> S -> Prop) :
  (forall s, P s -> Q a s) -> {{ P }} (mret a : State S A) {{ Q }}.
Proof. intros H s Hs. by apply H. Qed.

Lemma triple_bind {S A B} (P : S -> Prop) (m : State S A) (R : A -> S -> Prop)
    (f : A -> State S B) (Q : B -> S -> Prop) :
  {{ P }} m {{ R }} -> (forall a, {{ R a }} f a {{ Q }}) -> {{ P }} (m ≫= f) {{ Q }}.
Proof.
  intros Hm Hf s Hs. specialize (Hm s Hs).
  unfold eval, exec, mbind, State_bind in *.
  destruct (m s) as [a s'] eqn:E. simpl in Hm. exact (Hf a s' Hm).
Qed.

Lemma triple_gets {S A} (P : S -> Prop) (f : S -> A) (Q : A -> S -> Prop) :
  (forall s, P s -> Q (f s) s) -> {{ P }} gets f {{ Q }}.
Proof. intros H s Hs. by apply H. Qed.

Lemma triple_modify {S} (P : S -> Prop) (f : S -> S) (Q : unit -> S -> Prop) :
  (forall s, P s -> Q tt (f s)) -> {{ P }} modify f {{ Q }}.
Proof. intros H s Hs. by apply H. Qed.

Lemma triple_conseq {S A} (P P' : S -> Prop) (m : State S A) (Q Q' : A -> S -> Prop) :
  (forall s, P s -> P' s) -> {{ P' }} m {{ Q' }} ->
  (forall a s, Q' a s -> Q a s) -> {{ P }} m {{ Q }}.
Proof. intros HP Hm HQ s Hs. apply HQ, Hm, HP, Hs. Qed.

Lemma triple_for_each {S A} (I : S -> Prop) (f : A -> State S unit) (l : list A) :
  (forall a, a ∈ l -> {{ I }} f a {{ fun _ => I }}) ->
  {{ I }} for_each f l {{ fun _ => I }}.
Proof.
  induction l as [|a l IH]; intros Hf; simpl.
  - by apply triple_ret.
  - apply triple_bind with (R := fun _ => I); [apply Hf; left|].
    intros _. apply IH. intros b Hb. apply Hf. by right.
Qed.

Lemma bind_run {S A B} (m : State S A) (f : A -> State S B) (s : S) :
  (m ≫= f) s = f (eval m s) (exec m s).
Proof. unfold mbind, State_bind, eval, exec. by destruct (m s). Qed.

Lemma for_each_cons {S A} (f : A -> State S unit) a l (s : S) :
  for_each f (a :: l) s = for_each f l (exec (f a) s).
Proof. simpl. by rewrite bind_run. Qed.

Lemma exec_bind {S A B} (m : State S A) (f : A -> State S B) (s : S) :
  exec (m ≫= f) s = exec (f (eval m s)) (exec m s).
Proof. unfold exec at 1. by rewrite bind_run. Qed.

Lemma eval_bind {S A B} (m : State S A) (f : A -> State S B) (s : S) :
  eval (m ≫= f) s = eval (f (eval m s)) (exec m s).
Proof. unfold eval at 1. by rewrite bind_run. Qed.

Lemma exec_gets {S A B} (g : S -> A) (f : A -> State S B) (s : S) :
  exec (gets g ≫= f) s = exec (f (g s)) s.
Proof. by rewrite exec_bind. Qed.

Lemma eval_gets {S A B} (g : S -> A) (f : A -> State S B) (s : S) :
  eval (gets g ≫= f) s = eval (f (g s)) s.
Proof. by rewrite eval_bind. Qed.

Lemma exec_ret {S A} (a : A) (s : S) : exec (mret a) s = s.
Proof. done. Qed.

Lemma eval_ret {S A} (a : A) (s : S) : eval (mret a : State S A) s = a.
Proof. done. Qed.

(** [keeps R m]: every run of [m] relates the states before and after. *)
Definition keeps {S A} (R : relation S) (m : State S A) : Prop := forall s, R s (exec m s).

Section Keeps.
Context {S : Type} (R : relation S) `{!PreOrder R}.

Lemma keeps_ret {A} (a : A) : keeps R (mret a).
Proof. intros s. reflexivity. Qed.

Lemma keeps_gets {A} (f : S -> A) : keeps R (gets f).
Proof. intros s. reflexivity. Qed.

Lemma keeps_bind {A B} (m : State S A) (f : A -> State S B) :
  keeps R m -> (forall a, keeps R (f a)) -> keeps R (m ≫= f).
Proof. intros Hm Hf s. rewrite exec_bind. etrans; [apply Hm|apply Hf]. Qed.

Lemma keeps_for_each {A} (f : A -> State S unit) l :
  (forall a, a ∈ l -> keeps R (f a)) -> keeps R (for_each f l).
Proof.
  induction l as [|a l IH]; intros Hf; simpl; [apply keeps_ret|].
  apply keeps_bind; [apply Hf; left|]. intros _. apply IH. intros b Hb. apply Hf. by right.
Qed.

End Keeps.

Lemma keeps_mono {S A} (R R' : relation S) (m : State S A) :
  (forall s s', R s s' -> R' s s') -> keeps R m -> keeps R' m.
Proof. intros HR Hm s. apply HR, Hm. Qed.

(** Symbolic execution of the leading reads of a handler. *)
Ltac krun := repeat (rewrite ?exec_gets, ?eval_gets, ?exec_ret, ?eval_ret; cbv beta).

(** ** Iteration over hash maps

    [DashMap] and [HashSet] iterate in an order the program does not
    control.  The order is a parameter of the model: any enumeration of the
    entries. *)

Class HashIter := {
  map_iter : forall {V : Type}, gmap string V -> list (string * V);
  set_iter : gset string -> list string;
  map_iter_perm : forall {V : Type} (m : gmap string V), map_iter m ≡ₚ map_to_list m;
  set_iter_perm : forall X : gset string, set_iter X ≡ₚ elements X;
}.

(** The enumeration of the map representation itself, for the witnesses. *)
Definition canonical_iter : HashIter.
Proof. refine {| map_iter := fun V m => map_to_list m; set_iter := elements |}; done. Defined.

Section HashIterFacts.
Context `{HashIter}.

Lemma elem_of_map_iter {V} (m : gmap string V) k v :
  (k, v) ∈ map_iter m <-> m !! k = Some v.
Proof. by rewrite map_iter_perm, elem_of_map_to_list. Qed.

Lemma map_iter_NoDup {V} (m : gmap string V) : NoDup (map_iter m).*1.
Proof. rewrite map_iter_perm. apply NoDup_fst_map_to_list. Qed.

Lemma elem_of_set_iter (X : gset string) x : x ∈ set_iter X <-> x ∈ X.
Proof. by rewrite set_iter_perm, elem_of_elements. Qed.

Lemma set_iter_NoDup (X : gset string) : NoDup (set_iter X).
Proof. rewrite set_iter_perm. apply NoDup_elements. Qed.

Lemma map_iter_empty {V} : map_iter (∅ : gmap string V) = [].
Proof. apply Permutation_nil_r. by rewrite map_iter_perm, map_to_list_empty. Qed.

Lemma set_iter_empty : set_iter ∅ = [].
Proof. apply Permutation_nil_r. by rewrite set_iter_perm, elements_empty. Qed.

Lemma map_iter_filter_NoDup {V} (P : string * V -> Prop) `{!forall x, Decision (P x)}
    (m : gmap string V) : NoDup (filter P (map_iter m)).*1.
Proof.
  apply (sublist_NoDup _ (map_iter m).*1); [apply map_iter_NoDup|].
  apply fmap_sublist, sublist_filter.
Qed.

Lemma map_iter_filter_size {V} (P : string * V -> Prop) `{!forall x, Decision (P x)}
    (m : gmap string V) : length (filter P (map_iter m)) = size (filter P m).
Proof.
  rewrite map_filter_alt, map_size_list_to_map.
  - apply Permutation_length. by rewrite map_iter_perm.
  - rewrite <- (map_iter_perm m). apply map_iter_filter_NoDup.
Qed.

End HashIterFacts.

(** ** Automation *)

Create HintDb vyn discriminated.

#[export] Set Warnings "-clear-no-such-hyp".

(** Case analysis on every [match] and [if] left in the goal, keeping the
    equations. *)
Ltac split_cases :=
  repeat (case_match; simplify_eq/=; try done).

(** Case analysis on the matches of one hypothesis. *)
Ltac split_cases_in H :=
  repeat (match type of H with
          | context [match ?x with _ => _ end] => destruct x eqn:?
          end; simplify_eq/=; try done).

Ltac bools :=
  repeat match goal with
  | H : bool_decide _ = true |- _ => apply bool_decide_eq_true_1 in H
  | H : bool_decide _ = false |- _ => apply bool_decide_eq_false_1 in H
  | H : andb _ _ = true |- _ => apply andb_prop in H as [? ?]
  | H : orb _ _ = false |- _ => apply orb_false_elim in H as [? ?]
  | H : negb _ = true |- _ => apply negb_true_iff in H
  | H : negb _ = false |- _ => apply negb_false_iff in H
  end.

(** ** Generic lemmas *)

Lemma show_inj n m : show n = show m -> n = m.
Proof. apply (inj pretty). Qed.

Lemma string_app_inj_l (p s t : string) : p +:+ s = p +:+ t -> s = t.
Proof. induction p; simpl; intros; simplify_eq; auto. Qed.

Lemma length_string_bytes s : length (string_bytes s) = String.length s.
Proof. induction s; simpl; auto. Qed.

Lemma strip_prefix_app p s : strip_prefix p (p +:+ s) = Some s.
Proof. induction p; simpl; [done|]. by rewrite decide_True. Qed.

Lemma strip_prefix_Some p s t : strip_prefix p s = Some t <-> s = p +:+ t.
Proof.
  split; [|intros ->; apply strip_prefix_app].
  revert s. induction p as [|a p IH]; intros [|b s]; simpl; intros H; simplify_eq; try done.
  case_decide; simplify_eq. by rewrite (IH _ H).
Qed.

Lemma split_once_Some c s p q :
  split_once c s = Some (p, q) <-> s = p +:+ String c q /\ contains_char c p = false.
Proof.
  revert p q. induction s as [|a s IH]; simpl; intros p q.
  - split; [done|]. intros [H _]. by destruct p.
  - case_decide as Hac.
    + subst. split; [by intros [= <- <-]; split|].
      intros [Heq Hp]. destruct p as [|b p]; simpl in *; [by injection Heq as ->|].
      injection Heq as <- _. by rewrite bool_decide_eq_true_2 in Hp.
    + split.
      * destruct (split_once c s) as [[p' q']|] eqn:E; [|done].
        intros [= <- <-]. destruct (proj1 (IH p' q') eq_refl) as [-> ?]. simpl.
        by rewrite bool_decide_eq_false_2.
      * intros [Heq Hp]. destruct p as [|b p]; simpl in *; [by injection Heq as ->|].
        injection Heq as <- ->. apply orb_false_elim in Hp as [_ Hp].
        by rewrite (proj2 (IH p q) (conj eq_refl Hp)).
Qed.

Lemma split_once_None c s : split_once c s = None <-> contains_char c s = false.
Proof.
  induction s as [|a s IH]; simpl; [done|].
  case_decide; subst; [by rewrite bool_decide_eq_true_2|].
  rewrite bool_decide_eq_false_2 by done. simpl. rewrite <- IH.
  by destruct (split_once c s) as [[? ?]|].
Qed.

Lemma string_map_map (f g h : ascii -> ascii) s :
  (forall a, f (g a) = h a) -> string_map f (string_map g s) = string_map h s.
Proof. intros Hfg. induction s as [|a s IH]; simpl; [done|]. by rewrite Hfg, IH. Qed.

Lemma existsb_decide {A} (P : A -> Prop) `{!forall x, Decision (P x)} (l : list A) :
  existsb (fun x => bool_decide (P x)) l = true <-> exists x, x ∈ l /\ P x.
Proof.
  rewrite existsb_exists. setoid_rewrite bool_decide_eq_true.
  by setoid_rewrite <- list_elem_of_In.
Qed.

Lemma is_ok_tt {E} (x : Result E unit) : is_ok x = true <-> x = Ok tt.
Proof. by destruct x as [[]|]. Qed.
