(* ===== verification/Wire.v ===== *)
(** * Wire types and framing

    The frame and protobuf message types the kernel exchanges, the frame
    builders of [src/ipc/framing.rs] and [src/api/websocket.rs], and the
    errors of [src/utils/errors.rs].

    The [vynkor-wire] crate (protobuf codec, frame reader, CRC, MAC and the
    generated enum tables) is not part of the repository: what the kernel
    uses of it is the class [WireCrate], a parameter of the whole
    development. *)

From S2P Require Import Prelude.

Open Scope Z_scope.

Abbreviation bytes := (list Z).

(** ** Frames *)

Record Frame := mkFrame {
  f_magic : Z;
  f_flags : Z;
  f_length : Z;
  f_target : bytes;
  f_crc32 : Z;
  f_payload : bytes;
  f_mac : option bytes;
}.

(** Flag bits, as the table of [docs/FRAMING.md] defines them. *)
Definition FLAG_MAC_PRESENT : Z := 0x0001.
Definition FLAG_COMPRESSED : Z := 0x0002.
Definition FLAG_FRAGMENTED : Z := 0x0004.
Definition FLAG_RAW_BINARY : Z := 0x0010.

(** [frame.flags & FLAG != 0] and [frame.flags & !FLAG] on [u16] flags. *)
Definition has_flag (flags flag : Z) : bool := negb (Z.land flags flag =? 0).
Definition clear_flag (flags flag : Z) : Z := Z.land flags (Z.lxor u16_max flag).
Definition set_flag (flags flag : Z) : Z := Z.lor flags flag.

Record FragmentHeader := mkFragmentHeader {
  fragment_id : Z;
  fh_sequence : Z;
  fh_total : Z;
  fh_stream_id : Z;
}.

(** ** Protobuf messages

    Enumerations travel as [i32] values. *)

Record ActionSpec := mkActionSpec {
  spec_name : string;
  spec_description : string;
  spec_params_schema : string;
  spec_risk : Z;
  spec_requires_confirmation : bool;
}.

Record PluginManifest := mkManifest {
  permissions : list string;
  actions : list string;
  events : list string;
  ipc_targets : list string;
  platforms : list string;
  action_specs : list ActionSpec;
}.

Definition default_manifest : PluginManifest := mkManifest [] [] [] [] [] [].

Record PluginRegister := mkPluginRegister {
  reg_plugin_id : string;
  reg_version : string;
  reg_manifest : option PluginManifest;
  reg_jwt_token : string;
  reg_device_id : string;
  reg_user_id : string;
  reg_os : Z;
  reg_arch : string;
  reg_os_version : string;
  reg_capabilities : list string;
  reg_protocol_version : string;
}.

Record PluginRegisterAck := mkPluginRegisterAck {
  accepted : bool;
  reject_reason : string;
  granted_permissions : list string;
  session_nonce : bytes;
}.

Record Event := mkEvent {
  event_id : string;
  event_type : string;
  payload_json : bytes;
  retry_count : Z;
}.

Record EventPublishReq := mkEventPublishReq {
  pub_event_type : string;
  pub_payload_json : bytes;
}.

Record EventPublishAck := mkEventPublishAck {
  pack_event_id : string;
  pack_status : Z;
  pack_error : string;
}.

Record ActionRequest := mkActionRequest {
  areq_action_id : string;
  areq_action : string;
  areq_params_json : bytes;
  areq_timeout_ms : Z;
  areq_streaming : bool;
  areq_caller_plugin_id : string;
}.

Record ActionResponse := mkActionResponse {
  aresp_action_id : string;
  aresp_status : Z;
  aresp_data_json : bytes;
  aresp_error : string;
}.

Record ActionRequestChunk := mkActionRequestChunk {
  rqc_action_id : string;
  rqc_seq : Z;
  rqc_chunk : bytes;
  rqc_final : bool;
}.

Record ActionResponseChunk := mkActionResponseChunk {
  rsc_action_id : string;
  rsc_seq : Z;
  rsc_chunk : bytes;
}.

Record ActionStreamAbort := mkActionStreamAbort {
  abort_action_id : string;
  abort_reason : string;
}.

Record SessionClose := mkSessionClose {
  close_action_id : string;
  close_reason : string;
}.

Record KernelCommand := mkKernelCommand {
  cmd_command_id : string;
  cmd_command : string;
  cmd_params_json : bytes;
}.

Record KernelCommandAck := mkKernelCommandAck {
  cack_command_id : string;
  cack_status : Z;
  cack_data_json : bytes;
  cack_error : string;
}.

Record ErrorMessage := mkErrorMessage {
  err_code : Z;
  err_message : string;
  err_details : string;
}.

Record PluginShutdown := mkPluginShutdown {
  shutdown_reason : string;
  shutdown_grace_seconds : Z;
}.

(** The [envelope::Payload] oneof.  [POther] stands for the variants the
    kernel never names and only meets in a catch-all arm. *)
Inductive Payload :=
| PPluginRegister (r : PluginRegister)
| PPluginRegisterAck (a : PluginRegisterAck)
| PPing (timestamp : Z)
| PPong (original_timestamp server_timestamp : Z)
| PSubscribe (event_types : list string)
| PUnsubscribe (event_types : list string)
| PEvent (e : Event)
| PEventPublish (r : EventPublishReq)
| PEventPublishAck (a : EventPublishAck)
| PEventAck (event_id : string)
| PActionRequest (r : ActionRequest)
| PActionResponse (r : ActionResponse)
| PActionRequestChunk (c : ActionRequestChunk)
| PActionResponseChunk (c : ActionResponseChunk)
| PActionStreamAbort (a : ActionStreamAbort)
| PSessionClose (c : SessionClose)
| PKernelCommand (c : KernelCommand)
| PKernelCommandAck (a : KernelCommandAck)
| PError (e : ErrorMessage)
| PPluginShutdown (s : PluginShutdown)
| POther (tag : Z).

Record Envelope := mkEnvelope {
  message_id : string;
  sender_id : string;
  timestamp : Z;
  payload : option Payload;
}.

(** [Envelope { payload: Some(p), ..Default::default() }], and the form that
    preserves an inbound [message_id]. *)
Definition env_of (p : Payload) : Envelope := mkEnvelope EmptyString EmptyString 0 (Some p).
Definition env_reply (mid : string) (p : Payload) : Envelope :=
  mkEnvelope mid EmptyString 0 (Some p).

#[export] Instance ActionSpec_eq_dec : EqDecision ActionSpec.
Proof. solve_decision. Defined.
#[export] Instance PluginManifest_eq_dec : EqDecision PluginManifest.
Proof. solve_decision. Defined.
#[export] Instance Frame_eq_dec : EqDecision Frame.
Proof. solve_decision. Defined.

(** ** Enumerations

    The variants the source names; their [i32] values belong to the
    generated code. *)

Inductive ErrorCode :=
| ErrUnknown | ErrDeserialization | ErrMacInvalid | ErrMacMissing | ErrNotRegistered
| ErrPermissionDenied | ErrProtocolMismatch | ErrRateLimited.

Inductive ActionStatus :=
| ActionUnknown | ActionOk | ActionNotFound | ActionPermissionDeny | ActionTimeout
| ActionQuotaExceeded | ActionStreamBackpressure | ActionError.

Inductive EventPublishStatus := EventPublishOk | EventPublishPermissionDeny.

Inductive CommandStatus :=
| CommandOk | CommandUnknown | CommandPermissionDenied | CommandError.

Inductive DeviceOs :=
| OsUnspecified | OsLinux | OsMacos | OsWindows | OsAndroid | OsIos | OsFreebsd.

Inductive DeviceState := StUnspecified | StOnline | StOffline | StRevoked.

Inductive ActionRisk := RiskUnspecified | RiskLow | RiskMedium | RiskHigh | RiskCritical.

#[export] Instance ActionStatus_eq_dec : EqDecision ActionStatus.
Proof. solve_decision. Defined.
#[export] Instance DeviceState_eq_dec : EqDecision DeviceState.
Proof. solve_decision. Defined.

(** A [PermissionType] is its [i32] value. *)
Abbreviation PermissionType := Z.

(** ** Errors ([src/utils/errors.rs])

    [io::Error] and [prost::DecodeError] are represented by their text. *)

Inductive VynkorError :=
| EIo (e : string)
| EProto (e : string)
| EFrameMagicMismatch
| EFrameCrcMismatch
| EFrameReadTimeout
| EPayloadTooLarge (n : Z)
| EPluginNotFound (id : string)
| EPluginAlreadyRunning (id : string)
| EPluginAlreadyRegistered (id : string)
| EInvalidPluginId (reason : string)
| EPermissionDenied (perm : string)
| EAuth (msg : string)
| ETimeout
| EInternal (msg : string)
| EIncompatible (msg : string)
| ENetworkError (msg : string)
| ECacheError (msg : string).

Definition error_display (e : VynkorError) : string :=
  match e with
  | EIo e => "io error: " +:+ e
  | EProto e => "proto decode error: " +:+ e
  | EFrameMagicMismatch => "frame magic mismatch"
  | EFrameCrcMismatch => "frame crc mismatch"
  | EFrameReadTimeout => "timed out reading frame body"
  | EPayloadTooLarge n => "payload too large: " +:+ show n +:+ " bytes"
  | EPluginNotFound id => "plugin not found: " +:+ id
  | EPluginAlreadyRunning id => "plugin already running: " +:+ id
  | EPluginAlreadyRegistered id => "plugin already registered: " +:+ id
  | EInvalidPluginId reason => "invalid plugin id: " +:+ reason
  | EPermissionDenied perm => "permission denied: " +:+ perm
  | EAuth msg => "auth error: " +:+ msg
  | ETimeout => "operation timed out"
  | EInternal msg => "internal error: " +:+ msg
  | EIncompatible msg => "incompatible: " +:+ msg
  | ENetworkError msg => "network error: " +:+ msg
  | ECacheError msg => "cache error: " +:+ msg
  end.

(** The error type of [vynkor-wire], and its conversion. *)
Inductive WireError :=
| WIo (e : string) | WProto (e : string) | WFrameMagicMismatch | WFrameCrcMismatch
| WFrameReadTimeout | WPayloadTooLarge (n : Z) | WTimeout | WPermissionDenied (p : string)
| WInternal (m : string).

Definition from_wire_error (e : WireError) : VynkorError :=
  match e with
  | WIo e => EIo e
  | WProto e => EProto e
  | WFrameMagicMismatch => EFrameMagicMismatch
  | WFrameCrcMismatch => EFrameCrcMismatch
  | WFrameReadTimeout => EFrameReadTimeout
  | WPayloadTooLarge n => EPayloadTooLarge n
  | WTimeout => ETimeout
  | WPermissionDenied p => EPermissionDenied p
  | WInternal m => EInternal m
  end.

(** ** The [vynkor-wire] crate *)

Class WireCrate := {
  PROTOCOL_VERSION : string;
  MAX_PAYLOAD_SIZE : Z;
  max_payload_usize : (MAX_PAYLOAD_SIZE <= usize_max)%Z;   (** its type is [usize] *)
  FRAG_HEADER_SIZE : nat;
  (** prost *)
  encode_envelope : Envelope -> option bytes;
  decode_envelope : bytes -> option Envelope;
  (** framing *)
  crc32_hash : bytes -> Z;
  target_as_str : bytes -> option string;
  parse_frag_header : bytes -> option FragmentHeader;
  serialize_header : Frame -> bytes;
  wire_read_frame : bytes -> Result WireError Frame;
  (** frame MAC *)
  compute_tag : bytes -> bytes -> bytes -> bytes;
  verify_tag : bytes -> bytes -> bytes -> bytes -> bool;
  derive_session_key : bytes -> bytes -> string -> bytes;
  (** generated enum tables *)
  error_code_i32 : ErrorCode -> Z;
  action_status_i32 : ActionStatus -> Z;
  publish_status_i32 : EventPublishStatus -> Z;
  command_status_i32 : CommandStatus -> Z;
  device_os_i32 : DeviceOs -> Z;
  device_os_of_i32 : Z -> option DeviceOs;
  device_state_i32 : DeviceState -> Z;
  device_state_of_i32 : Z -> option DeviceState;
  action_risk_of_i32 : Z -> option ActionRisk;
  perm_as_str_name : PermissionType -> string;
  perm_from_str_name : string -> option PermissionType;
  PermissionUnknown : PermissionType;
  PermissionIpcSend : PermissionType;
  PermissionEventPublish : PermissionType;
  PermissionKernelAdmin : PermissionType;
  PermissionAudioStream : PermissionType;
}.

(** Documented behaviour of the crate that some theorems rely on: a
    computed tag verifies, distinct device states and action statuses have
    distinct values, a permission is known by the name it was found under,
    and the serialized header does not include the trailing tag. *)
Class WireLaws `{WireCrate} := {
  verify_compute : forall k h p, verify_tag k h p (compute_tag k h p) = true;
  device_state_inj : forall a b, device_state_i32 a = device_state_i32 b -> a = b;
  action_status_inj : forall a b, action_status_i32 a = action_status_i32 b -> a = b;
  perm_name_roundtrip : forall p n, perm_from_str_name n = Some p -> perm_as_str_name p = n;
  header_without_mac : forall m fl l t c p tag tag',
    serialize_header (mkFrame m fl l t c p tag) = serialize_header (mkFrame m fl l t c p tag');
}.

(** ** Framing ([src/ipc/framing.rs]) *)

Definition FRAME_MAGIC : Z := 0x5652.

Definition target_bytes (target : string) : bytes :=
  let len := Nat.min (String.length target) 32 in
  take len (string_bytes target) ++ replicate (32 - len) 0.

Section Framing.
Context `{WireCrate}.

Definition build_frame (target : string) (flags : Z) (payload : bytes) : Frame :=
  {| f_magic := FRAME_MAGIC;
     f_flags := flags;
     f_length := as_u32 (Z.of_nat (length payload));
     f_target := target_bytes target;
     f_crc32 := crc32_hash payload;
     f_payload := payload;
     f_mac := None |}.

(** [parse_frame]: the single in-memory frame parser of the WebSocket
    gateway and of the bridge. *)
Definition parse_frame (data : bytes) : Result VynkorError Frame :=
  match wire_read_frame data with
  | Err e => Err (from_wire_error e)
  | Ok frame =>
      if has_flag (f_flags frame) FLAG_FRAGMENTED
      then Err (EInternal "fragmented inbound frames not supported over WebSocket")
      else Ok frame
  end.

(** [FLAG_MAC_PRESENT] and the tag are dropped before a frame is relayed:
    the recipient's write loop re-tags it. *)
Definition strip_mac (frame : Frame) : Frame :=
  {| f_magic := f_magic frame;
     f_flags := clear_flag (f_flags frame) FLAG_MAC_PRESENT;
     f_length := f_length frame;
     f_target := f_target frame;
     f_crc32 := f_crc32 frame;
     f_payload := f_payload frame;
     f_mac := None |}.

(** Tagging of an outbound frame with the session key. *)
Definition tag_frame (k : bytes) (frame : Frame) : Frame :=
  let frame' := {| f_magic := f_magic frame;
                   f_flags := set_flag (f_flags frame) FLAG_MAC_PRESENT;
                   f_length := f_length frame;
                   f_target := f_target frame;
                   f_crc32 := f_crc32 frame;
                   f_payload := f_payload frame;
                   f_mac := f_mac frame |} in
  {| f_magic := f_magic frame';
     f_flags := f_flags frame';
     f_length := f_length frame';
     f_target := f_target frame';
     f_crc32 := f_crc32 frame';
     f_payload := f_payload frame';
     f_mac := Some (compute_tag k (serialize_header frame') (f_payload frame')) |}.

Definition tag_present (frame : Frame) : bool :=
  has_flag (f_flags frame) FLAG_MAC_PRESENT && is_some (f_mac frame).

(** The inbound check shared by the UDS read loop and the bridge. *)
Definition mac_valid (k : bytes) (frame : Frame) : bool :=
  tag_present frame &&
  match f_mac frame with
  | Some tag => verify_tag k (serialize_header frame) (f_payload frame) tag
  | None => false
  end.

End Framing.

(** [to_be_bytes] of a [u16] and of a [u32]. *)
Definition be_bytes (n : nat) (z : Z) : bytes :=
  map (fun i => (z / 2 ^ (8 * Z.of_nat i)) mod 256) (rev (seq 0 n)).

Definition frame_to_bytes (frame : Frame) : bytes :=
  be_bytes 2 (f_magic frame) ++ be_bytes 2 (f_flags frame) ++ be_bytes 4 (f_length frame) ++
  f_target frame ++ be_bytes 4 (f_crc32 frame) ++ f_payload frame ++
  match f_mac frame with Some tag => tag | None => [] end.
