(* ===== verification/Toy.v ===== *)
(** * A concrete wire crate

    An executable instance of [WireCrate] and of its laws.  It shows that
    the laws can hold together, and the witnesses of the theorems evaluate
    the kernel on it.  Inbound payloads are indices into a table of
    envelopes; the MAC is a checksum. *)

From S2P Require Import Prelude Wire.

Open Scope Z_scope.

Definition toy_perm_names : list string :=
  ["PERMISSION_UNKNOWN"; "PERMISSION_IPC_SEND"; "PERMISSION_EVENT_PUBLISH";
   "PERMISSION_KERNEL_ADMIN"; "PERMISSION_AUDIO_STREAM"; "PERMISSION_NETWORK"].

Definition toy_payload_tag (p : option Payload) : Z :=
  match p with
  | None => 0
  | Some (PPluginRegister _) => 1 | Some (PPluginRegisterAck _) => 2
  | Some (PPing _) => 3 | Some (PPong _ _) => 4
  | Some (PSubscribe _) => 5 | Some (PUnsubscribe _) => 6
  | Some (PEvent _) => 7 | Some (PEventPublish _) => 8
  | Some (PEventPublishAck _) => 9 | Some (PEventAck _) => 10
  | Some (PActionRequest _) => 11 | Some (PActionResponse _) => 12
  | Some (PActionRequestChunk _) => 13 | Some (PActionResponseChunk _) => 14
  | Some (PActionStreamAbort _) => 15 | Some (PSessionClose _) => 16
  | Some (PKernelCommand _) => 17 | Some (PKernelCommandAck _) => 18
  | Some (PError _) => 19 | Some (PPluginShutdown _) => 20
  | Some (POther t) => 21 + t
  end.

Fixpoint toy_bytes_string (b : bytes) : option string :=
  match b with
  | [] => Some EmptyString
  | 0 :: _ => Some EmptyString
  | z :: b' =>
      if (127 <? z) then None
      else String (ascii_of_N (Z.to_N z)) <$> toy_bytes_string b'
  end.

Definition toy_sum (b : bytes) : Z := foldr Z.add 0 b.

Definition toy_wire_with (read : bytes -> Result WireError Frame) (tbl : list Envelope) : WireCrate := {|
  PROTOCOL_VERSION := "1.0";
  MAX_PAYLOAD_SIZE := 64;
  max_payload_usize := ltac:(done);
  FRAG_HEADER_SIZE := 4;
  encode_envelope env := Some (toy_payload_tag (payload env) :: string_bytes (message_id env));
  decode_envelope b := match b with [i] => tbl !! Z.to_nat i | _ => None end;
  crc32_hash := toy_sum;
  target_as_str := toy_bytes_string;
  parse_frag_header b :=
    match b with a :: b :: c :: d :: _ => Some (mkFragmentHeader a b c d) | _ => None end;
  serialize_header f := [f_flags f; f_length f];
  wire_read_frame := read;
  compute_tag k h p := [toy_sum k + 3 * toy_sum h + 7 * toy_sum p];
  verify_tag k h p t := bool_decide (t = [toy_sum k + 3 * toy_sum h + 7 * toy_sum p]);
  derive_session_key s n p := s ++ n ++ string_bytes p;
  error_code_i32 c :=
    match c with
    | ErrUnknown => 0 | ErrDeserialization => 1 | ErrMacInvalid => 2 | ErrMacMissing => 3
    | ErrNotRegistered => 4 | ErrPermissionDenied => 5 | ErrProtocolMismatch => 6
    | ErrRateLimited => 7
    end;
  action_status_i32 s :=
    match s with
    | ActionUnknown => 0 | ActionOk => 1 | ActionNotFound => 2 | ActionPermissionDeny => 3
    | ActionTimeout => 4 | ActionQuotaExceeded => 5 | ActionStreamBackpressure => 6
    | ActionError => 7
    end;
  publish_status_i32 s := match s with EventPublishOk => 1 | EventPublishPermissionDeny => 2 end;
  command_status_i32 s :=
    match s with
    | CommandOk => 1 | CommandUnknown => 0 | CommandPermissionDenied => 2 | CommandError => 3
    end;
  device_os_i32 o :=
    match o with
    | OsUnspecified => 0 | OsLinux => 1 | OsMacos => 2 | OsWindows => 3 | OsAndroid => 4
    | OsIos => 5 | OsFreebsd => 6
    end;
  device_os_of_i32 z :=
    [OsUnspecified; OsLinux; OsMacos; OsWindows; OsAndroid; OsIos; OsFreebsd] !! Z.to_nat z;
  device_state_i32 s :=
    match s with StUnspecified => 0 | StOnline => 1 | StOffline => 2 | StRevoked => 3 end;
  device_state_of_i32 z := [StUnspecified; StOnline; StOffline; StRevoked] !! Z.to_nat z;
  action_risk_of_i32 z :=
    [RiskUnspecified; RiskLow; RiskMedium; RiskHigh; RiskCritical] !! Z.to_nat z;
  perm_as_str_name p := default "PERMISSION_UNKNOWN" (toy_perm_names !! Z.to_nat p);
  perm_from_str_name s :=
    (fun nx => Z.of_nat nx.1) <$> list_find (fun n => n = s) toy_perm_names;
  PermissionUnknown := 0;
  PermissionIpcSend := 1;
  PermissionEventPublish := 2;
  PermissionKernelAdmin := 3;
  PermissionAudioStream := 4;
|}.

Definition toy_wire : list Envelope -> WireCrate := toy_wire_with (fun _ => Err WFrameMagicMismatch).

Lemma toy_laws_with read tbl : @WireLaws (toy_wire_with read tbl).
Proof.
  split; cbn -[toy_perm_names list_find].
  - intros k h p. by apply bool_decide_eq_true_2.
  - by intros [] [].
  - by intros [] [].
  - intros p n. rewrite fmap_Some. intros ([i x] & (Hi & -> & _)%list_find_Some & ->).
    cbn -[toy_perm_names]. by rewrite Nat2Z.id, Hi.
  - done.
Qed.

Lemma toy_laws tbl : @WireLaws (toy_wire tbl).
Proof. apply toy_laws_with. Qed.
