(* ===== verification/Text.v ===== *)
(** * Text

    The string functions of the Rust standard library that work on bytes:
    [str::trim], [String::from_utf8] and the [{:02x}] format. *)

From S2P Require Import Prelude Wire.

Open Scope Z_scope.

Fixpoint bytes_string (b : bytes) : string :=
  match b with
  | [] => EmptyString
  | z :: b' => String (ascii_of_N (Z.to_N z)) (bytes_string b')
  end.

(** ** [str::trim]

    The characters with the Unicode property [White_Space], by the length
    of their UTF-8 encoding. *)
Definition ws1 (a : Z) : bool := ((9 <=? a) && (a <=? 13)) || (a =? 32).
Definition ws2 (a b : Z) : bool := (a =? 0xC2) && ((b =? 0x85) || (b =? 0xA0)).
Definition ws3 (a b c : Z) : bool :=
  ((a =? 0xE1) && (b =? 0x9A) && (c =? 0x80)) ||
  ((a =? 0xE2) && (b =? 0x80) &&
     (((0x80 <=? c) && (c <=? 0x8A)) || (c =? 0xA8) || (c =? 0xA9) || (c =? 0xAF))) ||
  ((a =? 0xE2) && (b =? 0x81) && (c =? 0x9F)) ||
  ((a =? 0xE3) && (b =? 0x80) && (c =? 0x80)).

(** Drop encoded characters from the front of a byte list, the tests taking
    the bytes in the order of the list. *)
Fixpoint drop_ws (t2 : Z -> Z -> bool) (t3 : Z -> Z -> Z -> bool) (b : bytes) : bytes :=
  match b with
  | [] => []
  | x :: r =>
      if ws1 x then drop_ws t2 t3 r
      else match r with
           | [] => b
           | y :: r2 =>
               if t2 x y then drop_ws t2 t3 r2
               else match r2 with
                    | [] => b
                    | z :: r3 => if t3 x y z then drop_ws t2 t3 r3 else b
                    end
           end
  end.

Definition trim_bytes (b : bytes) : bytes :=
  rev (drop_ws (fun y x => ws2 x y) (fun z y x => ws3 x y z) (rev (drop_ws ws2 ws3 b))).

Definition trim (s : string) : string := bytes_string (trim_bytes (string_bytes s)).

(** ** [String::from_utf8] *)

Definition cont (x : Z) : bool := (0x80 <=? x) && (x <=? 0xBF).

Fixpoint valid_utf8 (b : bytes) : bool :=
  match b with
  | [] => true
  | x :: r =>
      if (0 <=? x) && (x <=? 0x7F) then valid_utf8 r
      else match r with
           | [] => false
           | y :: r2 =>
               if (0xC2 <=? x) && (x <=? 0xDF) then cont y && valid_utf8 r2
               else match r2 with
                    | [] => false
                    | z :: r3 =>
                        if x =? 0xE0 then (0xA0 <=? y) && (y <=? 0xBF) && cont z && valid_utf8 r3
                        else if x =? 0xED then (0x80 <=? y) && (y <=? 0x9F) && cont z && valid_utf8 r3
                        else if (0xE1 <=? x) && (x <=? 0xEF) then cont y && cont z && valid_utf8 r3
                        else match r3 with
                             | [] => false
                             | w :: r4 =>
                                 (if x =? 0xF0 then (0x90 <=? y) && (y <=? 0xBF)
                                  else if x =? 0xF4 then (0x80 <=? y) && (y <=? 0x8F)
                                  else (0xF1 <=? x) && (x <=? 0xF3) && cont y)
                                 && cont z && cont w && valid_utf8 r4
                             end
                    end
           end
  end.

Definition from_utf8 (b : bytes) : option string :=
  if valid_utf8 b then Some (bytes_string b) else None.

(** ** Hexadecimal *)

Definition hex_digit (n : Z) : ascii :=
  ascii_of_N (Z.to_N (if n <? 10 then n + 48 else n + 87)).

(** [format!("{b:02x}")] *)
Definition hex_byte (b : Z) : string :=
  String (hex_digit (b / 16)) (String (hex_digit (b mod 16)) EmptyString).

Definition hex_encode (b : bytes) : string :=
  foldr (fun x s => hex_byte x +:+ s) EmptyString b.

(** ** Lemmas *)

Lemma bytes_string_bytes s : bytes_string (string_bytes s) = s.
Proof. induction s as [|a s IH]; simpl; [done|]. by rewrite N2Z.id, ascii_N_embedding, IH. Qed.

Definition is_byte (z : Z) : Prop := 0 <= z < 256.

Definition ascii_only (s : string) : Prop := Forall (fun z => z <= 0x7F) (string_bytes s).

Lemma string_bytes_nonneg s : Forall (fun z => 0 <= z) (string_bytes s).
Proof. induction s; constructor; [lia|done]. Qed.

Lemma from_utf8_ascii s : ascii_only s -> from_utf8 (string_bytes s) = Some s.
Proof.
  intros Ha. unfold from_utf8. assert (valid_utf8 (string_bytes s) = true) as ->.
  { unfold ascii_only in Ha. pose proof (string_bytes_nonneg s) as Hn.
    revert Ha Hn. generalize (string_bytes s) as b. clear s. induction b as [|z b IH]; [done|].
    intros Ha%Forall_cons Hn%Forall_cons. simpl.
    rewrite (proj2 (Z.leb_le 0 z)), (proj2 (Z.leb_le z 0x7F)) by lia. simpl. naive_solver. }
  by rewrite bytes_string_bytes.
Qed.

Lemma string_bytes_app s t : string_bytes (s +:+ t) = string_bytes s ++ string_bytes t.
Proof. induction s as [|a s IH]; simpl; [done|]. by rewrite IH. Qed.

Lemma hex_digit_ascii n : 0 <= n < 16 -> Z.of_N (N_of_ascii (hex_digit n)) <= 0x7F.
Proof.
  intros Hn. assert (n ∈ (seqZ 0 16)) as Hi by (rewrite elem_of_seqZ; lia).
  vm_compute in Hi. repeat (apply elem_of_cons in Hi as [->|Hi]; [by vm_compute|]).
  by apply not_elem_of_nil in Hi.
Qed.

Lemma hex_encode_ascii b : Forall is_byte b -> ascii_only (hex_encode b).
Proof.
  unfold ascii_only. induction 1 as [|z b Hz Hb IH]; [constructor|].
  cbn [hex_encode foldr]. rewrite string_bytes_app. apply Forall_app. split; [|exact IH].
  unfold is_byte in Hz. unfold hex_byte. cbn [string_bytes].
  repeat constructor; apply hex_digit_ascii;
    [split; [apply Z.div_pos; lia|apply Z.div_lt_upper_bound; lia]|apply Z.mod_pos_bound; lia].
Qed.

Lemma length_hex_encode b : String.length (hex_encode b) = (2 * length b)%nat.
Proof.
  induction b as [|z b IH]; [done|].
  change (String.length (hex_encode (z :: b))) with (S (S (String.length (hex_encode b)))).
  rewrite IH. simpl. lia.
Qed.

(** ** Trimming plain text *)

(** Text without white space and outside Unicode keeps its ends. *)
Definition plain_byte (z : Z) : Prop := 0 <= z <= 0x7F /\ ws1 z = false.

Lemma drop_ws_plain t2 t3 b :
  Forall plain_byte b ->
  (forall x y, plain_byte x -> plain_byte y -> t2 x y = false) ->
  (forall x y z, plain_byte x -> plain_byte y -> plain_byte z -> t3 x y z = false) ->
  drop_ws t2 t3 b = b.
Proof.
  intros Hb H2 H3. destruct b as [|x b]; [done|]. apply Forall_cons in Hb as [Hx Hb]. simpl.
  destruct Hx as [? Hw] eqn:E. rewrite Hw. destruct b as [|y b]; [done|]. apply Forall_cons in Hb as [Hy Hb].
  rewrite H2 by done. destruct b as [|z b]; [done|]. apply Forall_cons in Hb as [Hz _]. by rewrite H3.
Qed.

Lemma ws2_plain x y : plain_byte x -> ws2 x y = false.
Proof. intros [? _]. unfold ws2. by rewrite (proj2 (Z.eqb_neq x 0xC2)) by lia. Qed.

Lemma ws3_plain x y z : plain_byte x -> ws3 x y z = false.
Proof.
  intros [? _]. unfold ws3. rewrite (proj2 (Z.eqb_neq x 0xE1)), (proj2 (Z.eqb_neq x 0xE2)),
    (proj2 (Z.eqb_neq x 0xE3)) by lia. done.
Qed.

Lemma trim_space_plain t : Forall plain_byte (string_bytes t) -> trim (String " " t) = t.
Proof.
  intros Ht. unfold trim, trim_bytes. cbn [string_bytes].
  change (Z.of_N (N_of_ascii " ")) with 32. cbn [drop_ws]. change (ws1 32) with true. cbv iota.
  rewrite (drop_ws_plain ws2 ws3) by (try done; intros; (apply ws2_plain || apply ws3_plain); done).
  rewrite drop_ws_plain.
  - by rewrite rev_involutive, bytes_string_bytes.
  - by apply Forall_rev.
  - intros x y _ Hy. by apply ws2_plain.
  - intros x y z _ _ Hz. by apply ws3_plain.
Qed.

Lemma drop_ws_rev_plain b :
  Forall plain_byte b -> drop_ws (fun y x => ws2 x y) (fun z y x => ws3 x y z) b = b.
Proof.
  intros Hb. apply drop_ws_plain; [done|intros x y _ Hy; by apply ws2_plain|intros x y z _ _ Hz; by apply ws3_plain].
Qed.

Lemma trim_plain t : Forall plain_byte (string_bytes t) -> trim t = t.
Proof.
  intros Ht. unfold trim, trim_bytes.
  rewrite (drop_ws_plain ws2 ws3) by (try done; intros; (apply ws2_plain || apply ws3_plain); done).
  by rewrite drop_ws_rev_plain, rev_involutive, bytes_string_bytes by by apply Forall_rev.
Qed.

(** A trailing newline goes. *)
Lemma trim_newline_plain t :
  Forall plain_byte (string_bytes t) -> trim (t +:+ String "010"%char EmptyString) = t.
Proof.
  intros Ht. unfold trim, trim_bytes. rewrite string_bytes_app.
  change (string_bytes (String "010"%char EmptyString)) with [10].
  destruct (decide (t = EmptyString)) as [->|Hne]; [done|].
  assert (Hd : drop_ws ws2 ws3 (string_bytes t ++ [10]) = string_bytes t ++ [10]).
  { assert (string_bytes t <> []) by by destruct t.
    destruct (string_bytes t) as [|x [|y b]]; [done|..]; apply Forall_cons in Ht as [Hx Hb].
    - cbn. rewrite (proj2 Hx). by rewrite ws2_plain.
    - cbn. rewrite (proj2 Hx), ws2_plain by done. by destruct (b ++ [10]); [|rewrite ws3_plain]. }
  rewrite Hd, rev_app_distr. cbn. change (ws1 10) with true. cbv iota.
  by rewrite drop_ws_rev_plain, rev_involutive, bytes_string_bytes by by apply Forall_rev.
Qed.

(** ** Decimal numbers

    The digits of an unsigned [from_str], an error past [max]. *)
Fixpoint digits_value (max acc : Z) (s : string) : option Z :=
  match s with
  | EmptyString => Some acc
  | String a s' =>
      let n := Z.of_N (N_of_ascii a) in
      if (48 <=? n) && (n <=? 57) && (acc * 10 + (n - 48) <=? max)
      then digits_value max (acc * 10 + (n - 48)) s'
      else None
  end.

(** [u64::from_str] *)
Definition parse_u64 (s : string) : option Z :=
  let digits := match s with String a s' => if a ==? "+"%char then s' else s | EmptyString => s end in
  if is_empty digits then None else digits_value u64_max 0 digits.

Lemma digits_value_pretty max x s :
  Z.of_N x <= max -> digits_value max 0 (pretty_N_go x s) = digits_value max (Z.of_N x) s.
Proof.
  revert s. induction (N.lt_wf_0 x) as [x _ IH]. intros s Hx.
  destruct (N.eq_0_gt_0_cases x) as [->|Hpos]; [by rewrite pretty_N_go_0|].
  rewrite pretty_N_go_step, IH by (try (by apply N.div_lt); try done; rewrite N2Z.inj_div; Z.div_mod_to_equations; lia).
  cbn [digits_value]. set (n := (x `mod` 10)%N).
  assert (Hn : (n < 10)%N) by (apply N.mod_lt; done).
  assert (Hch : Z.of_N (N_of_ascii (pretty_N_char n)) = 48 + Z.of_N n).
  { assert (Hall : Forall (fun d => Z.of_N (N_of_ascii (pretty_N_char d)) = 48 + Z.of_N d) (map N.of_nat (seq 0 10)))
      by repeat constructor.
    rewrite Forall_forall in Hall. apply Hall, list_elem_of_fmap. exists (N.to_nat n). rewrite elem_of_seq. lia. }
  rewrite Hch. replace (48 + Z.of_N n - 48) with (Z.of_N n) by lia.
  assert (Hdm : Z.of_N (x `div` 10) * 10 + Z.of_N n = Z.of_N x).
  { unfold n. rewrite N2Z.inj_div, N2Z.inj_mod. Z.div_mod_to_equations. lia. }
  rewrite Hdm. destruct (Z.leb_spec 48 (48 + Z.of_N n)), (Z.leb_spec (48 + Z.of_N n) 57),
    (Z.leb_spec (Z.of_N x) max); try lia. done.
Qed.

Lemma digits_value_show max n : 0 <= n <= max -> digits_value max 0 (show n) = Some n.
Proof.
  intros Hn. unfold show, pretty, pretty_Z. destruct n as [|p|p]; [| |lia].
  { change (digits_value max 0 "0" = Some 0). cbn [digits_value]. change (0 * 10 + _) with 0.
    by rewrite (proj2 (Z.leb_le 0 max)) by lia. }
  unfold pretty, pretty_positive, pretty, pretty_N. case_decide; [done|].
  by rewrite digits_value_pretty by (cbn; lia).
Qed.

(** The text of a number starts with a digit. *)
Lemma pretty_N_go_head x s :
  (exists a s', s = String a s' /\ (48 <= N_of_ascii a <= 57)%N) \/ (0 < x)%N ->
  exists a s', pretty_N_go x s = String a s' /\ (48 <= N_of_ascii a <= 57)%N.
Proof.
  revert s. induction (N.lt_wf_0 x) as [x _ IH]. intros s Hs.
  destruct (N.eq_0_gt_0_cases x) as [->|Hpos]; [rewrite pretty_N_go_0; destruct Hs as [?|?]; [done|lia]|].
  rewrite pretty_N_go_step by done. apply IH; [by apply N.div_lt|]. left. eexists _, _. split; [done|].
  unfold pretty_N_char. by repeat case_match; vm_compute.
Qed.

Lemma show_head n : 0 <= n -> exists a s, show n = String a s /\ (48 <= N_of_ascii a <= 57)%N.
Proof.
  intros Hn. unfold show, pretty, pretty_Z. destruct n as [|p|p]; [by eexists _, _| |lia].
  unfold pretty, pretty_positive, pretty, pretty_N. case_decide; [done|]. apply pretty_N_go_head. by right.
Qed.

(** A printed number has digits only, which [trim] keeps. *)
Lemma pretty_N_go_plain x s :
  Forall plain_byte (string_bytes s) -> Forall plain_byte (string_bytes (pretty_N_go x s)).
Proof.
  revert s. induction (N.lt_wf_0 x) as [x _ IH]. intros s Hs.
  destruct (N.eq_0_gt_0_cases x) as [->|Hpos]; [by rewrite pretty_N_go_0|].
  rewrite pretty_N_go_step by done. apply IH; [by apply N.div_lt|]. cbn. constructor; [|done].
  unfold pretty_N_char. repeat case_match; by vm_compute.
Qed.

Lemma show_plain n : 0 <= n -> Forall plain_byte (string_bytes (show n)).
Proof.
  intros Hn. unfold show, pretty, pretty_Z. destruct n as [|p|p]; [by repeat constructor| |lia].
  unfold pretty, pretty_positive, pretty, pretty_N. case_decide; [done|]. by apply pretty_N_go_plain.
Qed.

Lemma parse_u64_show n : 0 <= n <= u64_max -> parse_u64 (show n) = Some n.
Proof.
  intros Hn. destruct (show_head n) as (a & s & Hs & Ha); [lia|]. unfold parse_u64. rewrite Hs.
  assert (a <> "+"%char) by (intros ->; change (N_of_ascii "+") with 43%N in Ha; lia).
  rewrite bool_decide_eq_false_2 by done. rewrite <- Hs.
  unfold is_empty. rewrite bool_decide_eq_false_2 by (rewrite Hs; done). by apply digits_value_show.
Qed.
