(* ===== verification/Channel.v ===== *)
(** * Connection write channels

    A connection's write half is fed by a bounded [tokio::sync::mpsc]
    channel of [Outbound] items ([src/ipc/connection.rs]).  A
    [mpsc::Sender] is a shared handle: it is modelled by the identity of
    the channel, and the queues live in one store [Chans]. *)

From S2P Require Import Prelude Wire.

Open Scope Z_scope.

Abbreviation ChanId := Z.

(** Identity of a [SessionKeyCell] ([Arc<Mutex<Option<[u8; 32]>>>]). *)
Abbreviation CellId := Z.

Inductive Outbound :=
| OFrame (f : Frame)
| OEnableMac (key : bytes) (cell : CellId).

(** [out_frame] *)
Definition out_frame (f : Frame) : Outbound := OFrame f.

Record Chan := mkChan {
  chan_cap : nat;
  chan_open : bool;
  chan_queue : list Outbound;
}.

Abbreviation Chans := (gmap Z Chan).

Inductive TrySendError := Full | Closed.

(** [Sender::try_send]: never blocks.  A channel whose receiver is gone is
    closed. *)
Definition try_send (tx : ChanId) (o : Outbound) (cs : Chans) : Result TrySendError unit * Chans :=
  match cs !! tx with
  | Some c =>
      if chan_open c then
        if (length (chan_queue c) <? chan_cap c)%nat
        then (Ok tt, <[tx := mkChan (chan_cap c) true (chan_queue c ++ [o])]> cs)
        else (Err Full, cs)
      else (Err Closed, cs)
  | None => (Err Closed, cs)
  end.

(** [Sender::send(..).await]: waits for a free slot, then enqueues; fails
    only on a closed channel.  The item is placed at the end of the queue,
    which is where it lands once the receiver has drained a slot. *)
Definition send_await (tx : ChanId) (o : Outbound) (cs : Chans) : Result TrySendError unit * Chans :=
  match cs !! tx with
  | Some c =>
      if chan_open c
      then (Ok tt, <[tx := mkChan (chan_cap c) true (chan_queue c ++ [o])]> cs)
      else (Err Closed, cs)
  | None => (Err Closed, cs)
  end.

(** The queue behind a handle. *)
Definition queue_of (cs : Chans) (tx : ChanId) : list Outbound :=
  match cs !! tx with Some c => chan_queue c | None => [] end.

(** [true] when [try_send] would succeed. *)
Definition can_send (cs : Chans) (tx : ChanId) : bool :=
  match cs !! tx with
  | Some c => chan_open c && (length (chan_queue c) <? chan_cap c)%nat
  | None => false
  end.

(** ** Lemmas *)

Lemma try_send_spec tx o cs :
  try_send tx o cs =
  if can_send cs tx
  then (Ok tt, <[tx := mkChan (match cs !! tx with Some c => chan_cap c | None => 0%nat end)
                           true (queue_of cs tx ++ [o])]> cs)
  else (Err (match cs !! tx with
             | Some c => if chan_open c then Full else Closed
             | None => Closed
             end), cs).
Proof.
  unfold try_send, can_send, queue_of. destruct (cs !! tx) as [c|]; [|done].
  destruct (chan_open c); [|done]. simpl. by destruct (length _ <? _)%nat.
Qed.

Lemma try_send_ok tx o cs : is_ok (try_send tx o cs).1 = can_send cs tx.
Proof. rewrite try_send_spec. by destruct (can_send cs tx). Qed.

Lemma try_send_queue tx o cs ty :
  queue_of (try_send tx o cs).2 ty =
  queue_of cs ty ++ (if (tx ==? ty) && can_send cs tx then [o] else []).
Proof.
  rewrite try_send_spec. destruct (can_send cs tx) eqn:E; simpl.
  - unfold queue_of. destruct (decide (tx = ty)) as [->|Hne].
    + rewrite lookup_insert_eq. simpl. by rewrite bool_decide_eq_true_2.
    + rewrite lookup_insert_ne by done. rewrite bool_decide_eq_false_2 by done.
      simpl. by rewrite app_nil_r.
  - by rewrite andb_false_r, app_nil_r.
Qed.

Lemma try_send_other tx o cs ty : tx <> ty -> (try_send tx o cs).2 !! ty = cs !! ty.
Proof.
  intros Hne. rewrite try_send_spec. destruct (can_send cs tx); simpl; [|done].
  by rewrite lookup_insert_ne.
Qed.

(** A queue never exceeds the capacity of its channel. *)
Definition chans_bounded (cs : Chans) : Prop :=
  forall tx c, cs !! tx = Some c -> (length (chan_queue c) <= chan_cap c)%nat.

Lemma try_send_bounded tx o cs : chans_bounded cs -> chans_bounded (try_send tx o cs).2.
Proof.
  intros Hb ty c. unfold try_send. destruct (cs !! tx) as [c0|] eqn:E; [|by apply Hb].
  destruct (chan_open c0); [|by apply Hb].
  destruct (Nat.ltb_spec (length (chan_queue c0)) (chan_cap c0)); [|by apply Hb].
  simpl. destruct (decide (tx = ty)) as [->|Hne].
  - rewrite lookup_insert_eq. intros [= <-]. simpl. rewrite length_app. simpl. lia.
  - rewrite lookup_insert_ne by done. apply Hb.
Qed.

Lemma queue_of_nil cs tx : cs !! tx = None -> queue_of cs tx = [].
Proof. unfold queue_of. by intros ->. Qed.

#[export] Hint Resolve try_send_bounded : vyn.
