(* ===== verification/Registry.v ===== *)
(** * The plugin registry ([src/plugins/registry.rs])

    Who is connected, under which identity, which actions they provide and
    which kernel-routed actions are in flight.  The eight concurrent maps
    of [PluginRegistry] are the fields of a record; an operation is a
    function of the registry.  The clock is an argument. *)

From S2P Require Import Prelude Wire Channel.

Open Scope Z_scope.

(** A reading of the clocks: [Instant::now()] in nanoseconds and
    [SystemTime::now()] in milliseconds since the epoch. *)
Record Clock := mkClock {
  instant : Z;
  unix_ms : Z;
}.

Definition unix_secs (c : Clock) : Z := unix_ms c / 1000.

Record DeviceMeta := mkDeviceMeta {
  meta_device_id : string;
  meta_user_id : string;
  meta_os : DeviceOs;
  meta_arch : string;
  meta_os_version : string;
  meta_capabilities : list string;
}.

Inductive PluginState := Registered.

Record PendingAction := mkPending {
  requester_write_tx : ChanId;
  original_action_id : string;
  requester_id : string;
  deadline : Z;
  provider_id : string;
  streaming : bool;
  session_accepted : bool;
  last_activity : Z;
}.

Record PluginEntry := mkEntry {
  plugin_id : string;
  conn_id : Z;
  manifest : PluginManifest;
  write_tx : ChanId;
  registered_at : Z;
  state : PluginState;
  device_id : string;
  user_id : string;
}.

Inductive ActionLookup :=
| NotFound
| Found (e : PluginEntry)
| Ambiguous (ids : list string).

Record DeviceInfo := mkDeviceInfo {
  dev_device_id : string;
  dev_os : Z;
  dev_arch : string;
  dev_os_version : string;
  dev_capabilities : list string;
  dev_last_seen : Z;
  dev_state : Z;
  dev_created : Z;
  dev_expires : Z;
}.

Record PluginRegistry := mkRegistry {
  by_plugin_id : gmap string PluginEntry;
  by_conn_id : gmap Z string;
  pong_times : gmap string Z;
  devices : gmap string DeviceInfo;
  pending_actions : gmap string PendingAction;
  action_requirements : gmap string (gmap string PermissionType);
  action_index : gmap string string;
  ambiguous_actions : gmap string (list string);
}.

Definition registry_new : PluginRegistry := mkRegistry ∅ ∅ ∅ ∅ ∅ ∅ ∅ ∅.

(** Field updates. *)
Definition set_by_plugin_id f r := mkRegistry (f (by_plugin_id r)) (by_conn_id r) (pong_times r)
  (devices r) (pending_actions r) (action_requirements r) (action_index r) (ambiguous_actions r).
Definition set_by_conn_id f r := mkRegistry (by_plugin_id r) (f (by_conn_id r)) (pong_times r)
  (devices r) (pending_actions r) (action_requirements r) (action_index r) (ambiguous_actions r).
Definition set_pong_times f r := mkRegistry (by_plugin_id r) (by_conn_id r) (f (pong_times r))
  (devices r) (pending_actions r) (action_requirements r) (action_index r) (ambiguous_actions r).
Definition set_devices f r := mkRegistry (by_plugin_id r) (by_conn_id r) (pong_times r)
  (f (devices r)) (pending_actions r) (action_requirements r) (action_index r) (ambiguous_actions r).
Definition set_pending f r := mkRegistry (by_plugin_id r) (by_conn_id r) (pong_times r)
  (devices r) (f (pending_actions r)) (action_requirements r) (action_index r) (ambiguous_actions r).
Definition set_requirements f r := mkRegistry (by_plugin_id r) (by_conn_id r) (pong_times r)
  (devices r) (pending_actions r) (f (action_requirements r)) (action_index r) (ambiguous_actions r).
Definition set_index f r := mkRegistry (by_plugin_id r) (by_conn_id r) (pong_times r)
  (devices r) (pending_actions r) (action_requirements r) (f (action_index r)) (ambiguous_actions r).
Definition set_ambiguous f r := mkRegistry (by_plugin_id r) (by_conn_id r) (pong_times r)
  (devices r) (pending_actions r) (action_requirements r) (action_index r) (f (ambiguous_actions r)).

(** ** Identifier validation ([src/utils/validate.rs]) *)

Definition identifier_char (b : ascii) : bool :=
  is_ascii_alphanumeric b || (b ==? "-"%char) || (b ==? "_"%char) || (b ==? "."%char).

Definition validate_identifier (id : string) (max_len : nat) : Result VynkorError unit :=
  if is_empty id then Err (EInvalidPluginId "must not be empty")
  else if (max_len <? String.length id)%nat then
    Err (EInvalidPluginId ("too long (" +:+ show (Z.of_nat (String.length id)) +:+ " bytes, max "
                           +:+ show (Z.of_nat max_len) +:+ ")"))
  else if (id ==? ".") || (id ==? "..") then
    Err (EInvalidPluginId "'.' and '..' are reserved path components")
  else if negb (string_forallb identifier_char id) then
    Err (EInvalidPluginId "only ASCII letters, digits, '.', '-', '_' are allowed")
  else Ok tt.

Definition PLUGIN_ID_MAX_LEN : nat := 32.

Definition validate_plugin_id (id : string) : Result VynkorError unit :=
  _ ← validate_identifier id PLUGIN_ID_MAX_LEN;
  if (id ==? "kernel") || (id ==? "*")
  then Err (EInvalidPluginId ("'" +:+ id +:+ "' is reserved"))
  else Ok tt.

(** ** The action index (PERF-3) *)

Definition index_action (action pid : string) (r : PluginRegistry) : PluginRegistry :=
  match ambiguous_actions r !! action with
  | Some ids =>
      if pid ∈? ids then r
      else set_ambiguous <[action := ids ++ [pid]]> r
  | None =>
      match action_index r !! action with
      | Some existing =>
          if existing ==? pid then r
          else set_ambiguous <[action := [existing; pid]]> (set_index (delete action) r)
      | None => set_index <[action := pid]> r
      end
  end.

Definition unindex_action (action pid : string) (r : PluginRegistry) : PluginRegistry :=
  let '(remaining, r1) :=
    match ambiguous_actions r !! action with
    | Some ids =>
        let ids' := filter (fun id => id <> pid) ids in
        (match ids' with [only] => Some only | _ => None end,
         set_ambiguous <[action := ids']> r)
    | None => (None, r)
    end in
  match remaining with
  | Some only => set_index <[action := only]> (set_ambiguous (delete action) r1)
  | None =>
      if match action_index r1 !! action with Some v => v ==? pid | None => false end
      then set_index (delete action) r1
      else r1
  end.

Definition index_actions (acts : list string) (pid : string) (r : PluginRegistry) : PluginRegistry :=
  foldl (fun r action => index_action action pid r) r acts.

Definition unindex_actions (acts : list string) (pid : string) (r : PluginRegistry) : PluginRegistry :=
  foldl (fun r action => unindex_action action pid r) r acts.

Section Registry.
Context `{WireCrate}.

(** ** Registration *)

(** The upsert of the device record a registration performs. *)
Definition upsert_device (did : string) (meta : DeviceMeta) (caps : list string) (now_ms : Z)
    (devs : gmap string DeviceInfo) : gmap string DeviceInfo :=
  match devs !! did with
  | Some dev =>
      <[did := {| dev_device_id := dev_device_id dev;
                  dev_os := device_os_i32 (meta_os meta);
                  dev_arch := meta_arch meta;
                  dev_os_version := meta_os_version meta;
                  dev_capabilities := caps;
                  dev_last_seen := now_ms;
                  dev_state := device_state_i32 StOnline;
                  dev_created := dev_created dev;
                  dev_expires := dev_expires dev |}]> devs
  | None =>
      <[did := {| dev_device_id := did;
                  dev_os := device_os_i32 (meta_os meta);
                  dev_arch := meta_arch meta;
                  dev_os_version := meta_os_version meta;
                  dev_capabilities := caps;
                  dev_last_seen := now_ms;
                  dev_state := device_state_i32 StOnline;
                  dev_created := 0;
                  dev_expires := 0 |}]> devs
  end.

Definition or_default (d s : string) : string := if is_empty s then d else s.

Definition register_with_device (clk : Clock) (pid : string) (cid : Z) (mf : PluginManifest)
    (tx : ChanId) (meta : DeviceMeta) (r : PluginRegistry) : Result VynkorError unit * PluginRegistry :=
  match validate_plugin_id pid with
  | Err e => (Err e, r)
  | Ok _ =>
    match by_conn_id r !! cid with
    | Some _ =>
        (Err (EPluginAlreadyRegistered
                ("connection " +:+ show cid +:+ " already has a registered plugin")), r)
    | None =>
      match by_plugin_id r !! pid with
      | Some _ => (Err (EPluginAlreadyRegistered pid), r)
      | None =>
          let did := or_default "local" (meta_device_id meta) in
          let uid := or_default "default" (meta_user_id meta) in
          let entry := {| plugin_id := pid; conn_id := cid; manifest := mf; write_tx := tx;
                          registered_at := unix_secs clk; state := Registered;
                          device_id := did; user_id := uid |} in
          let r := set_by_conn_id <[cid := pid]> r in
          let r := index_actions (actions mf) pid r in
          let r := set_pong_times <[pid := instant clk]> r in
          let r := set_devices (upsert_device did meta (meta_capabilities meta) (unix_ms clk)) r in
          (Ok tt, set_by_plugin_id <[pid := entry]> r)
      end
    end
  end.

Definition register (clk : Clock) (pid : string) (cid : Z) (mf : PluginManifest) (tx : ChanId)
    (did uid : string) (r : PluginRegistry) : Result VynkorError unit * PluginRegistry :=
  register_with_device clk pid cid mf tx (mkDeviceMeta did uid OsUnspecified "" "" []) r.

Definition with_actions (acts : list string) (mf : PluginManifest) : PluginManifest :=
  mkManifest (permissions mf) acts (events mf) (ipc_targets mf) (platforms mf) (action_specs mf).

Definition register_device (clk : Clock) (did : string) (cid : Z) (caps : list string)
    (mf : PluginManifest) (tx : ChanId) (meta : DeviceMeta) (r : PluginRegistry)
    : Result VynkorError unit * PluginRegistry :=
  match validate_plugin_id did with
  | Err e => (Err e, r)
  | Ok _ =>
    match by_conn_id r !! cid with
    | Some _ =>
        (Err (EPluginAlreadyRegistered
                ("connection " +:+ show cid +:+ " already has a registered plugin")), r)
    | None =>
      match by_plugin_id r !! did with
      | Some _ => (Err (EPluginAlreadyRegistered did), r)
      | None =>
          let effective := or_default did (meta_device_id meta) in
          let uid := or_default "default" (meta_user_id meta) in
          let mf := with_actions (map (fun c => did +:+ "." +:+ c) caps) mf in
          let entry := {| plugin_id := did; conn_id := cid; manifest := mf; write_tx := tx;
                          registered_at := unix_secs clk; state := Registered;
                          device_id := effective; user_id := uid |} in
          let r := set_by_conn_id <[cid := did]> r in
          let r := index_actions (actions mf) did r in
          let r := set_pong_times <[did := instant clk]> r in
          let r := set_devices (upsert_device effective meta caps (unix_ms clk)) r in
          (Ok tt, set_by_plugin_id <[did := entry]> r)
      end
    end
  end.

(** ** Lookups *)

Definition get (pid : string) (r : PluginRegistry) : option PluginEntry := by_plugin_id r !! pid.

Definition get_device (did : string) (r : PluginRegistry) : option DeviceInfo := devices r !! did.

Definition get_mux (target : string) (r : PluginRegistry) : option PluginEntry :=
  match get target r with
  | Some entry => Some entry
  | None =>
      '(dev, cap) ← split_once "." target;
      entry ← get dev r;
      let is_declared :=
        (target ∈? actions (manifest entry)) ||
        existsb (fun a => match split_once "." a with Some (_, c) => c ==? cap | None => false end)
                (actions (manifest entry)) ||
        match devices r !! dev with Some d => cap ∈? dev_capabilities d | None => false end in
      if is_declared then Some entry else None
  end.

Definition is_registered (cid : Z) (r : PluginRegistry) : bool := is_some (by_conn_id r !! cid).

Definition get_by_conn_id (cid : Z) (r : PluginRegistry) : option PluginEntry :=
  pid ← by_conn_id r !! cid; by_plugin_id r !! pid.

Definition last_pong (pid : string) (r : PluginRegistry) : option Z := pong_times r !! pid.

Definition find_action_provider (action : string) (r : PluginRegistry) : ActionLookup :=
  match ambiguous_actions r !! action with
  | Some ids => Ambiguous ids
  | None =>
      match action_index r !! action with
      | Some pid => match by_plugin_id r !! pid with Some e => Found e | None => NotFound end
      | None => NotFound
      end
  end.

(** ** Liveness *)

Definition set_device_state (s : DeviceState) (dev : DeviceInfo) : DeviceInfo :=
  mkDeviceInfo (dev_device_id dev) (dev_os dev) (dev_arch dev) (dev_os_version dev)
    (dev_capabilities dev) (dev_last_seen dev) (device_state_i32 s) (dev_created dev)
    (dev_expires dev).

Definition touch_device (now_ms : Z) (dev : DeviceInfo) : DeviceInfo :=
  mkDeviceInfo (dev_device_id dev) (dev_os dev) (dev_arch dev) (dev_os_version dev)
    (dev_capabilities dev) now_ms (device_state_i32 StOnline) (dev_created dev) (dev_expires dev).

Definition record_pong (clk : Clock) (pid : string) (r : PluginRegistry) : PluginRegistry :=
  let r := set_pong_times <[pid := instant clk]> r in
  match by_plugin_id r !! pid with
  | Some entry => set_devices (alter (touch_device (unix_ms clk)) (device_id entry)) r
  | None => r
  end.

(** ** Requirements of actions (manifest v2) *)

Definition set_action_requirements (pid : string) (reqs : gmap string PermissionType)
    (r : PluginRegistry) : PluginRegistry := set_requirements <[pid := reqs]> r.

Definition action_requirement (pid action : string) (r : PluginRegistry) : option PermissionType :=
  m ← action_requirements r !! pid; m !! action.

Definition clear_action_requirements (pid : string) (r : PluginRegistry) : PluginRegistry :=
  set_requirements (delete pid) r.

(** ** Unregistration *)

Definition unregister (pid : string) (r : PluginRegistry) : PluginRegistry :=
  match by_plugin_id r !! pid with
  | None => r
  | Some entry =>
      let r := set_by_plugin_id (delete pid) r in
      let r := set_by_conn_id (delete (conn_id entry)) r in
      let r := set_pong_times (delete pid) r in
      let r := clear_action_requirements pid r in
      let r := unindex_actions (actions (manifest entry)) pid r in
      let still_registered :=
        bool_decide (map_Exists (fun _ e => device_id e = device_id entry) (by_plugin_id r)) in
      if still_registered then r
      else set_devices (alter (set_device_state StOffline) (device_id entry)) r
  end.

(** ** Pending actions *)

Definition register_pending_action (iid : string) (p : PendingAction) (r : PluginRegistry)
    : PluginRegistry := set_pending <[iid := p]> r.

Definition take_pending_action (iid : string) (r : PluginRegistry)
    : option PendingAction * PluginRegistry :=
  (pending_actions r !! iid, set_pending (delete iid) r).

Definition take_pending_action_if_provider (iid prov : string) (r : PluginRegistry)
    : option PendingAction * PluginRegistry :=
  match pending_actions r !! iid with
  | Some p => if provider_id p ==? prov then (Some p, set_pending (delete iid) r) else (None, r)
  | None => (None, r)
  end.

Definition accept_session (now : Z) (p : PendingAction) : PendingAction :=
  mkPending (requester_write_tx p) (original_action_id p) (requester_id p) (deadline p)
    (provider_id p) (streaming p) true now.

Definition resolve_action_response (now : Z) (iid prov : string) (status_ok : bool)
    (r : PluginRegistry) : option PendingAction * PluginRegistry :=
  match pending_actions r !! iid with
  | Some p =>
      if provider_id p <>? prov then (None, r)
      else if status_ok && streaming p
      then (Some (accept_session now p), set_pending <[iid := accept_session now p]> r)
      else (Some p, set_pending (delete iid) r)
  | None => (None, r)
  end.

Definition touch_pending (now : Z) (p : PendingAction) : PendingAction :=
  mkPending (requester_write_tx p) (original_action_id p) (requester_id p) (deadline p)
    (provider_id p) (streaming p) (session_accepted p) now.

Definition touch_pending_action (now : Z) (iid : string) (r : PluginRegistry) : PluginRegistry :=
  set_pending (alter (touch_pending now) iid) r.

Definition get_pending_action (iid : string) (r : PluginRegistry) : option PendingAction :=
  pending_actions r !! iid.

End Registry.

(** ** Operations that iterate a map *)

Section Iteration.
Context `{HashIter}.

Definition list_entries (r : PluginRegistry) : list PluginEntry := (map_iter (by_plugin_id r)).*2.

Definition list_devices (r : PluginRegistry) : list DeviceInfo := (map_iter (devices r)).*2.

(** [Instant::duration_since] saturates at zero. *)
Definition duration_since (later earlier : Z) : Z := Z.max 0 (later - earlier).

Definition is_idle (now idle_timeout : Z) (p : PendingAction) : bool :=
  session_accepted p && (idle_timeout <? duration_since now (last_activity p))%Z.

Definition is_expired (now : Z) (p : PendingAction) : bool :=
  negb (session_accepted p) && (deadline p <=? now)%Z.

(** [keys.into_iter().filter_map(|k| self.take_pending_action(&k).map(..))] *)
Fixpoint take_all (keys : list string) (r : PluginRegistry)
    : list (string * PendingAction) * PluginRegistry :=
  match keys with
  | [] => ([], r)
  | k :: ks =>
      let '(o, r') := take_pending_action k r in
      let '(l, r'') := take_all ks r' in
      (match o with Some p => (k, p) :: l | None => l end, r'')
  end.

Definition sweep_idle_sessions (now idle_timeout : Z) (r : PluginRegistry)
    : list (string * PendingAction) * PluginRegistry :=
  let idle_keys :=
    (filter (fun kp => is_idle now idle_timeout kp.2 = true) (map_iter (pending_actions r))).*1 in
  take_all idle_keys r.

Definition sweep_expired_actions (now : Z) (r : PluginRegistry)
    : list PendingAction * PluginRegistry :=
  let expired_keys :=
    (filter (fun kp => is_expired now kp.2 = true) (map_iter (pending_actions r))).*1 in
  let '(l, r') := take_all expired_keys r in (l.*2, r').

Definition count_pending_actions_for (req prov : string) (r : PluginRegistry) : Z :=
  as_u32 (Z.of_nat (length (filter
    (fun kp => requester_id kp.2 = req /\ provider_id kp.2 = prov) (map_iter (pending_actions r))))).

Definition find_pending_internal_id (req orig : string) (r : PluginRegistry) : option string :=
  fst <$> head (filter
    (fun kp => requester_id kp.2 = req /\ original_action_id kp.2 = orig)
    (map_iter (pending_actions r))).

End Iteration.

Section Display.
Context `{WireCrate}.

Definition action_risk_str (risk : Z) : string :=
  match action_risk_of_i32 risk with
  | Some RiskLow => "low"
  | Some RiskMedium => "medium"
  | Some RiskHigh => "high"
  | Some RiskCritical => "critical"
  | _ => "unknown"
  end.

(** [src/api/display.rs] *)
Definition device_os_str (os : Z) : string :=
  match device_os_of_i32 os with
  | Some OsLinux => "linux"
  | Some OsMacos => "macos"
  | Some OsWindows => "windows"
  | Some OsAndroid => "android"
  | Some OsIos => "ios"
  | Some OsFreebsd => "freebsd"
  | _ => "unspecified"
  end.

Definition device_state_str (s : Z) : string :=
  match device_state_of_i32 s with
  | Some StOnline => "online"
  | Some StOffline => "offline"
  | Some StRevoked => "revoked"
  | _ => "unspecified"
  end.

Definition plugin_state_str (s : PluginState) : string := match s with Registered => "registered" end.

End Display.
