(* ===== verification/RegistryFacts.v ===== *)
(** * Correctness of the plugin registry

    The invariant of [PluginRegistry], its preservation by every operation
    (rule induction over [registry_reachable]), the refinement of the
    action index to a scan of the registered plugins, and the lifecycle of
    pending actions. *)

From S2P Require Import Prelude Wire Channel Registry.

Open Scope Z_scope.

(** ** What an index slot represents

    For one action, [amb] and [idx] are the slots of [ambiguous_actions]
    and [action_index]; together they represent the set of declarers. *)
Definition slot_repr (amb : option (list string)) (idx : option string) (D : gset string) : Prop :=
  match amb, idx with
  | Some ids, None => NoDup ids /\ (2 <= length ids)%nat /\ list_to_set ids = D
  | None, Some p => D = {[p]}
  | None, None => D = ∅
  | Some _, Some _ => False
  end.

Definition indexed (r : PluginRegistry) (a : string) (D : gset string) : Prop :=
  slot_repr (ambiguous_actions r !! a) (action_index r !! a) D.

(** The plugins that declare [a] in their manifest. *)
Definition declarers (a : string) (m : gmap string PluginEntry) : gset string :=
  dom (filter (fun kv : string * PluginEntry => a ∈ actions (manifest kv.2)) m).

Lemma elem_of_declarers a m p :
  p ∈ declarers a m <-> exists e, m !! p = Some e /\ a ∈ actions (manifest e).
Proof.
  unfold declarers. rewrite elem_of_dom. unfold is_Some.
  setoid_rewrite map_lookup_filter_Some. naive_solver.
Qed.

Lemma index_action_other a b pid r D : a <> b -> indexed r b D -> indexed (index_action a pid r) b D.
Proof.
  intros Hne Hi. unfold index_action, indexed in *.
  destruct (ambiguous_actions r !! a) as [ids|] eqn:Ha.
  - case_bool_decide; [done|]. simpl. by rewrite lookup_insert_ne.
  - destruct (action_index r !! a) as [p|] eqn:Hx; simpl.
    + case_bool_decide; [done|]. simpl. by rewrite lookup_insert_ne, lookup_delete_ne.
    + by rewrite lookup_insert_ne.
Qed.

Lemma index_action_self a pid r D : indexed r a D -> indexed (index_action a pid r) a (D ∪ {[pid]}).
Proof.
  intros Hi. unfold index_action, indexed, slot_repr in *.
  destruct (ambiguous_actions r !! a) as [ids|] eqn:Ha;
    destruct (action_index r !! a) as [p|] eqn:Hx; try done.
  - destruct Hi as (Hnd & Hlen & HD). case_bool_decide as Hin; simpl.
    + rewrite Ha, Hx. split_and!; [done..|]. set_solver.
    + rewrite lookup_insert_eq, Hx. split_and!.
      * apply NoDup_app. split_and!; [done| |apply NoDup_singleton]. set_solver.
      * rewrite length_app. simpl. lia.
      * set_solver.
  - case_bool_decide as Hp; simpl.
    + rewrite Ha, Hx. set_solver.
    + rewrite lookup_insert_eq, lookup_delete_eq. split_and!.
      * apply NoDup_cons; split; [set_solver|apply NoDup_singleton].
      * simpl. lia.
      * set_solver.
  - simpl. rewrite Ha, lookup_insert_eq. set_solver.
Qed.

Lemma index_actions_repr acts pid r a D :
  indexed r a D ->
  indexed (index_actions acts pid r) a (if decide (a ∈ acts) then D ∪ {[pid]} else D).
Proof.
  revert r D. induction acts as [|b acts IH]; intros r D Hi.
  - case_decide; [set_solver|done].
  - unfold index_actions. cbn [foldl]. fold (index_actions acts pid (index_action b pid r)).
    destruct (decide (a = b)) as [->|Hne].
    + apply (index_action_self b pid) in Hi. apply IH in Hi.
      rewrite (decide_True (P := b ∈ b :: acts)) by left.
      case_decide; [|done]. by replace (D ∪ {[pid]} ∪ {[pid]}) with (D ∪ {[pid]}) in Hi by set_solver.
    + apply (index_action_other b a pid) in Hi; [|done]. apply IH in Hi.
      destruct (decide (a ∈ acts)), (decide (a ∈ b :: acts)); set_solver.
Qed.

Lemma unindex_action_other a b pid r D :
  a <> b -> indexed r b D -> indexed (unindex_action a pid r) b D.
Proof.
  intros Hne Hi. unfold unindex_action, indexed in *.
  destruct (ambiguous_actions r !! a) as [ids|] eqn:Ha; simpl.
  - split_cases; simpl; by rewrite ?lookup_insert_ne, ?lookup_delete_ne, ?lookup_insert_ne by done.
  - split_cases; simpl; by rewrite ?lookup_delete_ne by done.
Qed.

Lemma list_to_set_filter_ne (ids : list string) pid :
  list_to_set (filter (fun id => id <> pid) ids) = (list_to_set ids : gset string) ∖ {[pid]}.
Proof. apply set_eq. intros x. rewrite elem_of_list_to_set, list_elem_of_filter. set_solver. Qed.

Lemma unindex_action_self a pid r D :
  indexed r a D -> indexed (unindex_action a pid r) a (D ∖ {[pid]}).
Proof.
  intros Hi. unfold unindex_action, indexed, slot_repr in *.
  destruct (ambiguous_actions r !! a) as [ids|] eqn:Ha;
    destruct (action_index r !! a) as [p|] eqn:Hx; try done; simpl.
  - destruct Hi as (Hnd & Hlen & HD).
    pose proof (NoDup_filter (fun id => id <> pid) ids Hnd) as Hnd'.
    pose proof (list_to_set_filter_ne ids pid) as Hset. rewrite HD in Hset.
    assert (1 <= length (filter (fun id => id <> pid) ids))%nat as Hlen'.
    { clear -Hnd Hlen. destruct ids as [|x [|y l]]; simpl in *; [lia..|].
      apply NoDup_cons in Hnd as [Hx _]. rewrite !filter_cons.
      case_decide; simpl; [lia|]. case_decide; simpl; [lia|]. set_solver. }
    destruct (filter (fun id => id <> pid) ids) as [|only [|y l]] eqn:Hf; simpl in *; [lia|..].
    + rewrite lookup_insert_eq, lookup_delete_eq. set_solver.
    + rewrite Hx. simpl. rewrite lookup_insert_eq, Hx. split_and!; [done|simpl; lia|done].
  - rewrite ?Hx. case_bool_decide as Hp; simpl.
    + rewrite Ha, lookup_delete_eq. set_solver.
    + rewrite Ha, Hx. set_solver.
  - rewrite ?Hx. simpl. rewrite Ha, ?Hx. set_solver.
Qed.

Lemma unindex_actions_repr acts pid r a D :
  indexed r a D ->
  indexed (unindex_actions acts pid r) a (if decide (a ∈ acts) then D ∖ {[pid]} else D).
Proof.
  revert r D. induction acts as [|b acts IH]; intros r D Hi.
  - case_decide; [set_solver|done].
  - unfold unindex_actions. cbn [foldl]. fold (unindex_actions acts pid (unindex_action b pid r)).
    destruct (decide (a = b)) as [->|Hne].
    + apply (unindex_action_self b pid) in Hi. apply IH in Hi.
      rewrite (decide_True (P := b ∈ b :: acts)) by left.
      case_decide; [|done]. by replace (D ∖ {[pid]} ∖ {[pid]}) with (D ∖ {[pid]}) in Hi by set_solver.
    + apply (unindex_action_other b a pid) in Hi; [|done]. apply IH in Hi.
      destruct (decide (a ∈ acts)), (decide (a ∈ b :: acts)); set_solver.
Qed.

(** Fields the index operations leave alone. *)
Definition same_but_index (r r' : PluginRegistry) : Prop :=
  by_plugin_id r' = by_plugin_id r /\ by_conn_id r' = by_conn_id r /\
  pong_times r' = pong_times r /\ devices r' = devices r /\
  pending_actions r' = pending_actions r /\ action_requirements r' = action_requirements r.

Lemma index_actions_frame acts pid r : same_but_index r (index_actions acts pid r).
Proof.
  revert r. induction acts as [|b acts IH]; intros r; [done|].
  unfold index_actions. cbn [foldl]. fold (index_actions acts pid (index_action b pid r)).
  assert (same_but_index r (index_action b pid r)) as (?&?&?&?&?&?)
    by (unfold index_action; by split_cases).
  destruct (IH (index_action b pid r)) as (?&?&?&?&?&?).
  unfold same_but_index. split_and!; congruence.
Qed.

Lemma unindex_actions_frame acts pid r : same_but_index r (unindex_actions acts pid r).
Proof.
  revert r. induction acts as [|b acts IH]; intros r; [done|].
  unfold unindex_actions. cbn [foldl]. fold (unindex_actions acts pid (unindex_action b pid r)).
  assert (same_but_index r (unindex_action b pid r)) as (?&?&?&?&?&?)
    by (unfold unindex_action; by split_cases).
  destruct (IH (unindex_action b pid r)) as (?&?&?&?&?&?).
  unfold same_but_index. split_and!; congruence.
Qed.

(** The two index fields; the operations on them depend on nothing else. *)
Definition idx (r : PluginRegistry) := (action_index r, ambiguous_actions r).

Lemma index_action_cong a pid r r' :
  idx r = idx r' -> idx (index_action a pid r) = idx (index_action a pid r').
Proof.
  destruct r, r'. unfold idx, index_action. simpl. intros [= -> ->]. by split_cases.
Qed.

Lemma unindex_action_cong a pid r r' :
  idx r = idx r' -> idx (unindex_action a pid r) = idx (unindex_action a pid r').
Proof.
  destruct r as [? ? ? ? ? ? ix amb], r'. unfold idx, unindex_action. simpl. intros [= <- <-].
  destruct (amb !! a) as [ids|]; simpl.
  - destruct (filter _ ids) as [|? [|? ?]]; simpl; [|done|]; by case_match.
  - by case_match.
Qed.

Lemma index_actions_cong acts pid r r' :
  idx r = idx r' -> idx (index_actions acts pid r) = idx (index_actions acts pid r').
Proof.
  revert r r'. induction acts as [|b acts IH]; intros r r' Hi; [done|].
  by apply IH, index_action_cong.
Qed.

Lemma unindex_actions_cong acts pid r r' :
  idx r = idx r' -> idx (unindex_actions acts pid r) = idx (unindex_actions acts pid r').
Proof.
  revert r r'. induction acts as [|b acts IH]; intros r r' Hi; [done|].
  by apply IH, unindex_action_cong.
Qed.

Section Invariant.
Context `{WireCrate}.

(** ** The invariant *)

Record registry_ok (r : PluginRegistry) : Prop := mkRegistryOk {
  (** every connection maps to the entry registered on it *)
  rok_conn : forall cid pid, by_conn_id r !! cid = Some pid ->
    exists e, by_plugin_id r !! pid = Some e /\ conn_id e = cid;
  (** every entry sits under its own valid id and owns its connection *)
  rok_entry : forall pid e, by_plugin_id r !! pid = Some e ->
    plugin_id e = pid /\ by_conn_id r !! conn_id e = Some pid /\ validate_plugin_id pid = Ok tt;
  (** the watchdog has a pong time for every registered plugin *)
  rok_pong : dom (by_plugin_id r) ⊆ dom (pong_times r);
  (** the action index represents exactly the declared actions *)
  rok_index : forall a, indexed r a (declarers a (by_plugin_id r));
  (** every entry's device is recorded, under its own id *)
  rok_device : forall pid e, by_plugin_id r !! pid = Some e -> is_Some (devices r !! device_id e);
  rok_device_id : forall did d, devices r !! did = Some d -> dev_device_id d = did;
  (** a device is online exactly while one of its plugins is registered *)
  rok_online : forall did d, devices r !! did = Some d ->
    dev_state d = device_state_i32 (if bool_decide (map_Exists (fun _ e => device_id e = did) (by_plugin_id r))
                                    then StOnline else StOffline);
}.

Lemma registry_new_ok : registry_ok registry_new.
Proof.
  split; simpl; intros *; try (rewrite lookup_empty; done); [done|].
  unfold indexed. simpl. rewrite !lookup_empty. simpl.
  apply set_eq. intros x. rewrite elem_of_declarers.
  split; [intros (e & He & _); by rewrite lookup_empty in He|by intros ?%not_elem_of_empty].
Qed.

Lemma declarers_insert a pid e m :
  m !! pid = None ->
  declarers a (<[pid := e]> m) =
  (if decide (a ∈ actions (manifest e)) then declarers a m ∪ {[pid]} else declarers a m).
Proof.
  intros Hn. apply set_eq. intros x.
  assert (x ∈ declarers a (<[pid:=e]> m) <->
          (x = pid /\ a ∈ actions (manifest e)) \/ x ∈ declarers a m) as ->.
  { rewrite !elem_of_declarers. setoid_rewrite lookup_insert_Some.
    destruct (decide (x = pid)) as [->|Hne]; naive_solver. }
  case_decide; set_solver.
Qed.

Lemma declarers_delete a pid e m :
  m !! pid = Some e ->
  declarers a (delete pid m) =
  (if decide (a ∈ actions (manifest e)) then declarers a m ∖ {[pid]} else declarers a m).
Proof.
  intros Hs. apply set_eq. intros x.
  assert (x ∈ declarers a (delete pid m) <-> x <> pid /\ x ∈ declarers a m) as ->.
  { rewrite !elem_of_declarers. setoid_rewrite lookup_delete_Some. naive_solver. }
  case_decide as Ha; [set_solver|].
  split; [naive_solver|]. intros Hx. split; [|done]. intros ->.
  apply elem_of_declarers in Hx as (e' & He' & ?). naive_solver.
Qed.

Lemma exists_insert (pid : string) (e : PluginEntry) (m : gmap string PluginEntry) (did : string) :
  m !! pid = None ->
  map_Exists (fun _ e => device_id e = did) (<[pid := e]> m) <->
  device_id e = did \/ map_Exists (fun _ e => device_id e = did) m.
Proof.
  intros Hn. split.
  - intros (p & e' & Hp & ?). apply lookup_insert_Some in Hp as [[<- <-]|[? ?]]; [by left|].
    by right; exists p, e'.
  - intros [?|(p & e' & Hp & ?)].
    + exists pid, e. by rewrite lookup_insert_eq.
    + exists p, e'. rewrite lookup_insert_ne; naive_solver.
Qed.

Lemma upsert_device_lookup did meta caps now devs x :
  upsert_device did meta caps now devs !! x =
  if decide (x = did) then
    Some {| dev_device_id := match devs !! did with Some d => dev_device_id d | None => did end;
            dev_os := device_os_i32 (meta_os meta); dev_arch := meta_arch meta;
            dev_os_version := meta_os_version meta; dev_capabilities := caps;
            dev_last_seen := now; dev_state := device_state_i32 StOnline;
            dev_created := match devs !! did with Some d => dev_created d | None => 0 end;
            dev_expires := match devs !! did with Some d => dev_expires d | None => 0 end |}
  else devs !! x.
Proof.
  unfold upsert_device. destruct (devs !! did) as [d|];
    (destruct (decide (x = did)) as [->|Hne]; [by rewrite lookup_insert_eq|by rewrite lookup_insert_ne]).
Qed.

(** The common tail of the two registration functions. *)
Definition add_entry (clk : Clock) (entry : PluginEntry) (meta : DeviceMeta) (caps : list string)
    (r : PluginRegistry) : PluginRegistry :=
  let r := set_by_conn_id <[conn_id entry := plugin_id entry]> r in
  let r := index_actions (actions (manifest entry)) (plugin_id entry) r in
  let r := set_pong_times <[plugin_id entry := instant clk]> r in
  let r := set_devices (upsert_device (device_id entry) meta caps (unix_ms clk)) r in
  set_by_plugin_id <[plugin_id entry := entry]> r.

Lemma add_entry_fields clk entry meta caps r :
  by_plugin_id (add_entry clk entry meta caps r) = <[plugin_id entry := entry]> (by_plugin_id r) /\
  by_conn_id (add_entry clk entry meta caps r) = <[conn_id entry := plugin_id entry]> (by_conn_id r) /\
  pong_times (add_entry clk entry meta caps r) = <[plugin_id entry := instant clk]> (pong_times r) /\
  devices (add_entry clk entry meta caps r) =
    upsert_device (device_id entry) meta caps (unix_ms clk) (devices r) /\
  pending_actions (add_entry clk entry meta caps r) = pending_actions r /\
  action_requirements (add_entry clk entry meta caps r) = action_requirements r.
Proof.
  unfold add_entry. simpl.
  destruct (index_actions_frame (actions (manifest entry)) (plugin_id entry)
             (set_by_conn_id <[conn_id entry := plugin_id entry]> r)) as (->&->&->&->&->&->).
  done.
Qed.

Lemma add_entry_indexed clk entry meta caps r a D :
  indexed r a D ->
  indexed (add_entry clk entry meta caps r) a
    (if decide (a ∈ actions (manifest entry)) then D ∪ {[plugin_id entry]} else D).
Proof.
  intros Hi. unfold indexed, add_entry. simpl.
  by apply (index_actions_repr _ (plugin_id entry)
              (set_by_conn_id <[conn_id entry := plugin_id entry]> r)).
Qed.

Lemma add_entry_ok clk entry meta caps r :
  registry_ok r ->
  validate_plugin_id (plugin_id entry) = Ok tt ->
  by_conn_id r !! conn_id entry = None -> by_plugin_id r !! plugin_id entry = None ->
  registry_ok (add_entry clk entry meta caps r).
Proof.
  intros [Hc He Hp Hi Hd Hdi Ho] Hv Hnc Hnp.
  pose proof (add_entry_fields clk entry meta caps r) as (E1&E2&E3&E4&_&_).
  split; rewrite ?E1, ?E2, ?E3, ?E4.
  - intros cid pid. rewrite lookup_insert_Some.
    intros [[<- <-]|[Hne Hl]]; [exists entry; by rewrite lookup_insert_eq|].
    destruct (Hc _ _ Hl) as (e & Hle & <-). exists e. rewrite lookup_insert_ne; [done|]. congruence.
  - intros pid e. rewrite lookup_insert_Some.
    intros [[<- <-]|[Hne Hl]]; [by rewrite lookup_insert_eq|].
    destruct (He _ _ Hl) as (<- & Hl' & ?). split_and!; [done| |done].
    rewrite lookup_insert_ne; [done|]. congruence.
  - rewrite !dom_insert_L. set_solver.
  - intros a. rewrite declarers_insert by done. by apply add_entry_indexed.
  - intros pid e. rewrite upsert_device_lookup, lookup_insert_Some.
    intros [[<- <-]|[Hne Hl]]; [rewrite decide_True by done; eauto|].
    case_decide; eauto.
  - intros did d. rewrite upsert_device_lookup. case_decide as Hx; [|by apply Hdi].
    intros [= <-]. simpl. destruct (devices r !! device_id entry) eqn:E; [|done].
    subst. by eapply Hdi.
  - intros did d. rewrite upsert_device_lookup.
    rewrite (bool_decide_ext _ _ (exists_insert _ entry _ did Hnp)).
    case_decide as Hx.
    + intros [= <-]. simpl. rewrite bool_decide_eq_true_2; [done|]. by left.
    + intros Hl. rewrite (Ho _ _ Hl).
      rewrite (bool_decide_ext (device_id entry = did \/ _)
                 (map_Exists (fun _ e => device_id e = did) (by_plugin_id r))); [done|]. naive_solver.
Qed.

(** [registry_ok] does not constrain pending actions and requirements. *)
Definition same_core (r r' : PluginRegistry) : Prop :=
  by_plugin_id r' = by_plugin_id r /\ by_conn_id r' = by_conn_id r /\
  pong_times r' = pong_times r /\ devices r' = devices r /\ idx r' = idx r.

Lemma registry_ok_core r r' : same_core r r' -> registry_ok r -> registry_ok r'.
Proof.
  unfold same_core, idx. intros (E1&E2&E3&E4&[= E5 E6]) [].
  split; unfold indexed; rewrite ?E1, ?E2, ?E3, ?E4, ?E5, ?E6; done.
Qed.

Lemma register_with_device_add clk pid cid mf tx meta r r' :
  register_with_device clk pid cid mf tx meta r = (Ok tt, r') ->
  validate_plugin_id pid = Ok tt /\ by_conn_id r !! cid = None /\ by_plugin_id r !! pid = None /\
  exists e, r' = add_entry clk e meta (meta_capabilities meta) r /\
            plugin_id e = pid /\ conn_id e = cid /\ manifest e = mf /\ write_tx e = tx /\
            device_id e = or_default "local" (meta_device_id meta) /\
            user_id e = or_default "default" (meta_user_id meta).
Proof.
  unfold register_with_device. destruct (validate_plugin_id pid) as [[]|]; [|done].
  destruct (by_conn_id r !! cid); [done|]. destruct (by_plugin_id r !! pid); [done|].
  intros [= <-]. split_and!; [done..|].
  by exists (mkEntry pid cid mf tx (unix_secs clk) Registered
               (or_default "local" (meta_device_id meta)) (or_default "default" (meta_user_id meta))).
Qed.

Lemma register_device_add clk did cid caps mf tx meta r r' :
  register_device clk did cid caps mf tx meta r = (Ok tt, r') ->
  validate_plugin_id did = Ok tt /\ by_conn_id r !! cid = None /\ by_plugin_id r !! did = None /\
  exists e, r' = add_entry clk e meta caps r /\
            plugin_id e = did /\ conn_id e = cid /\
            manifest e = with_actions (map (fun c => did +:+ "." +:+ c) caps) mf /\
            write_tx e = tx /\ device_id e = or_default did (meta_device_id meta) /\
            user_id e = or_default "default" (meta_user_id meta).
Proof.
  unfold register_device. destruct (validate_plugin_id did) as [[]|]; [|done].
  destruct (by_conn_id r !! cid); [done|]. destruct (by_plugin_id r !! did); [done|].
  intros [= <-]. split_and!; [done..|].
  by exists (mkEntry did cid (with_actions (map (fun c => did +:+ "." +:+ c) caps) mf) tx
               (unix_secs clk) Registered
               (or_default did (meta_device_id meta)) (or_default "default" (meta_user_id meta))).
Qed.

Lemma register_with_device_err clk pid cid mf tx meta r e r' :
  register_with_device clk pid cid mf tx meta r = (Err e, r') -> r' = r.
Proof. unfold register_with_device. intros Hr. split_cases_in Hr. Qed.

Lemma register_device_err clk did cid caps mf tx meta r e r' :
  register_device clk did cid caps mf tx meta r = (Err e, r') -> r' = r.
Proof. unfold register_device. intros Hr. split_cases_in Hr. Qed.

Lemma register_with_device_ok clk pid cid mf tx meta r :
  registry_ok r -> registry_ok (register_with_device clk pid cid mf tx meta r).2.
Proof.
  intros Hr. destruct (register_with_device clk pid cid mf tx meta r) as [[[]|e] r'] eqn:E; simpl.
  - apply register_with_device_add in E as (?&?&?&e&->&<-&<-&?). by apply add_entry_ok.
  - by apply register_with_device_err in E as ->.
Qed.

Lemma register_device_ok clk did cid caps mf tx meta r :
  registry_ok r -> registry_ok (register_device clk did cid caps mf tx meta r).2.
Proof.
  intros Hr. destruct (register_device clk did cid caps mf tx meta r) as [[[]|e] r'] eqn:E; simpl.
  - apply register_device_add in E as (?&?&?&e&->&<-&<-&?). by apply add_entry_ok.
  - by apply register_device_err in E as ->.
Qed.

(** The registry after [unregister] of a registered plugin, field by field. *)
Lemma unregister_fields pid e r :
  by_plugin_id r !! pid = Some e ->
  by_plugin_id (unregister pid r) = delete pid (by_plugin_id r) /\
  by_conn_id (unregister pid r) = delete (conn_id e) (by_conn_id r) /\
  pong_times (unregister pid r) = delete pid (pong_times r) /\
  devices (unregister pid r) =
    (if bool_decide (map_Exists (fun _ e' => device_id e' = device_id e) (delete pid (by_plugin_id r)))
     then devices r else alter (set_device_state StOffline) (device_id e) (devices r)) /\
  pending_actions (unregister pid r) = pending_actions r /\
  action_requirements (unregister pid r) = delete pid (action_requirements r) /\
  idx (unregister pid r) = idx (unindex_actions (actions (manifest e)) pid r).
Proof.
  intros He. unfold unregister. rewrite He.
  set (r1 := clear_action_requirements pid (set_pong_times (delete pid)
               (set_by_conn_id (delete (conn_id e)) (set_by_plugin_id (delete pid) r)))).
  destruct (unindex_actions_frame (actions (manifest e)) pid r1) as (E1&E2&E3&E4&E5&E6).
  assert (idx (unindex_actions (actions (manifest e)) pid r1) =
          idx (unindex_actions (actions (manifest e)) pid r)) as E7
    by by apply unindex_actions_cong.
  rewrite E1. simpl. case_bool_decide; unfold idx in *; simpl in *;
    rewrite ?E1, ?E2, ?E3, ?E4, ?E5, ?E6; done.
Qed.

Lemma exists_delete (pid : string) e (m : gmap string PluginEntry) did :
  m !! pid = Some e -> device_id e <> did ->
  map_Exists (fun _ e => device_id e = did) (delete pid m) <->
  map_Exists (fun _ e => device_id e = did) m.
Proof.
  intros He Hne. split.
  - intros (p & e' & [_ Hp]%lookup_delete_Some & ?). by exists p, e'.
  - intros (p & e' & Hp & ?). exists p, e'. split; [|done].
    rewrite lookup_delete_Some. split; [|done]. intros ->. naive_solver.
Qed.

Lemma unregister_ok pid r : registry_ok r -> registry_ok (unregister pid r).
Proof.
  intros Hr. destruct (by_plugin_id r !! pid) as [e|] eqn:He; [|by unfold unregister; rewrite He].
  destruct (unregister_fields pid e r He) as (E1&E2&E3&E4&_&_&E7).
  destruct Hr as [Hc Hen Hp Hi Hd Hdi Ho]. destruct (Hen _ _ He) as (Hpid & Hce & _).
  split; rewrite ?E1, ?E2, ?E3, ?E4.
  - intros cid p [Hne Hl]%lookup_delete_Some. destruct (Hc _ _ Hl) as (e' & Hl' & <-).
    exists e'. split; [|done]. rewrite lookup_delete_Some. split; [|done]. naive_solver.
  - intros p e' [Hne Hl]%lookup_delete_Some. destruct (Hen _ _ Hl) as (<- & Hl' & ?).
    split_and!; [done| |done]. rewrite lookup_delete_Some. split; [|done].
    intros Heq. rewrite Heq in Hce. naive_solver.
  - rewrite !dom_delete_L. set_solver.
  - intros a. rewrite (declarers_delete _ _ _ _ He).
    unfold indexed. injection E7 as -> ->. by apply unindex_actions_repr.
  - intros p e' [Hne Hl]%lookup_delete_Some. specialize (Hd _ _ Hl).
    case_bool_decide; [done|]. rewrite lookup_alter.
    case_decide as Hq; [rewrite Hq; by apply fmap_is_Some|done].
  - intros did d. case_bool_decide; [by apply Hdi|]. rewrite lookup_alter.
    case_decide as Hq; [|by apply Hdi]. rewrite fmap_Some. intros (d' & Hl & ->). simpl.
    rewrite Hq in Hl. by apply Hdi.
  - intros did d. destruct (decide (device_id e = did)) as [Heq|Hne].
    + subst did. case_bool_decide as Hx.
      * intros Hl. rewrite (Ho _ _ Hl), bool_decide_eq_true_2; [done|]. by exists pid, e.
      * rewrite lookup_alter, decide_True by done. rewrite fmap_Some. by intros (d' & Hl & ->).
    + rewrite (bool_decide_ext _ _ (exists_delete _ _ _ did He Hne)).
      intros Hl. apply Ho. revert Hl. case_bool_decide; [done|].
      by rewrite lookup_alter, decide_False.
Qed.

Lemma record_pong_ok clk pid r : registry_ok r -> registry_ok (record_pong clk pid r).
Proof.
  intros Hr. pose proof Hr as [Hc Hen Hp Hi Hd Hdi Ho]. unfold record_pong. simpl.
  destruct (by_plugin_id r !! pid) as [e|] eqn:He.
  - split; simpl; try done.
    + rewrite dom_insert_L. set_solver.
    + intros p e' Hl. specialize (Hd _ _ Hl). rewrite lookup_alter.
      case_decide as Hx; [rewrite Hx; by apply fmap_is_Some|done].
    + intros did d. rewrite lookup_alter. case_decide as Hx; [|by apply Hdi].
      rewrite fmap_Some. intros (d' & Hl & ->). simpl. rewrite Hx in Hl. by apply Hdi.
    + intros did d. rewrite lookup_alter. case_decide as Hx; [|by apply Ho].
      rewrite fmap_Some. intros (d' & Hl & ->). simpl. f_equal.
      rewrite bool_decide_eq_true_2; [done|]. by exists pid, e.
  - split; simpl; try done. rewrite dom_insert_L. set_solver.
Qed.

(** ** Sweeps of the pending actions *)

Context `{HashIter}.

Lemma take_all_spec keys r :
  NoDup keys ->
  (take_all keys r).2 = set_pending (fun m => filter (fun kv => kv.1 ∉ keys) m) r /\
  (forall k p, (k, p) ∈ (take_all keys r).1 <-> k ∈ keys /\ pending_actions r !! k = Some p) /\
  NoDup ((take_all keys r).1).*1.
Proof.
  revert r. induction keys as [|k keys IH]; intros r Hnd; simpl.
  - split_and!; [|set_solver|apply NoDup_nil_2].
    destruct r. unfold set_pending. simpl. f_equal. symmetry. apply map_filter_id. set_solver.
  - apply NoDup_cons in Hnd as [Hk Hnd].
    destruct (take_all keys (set_pending (delete k) r)) as [l r''] eqn:E.
    specialize (IH (set_pending (delete k) r) Hnd) as (E1 & E2 & E3). rewrite E in E1, E2, E3.
    simpl in *. split_and!.
    + rewrite E1. unfold set_pending. simpl. f_equal. apply map_eq. intros x. apply option_eq.
      intros p. rewrite !map_lookup_filter_Some, lookup_delete_Some. set_solver.
    + intros x p. rewrite elem_of_cons. setoid_rewrite lookup_delete_Some in E2.
      destruct (pending_actions r !! k) as [q|] eqn:Hq;
        rewrite ?elem_of_cons, E2; (destruct (decide (x = k)) as [->|]; naive_solver).
    + destruct (pending_actions r !! k) as [q|] eqn:Hq; [|done]. simpl.
      apply NoDup_cons. split; [|done]. rewrite list_elem_of_fmap.
      intros ([x p] & -> & Hx). simpl in *. apply E2 in Hx as [_ Hx].
      by rewrite lookup_delete_eq in Hx.
Qed.

Lemma take_all_core keys r : same_core r (take_all keys r).2.
Proof.
  revert r. induction keys as [|k keys IH]; intros r; [done|]. simpl.
  specialize (IH (set_pending (delete k) r)).
  by destruct (take_all keys (set_pending (delete k) r)).
Qed.

(** The keys a sweep collects: those of the entries that satisfy [f]. *)
Lemma sweep_keys (f : PendingAction -> bool) (m : gmap string PendingAction) :
  NoDup (filter (fun kp => f kp.2 = true) (map_iter m)).*1 /\
  forall k, k ∈ (filter (fun kp => f kp.2 = true) (map_iter m)).*1 <->
            exists p, m !! k = Some p /\ f p = true.
Proof.
  split.
  - apply map_iter_filter_NoDup.
  - intros k. rewrite list_elem_of_fmap. setoid_rewrite list_elem_of_filter. split.
    + intros ([k' p] & -> & ? & ?%elem_of_map_iter). eauto.
    + intros (p & ?%elem_of_map_iter & ?). by exists (k, p).
Qed.

Lemma sweep_spec (f : PendingAction -> bool) r :
  let keys := (filter (fun kp => f kp.2 = true) (map_iter (pending_actions r))).*1 in
  (take_all keys r).2 = set_pending (fun m => filter (fun kv => f kv.2 = false) m) r /\
  (forall k p, (k, p) ∈ (take_all keys r).1 <-> pending_actions r !! k = Some p /\ f p = true) /\
  NoDup ((take_all keys r).1).*1.
Proof.
  intros keys. destruct (sweep_keys f (pending_actions r)) as [Hnd Hk].
  fold keys in Hnd, Hk. destruct (take_all_spec keys r Hnd) as (E1 & E2 & E3).
  split_and!; [|intros k p; rewrite E2, Hk; naive_solver|done].
  rewrite E1. unfold set_pending. f_equal. apply map_filter_ext. simpl. intros k p Hp.
  rewrite Hk. rewrite <- not_true_iff_false. naive_solver.
Qed.

(** ** Reachable registries *)

Inductive registry_step (r : PluginRegistry) : PluginRegistry -> Prop :=
| step_register clk pid cid mf tx meta :
    registry_step r (register_with_device clk pid cid mf tx meta r).2
| step_register_device clk did cid caps mf tx meta :
    registry_step r (register_device clk did cid caps mf tx meta r).2
| step_unregister pid : registry_step r (unregister pid r)
| step_pong clk pid : registry_step r (record_pong clk pid r)
| step_requirements pid reqs : registry_step r (set_action_requirements pid reqs r)
| step_pending iid p : registry_step r (register_pending_action iid p r)
| step_take iid : registry_step r (take_pending_action iid r).2
| step_take_if iid prov : registry_step r (take_pending_action_if_provider iid prov r).2
| step_resolve now iid prov ok : registry_step r (resolve_action_response now iid prov ok r).2
| step_touch now iid : registry_step r (touch_pending_action now iid r)
| step_sweep_idle now timeout : registry_step r (sweep_idle_sessions now timeout r).2
| step_sweep_expired now : registry_step r (sweep_expired_actions now r).2.

Definition registry_reachable : PluginRegistry -> Prop := rtc registry_step registry_new.

Lemma take_if_core iid prov r : same_core r (take_pending_action_if_provider iid prov r).2.
Proof. unfold take_pending_action_if_provider. by split_cases. Qed.

Lemma resolve_core now iid prov ok r : same_core r (resolve_action_response now iid prov ok r).2.
Proof. unfold resolve_action_response. by split_cases. Qed.

Lemma sweep_expired_core now r : same_core r (sweep_expired_actions now r).2.
Proof.
  unfold sweep_expired_actions. set (keys := _.*1).
  pose proof (take_all_core keys r). by destruct (take_all keys r).
Qed.

Lemma registry_step_ok r r' : registry_step r r' -> registry_ok r -> registry_ok r'.
Proof.
  intros Hs Hr. destruct Hs; eauto using register_with_device_ok, register_device_ok,
    unregister_ok, record_pong_ok; (eapply registry_ok_core; [|exact Hr]); try done;
    auto using take_if_core, resolve_core, take_all_core, sweep_expired_core.
  apply take_all_core.
Qed.

Lemma reachable_ok r : registry_reachable r -> registry_ok r.
Proof. revert r. apply rtc_ind_r; eauto using registry_new_ok, registry_step_ok. Qed.

(** ** The index refines a scan of the registered plugins *)

(** The O(n) lookup the index replaces. *)
Definition scan_action_provider (action : string) (r : PluginRegistry) : ActionLookup :=
  match filter (fun e => action ∈ actions (manifest e)) (list_entries r) with
  | [] => NotFound
  | [e] => Found e
  | es => Ambiguous (map plugin_id es)
  end.

(** Lookups agree up to the order of the candidate list. *)
Inductive lookup_equiv : ActionLookup -> ActionLookup -> Prop :=
| leq_notfound : lookup_equiv NotFound NotFound
| leq_found e : lookup_equiv (Found e) (Found e)
| leq_ambiguous ids ids' : ids ≡ₚ ids' -> lookup_equiv (Ambiguous ids) (Ambiguous ids').

#[export] Instance lookup_equiv_equivalence : Equivalence lookup_equiv.
Proof.
  split.
  - intros []; by constructor.
  - intros ? ? []; by constructor.
  - intros x y z Hxy Hyz. inversion Hxy; subst; inversion Hyz; subst; constructor. by etrans.
Qed.

Lemma list_entries_spec r e :
  registry_ok r -> e ∈ list_entries r <-> by_plugin_id r !! plugin_id e = Some e.
Proof.
  intros Hr. unfold list_entries. rewrite list_elem_of_fmap. split.
  - intros ([k e'] & -> & Hk%elem_of_map_iter). simpl.
    by destruct (rok_entry _ Hr _ _ Hk) as (-> & _).
  - intros He. exists (plugin_id e, e). by rewrite elem_of_map_iter.
Qed.

Lemma list_entries_ids r : registry_ok r -> map plugin_id (list_entries r) = (map_iter (by_plugin_id r)).*1.
Proof.
  intros Hr. unfold list_entries. rewrite map_map. apply map_ext_in. intros [k e] Hin. simpl.
  apply list_elem_of_In, elem_of_map_iter in Hin. by destruct (rok_entry _ Hr _ _ Hin) as (-> & _).
Qed.

Lemma scan_ids r a :
  registry_ok r ->
  let es := filter (fun e => a ∈ actions (manifest e)) (list_entries r) in
  NoDup (map plugin_id es) /\ list_to_set (map plugin_id es) = declarers a (by_plugin_id r).
Proof.
  intros Hr es. split.
  - apply (sublist_NoDup _ (map plugin_id (list_entries r))); [|apply fmap_sublist, sublist_filter].
    rewrite list_entries_ids by done. apply map_iter_NoDup.
  - apply set_eq. intros x. rewrite elem_of_list_to_set, list_elem_of_fmap, elem_of_declarers.
    unfold es. setoid_rewrite list_elem_of_filter. setoid_rewrite (list_entries_spec r); [|done].
    split; [intros (e & -> & ? & ?); eauto|].
    intros (e & He & Ha). exists e. by destruct (rok_entry _ Hr _ _ He) as (-> & _).
Qed.

Lemma NoDup_list_to_set_perm (l k : list string) :
  NoDup l -> NoDup k -> (list_to_set l : gset string) = list_to_set k -> l ≡ₚ k.
Proof.
  intros Hl Hk Heq. apply NoDup_Permutation; [done..|]. intros x.
  by rewrite <- !(elem_of_list_to_set (C := gset string)), Heq.
Qed.

(** Two lists of distinct ids with the same set: the shape of one decides
    the other's. *)
Lemma find_scan_equiv r a :
  registry_ok r -> lookup_equiv (find_action_provider a r) (scan_action_provider a r).
Proof.
  intros Hr. pose proof (rok_index _ Hr a) as Hi. destruct (scan_ids r a Hr) as [Hnd Hset].
  unfold find_action_provider, scan_action_provider, indexed, slot_repr in *.
  set (es := filter (fun e => a ∈ actions (manifest e)) (list_entries r)) in *.
  rewrite <- Hset in Hi.
  assert (forall e, e ∈ es -> by_plugin_id r !! plugin_id e = Some e) as He.
  { intros e [_ He]%list_elem_of_filter. by apply list_entries_spec. }
  clearbody es.
  destruct (ambiguous_actions r !! a) as [ids|]; destruct (action_index r !! a) as [p|]; try done.
  - destruct Hi as (Hn & Hlen & Heq). apply NoDup_list_to_set_perm in Heq; [|done..].
    pose proof (Permutation_length Heq) as Hl. rewrite length_map in Hl.
    destruct es as [|e1 [|e2 es']]; simpl in *; [lia..|]. by constructor.
  - assert (map plugin_id es ≡ₚ [p]) as Hp%Permutation_singleton_r.
    { apply NoDup_list_to_set_perm; [done|apply NoDup_singleton|]. rewrite Hi. set_solver. }
    destruct es as [|e [|e2 es']]; simplify_eq/=. rewrite He by left. constructor.
  - destruct es; simpl in *; [constructor|set_solver].
Qed.

(** Registries with the same plugins answer every lookup alike. *)
Lemma scan_same_plugins r r' a :
  by_plugin_id r = by_plugin_id r' -> scan_action_provider a r = scan_action_provider a r'.
Proof. intros Heq. unfold scan_action_provider, list_entries. by rewrite Heq. Qed.

End Invariant.
