(* ===== verification/RegistryProps.v ===== *)
(** * What the registry promises

    The theorems on [PluginRegistry] that the rest of the kernel and its
    operators rely on, each with a run of the registry that exercises it. *)

From S2P Require Import Prelude Wire Toy Channel Registry RegistryFacts.

Open Scope Z_scope.

Section Props.
Context `{WireCrate} `{HashIter}.

(** C4: every registry the kernel can reach from the empty one, by any
    sequence of registrations, disconnects, pongs, requirement updates and
    pending-action operations, satisfies the invariant: the plugin and
    connection maps are inverse to each other, ids are valid, the action
    index represents exactly the declared actions, every plugin's device is
    recorded and a device is online exactly while one of its plugins is
    registered. *)
Theorem registry_invariant r : registry_reachable r -> registry_ok r.
Proof. apply reachable_ok. Qed.

(** C15: in every reachable registry the indexed lookup [find_action_provider]
    gives the same answer as a scan over all registered plugins; when
    several plugins declare the action, the same candidates up to order. *)
Theorem find_action_provider_refines_scan r a :
  registry_reachable r -> lookup_equiv (find_action_provider a r) (scan_action_provider a r).
Proof. intros Hr. by apply find_scan_equiv, reachable_ok. Qed.

(** [register_with_device] fails exactly for an invalid id, a connection
    that already has a plugin or a taken id, in that order, and then leaves
    the registry as it was; otherwise the plugin is found by id and by
    connection, its device record carries the registration's metadata and
    no other plugin or connection is touched. *)
Theorem register_with_device_spec clk pid cid mf tx meta r :
  match register_with_device clk pid cid mf tx meta r with
  | (Err e, r') =>
      r' = r /\
      (validate_plugin_id pid = Err e \/
       validate_plugin_id pid = Ok tt /\
       ((is_registered cid r = true /\
         e = EPluginAlreadyRegistered
               ("connection " +:+ show cid +:+ " already has a registered plugin")) \/
        (is_registered cid r = false /\ is_Some (get pid r) /\ e = EPluginAlreadyRegistered pid)))
  | (Ok _, r') =>
      validate_plugin_id pid = Ok tt /\ is_registered cid r = false /\ get pid r = None /\
      exists en dev,
        get pid r' = Some en /\ get_by_conn_id cid r' = Some en /\
        plugin_id en = pid /\ conn_id en = cid /\ manifest en = mf /\ write_tx en = tx /\
        get_device (device_id en) r' = Some dev /\ dev_arch dev = meta_arch meta /\
        dev_capabilities dev = meta_capabilities meta /\
        dev_state dev = device_state_i32 StOnline /\
        (forall p, p <> pid -> get p r' = get p r) /\
        (forall c, c <> cid -> by_conn_id r' !! c = by_conn_id r !! c) /\
        pending_actions r' = pending_actions r
  end.
Proof.
  destruct (register_with_device clk pid cid mf tx meta r) as [[[]|e] r'] eqn:E.
  - apply register_with_device_add in E as (Hv & Hc & Hp & en & -> & <- & <- & <- & <- & Hd & _).
    unfold is_registered, get, get_by_conn_id, get_device. rewrite Hc, Hp.
    destruct (add_entry_fields clk en meta (meta_capabilities meta) r) as (->&->&_&->&->&_).
    split_and!; [done..|]. eexists en, _.
    rewrite !lookup_insert_eq. simpl. rewrite lookup_insert_eq, upsert_device_lookup, decide_True by done.
    split_and!; try done; intros; by rewrite lookup_insert_ne.
  - pose proof (register_with_device_err _ _ _ _ _ _ _ _ _ E) as ->. split; [done|].
    revert E. unfold register_with_device, is_registered, get.
    destruct (validate_plugin_id pid) as [[]|e'] eqn:Hv; [|intros [= ->]; by left].
    intros E. right. split; [done|].
    destruct (by_conn_id r !! cid); [simplify_eq; by left|].
    destruct (by_plugin_id r !! pid); simplify_eq. right. eauto.
Qed.

(** Unregistering a plugin right after its registration undoes it: the
    plugin, connection and pending maps are those of before, every action
    lookup answers as before, and the device is offline unless another
    plugin of it is still registered. *)
Theorem register_unregister_roundtrip clk pid cid mf tx meta r r1 :
  registry_reachable r ->
  register_with_device clk pid cid mf tx meta r = (Ok tt, r1) ->
  let r2 := unregister pid r1 in
  by_plugin_id r2 = by_plugin_id r /\ by_conn_id r2 = by_conn_id r /\
  pending_actions r2 = pending_actions r /\
  (forall a, lookup_equiv (find_action_provider a r2) (find_action_provider a r)) /\
  (forall d, devices r2 !! or_default "local" (meta_device_id meta) = Some d ->
     dev_state d = device_state_i32
       (if bool_decide (map_Exists (fun _ e => device_id e = or_default "local" (meta_device_id meta))
                          (by_plugin_id r)) then StOnline else StOffline)).
Proof.
  intros Hr E r2.
  assert (registry_ok r2) as Hok2.
  { apply unregister_ok. pose proof (register_with_device_ok clk pid cid mf tx meta r (reachable_ok r Hr)).
    by rewrite E in *. }
  apply register_with_device_add in E as (_ & Hc & Hp & en & -> & <- & <- & _ & _ & Hd & _).
  destruct (add_entry_fields clk en meta (meta_capabilities meta) r) as (E1&E2&_&_&E5&_).
  destruct (unregister_fields (plugin_id en) en (add_entry clk en meta (meta_capabilities meta) r))
    as (F1&F2&_&_&F5&_); [by rewrite E1, lookup_insert_eq|].
  fold r2 in F1, F2, F5. rewrite E1, delete_insert_id in F1 by done.
  rewrite E2, delete_insert_id in F2 by done. rewrite E5 in F5. split_and!; try done.
  - intros a. rewrite (find_scan_equiv r2 a Hok2), (find_scan_equiv r a (reachable_ok r Hr)).
    by rewrite (scan_same_plugins r2 r a F1).
  - intros d Hl. rewrite (rok_online _ Hok2 _ _ Hl). by rewrite F1.
Qed.

(** The resolution of an action response.  A response to an unknown id,
    or from a plugin the action was not routed to, changes nothing; the
    provider's accepting response to a streaming request keeps the slot,
    marked accepted; any other response of the provider removes the slot,
    so a second response to the same id is refused. *)
Theorem resolve_action_response_spec now iid prov ok r :
  let '(res, r') := resolve_action_response now iid prov ok r in
  match get_pending_action iid r with
  | None => res = None /\ r' = r
  | Some p =>
      if provider_id p <>? prov then res = None /\ r' = r
      else if ok && streaming p then
        res = Some (accept_session now p) /\
        get_pending_action iid r' = Some (accept_session now p)
      else res = Some p /\ get_pending_action iid r' = None /\
           forall now' prov' ok', (resolve_action_response now' iid prov' ok' r').1 = None
  end /\
  forall k, k <> iid -> get_pending_action k r' = get_pending_action k r.
Proof.
  unfold resolve_action_response, get_pending_action.
  destruct (pending_actions r !! iid) as [p|] eqn:Hp; [|done].
  destruct (bool_decide (provider_id p = prov)) eqn:Hprov; simpl; [|done].
  destruct (ok && streaming p); simpl.
  - split; [by rewrite lookup_insert_eq|]. intros k Hk. by rewrite lookup_insert_ne.
  - rewrite lookup_delete_eq. split; [done|]. intros k Hk. by rewrite lookup_delete_ne.
Qed.

(** The two sweeps of the pending actions are exact and disjoint: each
    returns exactly the entries it is meant for and leaves the others in
    place, an accepted session is never swept by its deadline, and a
    request that is not accepted is never swept for idleness. *)
Theorem sweeps_exact_disjoint now timeout r :
  (forall k p, (k, p) ∈ (sweep_idle_sessions now timeout r).1 <->
     get_pending_action k r = Some p /\ session_accepted p = true /\
     timeout < duration_since now (last_activity p)) /\
  (forall k p, get_pending_action k (sweep_idle_sessions now timeout r).2 = Some p <->
     get_pending_action k r = Some p /\ is_idle now timeout p = false) /\
  (forall p, p ∈ (sweep_expired_actions now r).1 <->
     exists k, get_pending_action k r = Some p /\ session_accepted p = false /\ deadline p <= now) /\
  (forall k p, get_pending_action k (sweep_expired_actions now r).2 = Some p <->
     get_pending_action k r = Some p /\ is_expired now p = false) /\
  (forall p, is_idle now timeout p && is_expired now p = false).
Proof.
  unfold sweep_idle_sessions, sweep_expired_actions, get_pending_action.
  destruct (sweep_spec (is_idle now timeout) r) as (I1 & I2 & _).
  destruct (sweep_spec (is_expired now) r) as (X1 & X2 & _).
  destruct (take_all (filter (fun kp => is_expired now kp.2 = true) (map_iter (pending_actions r))).*1 r)
    as [l r'] eqn:E. simpl in *. rewrite I1, X1. split_and!.
  - intros k p. rewrite I2. unfold is_idle. rewrite andb_true_iff, Z.ltb_lt. done.
  - intros k p. simpl. by rewrite map_lookup_filter_Some.
  - intros p. rewrite list_elem_of_fmap. unfold is_expired in X2.
    setoid_rewrite andb_true_iff in X2. setoid_rewrite negb_true_iff in X2.
    setoid_rewrite Z.leb_le in X2. split.
    + intros ([k q] & -> & Hq). exists k. by apply X2.
    + intros (k & Hk). exists (k, p). split; [done|]. by apply X2.
  - intros k p. simpl. by rewrite map_lookup_filter_Some.
  - intros p. unfold is_idle, is_expired. destruct (session_accepted p); simpl; [|done].
    apply andb_false_r.
Qed.

(** The concurrency count of a caller against a provider is the number
    of in-flight actions between them, and a reverse lookup of the caller's
    own action id returns a slot of that caller with that id whenever there
    is one. *)
Theorem pending_scans_spec req prov orig r :
  (Z.of_nat (size (pending_actions r)) < 2 ^ 32 ->
   count_pending_actions_for req prov r =
   Z.of_nat (size (filter (fun kp : string * PendingAction =>
                             requester_id kp.2 = req /\ provider_id kp.2 = prov)
                          (pending_actions r)))) /\
  match find_pending_internal_id req orig r with
  | Some iid => exists p, get_pending_action iid r = Some p /\ requester_id p = req /\
                          original_action_id p = orig
  | None => forall iid p, get_pending_action iid r = Some p ->
                          ~ (requester_id p = req /\ original_action_id p = orig)
  end.
Proof.
  split.
  - intros Hsz. unfold count_pending_actions_for, as_u32.
    set (P := fun kp : string * PendingAction => requester_id kp.2 = req /\ provider_id kp.2 = prov).
    rewrite map_iter_filter_size. apply Z.mod_small. split; [lia|].
    pose proof (map_size_filter P (pending_actions r)). lia.
  - unfold find_pending_internal_id, get_pending_action.
    set (l := filter _ _).
    assert (forall kp, kp ∈ l <-> (requester_id kp.2 = req /\ original_action_id kp.2 = orig) /\
                                  pending_actions r !! kp.1 = Some kp.2) as Hl.
    { intros [k p]. unfold l. by rewrite list_elem_of_filter, elem_of_map_iter. }
    clearbody l. destruct l as [|[k p] l]; simpl.
    + intros iid p Hp Hq. by apply (not_elem_of_nil (iid, p)), Hl.
    + exists p. destruct (Hl (k, p)) as [Hk _]. destruct Hk as [? ?]; [left|done].
Qed.

(** An action requirement set at boot does not survive a reconnect: once
    the provider unregisters and registers again (on any connection), the
    registry reports no requirement for any of its actions. *)
Theorem requirement_lost_on_reconnect clk pid cid mf tx meta r r' a :
  is_Some (get pid r) ->
  register_with_device clk pid cid mf tx meta (unregister pid r) = (Ok tt, r') ->
  action_requirement pid a r' = None.
Proof.
  intros [e He] E. destruct (unregister_fields pid e r He) as (_&_&_&_&_&E6&_).
  apply register_with_device_add in E as (_ & _ & _ & en & -> & _).
  unfold action_requirement.
  destruct (add_entry_fields clk en meta (meta_capabilities meta) (unregister pid r))
    as (_&_&_&_&_&->). by rewrite E6, lookup_delete_eq.
Qed.

End Props.

(** ** Runs of the registry *)

Module Runs.

#[local] Instance wire : WireCrate := toy_wire [].
#[local] Instance iter : HashIter := canonical_iter.

Definition clk : Clock := mkClock 10 1700000000000.
Definition meta : DeviceMeta := mkDeviceMeta "desk" "" OsLinux "x86_64" "6.1" ["mic"].
Definition mf (acts : list string) : PluginManifest := mkManifest ["network"] acts [] [] [] [].

(** Two plugins of one device; both declare [speak]. *)
Definition r1 := (register_with_device clk "tts" 1 (mf ["speak"]) 101 meta registry_new).2.
Definition r2 := (register_with_device clk "sherpa" 2 (mf ["speak"; "listen"]) 102 meta r1).2.

Lemma r1_reachable : registry_reachable r1.
Proof. apply rtc_once, step_register. Defined.

Lemma r2_reachable : registry_reachable r2.
Proof. eapply rtc_r; [apply r1_reachable|]. apply step_register. Defined.

Lemma registry_invariant_witness :
  registry_reachable r2 /\ registry_ok r2 /\ by_conn_id r2 !! 2 = Some "sherpa".
Proof.
  split_and!; [apply r2_reachable| |vm_compute; reflexivity].
  apply registry_invariant, r2_reachable.
Defined.

Lemma find_action_provider_witness :
  find_action_provider "speak" r2 = Ambiguous ["tts"; "sherpa"] /\
  lookup_equiv (find_action_provider "speak" r2) (scan_action_provider "speak" r2).
Proof.
  split; [vm_compute; reflexivity|].
  apply find_action_provider_refines_scan, r2_reachable.
Defined.

Lemma roundtrip_witness :
  find_action_provider "speak" r2 = Ambiguous ["tts"; "sherpa"] /\
  by_plugin_id (unregister "sherpa" r2) = by_plugin_id r1.
Proof.
  split; [vm_compute; reflexivity|].
  apply (register_unregister_roundtrip clk "sherpa" 2 (mf ["speak"; "listen"]) 102 meta r1 r2);
    [apply r1_reachable|vm_compute; reflexivity].
Defined.

(** [tts] requires the permission 5 (network) for [speak], set at boot. *)
Definition r3 := set_action_requirements "tts" {["speak" := 5]} r1.
Definition r4 := (register_with_device clk "tts" 7 (mf ["speak"]) 107 meta (unregister "tts" r3)).2.

Lemma requirement_lost_witness :
  action_requirement "tts" "speak" r3 = Some 5 /\ action_requirement "tts" "speak" r4 = None.
Proof.
  split; [vm_compute; reflexivity|].
  apply (requirement_lost_on_reconnect clk "tts" 7 (mf ["speak"]) 107 meta r3 r4);
    [by vm_compute; eauto|vm_compute; reflexivity].
Defined.

Lemma pending_scans_witness :
  let r := register_pending_action "kact-0" (mkPending 101 "a" "sherpa" 50 "tts" false false 10) r2 in
  count_pending_actions_for "sherpa" "tts" r = 1 /\
  count_pending_actions_for "sherpa" "tts" r =
  Z.of_nat (size (filter (fun kp : string * PendingAction =>
                            requester_id kp.2 = "sherpa" /\ provider_id kp.2 = "tts")
                         (pending_actions r))).
Proof.
  intros r. split; [vm_compute; reflexivity|].
  apply (pending_scans_spec "sherpa" "tts" "a" r). vm_compute. reflexivity.
Defined.

End Runs.
