(* ===== verification/Races.v ===== *)
(** * The registry under concurrency

    [PluginRegistry] has no lock of its own: [register_with_device],
    [register_device] and [unregister] ([plugins/registry.rs]) are sequences
    of operations on its [DashMap]s, and the router, the disconnect loops,
    the bridge and the REST handlers call them from different tasks.  Here
    each of them is a thread whose steps are the single map operations, with
    the shard locks that the vacant entries of a registration hold from one
    step to the next.  Alone, a thread computes what [Registry] computes; in
    every interleaving the two identity maps stay consistent; the action
    index and the device states do not. *)

From S2P Require Import Prelude Wire Toy Channel Registry RegistryFacts.

Open Scope Z_scope.

(** How the keys of the two identity maps fall into shards. *)
Class Sharding := {
  shards : nat;
  shard : string -> nat;
  conn_shard : Z -> nat;
  shard_lt pid : (shard pid < shards)%nat;
}.

Section Threads.
Context `{WireCrate} `{Sharding}.

(** ** Threads *)

(** What a registration is about to enter. *)
Record Join := mkJoin {
  jn_clk : Clock;
  jn_entry : PluginEntry;
  jn_meta : DeviceMeta;
  jn_caps : list string;
}.

(** Where a thread is: the next operation it performs. *)
Inductive Pc :=
| PRegister (j : Join)                                          (** [by_conn_id.entry] *)
| PConnSlot (j : Join)                                          (** [by_plugin_id.entry] *)
| PBothSlots (j : Join)                                         (** [conn_slot.insert] *)
| PIndex (j : Join) (acts : list string)                        (** [index_action]: [ambiguous_actions.get_mut] *)
| PIndexSlot (j : Join) (a : string) (acts : list string)       (** [action_index.entry] *)
| PEvacuate (j : Join) (a existing : string) (acts : list string) (** [ambiguous_actions.insert] *)
| PDevice (j : Join)                                            (** [devices.entry] *)
| PEntry (j : Join)                                             (** [plugin_slot.insert] *)
| PUnregister (pid : string)                                    (** [by_plugin_id.remove] *)
| PDropConn (pid : string) (e : PluginEntry)
| PDropPong (pid : string) (e : PluginEntry)
| PDropRequirements (pid : string) (e : PluginEntry)
| PUnindex (pid : string) (e : PluginEntry) (acts : list string) (** [unindex_action]: [ambiguous_actions.get_mut] *)
| PPromote (pid : string) (e : PluginEntry) (a only : string) (acts : list string)   (** [ambiguous_actions.remove] *)
| PPromoted (pid : string) (e : PluginEntry) (a only : string) (acts : list string)  (** [action_index.insert] *)
| PLookup (pid : string) (e : PluginEntry) (a : string) (acts : list string)         (** [action_index.get] *)
| PDropIndex (pid : string) (e : PluginEntry) (a : string) (acts : list string)      (** [action_index.remove] *)
| PScan (e : PluginEntry) (i : nat)                             (** [by_plugin_id.iter], shard [i] *)
| POffline (e : PluginEntry)                                    (** [devices.get_mut] *)
| PDone (res : Result VynkorError unit).

(** The entry a call of [register_with_device] or [register_device] builds. *)
Definition join_plugin (clk : Clock) (pid : string) (cid : Z) (mf : PluginManifest) (tx : ChanId)
    (meta : DeviceMeta) : Join :=
  mkJoin clk {| plugin_id := pid; conn_id := cid; manifest := mf; write_tx := tx;
                registered_at := unix_secs clk; state := Registered;
                device_id := or_default "local" (meta_device_id meta);
                user_id := or_default "default" (meta_user_id meta) |} meta (meta_capabilities meta).

Definition join_device (clk : Clock) (did : string) (cid : Z) (caps : list string) (mf : PluginManifest)
    (tx : ChanId) (meta : DeviceMeta) : Join :=
  mkJoin clk {| plugin_id := did; conn_id := cid;
                manifest := with_actions (map (fun c => did +:+ "." +:+ c) caps) mf; write_tx := tx;
                registered_at := unix_secs clk; state := Registered;
                device_id := or_default did (meta_device_id meta);
                user_id := or_default "default" (meta_user_id meta) |} meta caps.

Definition start_register (j : Join) : Pc :=
  match validate_plugin_id (plugin_id (jn_entry j)) with
  | Ok _ => PRegister j
  | Err e => PDone (Err e)
  end.

(** One map operation of [register_with_device] or [register_device]. *)
Definition join_step (pc : Pc) (r : PluginRegistry) : Pc * PluginRegistry :=
  match pc with
  | PRegister j =>
      let cid := conn_id (jn_entry j) in
      match by_conn_id r !! cid with
      | Some _ => (PDone (Err (EPluginAlreadyRegistered
                                 ("connection " +:+ show cid +:+ " already has a registered plugin"))), r)
      | None => (PConnSlot j, r)
      end
  | PConnSlot j =>
      let pid := plugin_id (jn_entry j) in
      match by_plugin_id r !! pid with
      | Some _ => (PDone (Err (EPluginAlreadyRegistered pid)), r)
      | None => (PBothSlots j, r)
      end
  | PBothSlots j =>
      let e := jn_entry j in
      (PIndex j (actions (manifest e)), set_by_conn_id <[conn_id e := plugin_id e]> r)
  | PIndex j (a :: acts) =>
      let pid := plugin_id (jn_entry j) in
      match ambiguous_actions r !! a with
      | Some ids => (PIndex j acts, if pid ∈? ids then r else set_ambiguous <[a := ids ++ [pid]]> r)
      | None => (PIndexSlot j a acts, r)
      end
  | PIndexSlot j a acts =>
      let pid := plugin_id (jn_entry j) in
      match action_index r !! a with
      | Some existing =>
          if existing ==? pid then (PIndex j acts, r)
          else (PEvacuate j a existing acts, set_index (delete a) r)
      | None => (PIndex j acts, set_index <[a := pid]> r)
      end
  | PEvacuate j a existing acts =>
      (PIndex j acts, set_ambiguous <[a := [existing; plugin_id (jn_entry j)]]> r)
  | PIndex j [] => (PDevice j, set_pong_times <[plugin_id (jn_entry j) := instant (jn_clk j)]> r)
  | PDevice j =>
      (PEntry j, set_devices (upsert_device (device_id (jn_entry j)) (jn_meta j) (jn_caps j) (unix_ms (jn_clk j))) r)
  | PEntry j => (PDone (Ok tt), set_by_plugin_id <[plugin_id (jn_entry j) := jn_entry j]> r)
  | _ => (pc, r)
  end.

(** One map operation of [unregister]. *)
Definition leave_step (pc : Pc) (r : PluginRegistry) : Pc * PluginRegistry :=
  match pc with
  | PUnregister pid =>
      match by_plugin_id r !! pid with
      | Some e => (PDropConn pid e, set_by_plugin_id (delete pid) r)
      | None => (PDone (Ok tt), r)
      end
  | PDropConn pid e => (PDropPong pid e, set_by_conn_id (delete (conn_id e)) r)
  | PDropPong pid e => (PDropRequirements pid e, set_pong_times (delete pid) r)
  | PDropRequirements pid e => (PUnindex pid e (actions (manifest e)), clear_action_requirements pid r)
  | PUnindex pid e (a :: acts) =>
      match ambiguous_actions r !! a with
      | Some ids =>
          let ids' := filter (fun id => id <> pid) ids in
          (match ids' with [only] => PPromote pid e a only acts | _ => PLookup pid e a acts end,
           set_ambiguous <[a := ids']> r)
      | None => (PLookup pid e a acts, r)
      end
  | PPromote pid e a only acts => (PPromoted pid e a only acts, set_ambiguous (delete a) r)
  | PPromoted pid e a only acts => (PUnindex pid e acts, set_index <[a := only]> r)
  | PLookup pid e a acts =>
      if match action_index r !! a with Some v => v ==? pid | None => false end
      then (PDropIndex pid e a acts, r) else (PUnindex pid e acts, r)
  | PDropIndex pid e a acts => (PUnindex pid e acts, set_index (delete a) r)
  | PUnindex pid e [] => (PScan e 0, r)
  | PScan e i =>
      if bool_decide (map_Exists (fun p e' => shard p = i /\ device_id e' = device_id e) (by_plugin_id r))
      then (PDone (Ok tt), r)
      else if (S i <? shards)%nat then (PScan e (S i), r) else (POffline e, r)
  | POffline e => (PDone (Ok tt), set_devices (alter (set_device_state StOffline) (device_id e)) r)
  | _ => (pc, r)
  end.

(** The threads of unregistrations; a call that has returned stays put. *)
Definition leaving (pc : Pc) : bool :=
  match pc with
  | PRegister _ | PConnSlot _ | PBothSlots _ | PIndex _ _ | PIndexSlot _ _ _ | PEvacuate _ _ _ _ | PDevice _ | PEntry _ => false
  | _ => true
  end.

Definition tstep (pc : Pc) (r : PluginRegistry) : Pc * PluginRegistry :=
  if leaving pc then leave_step pc r else join_step pc r.

(** ** Locks

    A vacant entry keeps its shard locked until it is filled or dropped. *)

Definition conn_slot (pc : Pc) : option Z :=
  match pc with PConnSlot j | PBothSlots j => Some (conn_id (jn_entry j)) | _ => None end.

Definition plugin_slot (pc : Pc) : option string :=
  match pc with
  | PBothSlots j | PIndex j _ | PIndexSlot j _ _ | PEvacuate j _ _ _ | PDevice j | PEntry j =>
      Some (plugin_id (jn_entry j))
  | _ => None
  end.

Definition conn_locked (s : nat) (pc : Pc) : bool :=
  match conn_slot pc with Some cid => (conn_shard cid =? s)%nat | None => false end.
Definition plugin_locked (s : nat) (pc : Pc) : bool :=
  match plugin_slot pc with Some pid => (shard pid =? s)%nat | None => false end.

(** Whether the shard the next operation of a thread needs is free.  A thread
    uses the slots it holds without asking again. *)
Definition ready (ts : list Pc) (pc : Pc) : bool :=
  match pc with
  | PRegister j => negb (existsb (conn_locked (conn_shard (conn_id (jn_entry j)))) ts)
  | PDropConn _ e => negb (existsb (conn_locked (conn_shard (conn_id e))) ts)
  | PConnSlot j => negb (existsb (plugin_locked (shard (plugin_id (jn_entry j)))) ts)
  | PUnregister pid => negb (existsb (plugin_locked (shard pid)) ts)
  | PScan _ i => negb (existsb (plugin_locked i) ts)
  | PDone _ => false
  | _ => true
  end.

(** ** Interleavings *)

Record Race := mkRace { race_reg : PluginRegistry; race_threads : list Pc }.

Inductive race_step (s : Race) : Race -> Prop :=
| race_register j :
    race_step s (mkRace (race_reg s) (race_threads s ++ [start_register j]))
| race_unregister pid :
    race_step s (mkRace (race_reg s) (race_threads s ++ [PUnregister pid]))
| race_run i pc :
    race_threads s !! i = Some pc -> ready (race_threads s) pc = true ->
    race_step s (mkRace (tstep pc (race_reg s)).2 (<[i := (tstep pc (race_reg s)).1]> (race_threads s))).

Definition finished (pc : Pc) : bool := match pc with PDone _ => true | _ => false end.

(** Every call has returned. *)
Definition quiet (s : Race) : Prop := forallb finished (race_threads s) = true.

(** A schedule: which thread runs next; [None] where it could not. *)
Fixpoint schedule (order : list nat) (s : Race) : option Race :=
  match order with
  | [] => Some s
  | i :: order =>
      match race_threads s !! i with
      | Some pc =>
          if ready (race_threads s) pc
          then let '(pc', r') := tstep pc (race_reg s) in schedule order (mkRace r' (<[i := pc']> (race_threads s)))
          else None
      | None => None
      end
  end.

Lemma schedule_rtc order s s' : schedule order s = Some s' -> rtc race_step s s'.
Proof.
  revert s. induction order as [|i order IH]; cbn [schedule]; intros s Hs; [by injection Hs as ->|].
  destruct (race_threads s !! i) as [pc|] eqn:Hi; [|done]. destruct (ready _ pc) eqn:Hr; [|done].
  pose proof (race_run s i pc Hi Hr) as Hstep. destruct (tstep pc (race_reg s)) as [pc' r']. eapply rtc_l; [exact Hstep|by apply IH].
Qed.

(** ** A thread that runs alone *)

Fixpoint trun (n : nat) (pc : Pc) (r : PluginRegistry) : Pc * PluginRegistry :=
  match n with
  | O => (pc, r)
  | S n => let '(pc, r) := tstep pc r in trun n pc r
  end.

Lemma trun_add n m pc r : trun (n + m) pc r = trun m (trun n pc r).1 (trun n pc r).2.
Proof. revert pc r. induction n as [|n IH]; intros pc r; [done|]. cbn. by destruct (tstep pc r). Qed.

(** [reaches (pc, r) (pc', r')]: the thread gets there in some number of its
    own steps. *)
Definition reaches (x y : Pc * PluginRegistry) : Prop := exists n, trun n x.1 x.2 = y.

#[local] Instance reaches_preorder : PreOrder reaches.
Proof.
  split; [intros [pc r]; by exists O|]. intros [p1 r1] [p2 r2] [p3 r3] [n Hn] [m Hm]. exists (n + m)%nat. cbn in *.
  by rewrite trun_add, Hn.
Qed.

Lemma reaches_step pc r y : reaches (tstep pc r) y -> reaches (pc, r) y.
Proof. intros [n Hn]. exists (S n). cbn. by destruct (tstep pc r). Qed.

Lemma index_alone j acts r :
  reaches (PIndex j acts, r) (PIndex j [], index_actions acts (plugin_id (jn_entry j)) r).
Proof.
  revert r. induction acts as [|a acts IH]; intros r; [reflexivity|]. unfold index_actions. cbn [foldl].
  unfold index_action at 2. apply reaches_step. cbn [tstep leaving join_step leave_step].
  destruct (ambiguous_actions r !! a) as [ids|] eqn:Ha; [apply IH|].
  apply reaches_step. cbn [tstep leaving join_step leave_step]. destruct (action_index r !! a) as [ex|]; [|apply IH].
  destruct (ex ==? _); [apply IH|]. apply reaches_step. cbn [tstep leaving join_step leave_step]. apply IH.
Qed.

Lemma unindex_alone pid e acts r :
  reaches (PUnindex pid e acts, r) (PUnindex pid e [], unindex_actions acts pid r).
Proof.
  revert r. induction acts as [|a acts IH]; intros r; [reflexivity|]. unfold unindex_actions. cbn [foldl].
  assert (Hlook : forall r1, reaches (PLookup pid e a acts, r1)
    (PUnindex pid e acts, if match action_index r1 !! a with Some v => v ==? pid | None => false end
                          then set_index (delete a) r1 else r1)).
  { intros r1. apply reaches_step. cbn [tstep leaving join_step leave_step]. case_match; [|reflexivity]. apply reaches_step. reflexivity. }
  unfold unindex_action at 2. apply reaches_step. cbn [tstep leaving join_step leave_step].
  destruct (ambiguous_actions r !! a) as [ids|]; [|etrans; [apply Hlook|apply IH]].
  destruct (filter _ ids) as [|only [|? ?]]; cbn iota beta; try (etrans; [apply Hlook|apply IH]).
  do 2 (apply reaches_step; cbn [tstep leaving join_step leave_step]). apply IH.
Qed.

Lemma scan_alone e i r :
  (i < shards)%nat ->
  reaches (PScan e i, r)
    (PDone (Ok tt),
     if bool_decide (map_Exists (fun p e' => (i <= shard p)%nat /\ device_id e' = device_id e) (by_plugin_id r)) then r
     else set_devices (alter (set_device_state StOffline) (device_id e)) r).
Proof.
  remember (shards - i)%nat as k eqn:Hk. revert i Hk. induction k as [|k IH]; intros i Hk Hi; [lia|].
  apply reaches_step. cbn [tstep leaving join_step leave_step]. case_bool_decide as Hex.
  - rewrite bool_decide_eq_true_2; [reflexivity|]. destruct Hex as (p & e' & Hp & <- & Hd). by exists p, e'.
  - destruct (S i <? shards)%nat eqn:Hlt.
    + apply Nat.ltb_lt in Hlt. etrans; [apply IH; lia|].
      erewrite (bool_decide_ext (map_Exists _ _)); [reflexivity|].
      split; intros (p & e' & Hp & Hs & Hd); exists p, e'; split_and!; try done; [lia|].
      destruct (decide (shard p = i)) as [Hpi|]; [|lia]. destruct Hex. by exists p, e'.
    + apply Nat.ltb_ge in Hlt. rewrite bool_decide_eq_false_2; [apply reaches_step; reflexivity|].
      intros (p & e' & Hp & Hs & Hd). pose proof (shard_lt p). destruct Hex. exists p, e'. split_and!; [done|lia|done].
Qed.

Lemma add_alone j r :
  by_conn_id r !! conn_id (jn_entry j) = None -> by_plugin_id r !! plugin_id (jn_entry j) = None ->
  reaches (PRegister j, r) (PDone (Ok tt), add_entry (jn_clk j) (jn_entry j) (jn_meta j) (jn_caps j) r).
Proof.
  intros Hc Hp. apply reaches_step. cbn [tstep leaving join_step leave_step]. rewrite Hc. apply reaches_step. cbn [tstep leaving join_step leave_step]. rewrite Hp.
  apply reaches_step. cbn [tstep leaving join_step leave_step]. etrans; [apply index_alone|]. do 3 (apply reaches_step; cbn [tstep leaving join_step leave_step]). reflexivity.
Qed.

(** What both registrations compute. *)
Definition register_result (j : Join) (r : PluginRegistry) : Result VynkorError unit * PluginRegistry :=
  let e := jn_entry j in
  match validate_plugin_id (plugin_id e) with
  | Err err => (Err err, r)
  | Ok _ =>
      match by_conn_id r !! conn_id e with
      | Some _ => (Err (EPluginAlreadyRegistered
                          ("connection " +:+ show (conn_id e) +:+ " already has a registered plugin")), r)
      | None =>
          match by_plugin_id r !! plugin_id e with
          | Some _ => (Err (EPluginAlreadyRegistered (plugin_id e)), r)
          | None => (Ok tt, add_entry (jn_clk j) e (jn_meta j) (jn_caps j) r)
          end
      end
  end.

Lemma register_alone j r x : register_result j r = x -> reaches (start_register j, r) (PDone x.1, x.2).
Proof.
  intros <-. unfold register_result, start_register.
  destruct (validate_plugin_id _); [|reflexivity].
  destruct (by_conn_id r !! _) eqn:Hc; [apply reaches_step; cbn [tstep leaving join_step leave_step]; rewrite Hc; reflexivity|].
  destruct (by_plugin_id r !! _) eqn:Hp; [|by apply add_alone].
  apply reaches_step. cbn [tstep leaving join_step leave_step]. rewrite Hc. apply reaches_step. cbn [tstep leaving join_step leave_step]. rewrite Hp. reflexivity.
Qed.

Lemma unregister_alone pid r : reaches (PUnregister pid, r) (PDone (Ok tt), unregister pid r).
Proof.
  unfold unregister. apply reaches_step. cbn [tstep leaving join_step leave_step].
  destruct (by_plugin_id r !! pid) as [e|]; [|reflexivity].
  do 3 (apply reaches_step; cbn [tstep leaving join_step leave_step]). etrans; [apply unindex_alone|].
  apply reaches_step. cbn [tstep leaving join_step leave_step]. etrans; [apply scan_alone; pose proof (shard_lt pid); lia|].
  cbv zeta. erewrite (bool_decide_ext (map_Exists _ _)); [reflexivity|].
  split; intros (p & e' & Hp & Hd); exists p, e'; split_and!; try done; [by destruct Hd|lia].
Qed.

(** The steps refine the operations.  A thread that is not interrupted
    returns after finitely many steps, and with what [register_with_device],
    [register_device] and [unregister] do as one operation. *)
Theorem alone_refines clk pid cid mf tx meta caps r :
  (exists n, trun n (start_register (join_plugin clk pid cid mf tx meta)) r =
     (PDone (register_with_device clk pid cid mf tx meta r).1, (register_with_device clk pid cid mf tx meta r).2)) /\
  (exists n, trun n (start_register (join_device clk pid cid caps mf tx meta)) r =
     (PDone (register_device clk pid cid caps mf tx meta r).1, (register_device clk pid cid caps mf tx meta r).2)) /\
  (exists n, trun n (PUnregister pid) r = (PDone (Ok tt), unregister pid r)).
Proof.
  split_and!.
  - by apply (register_alone (join_plugin clk pid cid mf tx meta)).
  - by apply (register_alone (join_device clk pid cid caps mf tx meta)).
  - apply unregister_alone.
Qed.

(** ** What every interleaving keeps *)

(** The connection a thread answers for: its registration has mapped it and
    not yet entered the plugin, or it has removed the plugin and not yet the
    mapping. *)
Definition owns (pc : Pc) : option (Z * string) :=
  match pc with
  | PIndex j _ | PIndexSlot j _ _ | PEvacuate j _ _ _ | PDevice j | PEntry j =>
      Some (conn_id (jn_entry j), plugin_id (jn_entry j))
  | PDropConn pid e => Some (conn_id e, pid)
  | _ => None
  end.

Definition joining (pc : Pc) : option string :=
  match pc with
  | PRegister j | PConnSlot j | PBothSlots j | PIndex j _ | PIndexSlot j _ _ | PEvacuate j _ _ _ | PDevice j
  | PEntry j => Some (plugin_id (jn_entry j))
  | _ => None
  end.

(** Every plugin sits under its own valid id and its connection maps to it. *)
Definition entries_ok (r : PluginRegistry) : Prop :=
  forall pid e, by_plugin_id r !! pid = Some e ->
    plugin_id e = pid /\ by_conn_id r !! conn_id e = Some pid /\ validate_plugin_id pid = Ok tt.

(** Every mapping is a plugin's or some thread's. *)
Definition conns_ok (r : PluginRegistry) (ts : list Pc) : Prop :=
  forall cid pid, by_conn_id r !! cid = Some pid ->
    (exists e, by_plugin_id r !! pid = Some e /\ conn_id e = cid) \/
    (exists i pc, ts !! i = Some pc /\ owns pc = Some (cid, pid)).

Record thread_ok (r : PluginRegistry) (pc : Pc) : Prop := mkThreadOk {
  tok_conn : forall cid, conn_slot pc = Some cid -> by_conn_id r !! cid = None;
  tok_plugin : forall pid, plugin_slot pc = Some pid -> by_plugin_id r !! pid = None;
  tok_owns : forall cid pid, owns pc = Some (cid, pid) ->
    by_conn_id r !! cid = Some pid /\ forall q e, by_plugin_id r !! q = Some e -> conn_id e <> cid;
  tok_valid : forall pid, joining pc = Some pid -> validate_plugin_id pid = Ok tt;
}.

(** Two threads hold different slots and answer for different connections. *)
Record apart (pc pc' : Pc) : Prop := mkApart {
  ap_conn : forall cid, conn_slot pc = Some cid -> conn_slot pc' = Some cid -> False;
  ap_plugin : forall pid, plugin_slot pc = Some pid -> plugin_slot pc' = Some pid -> False;
  ap_owns : forall cid p p', owns pc = Some (cid, p) -> owns pc' = Some (cid, p') -> False;
}.

Lemma apart_sym pc pc' : apart pc pc' -> apart pc' pc.
Proof. intros [A B C]. split; eauto. Qed.

Record race_ok (s : Race) : Prop := mkRaceOk {
  rac_entries : entries_ok (race_reg s);
  rac_conns : conns_ok (race_reg s) (race_threads s);
  rac_threads : forall i pc, race_threads s !! i = Some pc -> thread_ok (race_reg s) pc;
  rac_apart : forall i j pc pc', i <> j -> race_threads s !! i = Some pc -> race_threads s !! j = Some pc' -> apart pc pc';
}.

(** A thread moves: what is left to show. *)
Lemma race_ok_move r ts i pc' r' :
  race_ok (mkRace r ts) -> (i < length ts)%nat -> entries_ok r' -> conns_ok r' (<[i := pc']> ts) -> thread_ok r' pc' ->
  (forall j q, j <> i -> ts !! j = Some q -> thread_ok r' q /\ apart pc' q) ->
  race_ok (mkRace r' (<[i := pc']> ts)).
Proof.
  intros [_ _ _ Hap] Hi He Hc Hpc Hoth. cbn in *. split; [done|done|..]; cbn.
  - intros k q Hk. destruct (decide (k = i)) as [->|Hne].
    + rewrite list_lookup_insert_eq in Hk by done. by injection Hk as <-.
    + rewrite list_lookup_insert_ne in Hk by done. by apply (Hoth k).
  - intros k l q q' Hkl Hk Hl. destruct (decide (k = i)) as [->|Hne].
    + rewrite list_lookup_insert_eq in Hk by done. injection Hk as <-.
      rewrite list_lookup_insert_ne in Hl by done. by apply (Hoth l).
    + rewrite list_lookup_insert_ne in Hk by done. destruct (decide (l = i)) as [->|Hnl].
      * rewrite list_lookup_insert_eq in Hl by done. injection Hl as <-. apply apart_sym. by apply (Hoth k).
      * rewrite list_lookup_insert_ne in Hl by done. by apply (Hap k l).
Qed.

(** A mapping that no thread had to answer for keeps its owner when a thread
    that owned nothing moves. *)
Lemma conns_ok_move r ts i pc pc' :
  ts !! i = Some pc -> (owns pc = None \/ owns pc' = owns pc) -> conns_ok r ts -> conns_ok r (<[i := pc']> ts).
Proof.
  intros Hi Ho Hc cid pid [He|(k & q & Hk & Hq)]%Hc; [by left|]. right. destruct (decide (k = i)) as [->|Hne].
  - assert (q = pc) as -> by congruence. destruct Ho as [Ho|Ho]; [congruence|]. exists i, pc'. rewrite Ho.
    by rewrite list_lookup_insert_eq by eauto using lookup_lt_Some.
  - exists k, q. by rewrite list_lookup_insert_ne.
Qed.

(** The same for a map operation outside the two identity maps. *)
Lemma race_ok_aside r ts i pc pc' r' :
  race_ok (mkRace r ts) -> ts !! i = Some pc ->
  by_conn_id r' = by_conn_id r -> by_plugin_id r' = by_plugin_id r ->
  (conn_slot pc', plugin_slot pc', owns pc', joining pc') = (conn_slot pc, plugin_slot pc, owns pc, joining pc) ->
  race_ok (mkRace r' (<[i := pc']> ts)).
Proof.
  intros Hok Hi E1 E2 [= V1 V2 V3 V4]. pose proof Hok as [He Hc Ht Ha]. cbn in *.
  assert (Hth : forall q, thread_ok r q -> thread_ok r' q).
  { intros q [A B C D]. by split; rewrite ?E1, ?E2. }
  apply (race_ok_move r ts i); [done|eauto using lookup_lt_Some|..].
  - unfold entries_ok. by rewrite E1, E2.
  - intros cid pid. rewrite E1, E2. eapply conns_ok_move; [exact Hi|by right|done].
  - destruct (Hth _ (Ht i pc Hi)) as [A B C D]. split; rewrite ?V1, ?V2, ?V3, ?V4; done.
  - intros k q Hne Hk. split; [by eapply Hth, Ht|]. destruct (Ha i k pc q) as [A B C]; [done..|].
    split; rewrite ?V1, ?V2, ?V3; done.
Qed.

Lemma conn_free cid ts k q :
  negb (existsb (conn_locked (conn_shard cid)) ts) = true -> ts !! k = Some q -> conn_slot q = Some cid -> False.
Proof.
  intros Hf%negb_true_iff Hk Hq. apply not_true_iff_false in Hf. apply Hf, existsb_exists. exists q.
  split; [apply list_elem_of_In; by eapply list_elem_of_lookup_2|]. unfold conn_locked. rewrite Hq. apply Nat.eqb_refl.
Qed.

Lemma plugin_free pid ts k q :
  negb (existsb (plugin_locked (shard pid)) ts) = true -> ts !! k = Some q -> plugin_slot q = Some pid -> False.
Proof.
  intros Hf%negb_true_iff Hk Hq. apply not_true_iff_false in Hf. apply Hf, existsb_exists. exists q.
  split; [apply list_elem_of_In; by eapply list_elem_of_lookup_2|]. unfold plugin_locked. rewrite Hq. apply Nat.eqb_refl.
Qed.

Lemma race_ok_spawn r ts pc :
  race_ok (mkRace r ts) -> thread_ok r pc -> conn_slot pc = None -> plugin_slot pc = None -> owns pc = None ->
  race_ok (mkRace r (ts ++ [pc])).
Proof.
  intros [He Hc Ht Ha] Hpc V1 V2 V3. cbn in *.
  assert (Hap : forall q, apart q pc) by (split; rewrite ?V1, ?V2, ?V3; done).
  split; cbn; [done|..].
  - intros cid pid [?|(i & q & Hi & Hq)]%Hc; [by left|]. right. exists i, q. by rewrite lookup_app_l by eauto using lookup_lt_Some.
  - intros i q [Hi|[_ Hi]]%lookup_app_Some; [by eapply Ht|]. apply list_lookup_singleton_Some in Hi as [_ <-]. done.
  - intros i j q q' Hij [Hi|[Hli Hi]]%lookup_app_Some [Hj|[Hlj Hj]]%lookup_app_Some.
    + by apply (Ha i j).
    + apply list_lookup_singleton_Some in Hj as [_ <-]. apply Hap.
    + apply list_lookup_singleton_Some in Hi as [_ <-]. apply apart_sym, Hap.
    + apply list_lookup_singleton_Some in Hi as [Hi _]. apply list_lookup_singleton_Some in Hj as [Hj _]. lia.
Qed.

(** The steps that touch the identity maps or the slots. *)
Section Moves.
Variables (r : PluginRegistry) (ts : list Pc) (i : nat).
Hypothesis Hok : race_ok (mkRace r ts).

Let Hent : entries_ok r := rac_entries _ Hok.
Let Hconns : conns_ok r ts := rac_conns _ Hok.
Let Hth : forall k q, ts !! k = Some q -> thread_ok r q := rac_threads _ Hok.

Lemma move_return pc res :
  ts !! i = Some pc -> owns pc = None -> race_ok (mkRace r (<[i := PDone res]> ts)).
Proof.
  intros Hi Ho. apply (race_ok_move r ts i); eauto using lookup_lt_Some.
  - eapply conns_ok_move; [exact Hi|by left|exact Hconns].
  - done.
  - intros k q _ Hk. split; [by eapply Hth|done].
Qed.

Lemma move_conn_slot j :
  ts !! i = Some (PRegister j) -> ready ts (PRegister j) = true -> by_conn_id r !! conn_id (jn_entry j) = None ->
  race_ok (mkRace r (<[i := PConnSlot j]> ts)).
Proof.
  intros Hi Hr Hn. apply (race_ok_move r ts i); eauto using lookup_lt_Some.
  - eapply conns_ok_move; [exact Hi|by left|exact Hconns].
  - split; try done; [by intros cid [= <-]|apply (tok_valid _ _ (Hth _ _ Hi))].
  - intros k q _ Hk. split; [by eapply Hth|]. split; try done. intros cid [= <-]. by eapply conn_free.
Qed.

Lemma move_both_slots j :
  ts !! i = Some (PConnSlot j) -> ready ts (PConnSlot j) = true -> by_plugin_id r !! plugin_id (jn_entry j) = None ->
  race_ok (mkRace r (<[i := PBothSlots j]> ts)).
Proof.
  intros Hi Hr Hn. pose proof (Hth _ _ Hi) as [A _ _ D]. apply (race_ok_move r ts i); eauto using lookup_lt_Some.
  - eapply conns_ok_move; [exact Hi|by left|exact Hconns].
  - split; try done. by intros pid [= <-].
  - intros k q Hne Hk. split; [by eapply Hth|]. destruct (rac_apart _ Hok i k _ _ (not_eq_sym Hne) Hi Hk) as [Ac _ _].
    split; try done. intros pid [= <-]. by eapply plugin_free.
Qed.

Lemma move_map_conn j acts :
  ts !! i = Some (PBothSlots j) ->
  race_ok (mkRace (set_by_conn_id <[conn_id (jn_entry j) := plugin_id (jn_entry j)]> r) (<[i := PIndex j acts]> ts)).
Proof.
  intros Hi. pose proof (Hth _ _ Hi) as [A B _ D]. specialize (A _ eq_refl). cbn in A, B.
  set (c := conn_id (jn_entry j)) in *. set (p := plugin_id (jn_entry j)) in *.
  apply (race_ok_move r ts i); eauto using lookup_lt_Some.
  - intros q e (E1 & E2 & E3)%Hent. split_and!; [done| |done]. cbn. rewrite lookup_insert_ne by congruence. done.
  - intros c' p' Hl. cbn in Hl. destruct (decide (c' = c)) as [->|Hc].
    + rewrite lookup_insert_eq in Hl. injection Hl as <-. right. exists i, (PIndex j acts).
      by rewrite list_lookup_insert_eq by eauto using lookup_lt_Some.
    + rewrite lookup_insert_ne in Hl by done. revert Hl. cbn. apply (conns_ok_move r ts i (PBothSlots j)); [done|by left|done].
  - split; cbn; [done|exact B| |exact D]. intros c' p' [= <- <-]. rewrite lookup_insert_eq. split; [done|].
    intros q e (_ & E & _)%Hent. fold c. congruence.
  - intros k q Hne Hk. destruct (rac_apart _ Hok i k _ _ (not_eq_sym Hne) Hi Hk) as [Ac Ap _].
    destruct (Hth _ _ Hk) as [A' B' C' D']. split.
    + split; cbn; [|exact B'| |exact D'].
      * intros c' Hc'. rewrite lookup_insert_ne; [by apply A'|]. intros <-. by eapply Ac.
      * intros c' p' Hq. destruct (C' _ _ Hq) as [E ?]. rewrite lookup_insert_ne by congruence. done.
    + split; [done|exact Ap|]. intros c' p1 p2 [= <- <-] Hq. destruct (C' _ _ Hq) as [E ?]. fold c in E. congruence.
Qed.

Lemma move_enter j :
  ts !! i = Some (PEntry j) ->
  race_ok (mkRace (set_by_plugin_id <[plugin_id (jn_entry j) := jn_entry j]> r) (<[i := PDone (Ok tt)]> ts)).
Proof.
  intros Hi. pose proof (Hth _ _ Hi) as [_ B C D]. specialize (B _ eq_refl). specialize (D _ eq_refl).
  destruct (C _ _ eq_refl) as [Cm Ce]. cbn in *. set (p := plugin_id (jn_entry j)) in *.
  apply (race_ok_move r ts i); eauto using lookup_lt_Some; cbn.
  - intros q e. cbn. destruct (decide (q = p)) as [->|Hq].
    + rewrite lookup_insert_eq. intros [= <-]. done.
    + rewrite lookup_insert_ne by done. apply Hent.
  - intros c' p' Hl. cbn in *. destruct (Hconns _ _ Hl) as [(e & He & Hc)|(k & q & Hk & Hq)].
    + left. exists e. by rewrite lookup_insert_ne by congruence.
    + destruct (decide (k = i)) as [->|Hne].
      * left. exists (jn_entry j). assert (q = PEntry j) as -> by congruence. injection Hq as <- <-. by rewrite lookup_insert_eq.
      * right. exists k, q. by rewrite list_lookup_insert_ne.
  - done.
  - intros k q Hne Hk. destruct (rac_apart _ Hok i k _ _ (not_eq_sym Hne) Hi Hk) as [_ Ap Ao].
    destruct (Hth _ _ Hk) as [A' B' C' D']. split; [|done]. split; cbn; [exact A'| | |exact D'].
    + intros p' Hp'. rewrite lookup_insert_ne; [by apply B'|]. intros <-. by eapply Ap.
    + intros c' p' Hq. destruct (C' _ _ Hq) as [E Hnc]. split; [done|]. intros q' e.
      destruct (decide (q' = p)) as [->|Hqp]; [rewrite lookup_insert_eq|rewrite lookup_insert_ne by done; apply Hnc].
      intros [= <-] <-. by eapply Ao.
Qed.

Lemma move_remove pid e :
  ts !! i = Some (PUnregister pid) -> by_plugin_id r !! pid = Some e ->
  race_ok (mkRace (set_by_plugin_id (delete pid) r) (<[i := PDropConn pid e]> ts)).
Proof.
  intros Hi He. destruct (Hent _ _ He) as (E1 & E2 & E3). apply (race_ok_move r ts i); eauto using lookup_lt_Some; cbn.
  - intros q e'. cbn. intros [Hq Hl]%lookup_delete_Some. by apply Hent.
  - intros c' p' Hl. cbn in *. destruct (Hconns _ _ Hl) as [(e' & He' & Hc)|(k & q & Hk & Hq)].
    + destruct (decide (p' = pid)) as [->|Hp].
      * right. exists i, (PDropConn pid e). rewrite list_lookup_insert_eq by eauto using lookup_lt_Some. cbn. by simplify_eq.
      * left. exists e'. by rewrite lookup_delete_ne.
    + right. exists k, q. rewrite list_lookup_insert_ne; [done|]. intros <-. by simplify_eq.
  - split; cbn; try done. intros c' p' [= <- <-]. split; [done|]. intros q e' [Hq Hl]%lookup_delete_Some Hc.
    destruct (Hent _ _ Hl) as (_ & E & _). congruence.
  - intros k q Hne Hk. destruct (Hth _ _ Hk) as [A' B' C' D']. split.
    + split; cbn; [exact A'| | |exact D'].
      * intros p' Hp'. rewrite lookup_delete_None. right. by apply B'.
      * intros c' p' Hq. destruct (C' _ _ Hq) as [E Hnc]. split; [done|]. intros q' e' [_ Hl]%lookup_delete_Some. by eapply Hnc.
    + split; try done. intros c' p1 p2 [= <- <-] Hq. destruct (C' _ _ Hq) as [_ Hnc]. by eapply Hnc.
Qed.

Lemma move_unmap pid e :
  ts !! i = Some (PDropConn pid e) ->
  race_ok (mkRace (set_by_conn_id (delete (conn_id e)) r) (<[i := PDropPong pid e]> ts)).
Proof.
  intros Hi. destruct (tok_owns _ _ (Hth _ _ Hi) _ _ eq_refl) as [Cm Ce].
  apply (race_ok_move r ts i); eauto using lookup_lt_Some; cbn.
  - intros q e' He. cbn in *. destruct (Hent _ _ He) as (E1 & E2 & E3). split_and!; [done| |done].
    rewrite lookup_delete_ne; [done|]. intros Hc. by eapply Ce.
  - intros c' p'. cbn. intros [Hc Hl]%lookup_delete_Some. destruct (Hconns _ _ Hl) as [?|(k & q & Hk & Hq)]; [by left|].
    right. exists k, q. rewrite list_lookup_insert_ne; [done|]. intros <-.
    assert (q = PDropConn pid e) as -> by congruence. by injection Hq as <- <-.
  - done.
  - intros k q Hne Hk. destruct (rac_apart _ Hok i k _ _ (not_eq_sym Hne) Hi Hk) as [_ _ Ao].
    destruct (Hth _ _ Hk) as [A' B' C' D']. split; [|done]. split; cbn; [|exact B'| |exact D'].
    + intros c' Hc'. rewrite lookup_delete_None. right. by apply A'.
    + intros c' p' Hq. destruct (C' _ _ Hq) as [E Hnc]. split; [|done]. rewrite lookup_delete_ne; [done|].
      intros <-. by eapply Ao.
Qed.

End Moves.

Lemma race_step_ok s s' : race_step s s' -> race_ok s -> race_ok s'.
Proof.
  destruct s as [r ts]. destruct 1 as [j|pid|i pc Hi Hr]; cbn in *; intros Hok.
  - unfold start_register. destruct (validate_plugin_id _) as [[]|] eqn:Hv; apply race_ok_spawn; try done.
    split; try done. by intros pid [= <-].
  - by apply race_ok_spawn.
  - destruct pc as [j|j|j|j [|a acts]|j a acts|j a ex acts|j|j|pid|pid e|pid e|pid e|pid e [|a acts]|pid e a o acts|pid e a o acts
      |pid e a acts|pid e a acts|e k|e|res]; cbn [tstep leaving join_step leave_step];
      first [by eauto using move_map_conn, move_enter, move_unmap
            |by repeat case_match; eapply race_ok_aside; cbn; eauto
            |idtac].
    + destruct (by_conn_id r !! _) eqn:E; [by eapply move_return|by eapply move_conn_slot].
    + destruct (by_plugin_id r !! _) eqn:E; [by eapply move_return|by eapply move_both_slots].
    + destruct (by_plugin_id r !! _) eqn:E; [by eapply move_remove|by eapply move_return].
Qed.

Lemma race_run_ok s s' : rtc race_step s s' -> race_ok s -> race_ok s'.
Proof. induction 1; eauto using race_step_ok. Qed.

Lemma race_ok_idle r : registry_ok r -> race_ok (mkRace r []).
Proof.
  intros Hok. split; cbn; [intros pid e; apply (rok_entry _ Hok)| |done..]. intros cid pid Hc. left. by apply (rok_conn _ Hok).
Qed.

(** C6: registration is safe against concurrency.  Whatever registrations and
    unregistrations run at once, in any interleaving of their map operations
    and whichever keys share a shard: every registered plugin is under its
    own valid id, its connection maps to it, and no other plugin has that
    connection; when the calls have returned, every mapped connection is that
    of a registered plugin. *)
Theorem registration_race_free r s :
  registry_ok r -> rtc race_step (mkRace r []) s ->
  (forall pid e, by_plugin_id (race_reg s) !! pid = Some e ->
     plugin_id e = pid /\ by_conn_id (race_reg s) !! conn_id e = Some pid /\ validate_plugin_id pid = Ok tt) /\
  (forall p q e e', by_plugin_id (race_reg s) !! p = Some e -> by_plugin_id (race_reg s) !! q = Some e' ->
     conn_id e = conn_id e' -> p = q) /\
  (quiet s -> forall cid pid, by_conn_id (race_reg s) !! cid = Some pid ->
     exists e, by_plugin_id (race_reg s) !! pid = Some e /\ conn_id e = cid).
Proof.
  intros Hr Hrun. destruct (race_run_ok _ _ Hrun (race_ok_idle _ Hr)) as [He Hc _ _]. split_and!; [exact He|..].
  - intros p q e e' (_ & E1 & _)%He (_ & E2 & _)%He E. congruence.
  - intros Hq cid pid [?|(i & pc & Hi & Ho)]%Hc; [done|]. unfold quiet in Hq.
    rewrite forallb_forall in Hq. specialize (Hq pc). rewrite <- list_elem_of_In in Hq.
    destruct pc; try done; by discriminate Hq; eapply list_elem_of_lookup_2.
Qed.

End Threads.

(** ** Runs *)
Module RaceRuns.

#[local] Instance wire : WireCrate := toy_wire [].
#[local] Instance iter : HashIter := canonical_iter.

(** All keys in one shard: the locking that allows the fewest interleavings. *)
#[local] Instance one_shard : Sharding :=
  {| shards := 1; shard _ := O; conn_shard _ := O; shard_lt _ := Nat.lt_0_1 |}.

Definition clk : Clock := mkClock 10 1700000000000.
Definition meta : DeviceMeta := mkDeviceMeta "desk" "" OsLinux "x86_64" "6.1" [].
Definition mf (acts : list string) : PluginManifest := mkManifest [] acts [] [] [] [].

Definition join (pid : string) (cid : Z) (acts : list string) : Join := join_plugin clk pid cid (mf acts) (100 + cid) meta.
Definition add (pid : string) (cid : Z) (acts : list string) (r : PluginRegistry) : PluginRegistry :=
  (register_with_device clk pid cid (mf acts) (100 + cid) meta r).2.

(** One plugin, and two that declare the same action. *)
Definition r1 : PluginRegistry := add "tts" 1 ["speak"] registry_new.
Definition r2 : PluginRegistry := add "sherpa" 2 ["speak"] r1.

Lemma race_r1_reachable : registry_reachable r1.
Proof. apply rtc_once, step_register. Defined.

Lemma r2_ok : registry_ok r2.
Proof. apply reachable_ok. eapply rtc_r; [apply race_r1_reachable|apply step_register]. Defined.

(** The calls begin, then run as [order] says. *)
Inductive Call := Register (j : Join) | Unregister (pid : string).
Definition call (c : Call) : Pc := match c with Register j => start_register j | Unregister pid => PUnregister pid end.

Lemma calls_run cs r order s' :
  schedule order (mkRace r (map call cs)) = Some s' -> rtc race_step (mkRace r []) s'.
Proof.
  intros Hs%schedule_rtc. etrans; [|exact Hs]. clear Hs order s'.
  induction cs as [|c cs IH] using rev_ind; [reflexivity|]. rewrite map_app. eapply rtc_r; [exact IH|].
  destruct c; [apply race_register|apply race_unregister].
Qed.

Definition times (n i : nat) : list nat := replicate n i.

(** An unregistration that overlaps a new registration of the same plugin
    undoes part of it.  A plugin is stopped over REST while its next process
    registers: both calls succeed, the plugin is registered on its new
    connection, but its action has no provider any more, and the watchdog has
    no pong time to measure it by. *)
Theorem reregistration_race :
  exists s e, rtc race_step (mkRace r1 []) s /\ quiet s /\
    get "tts" (race_reg s) = Some e /\ conn_id e = 7 /\ "speak" ∈ actions (manifest e) /\
    find_action_provider "speak" (race_reg s) = NotFound /\ last_pong "tts" (race_reg s) = None.
Proof.
  eexists _, _. split.
  - apply (calls_run [Unregister "tts"; Register (join "tts" 7 ["speak"])] r1 (times 2 0 ++ times 8 1 ++ times 7 0)).
    vm_compute. reflexivity.
  - split_and!; [vm_compute; reflexivity..| |vm_compute; reflexivity|vm_compute; reflexivity]. left.
Qed.

(** Two unregistrations at once can leave the action index pointing at a
    plugin that is gone.  Two plugins that declare the same action leave
    together; the action's next and only provider is then reported as
    ambiguous, and its action is never routed. *)
Theorem concurrent_leave_poisons_action :
  exists s e, rtc race_step (mkRace r2 []) s /\ quiet s /\
    map_to_list (by_plugin_id (race_reg s)) = [("mimic", e)] /\ "speak" ∈ actions (manifest e) /\
    find_action_provider "speak" (race_reg s) = Ambiguous ["sherpa"; "mimic"].
Proof.
  eexists _, _. split.
  - apply (calls_run [Unregister "tts"; Unregister "sherpa"; Register (join "mimic" 3 ["speak"])] r2
             (times 5 0 ++ times 9 1 ++ times 5 0 ++ times 9 2)).
    vm_compute. reflexivity.
  - split_and!; [vm_compute; reflexivity..| |vm_compute; reflexivity]. left.
Qed.

(** A device can be shown offline while a plugin of it is registered, when
    its last plugin leaves while the next one joins. *)
Theorem offline_race :
  exists s, rtc race_step (mkRace r1 []) s /\ quiet s /\
    is_registered 2 (race_reg s) = true /\ device_id <$> get "sherpa" (race_reg s) = Some "desk" /\
    dev_state <$> get_device "desk" (race_reg s) = Some (device_state_i32 StOffline).
Proof.
  eexists. split.
  - apply (calls_run [Unregister "tts"; Register (join "sherpa" 2 [])] r1 (times 9 0 ++ times 6 1 ++ times 1 0)).
    vm_compute. reflexivity.
  - split_and!; vm_compute; reflexivity.
Qed.

(** Two plugins registering and one leaving, interleaved step by step. *)
Definition busy : Race :=
  default (mkRace r2 []) (schedule [0; 0; 1; 0; 1; 0; 1; 0; 1; 1; 1; 1; 0; 0; 0; 0]%nat
    (mkRace r2 (map call [Unregister "tts"; Register (join "mimic" 3 ["speak"])]))).

Lemma race_free_witness :
  is_Some (by_plugin_id (race_reg busy) !! "mimic") /\
  (forall pid e, by_plugin_id (race_reg busy) !! pid = Some e -> plugin_id e = pid).
Proof.
  split; [vm_compute; by eexists|]. intros pid e He.
  refine (proj1 (proj1 (registration_race_free r2 busy r2_ok _) pid e He)).
  apply (calls_run [Unregister "tts"; Register (join "mimic" 3 ["speak"])] r2 [0; 0; 1; 0; 1; 0; 1; 0; 1; 1; 1; 1; 0; 0; 0; 0]%nat).
  vm_compute. reflexivity.
Defined.

End RaceRuns.
