(* ===== verification/Locks.v ===== *)
(** * The lock order of the registry

    Every [DashMap] operation of [plugins/registry.rs] takes the lock of one
    shard; a guard or a vacant entry that is still alive keeps it while the
    next operation takes another.  An iteration visits the shards in their
    order, and the iterator of [DashMap] takes the lock of the next one before
    it lets go of the one it leaves.  The lock behaviour of each method is the
    sequence of acquisitions and releases on each of its branches.  The
    tasks of the kernel cannot deadlock, because all iterations take the
    shards in the same order, and because only the router registers plugins
    with actions and looks up providers: the two methods take the plugin map
    and the action index in opposite orders. *)

From S2P Require Import Prelude.

Inductive Guarded :=
| GConn | GPlugin | GPong | GDevices | GPending | GRequirements | GIndex | GAmbiguous | GSubscriptions | GByPlugin.

#[export] Instance Guarded_eq_dec : EqDecision Guarded.
Proof. solve_decision. Defined.

(** A shard of one of the maps. *)
Definition Lock : Type := Guarded * nat.

Inductive Mode := Read | Write.

Inductive Instr := Acq (l : Lock) (m : Mode) | Rel (l : Lock).

(** ** The methods *)

(** One operation on one map. *)
Definition single (l : Lock) (m : Mode) : list Instr := [Acq l m; Rel l].

(** An iteration from the shard [s] on, over [n] more: the next shard is locked
    before the last one is released. *)
Fixpoint iter_from (g : Guarded) (s n : nat) : list Instr :=
  match n with
  | O => [Rel (g, s)]
  | S n => [Acq (g, S s) Read; Rel (g, s)] ++ iter_from g (S s) n
  end.

(** [iter()] over the first [n] shards: all of them, or as many as it takes to
    find something. *)
Definition iter_locks (g : Guarded) (n : nat) : list Instr :=
  match n with O => [] | S n => Acq (g, O) Read :: iter_from g O n end.

(** [index_action] on its three branches. *)
Inductive Indexing := IndexAmbiguous (amb : nat) | IndexSlot (amb ix : nat) | IndexEvacuate (amb ix : nat).

Definition index_locks (i : Indexing) : list Instr :=
  match i with
  | IndexAmbiguous amb => single (GAmbiguous, amb) Write
  | IndexSlot amb ix => single (GAmbiguous, amb) Write ++ single (GIndex, ix) Write
  | IndexEvacuate amb ix =>
      single (GAmbiguous, amb) Write ++ single (GIndex, ix) Write ++ single (GAmbiguous, amb) Write
  end.

(** [register_with_device] and [register_device]: refused for the connection,
    refused for the plugin, or carried out. *)
Inductive Registering :=
| ConnTaken (c : nat)
| PluginTaken (c p : nat)
| Entered (c p : nat) (acts : list Indexing) (pong dev : nat).

Definition register_locks (g : Registering) : list Instr :=
  match g with
  | ConnTaken c => single (GConn, c) Write
  | PluginTaken c p => [Acq (GConn, c) Write; Acq (GPlugin, p) Write; Rel (GPlugin, p); Rel (GConn, c)]
  | Entered c p acts pong dev =>
      [Acq (GConn, c) Write; Acq (GPlugin, p) Write; Rel (GConn, c)] ++
      mjoin (map index_locks acts) ++ single (GPong, pong) Write ++ single (GDevices, dev) Write ++ [Rel (GPlugin, p)]
  end.

(** [unindex_action]: promotes the last declarer, or drops a row, or neither. *)
Inductive Unindexing := UnindexPromote (amb ix : nat) | UnindexDrop (amb ix : nat) | UnindexNone (amb ix : nat).

Definition unindex_locks (u : Unindexing) : list Instr :=
  match u with
  | UnindexPromote amb ix =>
      single (GAmbiguous, amb) Write ++ single (GAmbiguous, amb) Write ++ single (GIndex, ix) Write
  | UnindexDrop amb ix => single (GAmbiguous, amb) Write ++ single (GIndex, ix) Read ++ single (GIndex, ix) Write
  | UnindexNone amb ix => single (GAmbiguous, amb) Write ++ single (GIndex, ix) Read
  end.

(** [unregister] of a registered plugin; the scan visits [scan] shards. *)
Definition unregister_locks (p c pong req : nat) (acts : list Unindexing) (scan : nat) (dev : option nat) : list Instr :=
  single (GPlugin, p) Write ++ single (GConn, c) Write ++ single (GPong, pong) Write ++ single (GRequirements, req) Write ++
  mjoin (map unindex_locks acts) ++ iter_locks GPlugin scan ++
  match dev with Some d => single (GDevices, d) Write | None => [] end.

(** [get_by_conn_id]: the connection's guard lives while the plugin is read. *)
Definition get_by_conn_locks (c : nat) (p : option nat) : list Instr :=
  [Acq (GConn, c) Read] ++ match p with Some p => single (GPlugin, p) Read | None => [] end ++ [Rel (GConn, c)].

(** [record_pong]: the plugin's guard lives while its device is updated. *)
Definition record_pong_locks (pong p : nat) (dev : option nat) : list Instr :=
  single (GPong, pong) Write ++
  [Acq (GPlugin, p) Read] ++ match dev with Some d => single (GDevices, d) Write | None => [] end ++ [Rel (GPlugin, p)].

(** [find_action_provider]: the index row's guard lives while the provider is
    read. *)
Definition find_locks (amb : nat) (ix : option (nat * option nat)) : list Instr :=
  single (GAmbiguous, amb) Read ++
  match ix with
  | Some (ix, p) =>
      [Acq (GIndex, ix) Read] ++ match p with Some p => single (GPlugin, p) Read | None => [] end ++ [Rel (GIndex, ix)]
  | None => []
  end.

(** The calls a task makes. *)
Inductive Call :=
| CRegister (g : Registering)
| CUnregister (p c pong req : nat) (acts : list Unindexing) (scan : nat) (dev : option nat)
| CGetByConn (c : nat) (p : option nat)
| CRecordPong (pong p : nat) (dev : option nat)
| CFind (amb : nat) (ix : option (nat * option nat))
| CIter (g : Guarded) (n : nat)    (** [list], [list_devices], the sweeps and scans of the pending actions *)
| CSingle (l : Lock) (m : Mode).   (** every other method, map operation by map operation *)

Definition call_locks (c : Call) : list Instr :=
  match c with
  | CRegister g => register_locks g
  | CUnregister p c pong req acts scan dev => unregister_locks p c pong req acts scan dev
  | CGetByConn c p => get_by_conn_locks c p
  | CRecordPong pong p dev => record_pong_locks pong p dev
  | CFind amb ix => find_locks amb ix
  | CIter g n => iter_locks g n
  | CSingle l m => single l m
  end.

(** ** Tasks and locks *)

Record Task := mkTask { held : list (Lock * Mode); todo : list Instr }.

Definition task (calls : list Call) : Task := mkTask [] (mjoin (map call_locks calls)).

Definition conflicts (l : Lock) (m : Mode) (t : Task) : bool :=
  existsb (fun h => bool_decide (h.1 = l) && match m, h.2 with Read, Read => false | _, _ => true end) (held t).

Inductive lock_step (ts : list Task) : list Task -> Prop :=
| ls_acquire i t l m rest :
    ts !! i = Some t -> todo t = Acq l m :: rest -> existsb (conflicts l m) ts = false ->
    lock_step ts (<[i := mkTask ((l, m) :: held t) rest]> ts)
| ls_release i t l rest :
    ts !! i = Some t -> todo t = Rel l :: rest ->
    lock_step ts (<[i := mkTask (filter (fun h => h.1 <> l) (held t)) rest]> ts).

Definition wants (t : Task) : option Lock := match todo t with Acq l _ :: _ => Some l | _ => None end.
Definition holds (t : Task) (l : Lock) : Prop := l ∈ (held t).*1.

(** A set of tasks each of which waits for a lock that one of them holds, in
    whatever mode: no policy among readers and writers wakes them. *)
Definition deadlocked (ts : list Task) : Prop :=
  exists D : list nat, D <> [] /\
    forall i, i ∈ D -> exists t l j u, ts !! i = Some t /\ wants t = Some l /\ j ∈ D /\ ts !! j = Some u /\ holds u l.

(** ** Nesting *)

(** Which maps a task may lock while it holds another. *)
Definition common_maps (g h : Guarded) : bool :=
  match g, h with
  | GConn, GPlugin | GPlugin, GPong | GPlugin, GDevices => true
  | _, _ => false
  end.

Definition router_maps (g h : Guarded) : bool :=
  common_maps g h ||
  match g, h with GPlugin, GAmbiguous | GPlugin, GIndex | GIndex, GPlugin => true | _, _ => false end.

(** Which locks: of such maps, or of a later shard of the same one. *)
Definition lock_order (maps : Guarded -> Guarded -> bool) (l k : Lock) : bool :=
  maps l.1 k.1 || (bool_decide (l.1 = k.1) && (l.2 <? k.2)%nat).

Fixpoint nests (order : Lock -> Lock -> bool) (hs : list (Lock * Mode)) (prog : list Instr) : bool :=
  match prog with
  | [] => true
  | Acq l m :: prog => forallb (fun h => order h.1 l) hs && nests order ((l, m) :: hs) prog
  | Rel l :: prog => nests order (filter (fun h => h.1 <> l) hs) prog
  end.

(** What a call needs of the order. *)
Definition admits (maps : Guarded -> Guarded -> bool) (c : Call) : bool :=
  match c with
  | CFind _ (Some (_, Some _)) => maps GIndex GPlugin
  | CRegister (Entered _ _ (_ :: _) _ _) => maps GPlugin GAmbiguous && maps GPlugin GIndex
  | _ => true
  end.

Section Nesting.
Variable maps : Guarded -> Guarded -> bool.
Hypothesis maps_irrefl : forall g, maps g g = false.
Hypothesis maps_common : forall g h, common_maps g h = true -> maps g h = true.

Abbreviation order := (lock_order maps).

Lemma order_irrefl l : order l l = false.
Proof. unfold lock_order. rewrite maps_irrefl, Nat.ltb_irrefl. by rewrite andb_false_r. Qed.

Lemma order_maps g h s s' : maps g h = true -> order (g, s) (h, s') = true.
Proof. unfold lock_order. cbn. by intros ->. Qed.

Lemma order_common g h s s' : common_maps g h = true -> order (g, s) (h, s') = true.
Proof. intros Hc. by apply order_maps, maps_common. Qed.

Lemma order_shard g s s' : (s < s')%nat -> order (g, s) (g, s') = true.
Proof.
  intros Hs. unfold lock_order. cbn [fst snd]. rewrite bool_decide_eq_true_2 by done. apply Nat.ltb_lt in Hs as ->. apply orb_true_r.
Qed.

Lemma nests_release hs (l : Lock) m :
  forallb (fun h : Lock * Mode => order h.1 l) hs = true -> filter (fun h => h.1 <> l) ((l, m) :: hs) = hs.
Proof.
  intros Hf. rewrite filter_cons_False by (intros Hn; by apply Hn). induction hs as [|h hs IH]; [done|].
  cbn in Hf. apply andb_prop in Hf as [Hh Hf]. rewrite filter_cons_True, IH by (done || (intros <-; by rewrite order_irrefl in Hh)).
  done.
Qed.

Lemma nests_single hs l m rest :
  forallb (fun h : Lock * Mode => order h.1 l) hs = true -> nests order hs (single l m ++ rest) = nests order hs rest.
Proof.
  intros Hf. cbn [single app nests]. rewrite nests_release by done. replace (forallb _ hs) with true by done. done.
Qed.

(** A guard that lives across [body]. *)
Lemma nests_guard hs l m body rest :
  forallb (fun h : Lock * Mode => order h.1 l) hs = true ->
  (forall r, nests order ((l, m) :: hs) (body ++ r) = nests order ((l, m) :: hs) r) ->
  nests order hs ([Acq l m] ++ body ++ [Rel l] ++ rest) = nests order hs rest.
Proof.
  intros Hf Hb. cbn [app nests]. change (Rel l :: rest) with ([Rel l] ++ rest). rewrite Hb. cbn [app nests].
  rewrite nests_release by done. replace (forallb _ hs) with true by done. done.
Qed.

(** While nothing is held, or only the slot of a plugin. *)
Lemma nests_single_nil l m rest : nests order [] (single l m ++ rest) = nests order [] rest.
Proof. by apply nests_single. Qed.

Lemma nests_single_slot g s (p : nat) m rest :
  maps GPlugin g = true ->
  nests order [((GPlugin, p), Write)] (single (g, s) m ++ rest) = nests order [((GPlugin, p), Write)] rest.
Proof. intros Ho. apply nests_single. cbn. by rewrite order_maps. Qed.

Lemma nests_concat {A} hs (f : A -> list Instr) xs rest :
  (forall x r, x ∈ xs -> nests order hs (f x ++ r) = nests order hs r) ->
  nests order hs (mjoin (map f xs) ++ rest) = nests order hs rest.
Proof.
  intros Hf. induction xs as [|x xs IH]; [done|]. cbn. rewrite <- app_assoc, Hf by left. apply IH. intros y r Hy. apply Hf. by right.
Qed.

(** An iteration holds two shards of its map, the later one last. *)
Lemma nests_iter g n rest : nests order [] (iter_locks g n ++ rest) = nests order [] rest.
Proof.
  destruct n as [|n]; [done|]. cbn [iter_locks app nests forallb andb]. generalize 0%nat as s.
  induction n as [|n IH]; intros s; cbn [iter_from app nests forallb fst].
  - by rewrite filter_cons_False by (intros Hn; by apply Hn).
  - rewrite order_shard by lia. cbn [andb]. rewrite filter_cons_True by (cbn; intros [=]; lia).
    rewrite filter_cons_False by (intros Hn; by apply Hn). apply IH.
Qed.

Lemma index_nests (p : nat) i rest :
  maps GPlugin GAmbiguous = true -> maps GPlugin GIndex = true ->
  nests order [((GPlugin, p), Write)] (index_locks i ++ rest) = nests order [((GPlugin, p), Write)] rest.
Proof. intros Ha Hi. destruct i; cbn [index_locks]; rewrite <- ?app_assoc, ?nests_single_slot; done. Qed.

Lemma register_nests g rest :
  admits maps (CRegister g) = true -> nests order [] (register_locks g ++ rest) = nests order [] rest.
Proof.
  intros Ha. destruct g as [c|c p|c p acts pong dev]; cbn [register_locks]; [apply nests_single_nil|..].
  - apply (nests_guard [] (GConn, c) Write (single (GPlugin, p) Write)); [done|]. intros r. apply nests_single. cbn.
    by rewrite order_common.
  - rewrite <- !app_assoc.
    assert (Hslot : forall r, nests order [] ([Acq (GConn, c) Write; Acq (GPlugin, p) Write; Rel (GConn, c)] ++ r) =
                              nests order [((GPlugin, p), Write)] r) .
    { intros r. cbn [app nests forallb fst snd]. rewrite (order_common GConn GPlugin) by done.
      by rewrite filter_cons_True, filter_cons_False by (done || (intros Hn; by apply Hn)). }
    rewrite Hslot, nests_concat.
    + rewrite !nests_single_slot by (by apply maps_common). cbn [app nests]. by rewrite filter_cons_False by (intros Hn; by apply Hn).
    + intros i r Hi. destruct acts; [by apply elem_of_nil in Hi|]. apply andb_prop in Ha as [? ?]. by apply index_nests.
Qed.

Lemma call_nests c rest : admits maps c = true -> nests order [] (call_locks c ++ rest) = nests order [] rest.
Proof.
  destruct c as [g|p c pong req acts scan dev|c p|pong p dev|amb ix|g n|l m]; cbn [call_locks]; intros Ha.
  - by apply register_nests.
  - unfold unregister_locks. rewrite <- !app_assoc, !nests_single_nil, nests_concat, nests_iter.
    + destruct dev; [apply nests_single_nil|done].
    + intros u r _. destruct u; cbn [unindex_locks]; by rewrite <- ?app_assoc, ?nests_single_nil.
  - unfold get_by_conn_locks. rewrite <- !app_assoc. apply nests_guard; [done|]. intros r.
    destruct p as [p|]; [|done]. apply nests_single. cbn. by rewrite order_common.
  - unfold record_pong_locks. rewrite <- !app_assoc, nests_single_nil. apply nests_guard; [done|]. intros r.
    destruct dev as [d|]; [|done]. apply nests_single. cbn. by rewrite order_common.
  - unfold find_locks. rewrite <- app_assoc, nests_single_nil. destruct ix as [[ix p]|]; [|done].
    rewrite <- !app_assoc. apply nests_guard; [done|]. intros r. destruct p as [p|]; [|done].
    apply nests_single. cbn in Ha |- *. by rewrite order_maps.
  - apply nests_iter.
  - apply nests_single_nil.
Qed.

Lemma task_nests calls : forallb (admits maps) calls = true -> nests order [] (todo (task calls)) = true.
Proof.
  intros Ha. cbn. rewrite <- (app_nil_r (mjoin _)), nests_concat; [done|].
  intros c r Hc. apply call_nests. rewrite forallb_forall in Ha. by apply Ha, list_elem_of_In.
Qed.

End Nesting.

Lemma common_irrefl g : common_maps g g = false.
Proof. by destruct g. Qed.
Lemma router_irrefl g : router_maps g g = false.
Proof. by destruct g. Qed.
Lemma router_common g h : common_maps g h = true -> router_maps g h = true.
Proof. unfold router_maps. by intros ->. Qed.

(** ** Freedom from deadlock *)

(** The order the task number [i] keeps: the router is the first task. *)
Definition maps_of (i : nat) : Guarded -> Guarded -> bool := match i with O => router_maps | S _ => common_maps end.

Definition disciplined (ts : list Task) : Prop :=
  forall i t, ts !! i = Some t -> nests (lock_order (maps_of i)) (held t) (todo t) = true.

Lemma disciplined_step ts ts' : lock_step ts ts' -> disciplined ts -> disciplined ts'.
Proof.
  assert (Hput : forall i t t', ts !! i = Some t -> disciplined ts ->
    (nests (lock_order (maps_of i)) (held t) (todo t) = true -> nests (lock_order (maps_of i)) (held t') (todo t') = true) ->
    disciplined (<[i := t']> ts)).
  { intros i t t' Hi Hd Ht k u Hk. destruct (decide (k = i)) as [->|Hne].
    - rewrite list_lookup_insert_eq in Hk by eauto using lookup_lt_Some. injection Hk as <-. by apply Ht, Hd.
    - rewrite list_lookup_insert_ne in Hk by done. by apply Hd. }
  destruct 1 as [i t l m rest Hi Ht _|i t l rest Hi Ht]; intros Hd; apply (Hput i t _ Hi Hd); rewrite Ht; cbn.
  - by intros [_ ?]%andb_prop.
  - done.
Qed.

Lemma disciplined_run ts ts' : rtc lock_step ts ts' -> disciplined ts -> disciplined ts'.
Proof. induction 1; eauto using disciplined_step. Qed.

(** A waiting task wants a lock its order allows after each one it holds. *)
Lemma disciplined_wait ts i t l h :
  disciplined ts -> ts !! i = Some t -> wants t = Some l -> holds t h -> lock_order (maps_of i) h l = true.
Proof.
  unfold wants, holds. intros Hd Hi Hw (x & -> & Hx)%list_elem_of_fmap. specialize (Hd _ _ Hi).
  destruct (todo t) as [|[l' m|l'] rest]; [done| |done]. injection Hw as ->. cbn in Hd. apply andb_prop in Hd as [Hd _].
  rewrite forallb_forall in Hd. by apply Hd, list_elem_of_In.
Qed.

(** No finite set of numbers in which each has a greater one. *)
Lemma no_ascent (f : nat -> nat) (D : list nat) :
  D <> [] -> (forall i, i ∈ D -> exists j, j ∈ D /\ (f i < f j)%nat) -> False.
Proof.
  intros Hne Hup. assert (Hall : forall k, exists i, i ∈ D /\ (k <= f i)%nat).
  { induction k as [|k (i & Hi & Hk)]; [destruct D as [|i D]; [done|]; exists i; split; [left|lia]|].
    destruct (Hup i Hi) as (j & Hj & Hlt). exists j. split; [done|lia]. }
  destruct (Hall (S (max_list (map f D)))) as (i & Hi & Hk).
  pose proof (max_list_elem_of_le (f i) (map f D)) as Hm. specialize (Hm ltac:(by apply list_elem_of_fmap_2)). lia.
Qed.

(** The maps in an order every waiting task climbs: the index comes after the
    plugins, and before them while the router waits for a plugin. *)
Definition level (index_first : bool) (g : Guarded) : nat :=
  match g with
  | GConn => 0
  | GIndex => if index_first then 1 else 3
  | GPlugin => 2
  | _ => 3
  end.

Lemma common_climbs b g h : common_maps g h = true -> (level b g < level b h)%nat.
Proof. destruct g, h, b; cbn; (done || lia). Qed.

Lemma router_climbs g h :
  router_maps g h = true -> (level (bool_decide (h = GPlugin)) g < level (bool_decide (h = GPlugin)) h)%nat.
Proof. destruct g, h; try done; intros _; vm_compute; lia. Qed.

Lemma disciplined_no_deadlock ts : disciplined ts -> deadlocked ts -> False.
Proof.
  intros Hd (D & Hne & HD).
  pose (want := fun i => ts !! i ≫= wants).
  pose (b := match want 0%nat with Some l => bool_decide (l.1 = GPlugin) | None => false end).
  pose (shard := fun i => match want i with Some l => l.2 | None => 0%nat end).
  pose (M := S (max_list (map shard D))).
  assert (HM : forall i, i ∈ D -> (shard i < M)%nat).
  { intros i Hi. pose proof (max_list_elem_of_le (shard i) (map shard D)) as Hm.
    specialize (Hm ltac:(by apply list_elem_of_fmap_2)). unfold M. lia. }
  (** the holder of the lock a task of [D] waits for waits higher up *)
  apply (no_ascent (fun i => match want i with Some l => level b l.1 * M + l.2 | None => 0 end)%nat D); [done|].
  intros i Hi. destruct (HD i Hi) as (t & l & j & u & Ht & Hl & Hj & Hu & Hh). exists j. split; [done|].
  destruct (HD j Hj) as (u' & k & _ & _ & Hu' & Hk & _). assert (u' = u) as -> by congruence.
  pose proof (HM i Hi) as Hs. unfold shard in Hs.
  assert (want i = Some l) as Hwi by (unfold want; by rewrite Ht).
  assert (want j = Some k) as Hwj by (unfold want; by rewrite Hu). rewrite Hwi in *. rewrite Hwj.
  pose proof (disciplined_wait _ _ _ _ _ Hd Hu Hk Hh) as Ho. apply orb_prop in Ho as [Ho|[Eg Eo]%andb_prop].
  - assert (level b l.1 < level b k.1)%nat as Hlt;
      [|pose proof (Nat.mul_le_mono_r _ _ M Hlt); cbn [Nat.mul] in *; lia]. destruct j as [|j]; [|by apply common_climbs].
    apply router_climbs in Ho. unfold b. by rewrite Hwj.
  - apply bool_decide_eq_true in Eg. apply Nat.ltb_lt in Eo. rewrite Eg. lia.
Qed.

(** The calls of the other tasks: no provider lookup, and registrations
    without actions, such as the bridge's proxy. *)
Definition plain (c : Call) : bool := admits common_maps c.

(** C7: the kernel does not deadlock on its registry.  One task, the router,
    makes any calls; every other task makes any calls but lookups of
    providers and registrations with actions; iterations hold a shard while
    they take the next.  In no interleaving is there a set of tasks each of
    which waits for a lock that one of them holds. *)
Theorem registry_deadlock_free (router : list Call) (others : list (list Call)) ts :
  forallb (forallb plain) others = true ->
  rtc lock_step (task router :: map task others) ts -> ~ deadlocked ts.
Proof.
  intros Hpl Hrun. assert (disciplined (task router :: map task others)) as Hd.
  { intros [|i] t Ht.
    - injection Ht as <-. apply task_nests; [apply router_irrefl|apply router_common|].
      apply forallb_forall. intros c _. by destruct c as [[| |? ? []]| | | |? [[? []]|]| |].
    - change ((task <$> others) !! i = Some t) in Ht. rewrite list_lookup_fmap in Ht. destruct (others !! i) as [calls|] eqn:Hi; [|done]. injection Ht as <-.
      apply task_nests; [apply common_irrefl|done|]. rewrite forallb_forall in Hpl.
      apply Hpl, list_elem_of_In. by eapply list_elem_of_lookup_2. }
  intros Hdl. by eapply disciplined_no_deadlock, Hdl; eapply disciplined_run.
Qed.

(** ** Runs *)
Module LockRuns.

(** The router serves an action request while a connection leaves, another
    one answers a ping, and the bridge registers its proxy. *)
Definition router : list Call :=
  [CGetByConn 0 (Some 0); CFind 0 (Some (0, Some 0)); CRegister (Entered 1 0 [IndexSlot 0 0] 0 0); CRecordPong 0 0 (Some 0)]%nat.
Definition others : list (list Call) :=
  [[CGetByConn 0 (Some 0); CUnregister 0 0 0 0 [UnindexDrop 0 0] 4 (Some 0)]; [CRegister (Entered 2 0 [] 0 0)]]%nat.

Definition start : list Task := task router :: map task others.

(** The router and the disconnect loop both hold the guard of a connection. *)
Lemma no_deadlock_witness :
  exists ts t u, rtc lock_step start ts /\ ts !! 0%nat = Some t /\ ts !! 1%nat = Some u /\
    holds t (GConn, 0%nat) /\ holds u (GConn, 0%nat) /\ ~ deadlocked ts.
Proof.
  assert (exists ts, rtc lock_step start ts /\ held <$> ts = [[((GConn, 0%nat), Read)]; [((GConn, 0%nat), Read)]; []])
    as (ts & Hrun & Hh).
  { eexists. split.
    - eapply rtc_l; [eapply (ls_acquire _ 0); reflexivity|]. eapply rtc_once. eapply (ls_acquire _ 1); reflexivity.
    - reflexivity. }
  destruct ts as [|t [|u [|v [|]]]]; try done. injection Hh as Ht Hu Hv.
  exists [t; u; v], t, u. split_and!; [done..| | |].
  - unfold holds. rewrite Ht. left.
  - unfold holds. rewrite Hu. left.
  - apply (registry_deadlock_free router others); [by vm_compute|exact Hrun].
Defined.

(** The condition is needed.  Were a second task to register a plugin with
    an action while the router looks up a provider, the registration would
    wait for the index row with the plugin's shard locked, and the lookup for
    that shard with the row locked. *)
Theorem opposite_orders_deadlock :
  exists ts, rtc lock_step [task [CFind 0 (Some (0, Some 0))]; task [CRegister (Entered 0 0 [IndexSlot 0 0] 0 0)]]%nat ts /\
    deadlocked ts.
Proof.
  eexists. split.
  - do 2 (eapply rtc_l; [first [eapply (ls_acquire _ 0); reflexivity|eapply (ls_release _ 0); reflexivity]|cbn]).
    eapply rtc_l; [eapply (ls_acquire _ 0); reflexivity|cbn].
    do 5 (eapply rtc_l; [first [eapply (ls_acquire _ 1); reflexivity|eapply (ls_release _ 1); reflexivity]|cbn]).
    apply rtc_refl.
  - exists [0; 1]%nat. split; [done|]. intros i Hi. repeat (apply elem_of_cons in Hi as [->|Hi]); [..|by apply elem_of_nil in Hi].
    + eexists _, _, 1%nat, _. split_and!; [reflexivity..|right; left|reflexivity|]. unfold holds. cbn. left.
    + eexists _, _, 0%nat, _. split_and!; [reflexivity..|left|reflexivity|]. unfold holds. cbn. left.
Qed.

End LockRuns.
