(* ===== verification/Permissions.v ===== *)
(** * Permission checks ([src/auth/permissions.rs])

    The gates the router consults before it acts for a plugin.  All of them
    are functions of the registry and default to denial. *)

From S2P Require Import Prelude Wire Toy Channel Registry.

Open Scope Z_scope.

(** [required_permission_for_action]: the hardcoded map is gone; only its
    deprecation warning is left. *)
Definition required_permission_for_action (action : string) : option PermissionType := None.

Definition normalize_permission (s : string) : string :=
  to_ascii_lowercase (default s (strip_prefix "PERMISSION_" s)).

Section Permissions.
Context `{WireCrate}.

Definition resolve_permission (s : string) : option PermissionType :=
  let name :=
    match strip_prefix "PERMISSION_" s with
    | Some rest => "PERMISSION_" +:+ to_ascii_uppercase rest
    | None => "PERMISSION_" +:+ to_ascii_uppercase s
    end in
  pt ← perm_from_str_name name;
  if pt ==? PermissionUnknown then None else Some pt.

Definition check_permission (r : PluginRegistry) (pid : string) (required : PermissionType)
    : Result VynkorError unit :=
  entry ← ok_or (EPluginNotFound pid) (get pid r);
  let required_norm := normalize_permission (perm_as_str_name required) in
  if existsb (fun p => normalize_permission p ==? required_norm) (permissions (manifest entry))
  then Ok tt
  else Err (EPermissionDenied (pid +:+ " lacks " +:+ perm_as_str_name required)).

Definition check_ipc_send (r : PluginRegistry) (pid : string) : Result VynkorError unit :=
  check_permission r pid PermissionIpcSend.

Definition check_ipc_target (r : PluginRegistry) (sid tid : string) : Result VynkorError unit :=
  entry ← ok_or (EPluginNotFound sid) (get sid r);
  match (match get tid r with
         | Some target => if user_id target <>? user_id entry then Some target else None
         | None => None
         end) with
  | Some target =>
      Err (EPermissionDenied ("cross-user IPC denied: " +:+ sid +:+ " (user " +:+ user_id entry
             +:+ ") -> " +:+ tid +:+ " (user " +:+ user_id target +:+ ")"))
  | None =>
      if existsb (fun t => t ==? tid) (ipc_targets (manifest entry)) then Ok tt
      else Err (EPermissionDenied (sid +:+ " ipc_targets does not include " +:+ tid))
  end.

(** ** Lemmas *)

(** The declared permissions of a plugin cover [p]. *)
Definition holds (e : PluginEntry) (p : PermissionType) : Prop :=
  exists s, s ∈ permissions (manifest e) /\
            normalize_permission s = normalize_permission (perm_as_str_name p).

Lemma check_permission_Ok r pid p :
  check_permission r pid p = Ok tt <-> exists e, get pid r = Some e /\ holds e p.
Proof.
  unfold check_permission, holds. destruct (get pid r) as [e|]; simpl; [|naive_solver].
  pose proof (existsb_decide
    (fun s => normalize_permission s = normalize_permission (perm_as_str_name p))
    (permissions (manifest e))) as Hx. cbv beta in Hx.
  destruct (existsb _ _); naive_solver.
Qed.

Lemma check_ipc_target_Ok r sid tid :
  check_ipc_target r sid tid = Ok tt <->
  exists e, get sid r = Some e /\ tid ∈ ipc_targets (manifest e) /\
            forall t, get tid r = Some t -> user_id t = user_id e.
Proof.
  unfold check_ipc_target. destruct (get sid r) as [e|]; simpl; [|naive_solver].
  pose proof (existsb_decide (fun t => t = tid) (ipc_targets (manifest e))) as Hx. cbv beta in Hx.
  destruct (get tid r) as [t|].
  - case_bool_decide; simpl; [|naive_solver]. destruct (existsb _ _); naive_solver.
  - destruct (existsb _ _); naive_solver.
Qed.

Lemma check_ipc_send_Ok r pid :
  check_ipc_send r pid = Ok tt <-> exists e, get pid r = Some e /\ holds e PermissionIpcSend.
Proof. apply check_permission_Ok. Qed.

Lemma to_lower_lower a : ascii_to_lower (ascii_to_lower a) = ascii_to_lower a.
Proof. by destruct a as [[] [] [] [] [] [] [] []]; vm_compute. Qed.

Lemma to_lower_upper a : ascii_to_lower (ascii_to_upper a) = ascii_to_lower a.
Proof. by destruct a as [[] [] [] [] [] [] [] []]; vm_compute. Qed.

Lemma to_lower_not_P a : ascii_to_lower a <> "P"%char.
Proof. by destruct a as [[] [] [] [] [] [] [] []]; vm_compute. Qed.

Lemma lowercase_idem s : to_ascii_lowercase (to_ascii_lowercase s) = to_ascii_lowercase s.
Proof. apply string_map_map, to_lower_lower. Qed.

Lemma lowercase_uppercase s : to_ascii_lowercase (to_ascii_uppercase s) = to_ascii_lowercase s.
Proof. apply string_map_map, to_lower_upper. Qed.

Lemma lowercase_no_prefix s : strip_prefix "PERMISSION_" (to_ascii_lowercase s) = None.
Proof.
  destruct s as [|a s]; [done|]. cbn -[ascii_to_lower].
  case_decide as Ha; [|done]. by destruct (to_lower_not_P a).
Qed.

Lemma resolve_permission_name `{!WireLaws} s p :
  resolve_permission s = Some p ->
  perm_as_str_name p = "PERMISSION_" +:+ to_ascii_uppercase (default s (strip_prefix "PERMISSION_" s)) /\
  p <> PermissionUnknown.
Proof.
  unfold resolve_permission. rewrite bind_Some. intros (pt & Hn & Hp).
  case_bool_decide; simplify_eq. split; [|done]. apply perm_name_roundtrip in Hn as ->.
  by destruct (strip_prefix "PERMISSION_" s).
Qed.

(** ** Properties *)

(** Normalisation identifies the two spellings of a permission (the
    lowercase name and the upper-case protobuf name) and is idempotent, so
    comparing normalised names does not depend on how often a name went
    through it. *)
Theorem normalize_permission_spellings s :
  normalize_permission (normalize_permission s) = normalize_permission s /\
  normalize_permission ("PERMISSION_" +:+ to_ascii_uppercase s) = to_ascii_lowercase s /\
  (starts_with "PERMISSION_" s = false ->
   normalize_permission ("PERMISSION_" +:+ to_ascii_uppercase s) = normalize_permission s).
Proof.
  assert (forall t, normalize_permission ("PERMISSION_" +:+ to_ascii_uppercase t) = to_ascii_lowercase t) as Hp.
  { intros t. unfold normalize_permission. rewrite strip_prefix_app. apply lowercase_uppercase. }
  split_and!; [|apply Hp|].
  - unfold normalize_permission at 1 3. set (t := default s (strip_prefix "PERMISSION_" s)).
    unfold normalize_permission. fold t. rewrite lowercase_no_prefix. apply lowercase_idem.
  - rewrite Hp. unfold starts_with, normalize_permission. by destruct (strip_prefix _ s).
Qed.

(** A permission check succeeds exactly when the plugin is registered and
    declares the permission in one of its spellings; an unknown plugin and a
    missing permission have their own errors. *)
Theorem check_permission_spec r pid p :
  match check_permission r pid p with
  | Ok _ => exists e, get pid r = Some e /\ holds e p
  | Err e =>
      (get pid r = None /\ e = EPluginNotFound pid) \/
      (exists en, get pid r = Some en /\ ~ holds en p /\
                  e = EPermissionDenied (pid +:+ " lacks " +:+ perm_as_str_name p))
  end.
Proof.
  destruct (check_permission r pid p) as [[]|err] eqn:E; [by apply check_permission_Ok|].
  destruct (get pid r) as [e|] eqn:Hg.
  - right. exists e. split_and!; [done| |].
    + intros Hh. assert (check_permission r pid p = Ok tt) as HOk
        by (apply check_permission_Ok; eauto). congruence.
    + revert E. unfold check_permission. rewrite Hg. simpl. destruct (existsb _ _); naive_solver.
  - left. revert E. unfold check_permission. rewrite Hg. naive_solver.
Qed.

(** A requirement and a grant written in the same manifest spelling meet:
    if a string resolves to a permission, a plugin that declares that very
    string passes the check for it, and the string never resolves to the
    unknown permission. *)
Theorem resolve_grants_check `{!WireLaws} s p r pid e :
  resolve_permission s = Some p -> get pid r = Some e -> s ∈ permissions (manifest e) ->
  check_permission r pid p = Ok tt /\ p <> PermissionUnknown.
Proof.
  intros Hs Hg Hin. destruct (resolve_permission_name s p Hs) as [Hn Hu]. split; [|done].
  apply check_permission_Ok. exists e. split; [done|]. exists s. split; [done|].
  rewrite Hn. unfold normalize_permission. rewrite strip_prefix_app. symmetry. apply lowercase_uppercase.
Qed.

(** Peer-to-peer IPC is default-deny: a target is allowed exactly when the
    sender is registered, lists the target in its own allowlist, and the
    target, if it is a registered plugin, belongs to the same user.  An
    empty allowlist allows nothing. *)
Theorem check_ipc_target_spec r sid tid :
  (check_ipc_target r sid tid = Ok tt <->
   exists e, get sid r = Some e /\ tid ∈ ipc_targets (manifest e) /\
             forall t, get tid r = Some t -> user_id t = user_id e) /\
  (forall e, get sid r = Some e -> ipc_targets (manifest e) = [] ->
             is_err (check_ipc_target r sid tid) = true).
Proof.
  split; [apply check_ipc_target_Ok|]. intros e He Hempty. unfold is_err.
  destruct (is_ok (check_ipc_target r sid tid)) eqn:Hok; [|done].
  apply is_ok_tt, check_ipc_target_Ok in Hok as (e' & He' & Hin & _).
  simplify_eq. rewrite Hempty in Hin. by apply not_elem_of_nil in Hin.
Qed.

End Permissions.

Module PermissionRuns.

#[local] Instance wire : WireCrate := toy_wire [].
#[local] Instance toy_wire_laws : WireLaws := toy_laws [].

Definition r : PluginRegistry :=
  (register (mkClock 0 0) "net" 1 (mkManifest ["network"; "PERMISSION_IPC_SEND"] [] [] [] [] [])
     10 "" "" registry_new).2.

Lemma resolve_grants_witness :
  resolve_permission "network" = Some 5 /\ check_permission r "net" 5 = Ok tt.
Proof.
  split; [vm_compute; reflexivity|].
  destruct (get "net" r) as [e|] eqn:E; [|by vm_compute in E].
  apply (resolve_grants_check "network" 5 r "net" e); [vm_compute; reflexivity|done|].
  vm_compute in E. simplify_eq. simpl. left.
Defined.

Lemma normalize_spellings_witness :
  normalize_permission ("PERMISSION_" +:+ to_ascii_uppercase "ipc_send") = normalize_permission "ipc_send".
Proof. apply normalize_permission_spellings. vm_compute. reflexivity. Defined.

Lemma check_ipc_target_witness : is_err (check_ipc_target r "net" "tts") = true.
Proof.
  destruct (get "net" r) as [e|] eqn:E; [|by vm_compute in E].
  apply (proj2 (check_ipc_target_spec r "net" "tts") e); [done|].
  vm_compute in E. simplify_eq. reflexivity.
Defined.

End PermissionRuns.
