(* ===== verification/Jwt.v ===== *)
(** * JSON web tokens ([src/auth/jwt.rs])

    The [jsonwebtoken] crate is the class [JwtCrate]; what is verified is
    the configuration the kernel gives it and the checks around it. *)

From S2P Require Import Prelude Wire Text.

Open Scope Z_scope.

Definition MIN_JWT_SECRET_BYTES : nat := 32.

Record PluginClaims := mkClaims {
  sub : string;
  claim_permissions : list string;
  claim_ipc_targets : list string;
  exp : Z;
  iat : Z;
  aud : option string;
  jti : option string;
}.

#[export] Instance PluginClaims_eq_dec : EqDecision PluginClaims.
Proof. solve_decision. Defined.

(** The fields of [jsonwebtoken::Validation] the kernel sets; the algorithm
    is always HS256. *)
Record Validation := mkValidation {
  validate_exp : bool;
  validate_aud : bool;
  audiences : option (list string);
  required_spec_claims : gset string;
}.

(** [Validation::new(Algorithm::HS256)] *)
Definition validation_new : Validation := mkValidation true true None {["exp"]}.

Class JwtCrate := {
  jwt_decode : Z -> string -> bytes -> Validation -> Result string PluginClaims;
  jwt_encode : PluginClaims -> bytes -> Result string string;
}.

(** The crate's leeway for time claims, in seconds. *)
Definition jwt_leeway : Z := 60.

(** Documented behaviour of the crate: a decoded token passed the checks its
    [Validation] asks for, and a token just encoded under a key decodes
    under the same key to its claims when those checks hold. *)
Definition checks_pass (now : Z) (v : Validation) (c : PluginClaims) : Prop :=
  (validate_exp v = true -> now <= exp c + jwt_leeway) /\
  ("aud" ∈ required_spec_claims v -> is_Some (aud c)) /\
  (validate_aud v = true -> forall a, aud c = Some a -> exists l, audiences v = Some l /\ a ∈ l).

Class JwtLaws `{JwtCrate} := {
  decode_checks : forall now t k v c, jwt_decode now t k v = Ok c -> checks_pass now v c;
  decode_encode : forall now t k v c,
    jwt_encode c k = Ok t -> checks_pass now v c -> jwt_decode now t k v = Ok c;
  encode_not_empty : forall k c t, jwt_encode c k = Ok t -> t <> EmptyString;
}.

Record JwtValidator := mkValidator {
  decoding_key : bytes;
  validation : Validation;
}.

Definition with_audience (secret : bytes) (audience : option string) : JwtValidator :=
  let v := validation_new in
  let v := mkValidation true (validate_aud v) (audiences v) (required_spec_claims v) in
  let v := match audience with
           | Some a => mkValidation (validate_exp v) (validate_aud v) (Some [a])
                         ({["aud"]} ∪ required_spec_claims v)
           | None => mkValidation (validate_exp v) false (audiences v) (required_spec_claims v)
           end in
  mkValidator secret v.

Definition validator_new (secret : bytes) : JwtValidator := with_audience secret None.

Section Jwt.
Context `{JwtCrate}.

Definition validate (jv : JwtValidator) (now : Z) (token : string) : Result VynkorError PluginClaims :=
  if is_empty token then Err (EAuth "missing JWT token")
  else match jwt_decode now token (decoding_key jv) (validation jv) with
       | Err e => Err (EAuth e)
       | Ok claims =>
           if is_some (aud claims) && is_empty (default EmptyString (jti claims))
           then Err (EAuth "token carries aud but no jti nonce")
           else Ok claims
       end.

(** The claims [mint_device_token] signs: [now] and [nonce] are the clock in
    seconds and the sixteen random bytes. *)
Definition device_claims (now : Z) (nonce : bytes) (device_id : string)
    (perms targets : list string) (ttl_secs : Z) (audience : string) : PluginClaims :=
  mkClaims device_id perms targets ((now + ttl_secs) mod 2 ^ 64) now (Some audience)
    (Some (hex_encode nonce)).

Definition mint_device_token (now : Z) (nonce : bytes) (secret : bytes) (device_id : string)
    (perms targets : list string) (ttl_secs : Z) (audience : string) : Result VynkorError string :=
  if (length secret <? MIN_JWT_SECRET_BYTES)%nat then
    Err (EAuth ("jwt_secret is " +:+ show (Z.of_nat (length secret)) +:+ " bytes, must be at least "
           +:+ show (Z.of_nat MIN_JWT_SECRET_BYTES)
           +:+ " bytes (HS256 secrets shorter than this are brute-forceable)"))
  else
    let device_id := trim device_id in
    if is_empty device_id then Err (EAuth "device_id must not be empty")
    else if ttl_secs =? 0 then Err (EAuth "ttl_secs must be > 0")
    else match jwt_encode (device_claims now nonce device_id perms targets ttl_secs audience) secret with
         | Ok t => Ok t
         | Err e => Err (EAuth e)
         end.

(** ** Properties *)

(** A token accepted by a validator is not expired (up to the crate's
    leeway) and carries a nonce whenever it carries an audience; if the
    operator configured an audience, it carries exactly that audience. *)
Theorem validate_sound `{!JwtLaws} secret audience now token c :
  validate (with_audience secret audience) now token = Ok c ->
  token <> EmptyString /\ now <= exp c + jwt_leeway /\
  (is_Some (aud c) -> exists n, jti c = Some n /\ n <> EmptyString) /\
  (forall a, audience = Some a -> aud c = Some a).
Proof.
  unfold validate. destruct (is_empty token) eqn:Ht; [done|].
  destruct (jwt_decode _ _ _ _) as [c'|] eqn:Hd; [|done].
  destruct (is_some (aud c') && _) eqn:Hj; [done|]. intros [= ->].
  apply decode_checks in Hd as (Hexp & Hreq & Haud).
  unfold is_empty in *. split_and!.
  - by bools.
  - apply Hexp. by destruct audience.
  - intros [a Ha]. rewrite Ha in Hj. simpl in Hj.
    destruct (jti c) as [n|]; simpl in Hj; [|done]. bools. eauto.
  - intros a ->. destruct Hreq as [b Hb]; [simpl; set_solver|].
    destruct (Haud eq_refl b Hb) as (l & [= <-] & ->%list_elem_of_singleton). done.
Qed.

(** A token minted for a device is accepted, under the same secret and
    with no or the same configured audience, until its lifetime is over, and
    the accepted claims are the minted ones: subject the trimmed device id,
    the given permissions and targets and no more, a fresh nonce. *)
Theorem mint_validate_roundtrip `{!JwtLaws} now nonce secret did perms targets ttl audience cfg now' t :
  mint_device_token now nonce secret did perms targets ttl audience = Ok t ->
  nonce <> [] -> 0 <= now + ttl < 2 ^ 64 -> now' <= now + ttl ->
  (cfg = None \/ cfg = Some audience) ->
  validate (with_audience secret cfg) now' t =
    Ok (mkClaims (trim did) perms targets (now + ttl) now (Some audience) (Some (hex_encode nonce))) /\
  trim did <> EmptyString /\ (MIN_JWT_SECRET_BYTES <= length secret)%nat /\ ttl <> 0.
Proof.
  intros Hm Hn Hovf Hlive Hcfg. unfold mint_device_token in Hm.
  destruct (Nat.ltb_spec (length secret) MIN_JWT_SECRET_BYTES); [done|].
  destruct (is_empty (trim did)) eqn:Hd; [done|].
  destruct (Z.eqb_spec ttl 0); [done|].
  destruct (jwt_encode _ _) as [t'|] eqn:He; simplify_eq. unfold is_empty in Hd. bools.
  split_and!; try done. unfold validate, is_empty.
  rewrite bool_decide_eq_false_2 by by eapply encode_not_empty.
  unfold device_claims in He. rewrite Z.mod_small in He by done.
  rewrite (decode_encode now' t secret _ _ He).
  - simpl. by destruct nonce as [|b nonce].
  - split_and!.
    + intros _. simpl. unfold jwt_leeway. lia.
    + simpl. eauto.
    + intros Hv a [= <-]. destruct Hcfg as [->| ->]; simpl in *; [done|]. exists [audience].
      split; [done|]. left.
Qed.

End Jwt.

(** An instance of the crate that knows one token, that of the claims [c0]
    under the key [k0]. *)
Definition pass (now : Z) (v : Validation) (c : PluginClaims) : bool :=
  (negb (validate_exp v) || (now <=? exp c + jwt_leeway)) &&
  (negb ("aud" ∈? required_spec_claims v) || is_some (aud c)) &&
  (negb (validate_aud v) || match aud c with
                            | None => true
                            | Some a => match audiences v with Some l => a ∈? l | None => false end
                            end).

Definition one_token (c0 : PluginClaims) (k0 : bytes) : JwtCrate := {|
  jwt_decode now t k v :=
    if (t ==? "tok") && (k ==? k0) && pass now v c0 then Ok c0 else Err "invalid token";
  jwt_encode c k := if (c ==? c0) && (k ==? k0) then Ok "tok" else Err "unsupported";
|}.

Lemma pass_spec now v c : pass now v c = true <-> checks_pass now v c.
Proof.
  unfold pass, checks_pass. rewrite !andb_true_iff, !orb_true_iff, !negb_true_iff, Z.leb_le.
  rewrite bool_decide_eq_false.
  assert (is_some (aud c) = true <-> is_Some (aud c)) as -> by (split; [destruct (aud c); simpl; eauto; done|by intros [? ->]]).
  destruct (validate_exp v), (validate_aud v), (decide ("aud" ∈ required_spec_claims v)),
    (aud c) as [a|], (audiences v) as [l|]; rewrite ?bool_decide_eq_true; naive_solver.
Qed.

Lemma one_token_laws c0 k0 : @JwtLaws (one_token c0 k0).
Proof.
  split; simpl.
  - intros now t k v c Hd. split_cases_in Hd. bools. by apply pass_spec.
  - intros now t k v c He Hc%pass_spec. split_cases_in He. bools. subst.
    by rewrite !bool_decide_eq_true_2, Hc by done.
  - intros k c t He. by split_cases_in He.
Qed.

Module JwtRuns.

Definition c0 : PluginClaims :=
  mkClaims "phone" ["network"] ["tts"] 1100 1000 (Some "host") (Some "0a").
Definition k0 : bytes := replicate 32 7.

#[local] Instance crate : JwtCrate := one_token c0 k0.
#[local] Instance toy_jwt_laws : JwtLaws := one_token_laws c0 k0.

Lemma validate_sound_witness :
  validate (with_audience k0 (Some "host")) 1050 "tok" = Ok c0 /\ aud c0 = Some "host".
Proof.
  split; [vm_compute; reflexivity|].
  apply (validate_sound k0 (Some "host") 1050 "tok" c0); [vm_compute; reflexivity|reflexivity].
Defined.

Lemma mint_validate_witness :
  validate (with_audience k0 (Some "host")) 1050 "tok" = Ok c0.
Proof.
  apply (mint_validate_roundtrip 1000 [10] k0 " phone " ["network"] ["tts"] 100 "host" (Some "host") 1050 "tok");
    [vm_compute; reflexivity|done|lia|lia|by right].
Defined.

End JwtRuns.
