(* ===== verification/DeviceStore.v ===== *)
(** * The device credential store ([src/auth/device_store.rs])

    Rows of paired devices in one file, re-read on every operation.  The
    state is the file; AES-GCM, HKDF and serde are parameters.  A write goes
    to a temporary file that is renamed over the store, so an I/O error at
    any of its steps leaves the file as it was: [fault] is the error a write
    meets, if any. *)

From S2P Require Import Prelude Wire Text.

Open Scope Z_scope.

Inductive DeviceStatus := Active | Revoked | Expired.

Record DeviceRecord := mkDevice {
  row_device_id : string;
  row_name : string;
  created_at : Z;
  expires_at : Z;
  revoked : bool;
  secret_enc : bytes;
}.

Definition status (row : DeviceRecord) (now_secs : Z) : DeviceStatus :=
  if revoked row then Revoked
  else if expires_at row <=? now_secs then Expired
  else Active.

(** The store file as [fs::read_to_string] finds it. *)
Inductive StoreFile :=
| FAbsent
| FText (raw : string)
| FUnreadable (e : string).

(** The error a write meets: creating the directory, or creating, chmodding,
    writing, flushing or renaming the temporary file. *)
Inductive WriteFault := DirFault (e : string) | FileFault (e : string).

(** A function whose [expect] can panic. *)
Inductive Outcome (A : Type) := Returns (a : A) | Panics.
Arguments Returns {_} _.
Arguments Panics {_}.

Class StoreCrates := {
  hkdf_derive : bytes -> bytes -> bytes -> bytes;
  aead_encrypt : bytes -> bytes -> bytes -> bytes -> option bytes;
  aead_decrypt : bytes -> bytes -> bytes -> bytes -> option bytes;
  rows_to_json : list DeviceRecord -> Result string string;
  rows_of_json : string -> Result string (list DeviceRecord);
}.

(** Documented behaviour: decryption inverts encryption under the same key,
    nonce and associated data, a ciphertext holds at least the tag, and
    serde reads back what it wrote, which is never blank. *)
Class StoreLaws `{StoreCrates} := {
  decrypt_encrypt : forall k n a m c, aead_encrypt k n a m = Some c -> aead_decrypt k n a c = Some m;
  encrypt_nonempty : forall k n a m c, aead_encrypt k n a m = Some c -> c <> [];
  json_roundtrip : forall rows raw, rows_to_json rows = Ok raw -> rows_of_json raw = Ok rows;
  json_not_blank : forall rows raw, rows_to_json rows = Ok raw -> trim raw <> EmptyString;
}.

Definition HKDF_SALT : bytes := string_bytes "vynkor-device-store-v1".
Definition HKDF_INFO : bytes := string_bytes "aes-256-gcm-key".
Definition SECRET_AAD : bytes := string_bytes "vynkor-device-secret".
Definition NONCE_LEN : nat := 12.

(** [random_device_secret_hex], of the random bytes. *)
Definition random_device_secret_hex (rnd : bytes) : string := hex_encode rnd.

Section Store.
Context `{StoreCrates}.

Definition derive_key (jwt_secret : string) : bytes :=
  hkdf_derive HKDF_SALT (string_bytes jwt_secret) HKDF_INFO.

Definition seal (key nonce : bytes) (secret_hex : string) : Result VynkorError bytes :=
  match aead_encrypt key nonce SECRET_AAD (string_bytes secret_hex) with
  | None => Err (EAuth "device store encryption failed")
  | Some ct => Ok (nonce ++ ct)
  end.

Definition unseal (key enc : bytes) : Result VynkorError string :=
  if (length enc <=? NONCE_LEN)%nat then Err (EAuth "corrupt device store entry")
  else match aead_decrypt key (take NONCE_LEN enc) SECRET_AAD (drop NONCE_LEN enc) with
       | None => Err (EAuth "device store decrypt failed — was jwt_secret rotated? re-pair devices (rm <data_dir>/devices.json)")
       | Some pt => match from_utf8 pt with
                    | Some s => Ok s
                    | None => Err (EAuth "bad secret encoding")
                    end
       end.

(** [for row in &rows { self.unseal(&row.secret_enc)?; }] *)
Fixpoint check_rows (key : bytes) (rows : list DeviceRecord) : Result VynkorError unit :=
  match rows with
  | [] => Ok tt
  | row :: rows' => _ ← unseal key (secret_enc row); check_rows key rows'
  end.

Definition read_all (key : bytes) (file : StoreFile) : Result VynkorError (list DeviceRecord) :=
  match file with
  | FAbsent => Ok []
  | FUnreadable e => Err (EIo e)
  | FText raw =>
      if is_empty (trim raw) then Ok []
      else match rows_of_json raw with
           | Err e => Err (EInternal e)
           | Ok rows => _ ← check_rows key rows; Ok rows
           end
  end.

Definition write_all (fault : option WriteFault) (rows : list DeviceRecord) (file : StoreFile)
    : Result VynkorError unit * StoreFile :=
  match fault with
  | Some (DirFault e) => (Err (EIo e), file)
  | _ =>
      match rows_to_json rows with
      | Err e => (Err (EInternal e), file)
      | Ok json =>
          match fault with
          | Some (FileFault e) => (Err (EIo e), file)
          | _ => (Ok tt, FText json)
          end
      end
  end.

(** The [match rows.iter_mut().find(..)] of [issue]. *)
Fixpoint upsert_row (did : string) (f : DeviceRecord -> DeviceRecord) (new : DeviceRecord)
    (rows : list DeviceRecord) : list DeviceRecord :=
  match rows with
  | [] => [new]
  | row :: rows' =>
      if row_device_id row ==? did then f row :: rows' else row :: upsert_row did f new rows'
  end.

Definition issue (key : bytes) (now : Z) (rnd nonce : bytes) (fault : option WriteFault)
    (did name : string) (ttl_secs : Z) (file : StoreFile) : Result VynkorError string * StoreFile :=
  let secret_hex := random_device_secret_hex rnd in
  match read_all key file with
  | Err e => (Err e, file)
  | Ok rows =>
      match seal key nonce secret_hex with
      | Err e => (Err e, file)
      | Ok enc =>
          let expires := (now + ttl_secs) mod 2 ^ 64 in
          let rows' := upsert_row did
            (fun row => mkDevice (row_device_id row) name now expires false enc)
            (mkDevice did name now expires false enc) rows in
          match write_all fault rows' file with
          | (Err e, file') => (Err e, file')
          | (Ok _, file') => (Ok secret_hex, file')
          end
      end
  end.

Definition find_row (did : string) (rows : list DeviceRecord) : option DeviceRecord :=
  head (filter (fun r => row_device_id r = did) rows).

Definition store_get (key : bytes) (did : string) (file : StoreFile)
    : Outcome (Result VynkorError (option (DeviceRecord * string))) :=
  match read_all key file with
  | Err e => Returns (Err e)
  | Ok rows =>
      match find_row did rows with
      | None => Returns (Ok None)
      | Some row => match unseal key (secret_enc row) with
                    | Ok secret => Returns (Ok (Some (row, secret)))
                    | Err _ => Panics
                    end
      end
  end.

Definition list_rows (key : bytes) (file : StoreFile) : Result VynkorError (list DeviceRecord) :=
  read_all key file.

Definition set_revoked (key : bytes) (fault : option WriteFault) (did : string) (b : bool)
    (file : StoreFile) : Result VynkorError bool * StoreFile :=
  match read_all key file with
  | Err e => (Err e, file)
  | Ok rows =>
      let rows' := map (fun r => if row_device_id r ==? did
                                 then mkDevice (row_device_id r) (row_name r) (created_at r)
                                        (expires_at r) b (secret_enc r)
                                 else r) rows in
      let changed := existsb (fun r => row_device_id r ==? did) rows in
      if changed then
        match write_all fault rows' file with
        | (Err e, file') => (Err e, file')
        | (Ok _, file') => (Ok changed, file')
        end
      else (Ok changed, file)
  end.

Definition remove (key : bytes) (fault : option WriteFault) (did : string) (file : StoreFile)
    : Result VynkorError bool * StoreFile :=
  match read_all key file with
  | Err e => (Err e, file)
  | Ok rows =>
      let rows' := filter (fun r => row_device_id r <> did) rows in
      if negb (length rows' =? length rows)%nat then
        match write_all fault rows' file with
        | (Err e, file') => (Err e, file')
        | (Ok _, file') => (Ok true, file')
        end
      else (Ok false, file)
  end.

Definition active_secret (key : bytes) (now : Z) (did : string) (file : StoreFile)
    : Outcome (Result VynkorError (option string)) :=
  match store_get key did file with
  | Panics => Panics
  | Returns (Err e) => Returns (Err e)
  | Returns (Ok None) => Returns (Ok None)
  | Returns (Ok (Some (row, secret))) =>
      Returns (match status row now with
               | Active => Ok (Some secret)
               | Revoked => Err (EAuth ("device '" +:+ did +:+ "' is revoked — re-pair to restore access"))
               | Expired => Err (EAuth ("device '" +:+ did +:+ "' credential expired — re-pair"))
               end)
  end.

(** ** Lemmas *)

Lemma check_rows_Ok key rows :
  check_rows key rows = Ok tt <-> Forall (fun r => is_ok (unseal key (secret_enc r)) = true) rows.
Proof.
  induction rows as [|r rows IH]; simpl; [by split|]. rewrite Forall_cons, <- IH.
  destruct (unseal key (secret_enc r)); simpl; naive_solver.
Qed.

Lemma read_all_rows key file rows :
  read_all key file = Ok rows -> Forall (fun r => is_ok (unseal key (secret_enc r)) = true) rows.
Proof.
  unfold read_all. intros Hr. destruct file as [|raw|]; simplify_eq; [done|].
  destruct (is_empty (trim raw)); simplify_eq; [done|].
  destruct (rows_of_json raw) as [rows'|]; [|done]. simpl in Hr.
  destruct (check_rows key rows') as [[]|] eqn:Hc; simplify_eq/=. by apply check_rows_Ok.
Qed.

Lemma read_after_write `{!StoreLaws} key rows file file' :
  write_all None rows file = (Ok tt, file') ->
  Forall (fun r => is_ok (unseal key (secret_enc r)) = true) rows ->
  read_all key file' = Ok rows.
Proof.
  unfold write_all. destruct (rows_to_json rows) as [json|] eqn:Hj; [|done].
  intros [= <-] Hf. simpl. unfold is_empty. rewrite bool_decide_eq_false_2 by by eapply json_not_blank.
  rewrite (json_roundtrip _ _ Hj). apply check_rows_Ok in Hf. by rewrite Hf.
Qed.

Lemma write_all_err fault rows file e file' :
  write_all fault rows file = (Err e, file') -> file' = file.
Proof. unfold write_all. intros Hw. by split_cases_in Hw. Qed.

Lemma write_all_ok fault rows file file' :
  write_all fault rows file = (Ok tt, file') -> fault = None.
Proof. unfold write_all. intros Hw. by split_cases_in Hw. Qed.

Lemma seal_unseal `{!StoreLaws} key nonce s enc :
  seal key nonce s = Ok enc -> length nonce = NONCE_LEN -> ascii_only s -> unseal key enc = Ok s.
Proof.
  unfold seal, unseal. intros Hs Hn Ha.
  destruct (aead_encrypt _ _ _ _) as [ct|] eqn:He; simplify_eq.
  pose proof (encrypt_nonempty _ _ _ _ _ He) as Hc.
  destruct (Nat.leb_spec (length (nonce ++ ct)) NONCE_LEN) as [Hle|_].
  { rewrite length_app in Hle. destruct ct; simpl in *; [done|lia]. }
  rewrite <- Hn, take_app_length, drop_app_length, (decrypt_encrypt _ _ _ _ _ He).
  by rewrite from_utf8_ascii.
Qed.

Lemma find_row_cons did row rows :
  find_row did (row :: rows) = if row_device_id row ==? did then Some row else find_row did rows.
Proof. unfold find_row. rewrite filter_cons. by case_decide; case_bool_decide. Qed.

Lemma find_row_upsert did f new rows x :
  (forall r, row_device_id (f r) = row_device_id r) -> row_device_id new = did ->
  find_row x (upsert_row did f new rows) =
  if x ==? did then Some (match find_row did rows with Some r => f r | None => new end)
  else find_row x rows.
Proof.
  intros Hf Hn. induction rows as [|r rows IH]; simpl.
  - rewrite find_row_cons, Hn. unfold find_row. simpl.
    destruct (decide (x = did)) as [->|]; [by rewrite !bool_decide_eq_true_2|].
    by rewrite !bool_decide_eq_false_2.
  - rewrite !(find_row_cons _ r rows). destruct (decide (row_device_id r = did)) as [Hr|Hr].
    + rewrite (bool_decide_eq_true_2 _ Hr), find_row_cons, Hf, Hr.
      by destruct (decide (did = x)) as [->|];
        [rewrite !bool_decide_eq_true_2|rewrite !bool_decide_eq_false_2].
    + rewrite (bool_decide_eq_false_2 _ Hr), find_row_cons, IH.
      destruct (decide (x = did)) as [->|]; [|by rewrite !(bool_decide_eq_false_2 (x = did))].
      by rewrite (bool_decide_eq_false_2 _ Hr).
Qed.

Lemma find_row_elem did rows r : find_row did rows = Some r -> r ∈ rows /\ row_device_id r = did.
Proof.
  unfold find_row. intros Hh. assert (r ∈ filter (fun r => row_device_id r = did) rows) as Hi
    by by apply head_Some_elem_of. apply list_elem_of_filter in Hi. naive_solver.
Qed.

Lemma upsert_row_Forall (P : DeviceRecord -> Prop) did f new rows :
  Forall P rows -> (forall r, P (f r)) -> P new -> Forall P (upsert_row did f new rows).
Proof.
  intros Hr Hf Hn. induction Hr as [|r rows Hr Hrs IH]; simpl; [by repeat constructor|].
  case_bool_decide; by constructor.
Qed.

(** The store after a successful [issue]. *)
Lemma issue_rows `{!StoreLaws} key now rnd nonce fault did name ttl file s file' :
  issue key now rnd nonce fault did name ttl file = (Ok s, file') ->
  length nonce = NONCE_LEN -> Forall is_byte rnd ->
  exists rows enc,
    read_all key file = Ok rows /\ unseal key enc = Ok s /\ s = random_device_secret_hex rnd /\
    read_all key file' = Ok (upsert_row did
      (fun row => mkDevice (row_device_id row) name now ((now + ttl) mod 2 ^ 64) false enc)
      (mkDevice did name now ((now + ttl) mod 2 ^ 64) false enc) rows).
Proof.
  unfold issue. intros Hi Hn Hb. destruct (read_all key file) as [rows|] eqn:Hr; [|done].
  destruct (seal key nonce (random_device_secret_hex rnd)) as [enc|] eqn:Hs; [|done].
  destruct (write_all fault _ file) as [[[]|] file2] eqn:Hw; simplify_eq.
  assert (unseal key enc = Ok (random_device_secret_hex rnd)) as Hu
    by (eapply seal_unseal; [done..|by apply hex_encode_ascii]).
  exists rows, enc. split_and!; try done.
  pose proof (write_all_ok _ _ _ _ Hw) as ->. eapply read_after_write; [done|].
  apply upsert_row_Forall; [by eapply read_all_rows|intros r|]; simpl; by rewrite Hu.
Qed.

(** ** Properties *)

(** The [expect] in the store's lookup never panics: whatever the file
    holds, [get] and the gate [active_secret] return, because a file with an
    undecryptable row is refused as a whole. *)
Theorem store_get_total key did now file :
  store_get key did file <> Panics /\ active_secret key now did file <> Panics.
Proof.
  assert (store_get key did file <> Panics) as Hg.
  { unfold store_get. destruct (read_all key file) as [rows|] eqn:Hr; [|done].
    destruct (find_row did rows) as [row|] eqn:Hf; [|done].
    apply find_row_elem in Hf as [Hin _].
    pose proof (proj1 (Forall_forall _ _) (read_all_rows _ _ _ Hr) _ Hin) as Hu.
    cbv beta in Hu. by destruct (unseal key (secret_enc row)). }
  split; [done|]. unfold active_secret. by destruct (store_get key did file) as [[[[]|]|]|].
Qed.

(** Issuing a credential and asking for it before it expires gives the
    issued secret, whether the device is new, known or revoked; the other
    devices keep their answers; and an [issue] that fails leaves the file as
    it was. *)
Theorem issue_active_roundtrip `{!StoreLaws} key now rnd nonce fault did name ttl file res file' now' :
  issue key now rnd nonce fault did name ttl file = (res, file') ->
  length nonce = NONCE_LEN -> Forall is_byte rnd -> 0 <= now + ttl < 2 ^ 64 ->
  match res with
  | Err _ => file' = file
  | Ok s =>
      s = random_device_secret_hex rnd /\
      (now' < now + ttl -> active_secret key now' did file' = Returns (Ok (Some s))) /\
      (now + ttl <= now' -> active_secret key now' did file' =
         Returns (Err (EAuth ("device '" +:+ did +:+ "' credential expired — re-pair")))) /\
      (forall d, d <> did -> active_secret key now' d file' = active_secret key now' d file)
  end.
Proof.
  intros Hi Hn Hb Hovf. destruct res as [s|e].
  - destruct (issue_rows _ _ _ _ _ _ _ _ _ _ _ Hi Hn Hb) as (rows & enc & Hr & Hu & Hs & Hr').
    rewrite Z.mod_small in Hr' by done.
    unfold active_secret, store_get. rewrite Hr', Hr.
    setoid_rewrite find_row_upsert; [|done..]. rewrite bool_decide_eq_true_2 by done.
    set (row := match find_row did rows with Some _ => _ | None => _ end).
    assert (secret_enc row = enc /\ revoked row = false /\ expires_at row = now + ttl) as (E1 & E2 & E3)
      by (unfold row; by destruct (find_row did rows)).
    rewrite E1, Hu. unfold status. rewrite E2, E3. split_and!; [done|..].
    + intros Hl. by destruct (Z.leb_spec (now + ttl) now'); [lia|].
    + intros Hl. by destruct (Z.leb_spec (now + ttl) now'); [|lia].
    + intros d Hd. by rewrite bool_decide_eq_false_2.
  - revert Hi. unfold issue. destruct (read_all key file); [|by intros [= _ <-]].
    destruct (seal _ _ _); [|by intros [= _ <-]].
    destruct (write_all _ _ _) as [[[]|] file2] eqn:Hw; intros [= _ <-].
    by eapply write_all_err.
Qed.

Lemma find_row_map did (f : DeviceRecord -> DeviceRecord) rows :
  (forall r, row_device_id (f r) = row_device_id r) ->
  find_row did (map f rows) = f <$> find_row did rows.
Proof.
  intros Hf. induction rows as [|r rows IH]; [done|]. simpl. rewrite !find_row_cons, Hf, IH.
  by case_bool_decide.
Qed.

Definition revoke_row (did : string) (b : bool) (r : DeviceRecord) : DeviceRecord :=
  if row_device_id r ==? did
  then mkDevice (row_device_id r) (row_name r) (created_at r) (expires_at r) b (secret_enc r)
  else r.

Lemma revoke_row_id did b r : row_device_id (revoke_row did b r) = row_device_id r.
Proof. unfold revoke_row. by case_bool_decide. Qed.

Lemma revoke_row_secret did b r : secret_enc (revoke_row did b r) = secret_enc r.
Proof. unfold revoke_row. by case_bool_decide. Qed.

(** The store after a [set_revoked] that reports a change. *)
Lemma set_revoked_rows `{!StoreLaws} key fault did b file file' :
  set_revoked key fault did b file = (Ok true, file') ->
  exists rows row, read_all key file = Ok rows /\ find_row did rows = Some row /\
    read_all key file' = Ok (map (revoke_row did b) rows).
Proof.
  unfold set_revoked. destruct (read_all key file) as [rows|] eqn:Hr; [|done].
  pose proof (existsb_decide (fun r => row_device_id r = did) rows) as Hx. cbv beta in Hx.
  destruct (existsb _ rows); [|done]. fold (revoke_row did b).
  destruct (write_all _ _ _) as [[[]|] file2] eqn:Hw; intros [= <-].
  pose proof (write_all_ok _ _ _ _ Hw) as ->. destruct Hx as [Hx _].
  destruct Hx as (r & Hin & Hrid); [done|].
  assert (is_Some (find_row did rows)) as [row Hrow].
  { unfold find_row. destruct (filter _ rows) eqn:Hf; [|simpl; eauto].
    assert (r ∈ filter (fun r => row_device_id r = did) rows) as Hc by by apply list_elem_of_filter.
    rewrite Hf in Hc. by apply not_elem_of_nil in Hc. }
  exists rows, row. split_and!; [done..|]. eapply read_after_write; [done|].
  apply Forall_map. eapply Forall_impl; [by eapply read_all_rows|]. intros r'. simpl.
  by rewrite revoke_row_secret.
Qed.

(** A row of a readable store can be opened. *)
Lemma read_all_unseal key file rows did row :
  read_all key file = Ok rows -> find_row did rows = Some row -> exists s, unseal key (secret_enc row) = Ok s.
Proof.
  intros Hr [Hin _]%find_row_elem.
  pose proof (proj1 (Forall_forall _ _) (read_all_rows _ _ _ Hr) _ Hin) as Hu.
  cbv beta in Hu. destruct (unseal key (secret_enc row)); [eauto|done].
Qed.

Lemma set_revoked_unchanged key fault did b file res file' :
  set_revoked key fault did b file = (res, file') -> res <> Ok true -> file' = file.
Proof.
  unfold set_revoked. intros Hs Hne. destruct (read_all key file) as [rows|]; [|by injection Hs as <- <-].
  destruct (existsb _ rows); [|by injection Hs as <- <-].
  destruct (write_all _ _ _) as [[[]|] file2] eqn:Hw; injection Hs as <- <-; [done|by eapply write_all_err].
Qed.

(** Revocation.  When [set_revoked] reports a change, the device is
    refused from then on at any time (until it is un-revoked or issued
    again), the other devices keep their answers, and when it reports none
    or fails, the file is untouched. *)
Theorem set_revoked_blocks `{!StoreLaws} key fault did b file res file' now :
  set_revoked key fault did b file = (res, file') ->
  match res with
  | Ok true =>
      (b = true -> active_secret key now did file' =
         Returns (Err (EAuth ("device '" +:+ did +:+ "' is revoked — re-pair to restore access")))) /\
      (forall d, d <> did -> active_secret key now d file' = active_secret key now d file)
  | _ => file' = file
  end.
Proof.
  intros Hs. destruct res as [[]|e]; [|by eapply set_revoked_unchanged..].
  destruct (set_revoked_rows _ _ _ _ _ _ Hs) as (rows & row & Hr & Hrow & Hr').
  unfold active_secret, store_get. rewrite Hr, Hr'. split.
  - intros ->. rewrite find_row_map by apply revoke_row_id. rewrite Hrow. simpl. rewrite revoke_row_secret.
    destruct (read_all_unseal _ _ _ _ _ Hr Hrow) as [s ->]. apply find_row_elem in Hrow as [_ Hid].
    unfold status, revoke_row. by rewrite bool_decide_eq_true_2.
  - intros d Hd. rewrite find_row_map by apply revoke_row_id.
    destruct (find_row d rows) as [row'|] eqn:Hrow'; [|done]. simpl.
    apply find_row_elem in Hrow' as [_ Hid']. unfold revoke_row. by rewrite bool_decide_eq_false_2 by congruence.
Qed.

(** Undoing a revocation restores the answer of a device that was active. *)
Lemma set_revoked_undo `{!StoreLaws} key fault fault' did file file1 file2 now s :
  active_secret key now did file = Returns (Ok (Some s)) ->
  set_revoked key fault did true file = (Ok true, file1) ->
  set_revoked key fault' did false file1 = (Ok true, file2) ->
  active_secret key now did file2 = Returns (Ok (Some s)).
Proof.
  intros Ha H1' H2'. destruct (set_revoked_rows _ _ _ _ _ _ H1') as (rows & row & Hr & Hrow & Hr1).
  destruct (set_revoked_rows _ _ _ _ _ _ H2') as (rows1 & row1 & Hr1' & _ & Hr2).
  rewrite Hr1 in Hr1'. injection Hr1' as <-. revert Ha. unfold active_secret, store_get. rewrite Hr, Hr2, Hrow.
  rewrite !find_row_map by apply revoke_row_id. rewrite Hrow. simpl. rewrite !revoke_row_secret.
  destruct (unseal key (secret_enc row)); [|done]. apply find_row_elem in Hrow as [_ Hid].
  unfold revoke_row at 2. rewrite bool_decide_eq_true_2 by done.
  unfold status, revoke_row. cbn [row_device_id]. rewrite bool_decide_eq_true_2 by done. cbn [revoked expires_at].
  destruct (revoked row); [done|]. by destruct (expires_at row <=? now).
Qed.

Lemma find_row_filter d did rows :
  find_row d (filter (fun r => row_device_id r <> did) rows) =
  if d ==? did then None else find_row d rows.
Proof.
  induction rows as [|r rows IH]; [by case_bool_decide|].
  rewrite filter_cons, (find_row_cons d r rows).
  destruct (decide (row_device_id r = did)) as [Hr|Hr].
  - rewrite decide_False by naive_solver. rewrite IH, Hr.
    destruct (decide (d = did)); [by rewrite bool_decide_eq_true_2|].
    by rewrite !bool_decide_eq_false_2.
  - rewrite decide_True, find_row_cons, IH by done.
    destruct (decide (d = did)) as [->|]; [by rewrite (bool_decide_eq_false_2 _ Hr)|].
    by rewrite (bool_decide_eq_false_2 (d = did)).
Qed.

(** After a [remove] that reports success the device is unknown (not an
    error) and the others keep their answers; otherwise the file is
    untouched. *)
Theorem remove_forgets `{!StoreLaws} key fault did file res file' now :
  remove key fault did file = (res, file') ->
  match res with
  | Ok true =>
      active_secret key now did file' = Returns (Ok None) /\
      (forall d, d <> did -> active_secret key now d file' = active_secret key now d file)
  | _ => file' = file
  end.
Proof.
  unfold remove. destruct (read_all key file) as [rows|] eqn:Hr; [|by intros [= <- <-]].
  destruct (negb _); [|by intros [= <- <-]].
  destruct (write_all _ _ _) as [[[]|] file2] eqn:Hw; intros [= <- <-]; [|by eapply write_all_err].
  pose proof (write_all_ok _ _ _ _ Hw) as ->.
  apply (read_after_write key) in Hw.
  2: { apply Forall_forall. intros r [_ Hin]%list_elem_of_filter.
       by apply (proj1 (Forall_forall _ _) (read_all_rows _ _ _ Hr)). }
  unfold active_secret, store_get. rewrite Hr, Hw. clear.
  split; [by rewrite find_row_filter, bool_decide_eq_true_2|]. intros d Hd. by rewrite find_row_filter, bool_decide_eq_false_2.
Qed.

End Store.

(** A concrete store: the cipher appends a byte, the file text is the name of
    the table it stands for, one of [tables]. *)
#[export] Instance DeviceRecord_eq_dec : EqDecision DeviceRecord.
Proof. solve_decision. Defined.

Definition table_crates (tables : list (string * list DeviceRecord)) : StoreCrates := {|
  hkdf_derive s k i := s ++ k ++ i;
  aead_encrypt k n a m := Some (m ++ [77]);
  aead_decrypt k n a c := match last c with Some 77 => Some (removelast c) | _ => None end;
  rows_to_json rows :=
    match list_find (fun t => t.2 = rows) tables with Some (_, t) => Ok t.1 | None => Err "unsupported" end;
  rows_of_json raw :=
    match list_find (fun t => t.1 = raw) tables with Some (_, t) => Ok t.2 | None => Err "syntax" end;
|}.

Lemma table_crates_laws tables :
  bool_decide (NoDup tables.*1) && forallb (fun n => negb (is_empty (trim n))) tables.*1 = true ->
  @StoreLaws (table_crates tables).
Proof.
  intros [Hnd Hblank]%andb_prop. apply bool_decide_eq_true in Hnd. rewrite forallb_forall in Hblank.
  assert (Hf : forall rows i t, list_find (fun t => t.2 = rows) tables = Some (i, t) ->
    tables !! i = Some t /\ t.2 = rows) by (intros rows i t (Hi & Ht & _)%list_find_Some; done).
  split; cbn -[list_find].
  - intros k n a m c [= <-]. by rewrite last_snoc, removelast_last.
  - intros k n a m c [= <-]. by destruct m.
  - intros rows raw. destruct (list_find (fun t => t.2 = rows) tables) as [[i t]|] eqn:Ht; [|done].
    intros [= <-]. apply Hf in Ht as [Hi <-].
    destruct (list_find_elem_of (fun u => u.1 = t.1) tables t) as [[j u] Hu];
      [by eapply list_elem_of_lookup_2|done|]. rewrite Hu.
    apply list_find_Some in Hu as (Hj & Hu & _).
    assert (i = j) as ->; [|by simplify_eq].
    eapply NoDup_lookup; [exact Hnd|rewrite list_lookup_fmap, Hi; done|].
    rewrite list_lookup_fmap, Hj. cbn. by rewrite Hu.
  - intros rows raw. destruct (list_find (fun t => t.2 = rows) tables) as [[i t]|] eqn:Ht; [|done].
    intros [= <-]. apply Hf in Ht as [Hi _]. specialize (Hblank t.1).
    rewrite negb_true_iff in Hblank. unfold is_empty in Hblank. rewrite bool_decide_eq_false in Hblank.
    apply Hblank, in_map, list_elem_of_In. by eapply list_elem_of_lookup_2.
Qed.

Module CredentialRuns.

Definition key : bytes := [1; 2; 3].
Definition nonce : bytes := replicate 12 9.
Definition rnd : bytes := replicate 32 171.

Definition enc : bytes := nonce ++ (string_bytes (hex_encode rnd) ++ [77]).
Definition row (b : bool) : DeviceRecord := mkDevice "phone" "my phone" 1000 4600 b enc.

Definition tables : list (string * list DeviceRecord) :=
  [("[one]", [row false]); ("[revoked]", [row true]); ("[]", [])].

#[local] Instance crates : StoreCrates := table_crates tables.
#[local] Instance toy_store_laws : StoreLaws := table_crates_laws tables eq_refl.

Lemma issue_witness :
  active_secret key 4599 "phone" (FText "[one]") = Returns (Ok (Some (hex_encode rnd))).
Proof.
  apply (issue_active_roundtrip key 1000 rnd nonce None "phone" "my phone" 3600 FAbsent
           (Ok (hex_encode rnd)) (FText "[one]") 4599);
    [vm_compute; reflexivity|reflexivity| |lia|lia].
  repeat constructor; vm_compute; congruence.
Defined.

Lemma set_revoked_witness :
  active_secret key 4599 "phone" (FText "[revoked]") =
  Returns (Err (EAuth "device 'phone' is revoked — re-pair to restore access")).
Proof.
  apply (set_revoked_blocks key None "phone" true (FText "[one]") (Ok true) (FText "[revoked]") 4599);
    [vm_compute; reflexivity|reflexivity].
Defined.

Lemma remove_witness : active_secret key 4599 "phone" (FText "[]") = Returns (Ok None).
Proof.
  apply (remove_forgets key None "phone" (FText "[one]") (Ok true) (FText "[]") 4599).
  vm_compute; reflexivity.
Defined.

End CredentialRuns.
