(* ===== verification/StoreFiles.v ===== *)
(** * The credential store on disk ([src/auth/device_store.rs], [write_all])

    [DeviceStore] gives a write of the store one step.  Here it is the
    sequence of system calls it consists of: the directory, the temporary
    file, its mode, the data in as many pieces as the system takes, and the
    rename.  The disk is a directory of names over file nodes, so that an
    open file outlives its name.  A process can be interrupted between any
    two calls, and several processes of the command line can run at once:
    the first never damages the store, the second does. *)

From S2P Require Import Prelude Wire Text DeviceStore.

Open Scope Z_scope.

(** ** The disk *)

(** [data_dir.join(STORE_FILE)] and its [with_extension("json.tmp")]. *)
Definition STORE_FILE : string := "devices.json".
Definition STORE_TMP : string := "devices.json.tmp".

Record FileNode := mkNode { node_data : bytes; node_mode : Z }.

(** The names of the data directory and the nodes, named or still open. *)
Record Disk := mkDisk {
  dk_names : gmap string nat;
  dk_nodes : gmap nat FileNode;
}.

(** [0o600], and the mode a creation asks for. *)
Definition MODE_PRIVATE : Z := 6 * 64.
Definition MODE_CREATE : Z := 6 * 64 + 6 * 8 + 6.

Definition upd_node (f : FileNode -> FileNode) (i : nat) (d : Disk) : Disk :=
  mkDisk (dk_names d) (alter f i (dk_nodes d)).

(** [File::create]: an existing file is emptied and keeps its mode. *)
Definition create (umask : Z) (name : string) (d : Disk) : nat * Disk :=
  match dk_names d !! name with
  | Some i => (i, upd_node (fun n => mkNode [] (node_mode n)) i d)
  | None =>
      let i := fresh (dom (dk_nodes d)) in
      (i, mkDisk (<[name := i]> (dk_names d)) (<[i := mkNode [] (Z.ldiff MODE_CREATE umask)]> (dk_nodes d)))
  end.

(** [File::set_permissions]. *)
Definition chmod (mode : Z) : nat -> Disk -> Disk := upd_node (fun n => mkNode (node_data n) mode).

(** A [write] at an offset; a gap is filled with zeros. *)
Definition write_at (off : nat) (chunk data : bytes) : bytes :=
  take off (data ++ replicate (off - length data) 0) ++ chunk ++ drop (off + length chunk) data.

(** [fs::rename]; two names of one node are left alone. *)
Definition rename (from to : string) (d : Disk) : option Disk :=
  match dk_names d !! from with
  | None => None
  | Some i =>
      if dk_names d !! to ==? Some i then Some d
      else Some (mkDisk (<[to := i]> (delete from (dk_names d))) (dk_nodes d))
  end.

(** What [fs::read_to_string] finds. *)
Definition store_file (d : Disk) : StoreFile :=
  match dk_names d !! STORE_FILE ≫= fun i => dk_nodes d !! i with
  | None => FAbsent
  | Some n => match from_utf8 (node_data n) with
              | Some s => FText s
              | None => FUnreadable "stream did not contain valid UTF-8"
              end
  end.

Section Files.
Context `{StoreCrates}.

(** ** A write, call by call *)

(** The next call of [write_all]. *)
Inductive WritePc :=
| WDir (rows : list DeviceRecord)                 (** [fs::create_dir_all], then the JSON text *)
| WCreate (data : bytes)                          (** [fs::File::create] *)
| WChmod (i : nat) (data : bytes)                 (** [set_permissions] *)
| WData (i off : nat) (rest : bytes)              (** a [write] of [Write::write_all] *)
| WFlush                                          (** [flush], and the file is closed *)
| WRename                                         (** [fs::rename] *)
| WEnd (res : Result VynkorError unit).

(** What the system answers a call: an error, or success, for a [write] with
    the number of bytes taken. *)
Definition Io : Type := Result string nat.

Definition wstep (umask : Z) (io : Io) (pc : WritePc) (d : Disk) : WritePc * Disk :=
  match pc, io with
  | WEnd _, _ => (pc, d)
  | WData _ _ [], _ => (WFlush, d)
  | _, Err e => (WEnd (Err (EIo e)), d)
  | WDir rows, Ok _ =>
      match rows_to_json rows with
      | Err e => (WEnd (Err (EInternal e)), d)
      | Ok json => (WCreate (string_bytes json), d)
      end
  | WCreate data, Ok _ => let '(i, d) := create umask STORE_TMP d in (WChmod i data, d)
  | WChmod i data, Ok _ => (WData i 0 data, chmod MODE_PRIVATE i d)
  | WData _ _ _, Ok O => (WEnd (Err (EIo "failed to write whole buffer")), d)
  | WData i off rest, Ok k =>
      let chunk := take k rest in
      (WData i (off + length chunk) (drop k rest),
       upd_node (fun n => mkNode (write_at off chunk (node_data n)) (node_mode n)) i d)
  | WFlush, Ok _ => (WRename, d)
  | WRename, Ok _ =>
      match rename STORE_TMP STORE_FILE d with
      | Some d => (WEnd (Ok tt), d)
      | None => (WEnd (Err (EIo "No such file or directory")), d)
      end
  end.

(** The calls of a list of answers: all of a write, or its beginning. *)
Fixpoint wrun (umask : Z) (ios : list Io) (pc : WritePc) (d : Disk) : WritePc * Disk :=
  match ios with
  | [] => (pc, d)
  | io :: ios => let '(pc, d) := wstep umask io pc d in wrun umask ios pc d
  end.

(** ** The operations of the store as processes *)

Inductive StoreEdit :=
| EIssue (now : Z) (rnd nonce : bytes) (did name : string) (ttl_secs : Z)
| ERevoke (did : string) (b : bool)
| ERemove (did : string).

Inductive Reply := RSecret (secret_hex : string) | RChanged (b : bool).

(** What an operation makes of the rows it read: its answer, and the rows it
    writes, if it writes. *)
Definition edit_issue (key : bytes) (now : Z) (rnd nonce : bytes) (did name : string) (ttl_secs : Z)
    (rows : list DeviceRecord) : Result VynkorError (Reply * option (list DeviceRecord)) :=
  let secret_hex := random_device_secret_hex rnd in
  enc ← seal key nonce secret_hex;
  let expires := (now + ttl_secs) mod 2 ^ 64 in
  Ok (RSecret secret_hex,
      Some (upsert_row did (fun row => mkDevice (row_device_id row) name now expires false enc)
              (mkDevice did name now expires false enc) rows)).

Definition edit_revoke (did : string) (b : bool) (rows : list DeviceRecord) : Reply * option (list DeviceRecord) :=
  let changed := existsb (fun r => row_device_id r ==? did) rows in
  (RChanged changed, if changed then Some (map (revoke_row did b) rows) else None).

Definition edit_remove (did : string) (rows : list DeviceRecord) : Reply * option (list DeviceRecord) :=
  let rows' := filter (fun r => row_device_id r <> did) rows in
  if (length rows' =? length rows)%nat then (RChanged false, None) else (RChanged true, Some rows').

Definition edit (key : bytes) (e : StoreEdit) (rows : list DeviceRecord)
    : Result VynkorError (Reply * option (list DeviceRecord)) :=
  match e with
  | EIssue now rnd nonce did name ttl => edit_issue key now rnd nonce did name ttl rows
  | ERevoke did b => Ok (edit_revoke did b rows)
  | ERemove did => Ok (edit_remove did rows)
  end.

(** A process of the command line between two of its calls. *)
Inductive Cli :=
| CRead (e : StoreEdit)
| CWrite (reply : Reply) (pc : WritePc)
| CDone (res : Result VynkorError Reply).

Definition cli_write (reply : Reply) (pc : WritePc) : Cli :=
  match pc with
  | WEnd (Ok _) => CDone (Ok reply)
  | WEnd (Err e) => CDone (Err e)
  | _ => CWrite reply pc
  end.

Definition cstep (key : bytes) (umask : Z) (io : Io) (c : Cli) (d : Disk) : Cli * Disk :=
  match c with
  | CRead e =>
      (match read_all key (store_file d) with
       | Err err => CDone (Err err)
       | Ok rows =>
           match edit key e rows with
           | Err err => CDone (Err err)
           | Ok (reply, None) => CDone (Ok reply)
           | Ok (reply, Some rows') => CWrite reply (WDir rows')
           end
       end, d)
  | CWrite reply pc => let '(pc, d) := wstep umask io pc d in (cli_write reply pc, d)
  | CDone _ => (c, d)
  end.

Fixpoint crun (key : bytes) (umask : Z) (ios : list Io) (c : Cli) (d : Disk) : Cli * Disk :=
  match ios with
  | [] => (c, d)
  | io :: ios => let '(c, d) := cstep key umask io c d in crun key umask ios c d
  end.

(** Processes one after another, each to its end or to where it was killed:
    where each was left, and the disk. *)
Fixpoint cruns (key : bytes) (umask : Z) (procs : list (StoreEdit * list Io)) (d : Disk) : list Cli * Disk :=
  match procs with
  | [] => ([], d)
  | (e, ios) :: procs =>
      let '(c, d) := crun key umask ios (CRead e) d in
      let '(cs, d) := cruns key umask procs d in (c :: cs, d)
  end.

(** Processes at once: which one runs next, and what the system answers it. *)
Fixpoint interleave (key : bytes) (umask : Z) (order : list (nat * Io)) (procs : list Cli) (d : Disk)
    : list Cli * Disk :=
  match order with
  | [] => (procs, d)
  | (p, io) :: order =>
      match procs !! p with
      | Some c => let '(c, d) := cstep key umask io c d in interleave key umask order (<[p := c]> procs) d
      | None => interleave key umask order procs d
      end
  end.

(** The operation of [DeviceStore] an edit stands for. *)
Definition run_edit (key : bytes) (fault : option WriteFault) (e : StoreEdit) (file : StoreFile)
    : Result VynkorError Reply * StoreFile :=
  match e with
  | EIssue now rnd nonce did name ttl =>
      let '(res, file) := issue key now rnd nonce fault did name ttl file in (s ← res; Ok (RSecret s), file)
  | ERevoke did b => let '(res, file) := set_revoked key fault did b file in (c ← res; Ok (RChanged c), file)
  | ERemove did => let '(res, file) := remove key fault did file in (c ← res; Ok (RChanged c), file)
  end.

(** ** The invariant of one writer *)

(** The temporary name shares its node with no other name, named nodes
    exist, and data under the temporary name is private. *)
Record disk_ok (d : Disk) : Prop := mkDiskOk {
  tmp_alone : forall n i, n <> STORE_TMP -> dk_names d !! n = Some i -> dk_names d !! STORE_TMP <> Some i;
  named_exist : forall n i, dk_names d !! n = Some i -> is_Some (dk_nodes d !! i);
  tmp_private : forall i n, dk_names d !! STORE_TMP = Some i -> dk_nodes d !! i = Some n ->
    node_data n <> [] -> node_mode n = MODE_PRIVATE;
}.

(** The temporary file holds [data], readable by its owner only unless it is
    empty. *)
Definition tmp_holds (data : bytes) (i : nat) (d : Disk) : Prop :=
  dk_names d !! STORE_TMP = Some i /\
  exists m, dk_nodes d !! i = Some (mkNode data m) /\ (data <> [] -> m = MODE_PRIVATE).

(** Everything but the temporary file is as it was in [d0]. *)
Definition others_kept (d0 d : Disk) : Prop :=
  (forall n, n <> STORE_TMP -> dk_names d !! n = dk_names d0 !! n) /\
  (forall n i, n <> STORE_TMP -> dk_names d0 !! n = Some i -> dk_nodes d !! i = dk_nodes d0 !! i).

(** Where a write of [rows] that started on [d0] stands. *)
Definition writing (rows : list DeviceRecord) (d0 : Disk) (pc : WritePc) (d : Disk) : Prop :=
  match pc with
  | WDir rows' => rows' = rows /\ d = d0
  | WCreate data => d = d0 /\ exists json, rows_to_json rows = Ok json /\ data = string_bytes json
  | WChmod i data =>
      others_kept d0 d /\ tmp_holds [] i d /\ exists json, rows_to_json rows = Ok json /\ data = string_bytes json
  | WData i off rest =>
      others_kept d0 d /\ exists json done, rows_to_json rows = Ok json /\ string_bytes json = done ++ rest /\
        off = length done /\ tmp_holds done i d /\ dk_nodes d !! i = Some (mkNode done MODE_PRIVATE)
  | WFlush | WRename =>
      others_kept d0 d /\ exists json i, rows_to_json rows = Ok json /\ dk_names d !! STORE_TMP = Some i /\
        dk_nodes d !! i = Some (mkNode (string_bytes json) MODE_PRIVATE)
  | WEnd (Ok _) =>
      exists json i, rows_to_json rows = Ok json /\ dk_names d !! STORE_FILE = Some i /\
        dk_nodes d !! i = Some (mkNode (string_bytes json) MODE_PRIVATE) /\
        (forall n, n <> STORE_TMP -> n <> STORE_FILE -> dk_names d !! n = dk_names d0 !! n) /\
        (forall n i, n <> STORE_TMP -> dk_names d0 !! n = Some i -> dk_nodes d !! i = dk_nodes d0 !! i)
  | WEnd (Err e) =>
      others_kept d0 d /\ exists fault, forall file, write_all fault rows file = (Err e, file)
  end.

Lemma others_kept_refl d : others_kept d d.
Proof. by split. Qed.

(** Changing the node of the temporary file. *)
Lemma upd_tmp f d0 d i n :
  disk_ok d -> others_kept d0 d -> dk_names d !! STORE_TMP = Some i -> dk_nodes d !! i = Some n ->
  (node_data (f n) <> [] -> node_mode (f n) = MODE_PRIVATE) ->
  disk_ok (upd_node f i d) /\ others_kept d0 (upd_node f i d) /\ dk_nodes (upd_node f i d) !! i = Some (f n).
Proof.
  intros [Ha He Hp] [Hn Hk] Ht Hi Hf. unfold upd_node. split; [|split].
  - split; cbn; [done| |].
    + intros x j Hx. apply He in Hx as [y Hy]. rewrite lookup_alter. case_decide as Hij; [rewrite Hij|]; rewrite Hy; cbn; eauto.
    + intros j y Hj. rewrite Ht in Hj. injection Hj as <-. rewrite lookup_alter_eq, Hi. by intros [= <-].
  - split; cbn; [done|]. intros x j Hx Hj. rewrite lookup_alter_ne; [by eapply Hk|]. intros ->.
    eapply Ha; [exact Hx| |exact Ht]. by rewrite Hn.
  - cbn. by rewrite lookup_alter_eq, Hi.
Qed.

Lemma create_tmp umask d i d' :
  disk_ok d -> create umask STORE_TMP d = (i, d') -> disk_ok d' /\ others_kept d d' /\ tmp_holds [] i d'.
Proof.
  intros Hd. unfold create. destruct (dk_names d !! STORE_TMP) as [j|] eqn:Ht; intros [= <- <-].
  - destruct (named_exist d Hd _ _ Ht) as [n Hn].
    destruct (upd_tmp (fun n => mkNode [] (node_mode n)) d d j n Hd (others_kept_refl d) Ht Hn) as (H1 & H2 & H3);
      [done|]. split_and!; [done..|]. split; [done|]. by eexists.
  - set (i := fresh (dom (dk_nodes d))).
    assert (Hfresh : dk_nodes d !! i = None) by apply not_elem_of_dom, is_fresh.
    assert (Hne : forall n j, dk_names d !! n = Some j -> j <> i).
    { intros n j Hj ->. apply (named_exist d Hd) in Hj as [? Hj]. congruence. }
    split_and!.
    + split; cbn.
      * intros n j Hn. rewrite lookup_insert_ne, lookup_insert_eq by done. intros Hj [= ->]. by eapply Hne.
      * intros n j. destruct (decide (n = STORE_TMP)) as [->|Hn].
        -- rewrite lookup_insert_eq. intros [= <-]. rewrite lookup_insert_eq. eauto.
        -- rewrite lookup_insert_ne by done. intros Hj. rewrite lookup_insert_ne by (symmetry; by eapply Hne).
           by eapply named_exist.
      * intros j n. rewrite lookup_insert_eq. intros [= <-]. rewrite lookup_insert_eq. by intros [= <-].
    + split; cbn; [intros n Hn; by rewrite lookup_insert_ne|].
      intros n j Hn Hj. rewrite lookup_insert_ne; [done|]. symmetry. by eapply Hne.
    + split; cbn; [by rewrite lookup_insert_eq|]. rewrite lookup_insert_eq. by eexists.
Qed.

Lemma write_at_end data chunk : write_at (length data) chunk data = data ++ chunk.
Proof.
  unfold write_at. rewrite Nat.sub_diag. cbn. rewrite app_nil_r, firstn_all, drop_ge by lia. by rewrite app_nil_r.
Qed.

Lemma rename_tmp d i :
  disk_ok d -> dk_names d !! STORE_TMP = Some i ->
  rename STORE_TMP STORE_FILE d = Some (mkDisk (<[STORE_FILE := i]> (delete STORE_TMP (dk_names d))) (dk_nodes d)) /\
  disk_ok (mkDisk (<[STORE_FILE := i]> (delete STORE_TMP (dk_names d))) (dk_nodes d)).
Proof.
  intros Hd Ht. unfold rename. rewrite Ht. rewrite bool_decide_eq_false_2.
  2: { intros Hf. by eapply (tmp_alone d Hd STORE_FILE i). }
  split; [done|].
  assert (Htmp : <[STORE_FILE := i]> (delete STORE_TMP (dk_names d)) !! STORE_TMP = None)
    by (rewrite lookup_insert_ne by done; apply lookup_delete_eq).
  split; cbn; [by rewrite Htmp| |by rewrite Htmp].
  intros n j. destruct (decide (n = STORE_FILE)) as [->|].
  - rewrite lookup_insert_eq. intros [= <-]. by eapply named_exist.
  - rewrite lookup_insert_ne by done. intros [_ Hj]%lookup_delete_Some. by eapply named_exist.
Qed.

Lemma wstep_writing umask io rows d0 pc d :
  disk_ok d -> writing rows d0 pc d ->
  disk_ok (wstep umask io pc d).2 /\ writing rows d0 (wstep umask io pc d).1 (wstep umask io pc d).2.
Proof.
  intros Hd. destruct pc as [rows'|data|i data|i off rest| | |res]; cbn [writing].
  - intros [-> ->]. destruct io as [k|e]; cbn -[write_all].
    + destruct (rows_to_json rows) as [json|e] eqn:Hj; cbn -[write_all]; split; try done; [by eauto|].
      split; [apply others_kept_refl|]. exists None. intros file. unfold write_all. by rewrite Hj.
    + split; [done|]. split; [apply others_kept_refl|]. by exists (Some (DirFault e)).
  - intros [-> (json & Hj & ->)]. destruct io as [k|e]; cbn -[write_all create].
    + destruct (create umask STORE_TMP d0) as [i d'] eqn:Hc.
      destruct (create_tmp _ _ _ _ Hd Hc) as (H1 & H2 & H3). cbn. split; [done|]. split_and!; eauto.
    + split; [done|]. split; [apply others_kept_refl|]. by exists (Some (DirFault e)).
  - intros (Hk & [Ht (m & Hi & _)] & json & Hj & ->). destruct io as [k|e]; cbn -[write_all].
    + destruct (upd_tmp (fun n => mkNode (node_data n) MODE_PRIVATE) d0 d i _ Hd Hk Ht Hi) as (H1 & H2 & H3);
        [done|]. split; [done|]. split; [done|]. exists json, []. split_and!; try done. split; [done|]. by eexists.
    + split; [done|]. split; [done|]. by exists (Some (DirFault e)).
  - intros (Hk & json & pre & Hj & Hpre & -> & [Ht _] & Hi). destruct rest as [|b rest].
    { destruct io; cbn; (split; [done|]; split; [done|]; exists json, i; rewrite Hpre, app_nil_r; done). }
    destruct io as [[|k]|e]; cbn -[write_all take drop].
    + split; [done|]. split; [done|]. by exists (Some (DirFault "failed to write whole buffer")).
    + set (chunk := take (S k) (b :: rest)).
      destruct (upd_tmp (fun n => mkNode (write_at (length pre) chunk (node_data n)) (node_mode n)) d0 d i _ Hd Hk Ht Hi)
        as (H1 & H2 & H3); [done|]. cbn [node_data node_mode] in H3. rewrite write_at_end in H3.
      split; [done|]. split; [done|]. exists json, (pre ++ chunk). split_and!; try done.
      * rewrite <- app_assoc. unfold chunk. by rewrite take_drop.
      * by rewrite length_app.
      * split; [done|]. by eexists.
    + split; [done|]. split; [done|]. by exists (Some (DirFault e)).
  - intros (Hk & json & i & Hj & Ht & Hi). destruct io as [k|e]; cbn -[write_all]; (split; [done|]);
      (split; [done|]); [by exists json, i|by exists (Some (DirFault e))].
  - intros (Hk & json & i & Hj & Ht & Hi). destruct io as [k|e]; cbn -[write_all rename].
    + destruct (rename_tmp d i Hd Ht) as [-> Hd']. cbn. split; [done|]. exists json, i.
      destruct Hk as [Hn Hnode]. split_and!; [done|apply lookup_insert_eq|done| |done].
      intros n H1 H2. rewrite lookup_insert_ne, lookup_delete_ne by done. by apply Hn.
    + split; [done|]. split; [done|]. by exists (Some (DirFault e)).
  - destruct io; done.
Qed.

Lemma wrun_writing umask ios rows d0 pc d :
  disk_ok d -> writing rows d0 pc d ->
  disk_ok (wrun umask ios pc d).2 /\ writing rows d0 (wrun umask ios pc d).1 (wrun umask ios pc d).2.
Proof.
  revert pc d. induction ios as [|io ios IH]; intros pc d Hd Hw; [done|]. cbn.
  destruct (wstep_writing umask io rows d0 pc d Hd Hw) as [Hd' Hw']. destruct (wstep umask io pc d). by apply IH.
Qed.

(** The store file while everything else is kept. *)
Lemma others_kept_file d0 d : others_kept d0 d -> store_file d = store_file d0.
Proof.
  intros [Hn Hk]. unfold store_file. rewrite Hn by done.
  destruct (dk_names d0 !! STORE_FILE) as [i|] eqn:Hi; [|done]. cbn. by rewrite (Hk STORE_FILE).
Qed.

(** Every file that is not as it was in [d0] is empty or readable and
    writable by its owner alone. *)
Definition changes_private (d0 d : Disk) : Prop :=
  forall i n, dk_nodes d !! i = Some n ->
    dk_nodes d0 !! i = Some n \/ node_data n = [] \/ node_mode n = MODE_PRIVATE.

Lemma upd_private f d0 d i :
  changes_private d0 d ->
  (forall n, dk_nodes d !! i = Some n -> node_data (f n) = [] \/ node_mode (f n) = MODE_PRIVATE) ->
  changes_private d0 (upd_node f i d).
Proof.
  intros Hp Hf j n. cbn. rewrite lookup_alter. case_decide as Hij; [|apply Hp].
  destruct (dk_nodes d !! i) as [n0|] eqn:Hi; [|done]. intros [= <-]. right. by apply Hf.
Qed.

Lemma create_private umask name d0 d : changes_private d0 d -> changes_private d0 (create umask name d).2.
Proof.
  intros Hp. unfold create. destruct (dk_names d !! name) as [i|]; cbn.
  - apply upd_private; [done|]. by left.
  - intros j n. cbn. intros [[_ <-]|[_ Hj]]%lookup_insert_Some; [by right; left|by apply Hp].
Qed.

Lemma wstep_private umask io rows d0 pc d :
  writing rows d0 pc d -> changes_private d0 d -> changes_private d0 (wstep umask io pc d).2.
Proof.
  intros Hw Hp. destruct pc as [rows'|data|i data|i off [|b rest]| | |res], io as [k|e]; cbn -[create rename take drop]; try done.
  - by destruct (rows_to_json rows').
  - pose proof (create_private umask STORE_TMP d0 d Hp). by destruct (create umask STORE_TMP d).
  - apply upd_private; [done|]. by right.
  - destruct k; [done|]. apply upd_private; [done|]. intros n Hn. right.
    destruct Hw as (Hk & json & pre & Hj & Hpre & Ho & Ht & Hi). rewrite Hn in Hi. by simplify_eq.
  - unfold rename. destruct (dk_names d !! STORE_TMP); [|done]. by destruct (dk_names d !! STORE_FILE ==? _).
Qed.

Lemma wrun_private umask ios rows d0 pc d :
  disk_ok d -> writing rows d0 pc d -> changes_private d0 d -> changes_private d0 (wrun umask ios pc d).2.
Proof.
  revert pc d. induction ios as [|io ios IH]; intros pc d Hd Hw Hp; [done|]. cbn.
  pose proof (wstep_private umask io rows d0 pc d Hw Hp) as Hp'.
  destruct (wstep_writing umask io rows d0 pc d Hd Hw) as [Hd' Hw']. destruct (wstep umask io pc d). by apply IH.
Qed.

(** ** Properties *)

(** Rust strings are UTF-8, so the text [serde_json] returns is. *)
Definition json_is_utf8 : Prop :=
  forall rows json, rows_to_json rows = Ok json -> from_utf8 (string_bytes json) = Some json.

(** A write that has ended well, against [DeviceStore.write_all]. *)
Lemma written_file rows d0 d file :
  json_is_utf8 -> writing rows d0 (WEnd (Ok tt)) d -> write_all None rows file = (Ok tt, store_file d).
Proof.
  intros Hu (json & i & Hj & Hn & Hi & _). unfold write_all, store_file. rewrite Hj, Hn. cbn. rewrite Hi. cbn.
  by rewrite (Hu _ _ Hj).
Qed.

(** C11: a write may stop after any of its calls, by an error or because the
    process is killed, with whatever an earlier one left under the temporary
    name: unless it has ended well the store holds exactly what it held, and
    when it has, exactly the text of the new rows, as in
    [DeviceStore.write_all] with some fault; a reader that has the old file
    open keeps reading it, the other names of the directory are untouched,
    and every file of the disk, named or open, is as it was before the write,
    or empty, or of mode [0600]. *)
Theorem store_write_atomic umask ios rows d0 pc d :
  json_is_utf8 -> disk_ok d0 -> wrun umask ios (WDir rows) d0 = (pc, d) ->
  disk_ok d /\
  match pc with
  | WEnd res => exists fault, write_all fault rows (store_file d0) = (res, store_file d)
  | _ => store_file d = store_file d0
  end /\
  (forall n, n <> STORE_TMP -> n <> STORE_FILE -> dk_names d !! n = dk_names d0 !! n) /\
  (forall n i, n <> STORE_TMP -> dk_names d0 !! n = Some i -> dk_nodes d !! i = dk_nodes d0 !! i) /\
  (forall i n, dk_nodes d !! i = Some n ->
     dk_nodes d0 !! i = Some n \/ node_data n = [] \/ node_mode n = MODE_PRIVATE).
Proof.
  intros Hu Hd0 Hrun. destruct (wrun_writing umask ios rows d0 (WDir rows) d0 Hd0) as [Hd Hw]; [done|].
  pose proof (wrun_private umask ios rows d0 (WDir rows) d0 Hd0 (conj eq_refl eq_refl)) as Hp.
  rewrite Hrun in Hd, Hw, Hp. cbn in Hd, Hw, Hp. split; [done|].
  assert (Hpriv : changes_private d0 d) by (apply Hp; intros i n ?; by left).
  assert (others_kept d0 d \/ exists u, pc = WEnd (Ok u)) as [Hk|[[] ->]].
  { destruct pc as [| | | | | |[]]; cbn in Hw; naive_solver eauto using others_kept_refl. }
  - split; [|destruct Hk; naive_solver]. pose proof (others_kept_file _ _ Hk) as Hf.
    destruct pc as [| | | | | |[[]|]]; try done; cbn in Hw.
    + exists None. by eapply written_file.
    + destruct Hw as (_ & fault & Hw). exists fault. by rewrite Hw, Hf.
  - split; [exists None; by eapply written_file|]. naive_solver.
Qed.

(** The calls a write still needs when each succeeds. *)
Definition remaining (pc : WritePc) : nat :=
  match pc with
  | WDir rows => match rows_to_json rows with Ok json => 6 + length (string_bytes json) | Err _ => 1 end
  | WCreate data => 5 + length data
  | WChmod _ data => 4 + length data
  | WData _ _ rest => 3 + length rest
  | WFlush => 2
  | WRename => 1
  | WEnd _ => 0
  end.

(** Its calls all succeed, and a [write] takes at least a byte. *)
Definition good_io (io : Io) : Prop := exists k, io = Ok (S k).

Lemma wstep_remaining umask io pc d :
  good_io io -> pc = WEnd (Ok tt) \/ (remaining (wstep umask io pc d).1 < remaining pc)%nat \/ exists e, pc = WEnd (Err e).
Proof.
  intros [k ->]. destruct pc as [rows|data|i data|i off [|b rest]| | |[[]|e]]; cbn -[rename take drop].
  - destruct (rows_to_json rows) as [json|]; cbn; right; left; lia.
  - destruct (create umask STORE_TMP d). cbn. right; left; lia.
  - right; left; lia.
  - right; left; lia.
  - rewrite length_drop. cbn [length]. right; left; lia.
  - right; left; lia.
  - destruct (rename STORE_TMP STORE_FILE d); cbn; right; left; lia.
  - by left.
  - right; right; eauto.
Qed.

Lemma wstep_good umask io pc d rows d0 :
  good_io io -> disk_ok d -> writing rows d0 pc d -> is_ok (rows_to_json rows) = true ->
  (forall e, pc <> WEnd (Err e)) -> forall e, (wstep umask io pc d).1 <> WEnd (Err e).
Proof.
  intros [k ->] Hd Hw Hok Hne e.
  destruct pc as [rows'|data|i data|i off [|b rest]| | |[[]|e']]; cbn -[rename take drop]; try done.
  - destruct Hw as [-> _]. by destruct (rows_to_json rows).
  - by destruct (create umask STORE_TMP d).
  - destruct Hw as (_ & json & i & _ & Ht & _). by destruct (rename_tmp d i Hd Ht) as [-> _].
Qed.

(** C29: when no call fails, a write of rows with a JSON text comes to its end,
    in at most as many calls as the text has bytes and six more, and the
    store then holds the rows. *)
Theorem store_write_completes umask ios rows json d0 :
  disk_ok d0 -> rows_to_json rows = Ok json -> json_is_utf8 -> Forall good_io ios ->
  (6 + length (string_bytes json) <= length ios)%nat ->
  exists d, wrun umask ios (WDir rows) d0 = (WEnd (Ok tt), d) /\ store_file d = FText json.
Proof.
  intros Hd0 Hj Hu Hios Hlen.
  assert (Hgen : forall ios pc d, Forall good_io ios -> disk_ok d -> writing rows d0 pc d ->
    (forall e, pc <> WEnd (Err e)) -> (remaining pc <= length ios)%nat ->
    exists d', wrun umask ios pc d = (WEnd (Ok tt), d') /\ writing rows d0 (WEnd (Ok tt)) d').
  { clear ios Hios Hlen. induction ios as [|io ios IH]; intros pc d Hios Hd Hw Hne Hlen; cbn in Hlen.
    - destruct pc as [rows'| | | | | |[[]|e]]; cbn in Hlen; try lia; [| |by destruct (Hne e)].
      + destruct Hw as [-> _]. rewrite Hj in Hlen. lia.
      + by exists d.
    - apply Forall_cons in Hios as [Hio Hios]. cbn.
      destruct (wstep_writing umask io rows d0 pc d Hd Hw) as [Hd' Hw'].
      pose proof (wstep_good umask io pc d rows d0 Hio Hd Hw ltac:(by rewrite Hj) Hne) as Hne'.
      pose proof (wstep_remaining umask io pc d Hio) as Hr.
      destruct (wstep umask io pc d) as [pc' d'] eqn:Hs. cbn in *. apply IH; try done.
      destruct Hr as [->|[Hr|[e ->]]]; [|lia|by destruct (Hne e)].
      destruct io; injection Hs as <- <-; cbn; lia. }
  destruct (Hgen ios (WDir rows) d0) as (d & Hrun & Hw); try done.
  { cbn. by rewrite Hj. }
  exists d. split; [done|]. pose proof (written_file _ _ _ FAbsent Hu Hw) as Hf. unfold write_all in Hf.
  rewrite Hj in Hf. by injection Hf.
Qed.

(** The operations of [DeviceStore] are their reading, their edit and their
    write. *)
Lemma run_edit_parts key fault e file :
  run_edit key fault e file =
  match read_all key file with
  | Err err => (Err err, file)
  | Ok rows =>
      match edit key e rows with
      | Err err => (Err err, file)
      | Ok (reply, None) => (Ok reply, file)
      | Ok (reply, Some rows') => let '(res, file) := write_all fault rows' file in (_ ← res; Ok reply, file)
      end
  end.
Proof.
  destruct e as [now rnd nonce did name ttl|did b|did]; cbn -[write_all]; unfold edit_issue, edit_revoke, edit_remove.
  - unfold issue. destruct (read_all key file); [|done]. destruct (seal key nonce _); [|done]. cbn -[write_all].
    by destruct (write_all fault _ file) as [[[]|] ?].
  - unfold set_revoked. destruct (read_all key file) as [rows|]; [|done]. destruct (existsb _ rows); [|done].
    by destruct (write_all fault _ file) as [[[]|] ?].
  - unfold remove. destruct (read_all key file) as [rows|]; [|done].
    destruct (Nat.eqb _ _); cbn -[write_all]; [done|]. by destruct (write_all fault _ file) as [[[]|] ?].
Qed.

(** The calls of a process after it has read. *)
Lemma crun_write key umask ios reply pc d :
  crun key umask ios (cli_write reply pc) d =
  (cli_write reply (wrun umask ios pc d).1, (wrun umask ios pc d).2).
Proof.
  revert pc d. induction ios as [|io ios IH]; intros pc d; [done|]. cbn.
  assert (cstep key umask io (cli_write reply pc) d =
          (cli_write reply (wstep umask io pc d).1, (wstep umask io pc d).2)) as ->.
  { destruct pc as [| | | | | |[]]; cbn [cli_write cstep]; try by destruct io.
    all: by destruct (wstep umask io _ d). }
  destruct (wstep umask io pc d). apply IH.
Qed.

Lemma crun_done key umask ios res d : crun key umask ios (CDone res) d = (CDone res, d).
Proof. induction ios; [done|]. cbn. done. Qed.

(** The store after one process: a success has exactly the effect and the
    answer of the operation without a fault, anything else has no effect. *)
Definition explains (key : bytes) (e : StoreEdit) (c : Cli) (file file' : StoreFile) : Prop :=
  match c with
  | CDone (Ok reply) => run_edit key None e file = (Ok reply, file')
  | _ => file' = file
  end.

(** A process that has read and is in its write. *)
Lemma crun_write_explains key umask e ios reply rows rows' d :
  json_is_utf8 -> disk_ok d -> read_all key (store_file d) = Ok rows -> edit key e rows = Ok (reply, Some rows') ->
  let r := crun key umask ios (CWrite reply (WDir rows')) d in
  disk_ok r.2 /\ explains key e r.1 (store_file d) (store_file r.2).
Proof.
  intros Hu Hd Hr He. change (CWrite reply (WDir rows')) with (cli_write reply (WDir rows')). rewrite crun_write.
  destruct (wrun_writing umask ios rows' d (WDir rows') d Hd) as [Hd' Hw]; [done|].
  destruct (wrun umask ios (WDir rows') d) as [pc d']. cbn [fst snd] in *. cbv zeta. split; [done|].
  destruct pc as [| | | | | |[[]|err]]; cbn [cli_write explains fst snd]; cbn in Hw.
  7: { rewrite run_edit_parts, Hr, He. by rewrite (written_file _ _ _ (store_file d) Hu Hw). }
  all: apply others_kept_file; naive_solver eauto using others_kept_refl.
Qed.

(** One process, run to its end or killed. *)
Lemma crun_explains key umask e ios d :
  json_is_utf8 -> disk_ok d ->
  let r := crun key umask ios (CRead e) d in
  disk_ok r.2 /\ explains key e r.1 (store_file d) (store_file r.2).
Proof.
  intros Hu Hd. destruct ios as [|io ios]; [by split|]. cbn [crun cstep].
  pose proof (run_edit_parts key None e (store_file d)) as Hparts.
  destruct (read_all key (store_file d)) as [rows|err] eqn:Hr; [|by rewrite crun_done].
  destruct (edit key e rows) as [[reply [rows'|]]|err] eqn:He; [|by rewrite crun_done..].
  by apply crun_write_explains with rows.
Qed.

(** The stores between the processes of a sequence, from the first to the
    last. *)
Fixpoint explained (key : bytes) (log : list (StoreEdit * Cli)) (file file' : StoreFile) : Prop :=
  match log with
  | [] => file' = file
  | (e, c) :: log => exists next, explains key e c file next /\ explained key log next file'
  end.

(** C12: any sequence of pairings, revocations and removals, each run to its end
    or killed at any system call: a command that reports success has had
    exactly the effect of the operation of [DeviceStore] without a fault, on
    the store the commands before it left, and reports its answer; a command
    that fails or is killed before its last call returns has had none.  So
    nothing is half done, no success is lost, and what a killed process
    leaves behind does not disturb the next. *)
Theorem killed_edits_atomic key umask procs d cs d' :
  json_is_utf8 -> disk_ok d -> cruns key umask procs d = (cs, d') ->
  length cs = length procs /\ explained key (zip procs.*1 cs) (store_file d) (store_file d').
Proof.
  intros Hu. revert d cs. induction procs as [|[e ios] procs IH]; intros d cs Hd; cbn -[crun].
  { intros [= <- <-]. done. }
  destruct (crun_explains key umask e ios d Hu Hd) as [Hd1 Hx].
  destruct (crun key umask ios (CRead e) d) as [c d1]. destruct (cruns key umask procs d1) as [cs1 d2] eqn:Hrest.
  intros [= <- <-]. destruct (IH _ _ Hd1 Hrest) as [Hlen Hlog]. split; [cbn; by rewrite Hlen|]. cbn. eauto.
Qed.


End Files.

(** ** Runs on disk *)

Lemma table_crates_utf8 tables :
  forallb (fun n => from_utf8 (string_bytes n) ==? Some n) tables.*1 = true -> @json_is_utf8 (table_crates tables).
Proof.
  intros Hall rows json. cbn -[list_find].
  destruct (list_find (fun t => t.2 = rows) tables) as [[i t]|] eqn:Ht; [|done]. intros [= <-].
  apply list_find_Some in Ht as (Hi & _). rewrite forallb_forall in Hall.
  specialize (Hall t.1). rewrite bool_decide_eq_true in Hall. apply Hall, in_map, list_elem_of_In.
  by eapply list_elem_of_lookup_2.
Qed.

Module DiskRuns.

Import CredentialRuns.

Definition tablet : DeviceRecord := mkDevice "tablet" "my tablet" 1000 4600 false enc.

Definition tables : list (string * list DeviceRecord) :=
  [("[phone]", [row false]); ("[revoked]", [row true]); ("[phone,tablet]", [row false; tablet]);
   ("[tablet]", [tablet])].

#[local] Instance crates : StoreCrates := table_crates tables.

Lemma utf8 : json_is_utf8.
Proof. by apply table_crates_utf8. Qed.

Definition text_node (s : string) : FileNode := mkNode (string_bytes s) MODE_PRIVATE.

(** The store of one paired phone. *)
Definition d0 : Disk := mkDisk {[STORE_FILE := 1%nat]} {[1%nat := text_node "[phone]"]}.

Lemma d0_ok : disk_ok d0.
Proof.
  split; unfold d0; cbn [dk_names dk_nodes].
  - intros n i _ _. by rewrite lookup_singleton_ne.
  - intros n i [<- <-]%lookup_singleton_Some. rewrite lookup_singleton_eq. eauto.
  - intros i n. by rewrite lookup_singleton_ne.
Qed.

(** A mask that would leave the file readable by all. *)
Definition umask : Z := 2 * 8 + 2.

Definition calls (n : nat) : list Io := replicate n (Ok 4%nat).
Definition turns (p n : nat) : list (nat * Io) := replicate n (p, Ok 100%nat).

Definition revoke_phone : StoreEdit := ERevoke "phone" true.
Definition pair_tablet : StoreEdit := EIssue 1000 rnd nonce "tablet" "my tablet" 3600.

(** Killed after part of the data is written. *)
Definition half : WritePc * Disk := wrun umask (calls 4) (WDir [row true]) d0.

Lemma store_write_witness : disk_ok half.2 /\ store_file half.2 = FText "[phone]".
Proof.
  destruct (store_write_atomic umask (calls 4) [row true] d0 half.1 half.2) as (Hok & Hf & _);
    [apply utf8|apply d0_ok|apply (surjective_pairing half)|].
  split; [exact Hok|]. vm_compute in Hf. exact Hf.
Defined.

Lemma store_completes_witness :
  exists d, wrun umask (calls 15) (WDir [row true]) d0 = (WEnd (Ok tt), d) /\ store_file d = FText "[revoked]".
Proof.
  apply (store_write_completes umask (calls 15) [row true] "[revoked]" d0);
    [apply d0_ok|vm_compute; reflexivity|apply utf8| |vm_compute; lia].
  repeat constructor; by eexists.
Defined.

(** A revocation killed in the middle of its data, then a pairing. *)
Definition session : list (StoreEdit * list Io) := [(revoke_phone, calls 5); (pair_tablet, calls 20)].
Definition after : list Cli * Disk := cruns key umask session d0.
Definition killed : Cli := (crun key umask (calls 5) (CRead revoke_phone) d0).1.

Lemma killed_edits_witness :
  explained key [(revoke_phone, killed); (pair_tablet, CDone (Ok (RSecret (hex_encode rnd))))]
    (FText "[phone]") (FText "[phone,tablet]").
Proof.
  destruct (killed_edits_atomic key umask session d0 after.1 after.2 utf8 d0_ok (surjective_pairing after)) as [_ Hlog].
  replace after.1 with [killed; CDone (Ok (RSecret (hex_encode rnd)))] in Hlog by (vm_compute; reflexivity).
  replace (store_file after.2) with (FText "[phone,tablet]") in Hlog by (vm_compute; reflexivity).
  replace (store_file d0) with (FText "[phone]") in Hlog by (vm_compute; reflexivity).
  exact Hlog.
Defined.

(** A revocation that runs while a pairing has read the store and not yet
    written it is lost: both commands report success, and the revoked phone
    is still admitted. *)
Theorem revocation_lost :
  let '(procs, d) := interleave key umask (turns 0 1 ++ turns 1 8 ++ turns 0 7) [CRead pair_tablet; CRead revoke_phone] d0 in
  procs = [CDone (Ok (RSecret (hex_encode rnd))); CDone (Ok (RChanged true))] /\
  active_secret key 4599 "phone" (store_file d) = Returns (Ok (Some (hex_encode rnd))).
Proof. vm_compute. split; reflexivity. Qed.


End DiskRuns.
