(* ===== verification/EventStore.v ===== *)
(** * The event outbox ([src/events/store.rs])

    The table [events] of the SQLite database, keyed by [event_id].  Each
    statement takes the flag [ok]: whether the database executed it; a
    failed statement is logged and changes nothing.  Times are in seconds.

    The second part follows one event through the retry sweeps of
    [run_retry_worker]. *)

From S2P Require Import Prelude Wire.

Open Scope Z_scope.

Inductive EventStatus := Pending | Delivered | Dead.

#[export] Instance EventStatus_eq_dec : EqDecision EventStatus.
Proof. solve_decision. Defined.

Record EventRow := mkRow {
  row_event_type : string;
  row_payload_json : bytes;
  row_status : EventStatus;
  row_created_at : Z;
  row_retry_count : Z;
}.

Abbreviation EventStore := (gmap string EventRow).

(** [persist]: [INSERT OR IGNORE]. *)
Definition persist (ok : bool) (now : Z) (e : Event) (st : EventStore) : EventStore :=
  if ok then
    match st !! event_id e with
    | Some _ => st
    | None => <[event_id e := mkRow (event_type e) (payload_json e) Pending now 0]> st
    end
  else st.

Definition set_status (s : EventStatus) (r : EventRow) : EventRow :=
  mkRow (row_event_type r) (row_payload_json r) s (row_created_at r) (row_retry_count r).

Definition mark_delivered (ok : bool) (eid : string) (st : EventStore) : EventStore :=
  if ok then alter (set_status Delivered) eid st else st.

(** [retry_count] is a SQLite integer; it is read [as u32]. *)
Definition event_of_row (eid : string) (r : EventRow) : Event :=
  mkEvent eid (row_event_type r) (row_payload_json r) (as_u32 (row_retry_count r)).

Definition is_due (threshold : Z) (r : EventRow) : Prop :=
  row_status r = Pending /\ row_created_at r <= threshold.

#[export] Instance is_due_dec t r : Decision (is_due t r).
Proof. apply _. Defined.

Definition is_prunable (cutoff : Z) (r : EventRow) : Prop :=
  (row_status r = Delivered \/ row_status r = Dead) /\ row_created_at r <= cutoff.

#[export] Instance is_prunable_dec t r : Decision (is_prunable t r).
Proof. apply _. Defined.

Definition bump_retry (r : EventRow) : EventRow :=
  mkRow (row_event_type r) (row_payload_json r) (row_status r) (row_created_at r) (row_retry_count r + 1).

Definition kill_exhausted (max_retries : Z) (r : EventRow) : EventRow :=
  if max_retries <=? row_retry_count r then set_status Dead r else r.

(** The two [UPDATE] statements of [increment_retry_or_dead]. *)
Definition increment_retry_or_dead (ok1 ok2 : bool) (eid : string) (max_retries : Z) (st : EventStore)
    : EventStore :=
  let st := if ok1 then alter bump_retry eid st else st in
  if ok2 then alter (kill_exhausted max_retries) eid st else st.

Definition prune (ok : bool) (now retention_secs : Z) (st : EventStore) : nat * EventStore :=
  let cutoff := u64_saturating_sub now retention_secs in
  if ok then
    let st' := filter (fun kr => ~ is_prunable cutoff kr.2) st in ((size st - size st')%nat, st')
  else (0%nat, st).

Section Store.
Context `{HashIter}.

Definition pending_older_than (ok : bool) (now age_secs : Z) (st : EventStore) : list Event :=
  let threshold := u64_saturating_sub now age_secs in
  if ok then
    map (fun kr => event_of_row kr.1 kr.2) (filter (fun kr => is_due threshold kr.2) (map_iter st))
  else [].

(** The database part of one round of [run_retry_worker] ([src/events/bus.rs]),
    with every statement executed. *)
Definition retry_sweep (now max_retries retention_secs : Z) (st : EventStore)
    : list Event * (nat * EventStore) :=
  let pending := pending_older_than true now 10 st in
  let st := foldl (fun st e => increment_retry_or_dead true true (event_id e) max_retries st) st pending in
  (pending, prune true now retention_secs st).

(** ** Lemmas *)

Lemma elem_of_pending now age st e :
  e ∈ pending_older_than true now age st <->
  exists r, st !! event_id e = Some r /\ is_due (u64_saturating_sub now age) r /\
            e = event_of_row (event_id e) r.
Proof.
  unfold pending_older_than. rewrite list_elem_of_fmap. setoid_rewrite list_elem_of_filter. split.
  - intros ([k r] & -> & Hd & Hin%elem_of_map_iter). exists r. done.
  - intros (r & Hl & Hd & ->). exists (event_id e, r). by rewrite elem_of_map_iter.
Qed.

Lemma pending_ids_NoDup now age st : NoDup (map event_id (pending_older_than true now age st)).
Proof.
  unfold pending_older_than. rewrite map_map.
  replace (map _ _) with (filter (fun kr => is_due (u64_saturating_sub now age) kr.2) (map_iter st)).*1.
  - apply map_iter_filter_NoDup.
  - apply map_ext. by intros [k r].
Qed.

Definition retry_row (max_retries : Z) (r : EventRow) : EventRow := kill_exhausted max_retries (bump_retry r).

Lemma foldl_increment max_retries es st eid :
  NoDup (map event_id es) ->
  foldl (fun st e => increment_retry_or_dead true true (event_id e) max_retries st) st es !! eid =
  if decide (eid ∈ map event_id es) then retry_row max_retries <$> st !! eid else st !! eid.
Proof.
  revert st. induction es as [|e es IH]; intros st Hnd; simpl in *.
  - done.
  - apply NoDup_cons in Hnd as [Hn Hnd]. rewrite IH by done. unfold increment_retry_or_dead.
    destruct (decide (event_id e = eid)) as [<-|Hne].
    + rewrite decide_False, decide_True by set_solver.
      rewrite !lookup_alter, !decide_True by done. by destruct (st !! event_id e).
    + rewrite !lookup_alter_ne by done.
      destruct (decide (eid ∈ map event_id es)); [rewrite decide_True by set_solver|rewrite decide_False by set_solver]; done.
Qed.

Lemma retry_sweep_lookup now maxr ret st eid :
  (retry_sweep now maxr ret st).2.2 !! eid =
  match st !! eid with
  | None => None
  | Some r =>
      let r' := if decide (is_due (u64_saturating_sub now 10) r) then retry_row maxr r else r in
      if decide (is_prunable (u64_saturating_sub now ret) r') then None else Some r'
  end.
Proof.
  unfold retry_sweep, prune. cbv zeta. cbn [snd]. set (st' := foldl _ _ _).
  assert (st' !! eid = match st !! eid with
          | Some r => Some (if decide (is_due (u64_saturating_sub now 10) r) then retry_row maxr r else r)
          | None => None end) as Hst.
  { unfold st'. rewrite foldl_increment by apply pending_ids_NoDup.
    assert (eid ∈ map event_id (pending_older_than true now 10 st) <->
            exists r, st !! eid = Some r /\ is_due (u64_saturating_sub now 10) r) as Hin.
    { rewrite list_elem_of_fmap. setoid_rewrite elem_of_pending. split.
      - intros (e & -> & r & ? & ? & _). eauto.
      - intros (r & ? & ?). by exists (event_of_row eid r); split; [|exists r]. }
    destruct (st !! eid) as [r|]; [|case_decide; done]. simpl.
    destruct (decide (is_due _ r)); [rewrite decide_True by naive_solver|rewrite decide_False by naive_solver]; done. }
  clearbody st'. destruct (st !! eid) as [r|].
  - case_decide; case_decide as Hp.
    all: apply option_eq; intros x; rewrite map_lookup_filter_Some, Hst; naive_solver.
  - apply map_lookup_filter_None. by left.
Qed.

(** ** Properties *)

(** A persisted event is pending with no retries; persisting the same id
    again, whatever the event, changes nothing, so a status already reached
    is never reset. *)
Theorem persist_idempotent ok now now' e e' st :
  let st1 := persist ok now e st in
  (st !! event_id e = None -> ok = true ->
   st1 !! event_id e = Some (mkRow (event_type e) (payload_json e) Pending now 0)) /\
  (event_id e' = event_id e -> ok = true -> persist ok now' e' st1 = st1) /\
  (forall r, st !! event_id e = Some r -> st1 = st) /\
  (forall k, k <> event_id e -> st1 !! k = st !! k).
Proof.
  intros st1. unfold st1, persist. destruct ok; [|naive_solver]. split_and!.
  - intros -> _. apply lookup_insert_eq.
  - intros -> _. destruct (st !! event_id e) eqn:E; [by rewrite E|by rewrite lookup_insert_eq].
  - by intros r ->.
  - intros k Hk. destruct (st !! event_id e); [done|]. by apply lookup_insert_ne.
Qed.

(** One retry sweep, row by row.  A pending event older than ten seconds is
    returned for redelivery and its count goes up, to [dead] exactly when it
    reaches the maximum; a pending event is never pruned; a delivered or
    dead event older than the retention is pruned and never redelivered. *)
Theorem retry_sweep_spec now maxr ret st eid r :
  st !! eid = Some r ->
  let res := retry_sweep now maxr ret st in
  let due := is_due (u64_saturating_sub now 10) r in
  (eid ∈ map event_id res.1 <-> due) /\
  (row_status r = Pending -> ~ due -> res.2.2 !! eid = Some r) /\
  (due -> row_retry_count r + 1 < maxr -> res.2.2 !! eid = Some (bump_retry r)) /\
  (due -> maxr <= row_retry_count r + 1 ->
     res.2.2 !! eid = None \/ res.2.2 !! eid = Some (set_status Dead (bump_retry r))) /\
  (row_status r <> Pending ->
     res.2.2 !! eid = if decide (row_created_at r <= u64_saturating_sub now ret) then None else Some r).
Proof.
  intros Hr res due. unfold res. rewrite retry_sweep_lookup, Hr. cbv zeta. split_and!.
  - unfold retry_sweep. simpl. rewrite list_elem_of_fmap. setoid_rewrite elem_of_pending. split.
    + intros (e & -> & r' & ? & ? & _). naive_solver.
    + intros Hd. by exists (event_of_row eid r); split; [|exists r].
  - intros Hs Hd. rewrite (decide_False (P := is_due _ _)) by done. rewrite decide_False; [done|].
    unfold is_prunable. rewrite Hs. naive_solver.
  - intros Hd Hm. rewrite (decide_True (P := is_due _ _)) by done. unfold retry_row, kill_exhausted. simpl.
    destruct (Z.leb_spec maxr (row_retry_count r + 1)); [lia|]. rewrite decide_False; [done|].
    unfold is_prunable. simpl. destruct Hd as [-> _]. naive_solver.
  - intros Hd Hm. rewrite (decide_True (P := is_due _ _)) by done. unfold retry_row, kill_exhausted. simpl.
    destruct (Z.leb_spec maxr (row_retry_count r + 1)); [|lia]. case_decide; eauto.
  - intros Hs. rewrite (decide_False (P := is_due _ _)) by by intros [? _].
    assert (is_prunable (u64_saturating_sub now ret) r <->
            row_created_at r <= u64_saturating_sub now ret) as Hp.
    { unfold is_prunable. destruct (row_status r); naive_solver. }
    by destruct (decide (is_prunable _ _)), (decide (row_created_at r <= _)); naive_solver.
Qed.

(** The number of redeliveries of one event in a sequence of sweeps at the
    given times. *)
Fixpoint redeliveries (eid : string) (nows : list Z) (maxr ret : Z) (st : EventStore) : nat :=
  match nows with
  | [] => 0
  | now :: nows' =>
      let res := retry_sweep now maxr ret st in
      (if eid ∈? map event_id res.1 then 1 else 0) + redeliveries eid nows' maxr ret res.2.2
  end%nat.

Lemma redeliveries_done eid nows maxr ret st :
  (forall r, st !! eid = Some r -> row_status r <> Pending) -> redeliveries eid nows maxr ret st = 0%nat.
Proof.
  revert st. induction nows as [|now nows IH]; intros st Hst; [done|]. cbn [redeliveries]. cbv zeta.
  rewrite bool_decide_eq_false_2.
  - apply IH. intros r. rewrite retry_sweep_lookup. destruct (st !! eid) as [r0|]; [|done]. cbv zeta.
    rewrite (decide_False (P := is_due _ _)) by (intros [? _]; naive_solver).
    case_decide; naive_solver.
  - rewrite list_elem_of_fmap. setoid_rewrite elem_of_pending.
    intros (e & -> & r & Hl & [Hs _] & _). naive_solver.
Qed.

(** C25: an event nobody acknowledges is redelivered until its budget is spent
    and never after: over any sequence of sweeps that find it old enough, on a
    database that executes every statement, a pending event with [c] retries is redelivered exactly
    [max 1 (max_retries - c)] times, or in every sweep if there are fewer. *)
Theorem retry_budget eid nows maxr ret st r :
  st !! eid = Some r -> row_status r = Pending ->
  Forall (fun now => row_created_at r <= u64_saturating_sub now 10) nows ->
  Z.of_nat (redeliveries eid nows maxr ret st) =
  Z.min (Z.of_nat (length nows)) (Z.max 1 (maxr - row_retry_count r)).
Proof.
  revert st r. induction nows as [|now nows IH]; intros st r Hl Hs Hf; [simpl; lia|]. cbn [redeliveries length]. cbv zeta.
  apply Forall_cons in Hf as [Hn Hf].
  assert (is_due (u64_saturating_sub now 10) r) as Hd by done.
  rewrite bool_decide_eq_true_2.
  2: { rewrite list_elem_of_fmap. exists (event_of_row eid r). split; [done|].
       apply elem_of_pending. by exists r. }
  pose proof (retry_sweep_lookup now maxr ret st eid) as Hx. rewrite Hl in Hx. cbv zeta in Hx.
  rewrite (decide_True (P := is_due _ _)) in Hx by done.
  unfold retry_row, kill_exhausted in Hx. cbn [bump_retry row_retry_count] in Hx.
  destruct (Z.leb_spec maxr (row_retry_count r + 1)) as [Hm|Hm].
  - rewrite redeliveries_done; [lia|]. intros r'. rewrite Hx.
    case_decide; naive_solver.
  - rewrite decide_False in Hx by (unfold is_prunable; simpl; rewrite Hs; naive_solver).
    specialize (IH _ _ Hx Hs Hf). cbn [bump_retry row_retry_count] in IH. lia.
Qed.

End Store.

Module OutboxRuns.

#[local] Instance iter : HashIter := canonical_iter.

Definition ev : Event := mkEvent "evt-1" "system.plugin_joined" [1; 2] 0.
Definition st : EventStore := persist true 100 ev ∅.
Definition r : EventRow := mkRow "system.plugin_joined" [1; 2] Pending 100 0.

Lemma persist_witness :
  let st1 := persist true 100 ev ∅ in
  st1 !! "evt-1" = Some r /\ persist true 200 ev st1 = st1.
Proof.
  intros st1. split; [apply (persist_idempotent true 100 200 ev ev ∅); reflexivity|].
  apply (persist_idempotent true 100 200 ev ev ∅); reflexivity.
Defined.

Lemma retry_sweep_witness :
  map event_id (retry_sweep 110 3 3600 st).1 = ["evt-1"] /\
  (retry_sweep 110 3 3600 st).2.2 !! "evt-1" = Some (bump_retry r).
Proof.
  split; [vm_compute; reflexivity|].
  apply (retry_sweep_spec 110 3 3600 st "evt-1" r); [vm_compute; reflexivity|by vm_compute|reflexivity].
Defined.

Lemma retry_budget_witness :
  Z.of_nat (redeliveries "evt-1" [110; 115; 120; 125; 130] 3 3600 st) = 3.
Proof.
  rewrite (retry_budget "evt-1" [110; 115; 120; 125; 130] 3 3600 st r);
    [vm_compute; reflexivity|vm_compute; reflexivity|reflexivity|].
  repeat constructor; vm_compute; congruence.
Defined.

End OutboxRuns.
