(* ===== verification/World.v ===== *)
(** * The kernel state and the message helpers

    [World] gathers the state the router task works on: the registry, the
    event bus and its stores, the write channels, the process-wide sequence
    counters, the rate limiters, the error budget and the live bridge
    connections.  The rest of the file models
    [src/ipc/protocol/helpers.rs].

    One step of the router reads the clocks once ([Env]); sequence counters
    wrap as [AtomicU64] does.  Logging and metrics are not modelled. *)

From S2P Require Import Prelude Wire Channel Registry DeviceStore EventStore.

Open Scope Z_scope.

(** ** External crates *)

(** [governor]: a keyed rate limiter; [check_key now k] is [true] when a
    cell is available at the time [now]. *)
Class Governor := {
  KeyedLimiter : Type -> Type;
  limiter_keyed : forall {K}, Z -> KeyedLimiter K;
  check_key : forall {K}, Z -> K -> KeyedLimiter K -> bool * KeyedLimiter K;
  retain_recent : forall {K}, Z -> KeyedLimiter K -> KeyedLimiter K;
}.

(** [serde_json] values and their text. *)
#[warnings="-register-all"]
Inductive Json :=
| JBool (b : bool)
| JNum (n : Z)
| JStr (s : string)
| JArr (l : list Json)
| JObj (fields : list (string * Json)).

Class SerdeJson := {
  json_to_string : Json -> string;
  json_of_bytes : bytes -> option Json;
}.

(** What one step of the router reads from outside: the clocks, the random
    bytes of a session nonce, whether the database executes a statement and
    the device credential file. *)
Record Env := mkEnv {
  clk : Clock;
  fresh_nonce : bytes;
  db_ok : bool;
  device_file : StoreFile;
}.

(** ** State *)

Record EventBus := mkBus {
  subscriptions : gmap string (gset string);
  by_plugin : gmap string (gset string);
  bus_store : option (option Z);
}.

Section World.
Context `{Governor}.

Record World := mkWorld {
  registry : PluginRegistry;
  event_bus : EventBus;
  stores : gmap Z EventStore;
  chans : Chans;
  MSG_SEQ : Z;
  ACTION_CORRELATION_SEQ : Z;
  EVENT_PUBLISH_SEQ : Z;
  ipc_limiter : option (KeyedLimiter Z);
  action_limiter : option (KeyedLimiter (string * string));
  error_counts : gmap Z (Z * Z);
  bridge_conns : list ChanId;
}.

Definition upd_registry (f : PluginRegistry -> PluginRegistry) (w : World) : World :=
  mkWorld (f (registry w)) (event_bus w) (stores w) (chans w) (MSG_SEQ w) (ACTION_CORRELATION_SEQ w)
    (EVENT_PUBLISH_SEQ w) (ipc_limiter w) (action_limiter w) (error_counts w) (bridge_conns w).
Definition upd_bus (f : EventBus -> EventBus) (w : World) : World :=
  mkWorld (registry w) (f (event_bus w)) (stores w) (chans w) (MSG_SEQ w) (ACTION_CORRELATION_SEQ w)
    (EVENT_PUBLISH_SEQ w) (ipc_limiter w) (action_limiter w) (error_counts w) (bridge_conns w).
Definition upd_stores f (w : World) : World :=
  mkWorld (registry w) (event_bus w) (f (stores w)) (chans w) (MSG_SEQ w) (ACTION_CORRELATION_SEQ w)
    (EVENT_PUBLISH_SEQ w) (ipc_limiter w) (action_limiter w) (error_counts w) (bridge_conns w).
Definition upd_chans (f : Chans -> Chans) (w : World) : World :=
  mkWorld (registry w) (event_bus w) (stores w) (f (chans w)) (MSG_SEQ w) (ACTION_CORRELATION_SEQ w)
    (EVENT_PUBLISH_SEQ w) (ipc_limiter w) (action_limiter w) (error_counts w) (bridge_conns w).
Definition upd_msg_seq f (w : World) : World :=
  mkWorld (registry w) (event_bus w) (stores w) (chans w) (f (MSG_SEQ w)) (ACTION_CORRELATION_SEQ w)
    (EVENT_PUBLISH_SEQ w) (ipc_limiter w) (action_limiter w) (error_counts w) (bridge_conns w).
Definition upd_action_seq f (w : World) : World :=
  mkWorld (registry w) (event_bus w) (stores w) (chans w) (MSG_SEQ w) (f (ACTION_CORRELATION_SEQ w))
    (EVENT_PUBLISH_SEQ w) (ipc_limiter w) (action_limiter w) (error_counts w) (bridge_conns w).
Definition upd_event_seq f (w : World) : World :=
  mkWorld (registry w) (event_bus w) (stores w) (chans w) (MSG_SEQ w) (ACTION_CORRELATION_SEQ w)
    (f (EVENT_PUBLISH_SEQ w)) (ipc_limiter w) (action_limiter w) (error_counts w) (bridge_conns w).
Definition upd_ipc_limiter f (w : World) : World :=
  mkWorld (registry w) (event_bus w) (stores w) (chans w) (MSG_SEQ w) (ACTION_CORRELATION_SEQ w)
    (EVENT_PUBLISH_SEQ w) (f (ipc_limiter w)) (action_limiter w) (error_counts w) (bridge_conns w).
Definition upd_action_limiter f (w : World) : World :=
  mkWorld (registry w) (event_bus w) (stores w) (chans w) (MSG_SEQ w) (ACTION_CORRELATION_SEQ w)
    (EVENT_PUBLISH_SEQ w) (ipc_limiter w) (f (action_limiter w)) (error_counts w) (bridge_conns w).
Definition upd_error_counts f (w : World) : World :=
  mkWorld (registry w) (event_bus w) (stores w) (chans w) (MSG_SEQ w) (ACTION_CORRELATION_SEQ w)
    (EVENT_PUBLISH_SEQ w) (ipc_limiter w) (action_limiter w) (f (error_counts w)) (bridge_conns w).

Abbreviation K := (State World).

(** A registry operation that returns a value. *)
Definition on_registry {A} (f : PluginRegistry -> A * PluginRegistry) : K A :=
  fun w => let '(a, r) := f (registry w) in (a, upd_registry (fun _ => r) w).

(** [tx.try_send(o)], returning whether it succeeded. *)
Definition chan_try_send (tx : ChanId) (o : Outbound) : K bool :=
  fun w => let '(res, cs) := try_send tx o (chans w) in (is_ok res, upd_chans (fun _ => cs) w).

(** [tx.send(o).await], its result ignored. *)
Definition chan_send_await (tx : ChanId) (o : Outbound) : K unit :=
  modify (upd_chans (fun cs => (send_await tx o cs).2)).

(** [AtomicU64::fetch_add(1)] on the three counters. *)
Definition fetch_msg_seq : K Z := n ← gets MSG_SEQ; _ ← modify (upd_msg_seq u64_succ); mret n.
Definition fetch_action_seq : K Z :=
  n ← gets ACTION_CORRELATION_SEQ; _ ← modify (upd_action_seq u64_succ); mret n.
Definition fetch_event_seq : K Z :=
  n ← gets EVENT_PUBLISH_SEQ; _ ← modify (upd_event_seq u64_succ); mret n.

Context `{WireCrate}.

(** ** [helpers.rs] *)

Definition kernel_message_id (env : Env) : K string :=
  seq ← fetch_msg_seq;
  mret ("k-" +:+ show (unix_ms (clk env)) +:+ "-" +:+ show seq).

Definition is_throttle_exempt (frame : Frame) : bool :=
  match decode_envelope (f_payload frame) with
  | None => false
  | Some env =>
      match payload env with
      | Some (PActionResponse _) | Some (PActionResponseChunk _) | Some (PActionRequestChunk _)
      | Some (PSessionClose _) | Some (PPong _ _) => true
      | _ => false
      end
  end.

Definition build_outbound (env : Env) (e : Envelope) : K (option Outbound) :=
  mid ← (if is_empty (message_id e) then kernel_message_id env else mret (message_id e));
  let e := mkEnvelope mid "kernel" (unix_ms (clk env)) (payload e) in
  mret ((fun payload => out_frame (build_frame "client" 0 payload)) <$> encode_envelope e).

Definition send_envelope (env : Env) (tx : ChanId) (e : Envelope) : K unit :=
  o ← build_outbound env e;
  match o with
  | Some out => _ ← chan_try_send tx out; mret tt
  | None => mret tt
  end.

Definition try_send_envelope (env : Env) (tx : ChanId) (e : Envelope) : K bool :=
  o ← build_outbound env e;
  match o with
  | Some out => chan_try_send tx out
  | None => mret false
  end.

Definition send_error (env : Env) (tx : ChanId) (code : ErrorCode) (message : string) : K unit :=
  send_envelope env tx (env_of (PError (mkErrorMessage (error_code_i32 code) message EmptyString))).

Definition action_status_message (s : ActionStatus) : string :=
  match s with
  | ActionNotFound => "action not found"
  | ActionPermissionDeny => "permission denied"
  | ActionTimeout => "action timed out"
  | ActionQuotaExceeded => "quota exceeded"
  | ActionStreamBackpressure => "stream backpressure"
  | ActionError => "action failed"
  | ActionOk | ActionUnknown => "unknown action status"
  end.

Definition send_register_reject (env : Env) (tx : ChanId) (reason : string) : K unit :=
  send_envelope env tx (env_of (PPluginRegisterAck (mkPluginRegisterAck false reason [] []))).

Definition notify_forced_termination (env : Env) (internal_id : string) (pending : PendingAction)
    (reason : string) : K unit :=
  _ ← try_send_envelope env (requester_write_tx pending)
        (env_of (PActionStreamAbort (mkActionStreamAbort (original_action_id pending) reason)));
  _ ← (if negb (session_accepted pending) then
         _ ← try_send_envelope env (requester_write_tx pending)
               (env_of (PActionResponse (mkActionResponse (original_action_id pending)
                  (action_status_i32 ActionStreamBackpressure) [] reason)));
         mret tt
       else mret tt);
  r ← gets registry;
  match get (provider_id pending) r with
  | Some provider_entry =>
      _ ← try_send_envelope env (write_tx provider_entry)
            (env_of (PActionStreamAbort (mkActionStreamAbort internal_id reason)));
      mret tt
  | None => mret tt
  end.

Definition abort_stream (env : Env) (internal_id reason : string) : K unit :=
  o ← on_registry (take_pending_action internal_id);
  match o with
  | None => mret tt
  | Some pending => notify_forced_termination env internal_id pending reason
  end.

(** ** Frames of the helpers

    [net_only w w']: the step touched nothing but the write channels and the
    message counter. *)

Definition net_only (w w' : World) : Prop :=
  registry w' = registry w /\ event_bus w' = event_bus w /\ stores w' = stores w /\
  ACTION_CORRELATION_SEQ w' = ACTION_CORRELATION_SEQ w /\
  EVENT_PUBLISH_SEQ w' = EVENT_PUBLISH_SEQ w /\
  ipc_limiter w' = ipc_limiter w /\ action_limiter w' = action_limiter w /\
  error_counts w' = error_counts w /\ bridge_conns w' = bridge_conns w.

#[export] Instance net_only_preorder : PreOrder net_only.
Proof.
  split; [by intros w|]. intros w1 w2 w3. unfold net_only. intros. destruct_and?. split_and!; congruence.
Qed.

Lemma net_only_registry w w' : net_only w w' -> registry w' = registry w.
Proof. by intros (->&_). Qed.

(** The envelope as [build_outbound] stamps it in the world [w]. *)
Definition stamped (env : Env) (e : Envelope) (w : World) : Envelope :=
  mkEnvelope (if is_empty (message_id e)
              then "k-" +:+ show (unix_ms (clk env)) +:+ "-" +:+ show (MSG_SEQ w)
              else message_id e) "kernel" (unix_ms (clk env)) (payload e).

Definition stamped_frame (env : Env) (e : Envelope) (w : World) : option Frame :=
  (fun p => build_frame "client" 0 p) <$> encode_envelope (stamped env e w).

Lemma build_outbound_spec env e w :
  build_outbound env e w =
  (OFrame <$> stamped_frame env e w,
   if is_empty (message_id e) then upd_msg_seq u64_succ w else w).
Proof.
  unfold build_outbound, stamped_frame, stamped, kernel_message_id, fetch_msg_seq, mbind, State_bind,
    gets, modify, mret, State_ret.
  destruct (is_empty (message_id e)); simpl; by destruct (encode_envelope _).
Qed.

(** What [send_envelope] appends to a queue. *)
Definition sent (env : Env) (tx : ChanId) (e : Envelope) (w : World) : list Outbound :=
  match stamped_frame env e w with
  | Some f => if can_send (chans w) tx then [OFrame f] else []
  | None => []
  end.

Lemma try_send_envelope_spec env tx e w :
  let '(b, w') := try_send_envelope env tx e w in
  net_only w w' /\
  (forall ty, queue_of (chans w') ty =
              queue_of (chans w) ty ++ (if tx ==? ty then sent env tx e w else [])) /\
  b = is_some (stamped_frame env e w) && can_send (chans w) tx.
Proof.
  unfold try_send_envelope. rewrite bind_run. unfold eval, exec. rewrite build_outbound_spec. simpl.
  unfold sent.
  assert (forall P : World -> Prop, (forall w', net_only w w' -> chans w' = chans w -> P w') ->
          P (if is_empty (message_id e) then upd_msg_seq u64_succ w else w)) as Hw.
  { intros P HP. apply HP; by destruct (is_empty _). }
  destruct (stamped_frame env e w) as [f|]; simpl.
  - unfold chan_try_send. apply Hw. intros w' Hn Hc. rewrite Hc.
    pose proof (try_send_ok tx (OFrame f) (chans w)) as Hok.
    pose proof (try_send_queue tx (OFrame f) (chans w)) as Hq.
    destruct (try_send tx (OFrame f) (chans w)) as [res cs]; simpl in *.
    split_and!; [done| |done]. intros ty. rewrite Hq. by case_bool_decide; destruct (can_send _ _).
  - apply Hw. intros w' Hn Hc. rewrite Hc. split_and!; [done| |done].
    intros ty. case_bool_decide; by rewrite app_nil_r.
Qed.

Lemma send_envelope_spec env tx e w :
  let w' := exec (send_envelope env tx e) w in
  net_only w w' /\
  (forall ty, queue_of (chans w') ty =
              queue_of (chans w) ty ++ (if tx ==? ty then sent env tx e w else [])).
Proof.
  pose proof (try_send_envelope_spec env tx e w) as Hs. intros w'.
  assert (w' = (try_send_envelope env tx e w).2) as ->.
  { unfold w', send_envelope, try_send_envelope, exec. rewrite !bind_run.
    destruct (eval _ w); [|done]. rewrite bind_run. done. }
  destruct (try_send_envelope env tx e w). simpl. naive_solver.
Qed.

Lemma send_error_spec env tx code m w :
  let w' := exec (send_error env tx code m) w in
  net_only w w' /\ (forall ty, tx <> ty -> queue_of (chans w') ty = queue_of (chans w) ty).
Proof.
  destruct (send_envelope_spec env tx
    (env_of (PError (mkErrorMessage (error_code_i32 code) m EmptyString))) w) as [Hn Hq].
  split; [done|]. intros ty Hne. unfold send_error. rewrite Hq, bool_decide_eq_false_2 by done.
  by rewrite app_nil_r.
Qed.

End World.

(** A kernel action. *)
Abbreviation K := (State World).

#[export] Hint Resolve net_only_registry : vyn.
