(* ===== verification/EventBus.v ===== *)
(** * The event bus ([src/events/bus.rs])

    Subscriptions as two maps that mirror each other, publication through
    the outbox, and fan-out to the subscribers' write channels. *)

From S2P Require Import Prelude Wire Toy Channel Registry DeviceStore EventStore World.

Open Scope Z_scope.

Definition bus_new : EventBus := mkBus ∅ ∅ None.
Definition with_store (store : Z) : EventBus := mkBus ∅ ∅ (Some (Some store)).

(** [OnceLock::set]: the first value stays. *)
Definition set_store (store : Z) (b : EventBus) : EventBus :=
  match bus_store b with
  | Some _ => b
  | None => mkBus (subscriptions b) (by_plugin b) (Some (Some store))
  end.

Definition event_store (b : EventBus) : option Z := s ← bus_store b; s.

(** [entry(k).or_default()] followed by an update of the set. *)
Definition upsert_set (f : gset string -> gset string) (k : string) (m : gmap string (gset string))
    : gmap string (gset string) := <[k := f (default ∅ (m !! k))]> m.

Definition subscribe (pid : string) (event_types : list string) (b : EventBus) : EventBus :=
  let subs := foldl (fun m t => upsert_set (fun s => {[pid]} ∪ s) t m) (subscriptions b) event_types in
  mkBus subs (upsert_set (fun s => list_to_set event_types ∪ s) pid (by_plugin b)) (bus_store b).

(** [if let Some(mut subs) = subscriptions.get_mut(t) { subs.remove(pid) }] for
    each type. *)
Definition drop_from_types (pid : string) (types : list string) (m : gmap string (gset string))
    : gmap string (gset string) :=
  foldl (fun m t => alter (fun s => s ∖ {[pid]}) t m) m types.

Definition unsubscribe (pid : string) (event_types : list string) (b : EventBus) : EventBus :=
  mkBus (drop_from_types pid event_types (subscriptions b))
    (alter (fun s => foldl (fun s t => s ∖ {[t]}) s event_types) pid (by_plugin b)) (bus_store b).

Section Bus.
Context `{HashIter}.

Definition unsubscribe_all (pid : string) (b : EventBus) : EventBus :=
  match by_plugin b !! pid with
  | None => b
  | Some types =>
      mkBus (drop_from_types pid (set_iter types) (subscriptions b))
        (delete pid (by_plugin b)) (bus_store b)
  end.

Definition subscribers (t : string) (b : EventBus) : list string :=
  match subscriptions b !! t with Some s => set_iter s | None => [] end.

(** The subscribers of the event's type together with those of [*]. *)
Definition delivery_targets (t : string) (b : EventBus) : gset string :=
  default ∅ (subscriptions b !! t) ∪ default ∅ (subscriptions b !! "*").

Context `{WireCrate} `{Governor} `{SerdeJson}.

Definition deliver_to (p : bytes) (pid : string) : K unit :=
  r ← gets registry;
  match get pid r with
  | Some entry => _ ← chan_try_send (write_tx entry) (out_frame (build_frame pid 0 p)); mret tt
  | None => mret tt
  end.

Definition deliver (env : Env) (e : Event) : K unit :=
  b ← gets event_bus;
  let targets := delivery_targets (event_type e) b in
  if bool_decide (targets = ∅) then mret tt
  else
    mid ← kernel_message_id env;
    match encode_envelope (mkEnvelope mid "kernel" (unix_ms (clk env)) (Some (PEvent e))) with
    | None => mret tt
    | Some p => for_each (deliver_to p) (set_iter targets)
    end.

Definition publish (env : Env) (e : Event) : K unit :=
  b ← gets event_bus;
  _ ← (match event_store b with
       | Some sid => modify (upd_stores (alter (persist (db_ok env) (unix_secs (clk env)) e) sid))
       | None => mret tt
       end);
  deliver env e.

Definition redeliver (env : Env) (e : Event) : K unit := deliver env e.

(** One round of [run_retry_worker]. *)
Definition retry_round (env : Env) (sid max_retries retention_secs : Z) : K unit :=
  sts ← gets stores;
  let '(pending, (_, st')) :=
    retry_sweep (unix_secs (clk env)) max_retries retention_secs (default ∅ (sts !! sid)) in
  _ ← modify (upd_stores (alter (fun _ => st') sid));
  for_each (redeliver env) pending.

Definition action_spec_json (s : ActionSpec) : Json :=
  JObj [("name", JStr (spec_name s)); ("description", JStr (spec_description s));
        ("params_schema", JStr (spec_params_schema s)); ("risk", JStr (action_risk_str (spec_risk s)));
        ("requires_confirmation", JBool (spec_requires_confirmation s))].

Definition plugin_lifecycle_payload (r : PluginRegistry) (pid : string) : bytes :=
  let did := match get pid r with Some e => device_id e | None => EmptyString end in
  let '(os, caps) := match get_device did r with
                     | Some dev => (device_os_str (dev_os dev), dev_capabilities dev)
                     | None => ("unspecified", [])
                     end in
  let specs := match get pid r with Some e => action_specs (manifest e) | None => [] end in
  string_bytes (json_to_string (JObj
    [("plugin_id", JStr pid); ("device_id", JStr did); ("os", JStr os);
     ("capabilities", JArr (map JStr caps)); ("action_specs", JArr (map action_spec_json specs))])).

(** ** The invariant of the two maps *)

Definition subscribed (b : EventBus) (pid t : string) : Prop := pid ∈ default ∅ (subscriptions b !! t).
Definition listed (b : EventBus) (pid t : string) : Prop := t ∈ default ∅ (by_plugin b !! pid).

Definition bus_ok (b : EventBus) : Prop := forall pid t, subscribed b pid t <-> listed b pid t.

Lemma upsert_set_lookup f k m x :
  default ∅ (upsert_set f k m !! x) = if decide (x = k) then f (default ∅ (m !! k)) else default ∅ (m !! x).
Proof.
  unfold upsert_set. destruct (decide (x = k)) as [->|]; [by rewrite lookup_insert_eq|].
  by rewrite lookup_insert_ne.
Qed.

Lemma subscribe_foldl pid types m q t :
  q ∈ default ∅ (foldl (fun m t => upsert_set (fun s => {[pid]} ∪ s) t m) m types !! t) <->
  q ∈ default ∅ (m !! t) \/ (q = pid /\ t ∈ types).
Proof.
  revert m. induction types as [|x types IH]; intros m; simpl; [set_solver|].
  rewrite IH, upsert_set_lookup. case_decide; subst; set_solver.
Qed.

Lemma drop_from_types_spec pid types m q t :
  q ∈ default ∅ (drop_from_types pid types m !! t) <->
  q ∈ default ∅ (m !! t) /\ ~ (q = pid /\ t ∈ types).
Proof.
  revert m. induction types as [|x types IH]; intros m; [simpl; set_solver|].
  unfold drop_from_types in *. simpl. rewrite IH, lookup_alter.
  case_decide; subst; [|set_solver]. destruct (m !! t); set_solver.
Qed.

Lemma foldl_difference (s : gset string) (types : list string) t :
  t ∈ foldl (fun s t => s ∖ {[t]}) s types <-> t ∈ s /\ t ∉ types.
Proof.
  revert s. induction types as [|x types IH]; intros s; simpl; [set_solver|]. rewrite IH. set_solver.
Qed.

Lemma subscribe_spec b pid types q t :
  (subscribed (subscribe pid types b) q t <-> subscribed b q t \/ (q = pid /\ t ∈ types)) /\
  (listed (subscribe pid types b) q t <-> listed b q t \/ (q = pid /\ t ∈ types)).
Proof.
  split; [apply subscribe_foldl|]. unfold listed. simpl. rewrite upsert_set_lookup.
  case_decide; subst; set_solver.
Qed.

Lemma unsubscribe_spec b pid types q t :
  (subscribed (unsubscribe pid types b) q t <-> subscribed b q t /\ ~ (q = pid /\ t ∈ types)) /\
  (listed (unsubscribe pid types b) q t <-> listed b q t /\ ~ (q = pid /\ t ∈ types)).
Proof.
  split; [apply drop_from_types_spec|]. unfold listed. simpl. rewrite lookup_alter.
  case_decide; subst; [|set_solver]. destruct (by_plugin b !! q); simpl; [|set_solver].
  rewrite foldl_difference. naive_solver.
Qed.

Lemma unsubscribe_all_spec b pid q t :
  bus_ok b ->
  (subscribed (unsubscribe_all pid b) q t <-> subscribed b q t /\ q <> pid) /\
  (listed (unsubscribe_all pid b) q t <-> listed b q t /\ q <> pid).
Proof.
  intros Hb. unfold unsubscribe_all. destruct (by_plugin b !! pid) as [types|] eqn:Hp.
  - split.
    + unfold subscribed. simpl. rewrite drop_from_types_spec, elem_of_set_iter.
      split; [|naive_solver]. intros [Hq Hn]. split; [done|]. intros ->. destruct Hn. split; [done|].
      apply Hb in Hq. unfold listed in Hq. by rewrite Hp in Hq.
    + unfold listed. simpl. destruct (decide (pid = q)) as [->|];
        [rewrite lookup_delete_eq; set_solver|rewrite lookup_delete_ne by done; naive_solver].
  - assert (forall t, ~ listed b pid t) as Hno by (intros x; unfold listed; rewrite Hp; set_solver).
    split; [|naive_solver]. split; [|naive_solver]. intros Hs. split; [done|].
    intros ->. by apply (Hno t), Hb.
Qed.

Inductive bus_step (b : EventBus) : EventBus -> Prop :=
| bstep_subscribe pid types : bus_step b (subscribe pid types b)
| bstep_unsubscribe pid types : bus_step b (unsubscribe pid types b)
| bstep_unsubscribe_all pid : bus_step b (unsubscribe_all pid b)
| bstep_store sid : bus_step b (set_store sid b).

Lemma bus_step_ok b b' : bus_step b b' -> bus_ok b -> bus_ok b'.
Proof.
  intros Hs Hb. destruct Hs; intros q t.
  - destruct (subscribe_spec b pid types q t) as [-> ->]. by rewrite (Hb q t).
  - destruct (unsubscribe_spec b pid types q t) as [-> ->]. by rewrite (Hb q t).
  - destruct (unsubscribe_all_spec b pid q t Hb) as [-> ->]. by rewrite (Hb q t).
  - unfold set_store. destruct (bus_store b); [apply Hb|apply (Hb q t)].
Qed.

Lemma bus_reachable_ok b : rtc bus_step bus_new b -> bus_ok b.
Proof.
  revert b. apply rtc_ind_r; [|eauto using bus_step_ok].
  intros q t. unfold subscribed, listed. simpl. rewrite !lookup_empty. done.
Qed.

(** ** Fan-out *)

Lemma chan_try_send_spec tx o w :
  let '(b, w') := chan_try_send tx o w in
  net_only w w' /\ MSG_SEQ w' = MSG_SEQ w /\ b = can_send (chans w) tx /\
  (forall ty, queue_of (chans w') ty =
     queue_of (chans w) ty ++ (if (tx ==? ty) && can_send (chans w) tx then [o] else [])) /\
  (forall ty, tx <> ty -> chans w' !! ty = chans w !! ty).
Proof.
  unfold chan_try_send. pose proof (try_send_ok tx o (chans w)). pose proof (try_send_queue tx o (chans w)).
  pose proof (try_send_other tx o (chans w)).
  destruct (try_send tx o (chans w)) as [res cs]. simpl in *. split_and!; try done; auto.
Qed.

Lemma deliver_to_spec p pid w :
  let w' := exec (deliver_to p pid) w in
  net_only w w' /\
  match get pid (registry w) with
  | None => w' = w
  | Some e =>
      (forall ty, queue_of (chans w') ty = queue_of (chans w) ty ++
         (if (write_tx e ==? ty) && can_send (chans w) (write_tx e)
          then [OFrame (build_frame pid 0 p)] else [])) /\
      (forall ty, write_tx e <> ty -> chans w' !! ty = chans w !! ty)
  end.
Proof.
  unfold deliver_to, exec. rewrite bind_run. unfold gets, eval, exec. simpl.
  destruct (get pid (registry w)) as [e|]; [|done].
  rewrite bind_run. unfold eval, exec. simpl.
  pose proof (chan_try_send_spec (write_tx e) (out_frame (build_frame pid 0 p)) w) as Hs.
  destruct (chan_try_send _ _ w). simpl. naive_solver.
Qed.

(** The entry whose queue is [tx], when there is only one. *)
Definition owns (r : PluginRegistry) (pid : string) (e : PluginEntry) : Prop :=
  get pid r = Some e /\ forall q e', get q r = Some e' -> write_tx e' = write_tx e -> q = pid.

Lemma deliver_loop p ids w :
  NoDup ids ->
  let w' := exec (for_each (deliver_to p) ids) w in
  net_only w w' /\
  (forall pid e, owns (registry w) pid e ->
     queue_of (chans w') (write_tx e) = queue_of (chans w) (write_tx e) ++
       (if (pid ∈? ids) && can_send (chans w) (write_tx e) then [OFrame (build_frame pid 0 p)] else [])) /\
  (forall tx, (forall q e, q ∈ ids -> get q (registry w) = Some e -> write_tx e <> tx) ->
     chans w' !! tx = chans w !! tx).
Proof.
  revert w. induction ids as [|i ids IH]; intros w Hnd; simpl.
  - split_and!; [done| |done]. intros pid e _. by rewrite app_nil_r.
  - apply NoDup_cons in Hnd as [Hi Hnd]. unfold exec. rewrite bind_run.
    change ((for_each (deliver_to p) ids ?x).2) with (exec (for_each (deliver_to p) ids) x).
    destruct (deliver_to_spec p i w) as [Hn1 Hq1]. set (w1 := exec (deliver_to p i) w) in *.
    destruct (IH w1 Hnd) as (Hn & Hq & Ho).
    rewrite (net_only_registry _ _ Hn1) in Hq, Ho.
    split_and!; [by etrans| |].
    + intros pid e Hown. rewrite (Hq pid e Hown). destruct Hown as [Hg Hu].
      destruct (get i (registry w)) as [ei|] eqn:Hgi; [destruct Hq1 as [Hq1 Ho1]|].
      * destruct (decide (write_tx ei = write_tx e)) as [Htx|Htx].
        -- pose proof (Hu _ _ Hgi Htx) as <-. rewrite Hq1, Htx.
           rewrite (bool_decide_eq_false_2 (i ∈ ids)), bool_decide_eq_true_2 by done.
           rewrite bool_decide_eq_true_2 by left. simpl. by rewrite app_nil_r.
        -- rewrite Hq1. rewrite (bool_decide_eq_false_2 (write_tx ei = _)) by done. simpl.
           rewrite app_nil_r. unfold can_send. rewrite Ho1 by done.
           assert (pid <> i) as Hne by (intros ->; naive_solver).
           by rewrite (bool_decide_ext (pid ∈ i :: ids) (pid ∈ ids)) by set_solver.
      * rewrite Hq1. assert (pid <> i) as Hne by (intros ->; naive_solver).
        by rewrite (bool_decide_ext (pid ∈ i :: ids) (pid ∈ ids)) by set_solver.
    + intros tx Htx. rewrite Ho by set_solver.
      destruct (get i (registry w)) as [ei|] eqn:Hgi; [|by rewrite Hq1].
      destruct Hq1 as [_ Ho1]. apply Ho1. eapply Htx; [left|done].
Qed.

(** The frame one subscriber gets. *)
Definition event_frame (env : Env) (e : Event) (pid : string) (w : World) : option Frame :=
  build_frame pid 0 <$>
  encode_envelope (mkEnvelope ("k-" +:+ show (unix_ms (clk env)) +:+ "-" +:+ show (MSG_SEQ w))
                     "kernel" (unix_ms (clk env)) (Some (PEvent e))).

Lemma deliver_spec env ev w :
  let w' := exec (deliver env ev) w in
  let targets := delivery_targets (event_type ev) (event_bus w) in
  net_only w w' /\
  (forall pid e, owns (registry w) pid e ->
     queue_of (chans w') (write_tx e) = queue_of (chans w) (write_tx e) ++
       match event_frame env ev pid w with
       | Some f => if (pid ∈? targets) && can_send (chans w) (write_tx e) then [OFrame f] else []
       | None => []
       end) /\
  (forall tx, (forall q e, q ∈ targets -> get q (registry w) = Some e -> write_tx e <> tx) ->
     chans w' !! tx = chans w !! tx).
Proof.
  intros w' targets. unfold w', deliver, exec. rewrite bind_run. unfold gets, eval, exec. simpl.
  fold targets. case_bool_decide as Hempty.
  - split_and!; [done| |done]. intros pid e Hown. rewrite Hempty.
    rewrite bool_decide_eq_false_2 by set_solver. by destruct (event_frame env ev pid w); rewrite app_nil_r.
  - rewrite bind_run. unfold event_frame. cbn -[mbind].
    set (wm := exec (kernel_message_id env) w).
    assert (wm = upd_msg_seq u64_succ w) as Hwm by done.
    change (eval (kernel_message_id env) w)
      with ("k-" +:+ show (unix_ms (clk env)) +:+ "-" +:+ show (MSG_SEQ w)).
    destruct (encode_envelope _) as [p|]; simpl.
    + destruct (deliver_loop p (set_iter targets) wm (set_iter_NoDup _)) as (Hn & Hq & Ho).
      rewrite Hwm in *. simpl in *. split_and!; [done| |].
      * intros pid e Hown. unfold exec in Hq. rewrite (Hq pid e Hown). do 2 f_equal.
        by rewrite (bool_decide_ext _ _ (elem_of_set_iter targets pid)).
      * intros tx Htx. apply Ho. intros q e Hin. by apply Htx, elem_of_set_iter.
    + rewrite Hwm. split_and!; [done| |done]. intros pid e _. by rewrite app_nil_r.
Qed.

(** Every field but the stores, the channels and the message counter. *)
Lemma publish_stores env ev w :
  let w' := exec (publish env ev) w in
  stores w' = match event_store (event_bus w) with
              | Some sid => alter (persist (db_ok env) (unix_secs (clk env)) ev) sid (stores w)
              | None => stores w
              end /\
  registry w' = registry w /\ event_bus w' = event_bus w /\
  ACTION_CORRELATION_SEQ w' = ACTION_CORRELATION_SEQ w /\ EVENT_PUBLISH_SEQ w' = EVENT_PUBLISH_SEQ w /\
  action_limiter w' = action_limiter w /\ error_counts w' = error_counts w /\ ipc_limiter w' = ipc_limiter w /\
  bridge_conns w' = bridge_conns w /\
  exists w1, registry w1 = registry w /\ event_bus w1 = event_bus w /\ chans w1 = chans w /\
             MSG_SEQ w1 = MSG_SEQ w /\ w' = exec (deliver env ev) w1.
Proof.
  intros w'.
  set (w1 := match event_store (event_bus w) with
             | Some sid => upd_stores (alter (persist (db_ok env) (unix_secs (clk env)) ev) sid) w
             | None => w
             end).
  assert (w' = exec (deliver env ev) w1) as ->.
  { unfold w', w1, publish, exec. rewrite bind_run. unfold gets, eval, exec. simpl.
    rewrite bind_run. by destruct (event_store (event_bus w)). }
  destruct (deliver_spec env ev w1) as ((->&->&->&->&->&->&->&->&->)&_).
  unfold w1. destruct (event_store (event_bus w)) as [sid|]; simpl; split_and!; try done;
    eexists; (split_and!; [..|reflexivity]); done.
Qed.

(** ** Properties *)

(** C36: in every reachable bus the two maps mirror each other, [subscribe] and
    [unsubscribe] change exactly the pairs they name, and after
    [unsubscribe_all] a plugin is subscribed to nothing while every other
    subscription is kept. *)
Theorem bus_maps_mirror b pid types q t :
  rtc bus_step bus_new b ->
  (subscribed b q t <-> listed b q t) /\
  (subscribed (subscribe pid types b) q t <-> subscribed b q t \/ (q = pid /\ t ∈ types)) /\
  (subscribed (unsubscribe pid types b) q t <-> subscribed b q t /\ ~ (q = pid /\ t ∈ types)) /\
  (subscribed (unsubscribe_all pid b) q t <-> subscribed b q t /\ q <> pid) /\
  by_plugin (unsubscribe_all pid b) !! pid = None.
Proof.
  intros Hb%bus_reachable_ok. split_and!.
  - apply Hb.
  - apply subscribe_spec.
  - apply unsubscribe_spec.
  - by apply unsubscribe_all_spec.
  - unfold unsubscribe_all. destruct (by_plugin b !! pid) eqn:E; [apply lookup_delete_eq|done].
Qed.

(** Publishing an event records it in the attached store and then gives
    every registered subscriber of its type or of [*] exactly one frame,
    addressed to it and carrying the stamped event, if its channel has room;
    a subscriber of both gets one, a full or closed channel loses only its
    own copy, and no other channel is touched. *)
Theorem publish_fanout env ev w :
  let w' := exec (publish env ev) w in
  let targets := delivery_targets (event_type ev) (event_bus w) in
  (forall sid st, event_store (event_bus w) = Some sid -> stores w !! sid = Some st ->
     stores w' !! sid = Some (persist (db_ok env) (unix_secs (clk env)) ev st)) /\
  registry w' = registry w /\ event_bus w' = event_bus w /\
  (forall pid e, owns (registry w) pid e ->
     queue_of (chans w') (write_tx e) = queue_of (chans w) (write_tx e) ++
       match event_frame env ev pid w with
       | Some f => if (pid ∈? targets) && can_send (chans w) (write_tx e) then [OFrame f] else []
       | None => []
       end) /\
  (forall tx, (forall q e, q ∈ targets -> get q (registry w) = Some e -> write_tx e <> tx) ->
     chans w' !! tx = chans w !! tx).
Proof.
  intros w' targets.
  destruct (publish_stores env ev w) as (Hst & Hr & Hb & _ & _ & _ & _ & _ & _ & w1 & E1 & E2 & E3 & E4 & E).
  fold w' in Hst, Hr, Hb, E. split_and!; [|done..| |].
  - intros sid st Hsid Hl. rewrite Hst, Hsid, lookup_alter, decide_True by done. by rewrite Hl.
  - intros pid e Hown. rewrite E. rewrite <- E1 in Hown.
    destruct (deliver_spec env ev w1) as (_ & Hq & _). rewrite (Hq pid e Hown).
    unfold event_frame. by rewrite E2, E3, E4.
  - intros tx Htx. rewrite E. destruct (deliver_spec env ev w1) as (_ & _ & Ho).
    rewrite E1, E2, E3 in Ho. by apply Ho.
Qed.

End Bus.

(** ** Runs of the bus *)

(** A limiter that always grants. *)
Definition open_governor : Governor := {|
  KeyedLimiter := fun _ => unit;
  limiter_keyed := fun _ _ => tt;
  check_key := fun _ _ _ l => (true, l);
  retain_recent := fun _ _ l => l;
|}.

(** An empty text for every value. *)
Definition toy_json : SerdeJson := {|
  json_to_string := fun _ => EmptyString;
  json_of_bytes := fun _ => None;
|}.

Module BusRuns.

#[local] Instance wire : WireCrate := toy_wire [].
#[local] Instance iter : HashIter := canonical_iter.
#[local] Instance gov : Governor := open_governor.

Definition bus : EventBus := subscribe "tts" ["system.x"; "*"] bus_new.

Definition reg : PluginRegistry :=
  (register (mkClock 0 0) "tts" 1 default_manifest 101 EmptyString EmptyString registry_new).2.

Definition w : World := mkWorld reg bus ∅ {[101 := mkChan 64 true []]} 7 0 0 None None ∅ [].

Definition env : Env := mkEnv (mkClock 5 1000) [] true FAbsent.
Definition ev : Event := mkEvent "e1" "system.x" [] 0.

Lemma bus_maps_mirror_witness :
  subscribed bus "tts" "*" /\ ~ subscribed (unsubscribe_all "tts" bus) "tts" "*".
Proof.
  split; [vm_compute; done|].
  destruct (bus_maps_mirror bus "tts" [] "tts" "*") as (_ & _ & _ & Hx & _);
    [apply rtc_once, bstep_subscribe|].
  rewrite Hx. by intros [_ ?].
Defined.

Definition tts : PluginEntry := mkEntry "tts" 1 default_manifest 101 0 Registered "local" "default".

Lemma tts_owns : owns (registry w) "tts" tts.
Proof.
  assert (by_plugin_id reg = {["tts" := tts]}) as Hreg by (vm_compute; reflexivity).
  split; [by vm_compute|]. intros q e'. unfold get. simpl. rewrite Hreg.
  by rewrite lookup_singleton_Some; intros [<- _].
Qed.

(** One frame, though [tts] matches twice. *)
Lemma publish_fanout_witness :
  exists f, queue_of (chans (exec (publish env ev) w)) 101 = [OFrame f] /\ f_target f = target_bytes "tts".
Proof.
  destruct (publish_fanout env ev w) as (_ & _ & _ & Hq & _).
  specialize (Hq "tts" tts tts_owns). change (write_tx tts) with 101 in Hq. rewrite Hq.
  exists (build_frame "tts" 0 (7 :: string_bytes "k-1000-7")). split; vm_compute; reflexivity.
Defined.

End BusRuns.
