(* ===== verification/BusRace.v ===== *)
(** * The event bus under concurrency

    The two maps of [EventBus] ([events/bus.rs]) have no common lock: the
    router, the two disconnect loops and the loader call [subscribe],
    [unsubscribe] and [unsubscribe_all] from different tasks, and each call
    is a sequence of operations on one [DashMap] entry.  Here a call is a
    thread of such operations.  Alone it computes what [EventBus] computes;
    calls for different plugins commute, so that the bus is the one that the
    calls leave in the order they were made; two calls for one plugin that
    overlap can leave the maps disagreeing. *)

From S2P Require Import Prelude Wire Toy Channel Registry DeviceStore EventStore World EventBus.

Section Calls.
Context `{HashIter}.

(** ** Calls *)

Inductive BusOp :=
| OpSubscribe (pid : string) (types : list string)
| OpUnsubscribe (pid : string) (types : list string)
| OpUnsubscribeAll (pid : string).

Definition op_plugin (op : BusOp) : string :=
  match op with OpSubscribe pid _ | OpUnsubscribe pid _ | OpUnsubscribeAll pid => pid end.

Definition run_op (op : BusOp) : EventBus -> EventBus :=
  match op with
  | OpSubscribe pid types => subscribe pid types
  | OpUnsubscribe pid types => unsubscribe pid types
  | OpUnsubscribeAll pid => unsubscribe_all pid
  end.

(** Where a call is; [todo] are the types the loop has still to visit. *)
Inductive BusPc :=
| BSub (pid : string) (todo types : list string)      (** [subscriptions.entry], then [by_plugin.entry] *)
| BUnsub (pid : string) (todo types : list string)    (** [subscriptions.get_mut], then [by_plugin.get_mut] *)
| BUnsubAll (pid : string)                            (** [by_plugin.remove] *)
| BDrop (pid : string) (todo : list string)           (** [subscriptions.get_mut] *)
| BEnd.

Definition start_op (op : BusOp) : BusPc :=
  match op with
  | OpSubscribe pid types => BSub pid types types
  | OpUnsubscribe pid types => BUnsub pid types types
  | OpUnsubscribeAll pid => BUnsubAll pid
  end.

(** One map operation. *)
Definition bstep (pc : BusPc) (b : EventBus) : BusPc * EventBus :=
  match pc with
  | BSub pid (t :: todo) types =>
      (BSub pid todo types,
       mkBus (upsert_set (fun s => {[pid]} ∪ s) t (subscriptions b)) (by_plugin b) (bus_store b))
  | BSub pid [] types =>
      (BEnd, mkBus (subscriptions b) (upsert_set (fun s => list_to_set types ∪ s) pid (by_plugin b)) (bus_store b))
  | BUnsub pid (t :: todo) types =>
      (BUnsub pid todo types,
       mkBus (alter (fun s => s ∖ {[pid]}) t (subscriptions b)) (by_plugin b) (bus_store b))
  | BUnsub pid [] types =>
      (BEnd, mkBus (subscriptions b)
               (alter (fun s => foldl (fun s t => s ∖ {[t]}) s types) pid (by_plugin b)) (bus_store b))
  | BUnsubAll pid =>
      match by_plugin b !! pid with
      | None => (BEnd, b)
      | Some types => (BDrop pid (set_iter types), mkBus (subscriptions b) (delete pid (by_plugin b)) (bus_store b))
      end
  | BDrop pid (t :: todo) =>
      (BDrop pid todo, mkBus (alter (fun s => s ∖ {[pid]}) t (subscriptions b)) (by_plugin b) (bus_store b))
  | BDrop _ [] | BEnd => (BEnd, b)
  end.

(** A call that nothing interrupts. *)
Fixpoint brun (n : nat) (pc : BusPc) (b : EventBus) : BusPc * EventBus :=
  match n with
  | O => (pc, b)
  | S n => let '(pc, b) := bstep pc b in brun n pc b
  end.

(** ** Interleavings *)

(** The calls that have been made are logged in their order. *)
Record BusRace := mkBusRace {
  br_bus : EventBus;
  br_threads : list BusPc;
  br_log : list BusOp;
}.

Definition bpc_plugin (pc : BusPc) : option string :=
  match pc with
  | BSub pid _ _ | BUnsub pid _ _ | BUnsubAll pid | BDrop pid _ => Some pid
  | BEnd => None
  end.

(** No call for the plugin is under way. *)
Definition idle (pid : string) (ts : list BusPc) : bool :=
  forallb (fun pc => bpc_plugin pc <>? Some pid) ts.

(** A call may start at any time when none for its plugin is under way, and
    any call may perform its next operation. *)
Inductive bus_race_step (s : BusRace) : BusRace -> Prop :=
| br_call op :
    idle (op_plugin op) (br_threads s) = true ->
    bus_race_step s (mkBusRace (br_bus s) (br_threads s ++ [start_op op]) (br_log s ++ [op]))
| br_run i pc :
    br_threads s !! i = Some pc ->
    bus_race_step s (mkBusRace (bstep pc (br_bus s)).2 (<[i := (bstep pc (br_bus s)).1]> (br_threads s)) (br_log s)).

Definition bus_race_new : BusRace := mkBusRace bus_new [] [].

(** The calls of the log, one after the other. *)
Definition replay (log : list BusOp) : EventBus := foldl (fun b op => run_op op b) bus_new log.

(** Any order, overlapping calls included. *)
Fixpoint bus_schedule (order : list nat) (ts : list BusPc) (b : EventBus) : list BusPc * EventBus :=
  match order with
  | [] => (ts, b)
  | i :: order =>
      match ts !! i with
      | Some pc => let '(pc, b) := bstep pc b in bus_schedule order (<[i := pc]> ts) b
      | None => bus_schedule order ts b
      end
  end.

(** ** A call alone *)

Lemma brun_S n pc b : brun (S n) pc b = brun n (bstep pc b).1 (bstep pc b).2.
Proof. cbn. by destruct (bstep pc b). Qed.

Lemma brun_drop pid todo b :
  brun (S (length todo)) (BDrop pid todo) b =
  (BEnd, mkBus (drop_from_types pid todo (subscriptions b)) (by_plugin b) (bus_store b)).
Proof.
  revert b. induction todo as [|t todo IH]; intros b; [by destruct b|].
  rewrite brun_S. etrans; [apply IH|done].
Qed.

Lemma brun_sub pid todo types b :
  brun (S (length todo)) (BSub pid todo types) b =
  (BEnd, mkBus (foldl (fun m t => upsert_set (fun s => {[pid]} ∪ s) t m) (subscriptions b) todo)
           (upsert_set (fun s => list_to_set types ∪ s) pid (by_plugin b)) (bus_store b)).
Proof.
  revert b. induction todo as [|t todo IH]; intros b; [done|].
  rewrite brun_S. etrans; [apply IH|done].
Qed.

Lemma brun_unsub pid todo types b :
  brun (S (length todo)) (BUnsub pid todo types) b =
  (BEnd, mkBus (drop_from_types pid todo (subscriptions b))
           (alter (fun s => foldl (fun s t => s ∖ {[t]}) s types) pid (by_plugin b)) (bus_store b)).
Proof.
  revert b. induction todo as [|t todo IH]; intros b; [done|].
  rewrite brun_S. etrans; [apply IH|done].
Qed.

(** A call that nothing interrupts comes to its end and leaves the bus of
    [EventBus.subscribe], [unsubscribe] or [unsubscribe_all]. *)
Theorem call_alone op b : exists n, brun n (start_op op) b = (BEnd, run_op op b).
Proof.
  destruct op as [pid types|pid types|pid]; cbn [start_op run_op].
  - eexists. apply brun_sub.
  - eexists. apply brun_unsub.
  - unfold unsubscribe_all. destruct (by_plugin b !! pid) as [types|] eqn:Hp.
    + exists (S (S (length (set_iter types)))). rewrite brun_S. cbn [bstep]. rewrite Hp. etrans; [apply brun_drop|done].
    + exists 1%nat. cbn. by rewrite Hp.
Qed.

(** ** The invariant *)

(** What an operation changes: only what its plugin is subscribed to. *)
Lemma bstep_others pc b q t :
  bpc_plugin pc <> Some q ->
  (subscribed (bstep pc b).2 q t <-> subscribed b q t) /\ (listed (bstep pc b).2 q t <-> listed b q t).
Proof.
  intros Hq.
  assert (Hup : forall p x m, p <> q -> q ∈ default ∅ (upsert_set (fun s => {[p]} ∪ s) x m !! t) <-> q ∈ default ∅ (m !! t)).
  { intros p x m Hp. rewrite upsert_set_lookup. case_decide; subst; set_solver. }
  assert (Hal : forall p x (m : gmap string (gset string)), p <> q -> q ∈ default ∅ (alter (fun s : gset string => s ∖ {[p]}) x m !! t) <-> q ∈ default ∅ (m !! t)).
  { intros p x m Hp. rewrite lookup_alter. case_decide; subst; [destruct (m !! t)|]; set_solver. }
  destruct pc as [pid [|x todo] types|pid [|x todo] types|pid|pid [|x todo]|]; cbn in Hq |- *; try done;
    try (assert (pid <> q) as Hne by congruence).
  - split; [done|]. unfold listed. cbn. by rewrite upsert_set_lookup, decide_False.
  - split; [by apply Hup|done].
  - split; [done|]. unfold listed. cbn. by rewrite lookup_alter_ne.
  - split; [by apply Hal|done].
  - destruct (by_plugin b !! pid); cbn; [|done]. split; [done|]. unfold listed. cbn. by rewrite lookup_delete_ne.
  - split; [by apply Hal|done].
Qed.

(** How far the call [pc] has brought its plugin from the state before it to
    the state [rb] after it. *)
Definition progress (b rb : EventBus) (q : string) (pc : BusPc) : Prop :=
  match pc with
  | BSub _ todo types =>
      exists done, types = done ++ todo /\ forall t,
        (subscribed b q t <-> listed b q t \/ t ∈ done) /\ (listed rb q t <-> listed b q t \/ t ∈ types)
  | BUnsub _ todo types =>
      exists done, types = done ++ todo /\ forall t,
        (subscribed b q t <-> listed b q t /\ t ∉ done) /\ (listed rb q t <-> listed b q t /\ t ∉ types)
  | BUnsubAll _ => forall t, (subscribed b q t <-> listed b q t) /\ ~ listed rb q t
  | BDrop _ todo => forall t, (subscribed b q t -> t ∈ todo) /\ ~ listed b q t /\ ~ listed rb q t
  | BEnd => forall t, (subscribed b q t <-> listed b q t) /\ (listed b q t <-> listed rb q t)
  end.

Lemma bstep_progress b rb q pc :
  bpc_plugin pc = Some q -> progress b rb q pc -> progress (bstep pc b).2 rb q (bstep pc b).1.
Proof.
  intros Hq. destruct pc as [pid [|x todo] types|pid [|x todo] types|pid|pid [|x todo]|]; cbn in Hq; simplify_eq; cbn.
  - intros (pre & -> & Hpre) t. rewrite app_nil_r in *. destruct (Hpre t) as [Hs Hl].
    unfold subscribed, listed in *. cbn. rewrite upsert_set_lookup, decide_True by done.
    rewrite elem_of_union, elem_of_list_to_set. tauto.
  - intros (pre & -> & Hpre). exists (pre ++ [x]). split; [by rewrite <- app_assoc|]. intros t.
    destruct (Hpre t) as [Hs Hl]. split; [|done]. unfold subscribed, listed in *. cbn. rewrite upsert_set_lookup.
    case_decide; subst; set_solver.
  - intros (pre & -> & Hpre) t. rewrite app_nil_r in *. destruct (Hpre t) as [Hs Hl].
    unfold subscribed, listed in *. cbn. rewrite lookup_alter, decide_True by done.
    destruct (by_plugin b !! q) as [s|]; cbn in *; [rewrite foldl_difference; tauto|set_solver].
  - intros (pre & -> & Hpre). exists (pre ++ [x]). split; [by rewrite <- app_assoc|]. intros t.
    destruct (Hpre t) as [Hs Hl]. split; [|done]. unfold subscribed, listed in *. cbn. rewrite lookup_alter.
    case_decide; subst; [|set_solver]. destruct (subscriptions b !! t); set_solver.
  - intros Hpre. destruct (by_plugin b !! q) as [types|] eqn:Hp; cbn; intros t; destruct (Hpre t) as [Hs Hl];
      unfold subscribed, listed in *; cbn; rewrite Hp in Hs; cbn in Hs.
    + rewrite lookup_delete_eq, elem_of_set_iter. cbn. set_solver.
    + rewrite Hp. cbn. set_solver.
  - intros Hpre t. destruct (Hpre t) as (Hs & Hb & Hl). set_solver.
  - intros Hpre t. destruct (Hpre t) as (Hs & Hb & Hl). split; [|done]. unfold subscribed in *. cbn.
    rewrite lookup_alter. case_decide; subst; [|set_solver]. destruct (subscriptions b !! t); set_solver.
Qed.

(** Every plugin has at most one call under way and is as far as it. *)
Record bus_race_ok (s : BusRace) : Prop := mkBusRaceOk {
  one_call : forall i j pi pj q, br_threads s !! i = Some pi -> br_threads s !! j = Some pj ->
    bpc_plugin pi = Some q -> bpc_plugin pj = Some q -> i = j;
  at_work : forall i pc q, br_threads s !! i = Some pc -> bpc_plugin pc = Some q ->
    progress (br_bus s) (replay (br_log s)) q pc;
  at_rest : forall q, idle q (br_threads s) = true -> progress (br_bus s) (replay (br_log s)) q BEnd;
}.

Lemma idle_spec q ts : idle q ts = true <-> forall i pc, ts !! i = Some pc -> bpc_plugin pc <> Some q.
Proof.
  unfold idle. rewrite forallb_forall. split.
  - intros Hall i pc Hi. specialize (Hall pc). rewrite negb_true_iff, bool_decide_eq_false in Hall.
    apply Hall, list_elem_of_In. by eapply list_elem_of_lookup_2.
  - intros Hall pc [i Hi]%list_elem_of_In%list_elem_of_lookup_1. rewrite negb_true_iff, bool_decide_eq_false. eauto.
Qed.

(** The replayed bus is reachable, so its maps mirror each other. *)
Lemma replay_ok log : bus_ok (replay log).
Proof.
  apply bus_reachable_ok. induction log as [|op log IH] using rev_ind; [constructor|].
  unfold replay. rewrite foldl_app. cbn. eapply rtc_r; [exact IH|]. destruct op; cbn; constructor.
Qed.

Lemma replay_snoc log op : replay (log ++ [op]) = run_op op (replay log).
Proof. unfold replay. by rewrite foldl_app. Qed.

Lemma run_op_listed op b q t :
  bus_ok b ->
  (q <> op_plugin op -> listed (run_op op b) q t <-> listed b q t) /\
  (q = op_plugin op -> listed (run_op op b) q t <->
     match op with
     | OpSubscribe _ types => listed b q t \/ t ∈ types
     | OpUnsubscribe _ types => listed b q t /\ t ∉ types
     | OpUnsubscribeAll _ => False
     end).
Proof.
  intros Hb. destruct op as [pid types|pid types|pid]; cbn.
  - destruct (subscribe_spec b pid types q t) as [_ ->]. naive_solver.
  - destruct (unsubscribe_spec b pid types q t) as [_ ->]. naive_solver.
  - destruct (unsubscribe_all_spec b pid q t Hb) as [_ ->]. naive_solver.
Qed.

(** A plugin the state of which neither bus has changed is as far as before. *)
Lemma progress_ext b b' rb rb' q pc :
  (forall t, (subscribed b' q t <-> subscribed b q t) /\ (listed b' q t <-> listed b q t)) ->
  (forall t, listed rb' q t <-> listed rb q t) -> progress b rb q pc -> progress b' rb' q pc.
Proof.
  intros Hb Hrb. destruct pc as [pid todo types|pid todo types|pid|pid todo|]; cbn.
  1, 2: intros (pre & Ht & Hpre); exists pre; split; [done|]; intros t; destruct (Hb t) as [-> ->]; rewrite Hrb; apply Hpre.
  all: intros Hpre t; destruct (Hb t) as [-> ->]; rewrite ?Hrb; apply Hpre.
Qed.

Lemma call_ok s op :
  bus_race_ok s -> idle (op_plugin op) (br_threads s) = true ->
  bus_race_ok (mkBusRace (br_bus s) (br_threads s ++ [start_op op]) (br_log s ++ [op])).
Proof.
  intros [Hone Hwork Hrest] Hidle. pose proof (proj1 (idle_spec _ _) Hidle) as Hnone.
  assert (Hst : bpc_plugin (start_op op) = Some (op_plugin op)) by by destruct op.
  pose proof (replay_ok (br_log s)) as Hrb.
  split; cbn [br_bus br_threads br_log].
  - intros i j pi pj q [[_ Hi]|[-> <-]]%lookup_snoc_Some [[_ Hj]|[-> <-]]%lookup_snoc_Some Hpi Hpj; [by eapply Hone| | |done].
    + rewrite Hst in Hpj. injection Hpj as <-. by destruct (Hnone _ _ Hi).
    + rewrite Hst in Hpi. injection Hpi as <-. by destruct (Hnone _ _ Hj).
  - intros i pc q [[_ Hi]|[_ <-]]%lookup_snoc_Some Hq; rewrite replay_snoc.
    + eapply progress_ext; [done| |by eapply Hwork]. intros t. apply run_op_listed; [done|].
      intros ->. naive_solver.
    + rewrite Hst in Hq. injection Hq as <-. pose proof (Hrest _ Hidle) as Hr. cbn in Hr.
      assert (Hl := fun t => proj2 (run_op_listed op _ (op_plugin op) t Hrb) eq_refl).
      destruct op as [pid types|pid types|pid]; cbn [start_op progress run_op op_plugin] in *.
      1, 2: exists []; split; [done|]; intros t; rewrite Hl; destruct (Hr t) as [-> ->]; set_solver.
      intros t. rewrite Hl. destruct (Hr t) as [-> ->]. naive_solver.
  - intros q Hq. rewrite replay_snoc. unfold idle in Hq. rewrite forallb_app in Hq.
    apply andb_prop in Hq as [Hq Hne]. cbn in Hne. rewrite andb_true_r, negb_true_iff, bool_decide_eq_false, Hst in Hne.
    eapply progress_ext; [done| |by apply Hrest]. intros t. apply run_op_listed; [done|]. congruence.
Qed.

Lemma run_ok s i pc :
  bus_race_ok s -> br_threads s !! i = Some pc ->
  bus_race_ok (mkBusRace (bstep pc (br_bus s)).2 (<[i := (bstep pc (br_bus s)).1]> (br_threads s)) (br_log s)).
Proof.
  intros [Hone Hwork Hrest] Hi. pose proof (lookup_lt_Some _ _ _ Hi) as Hlt.
  set (pc' := (bstep pc (br_bus s)).1).
  assert (Hkeep : bpc_plugin pc' = bpc_plugin pc \/ pc' = BEnd).
  { unfold pc'. destruct pc as [? [|] ?|? [|] ?| |? [|]|]; cbn; try (by left); try (by right). destruct (by_plugin _ !! _); auto. }
  assert (Hback : forall j pj, <[i := pc']> (br_threads s) !! j = Some pj ->
    exists pj0, br_threads s !! j = Some pj0 /\ (bpc_plugin pj = bpc_plugin pj0 \/ pj = BEnd)).
  { intros j pj [[-> [<- _]]|[_ Hj]]%list_lookup_insert_Some; eauto. }
  split; cbn [br_bus br_threads br_log].
  - intros j k pj pk q Hj Hk Hpj Hpk. destruct (Hback _ _ Hj) as (pj0 & Hj0 & [Ej| ->]); [|done].
    destruct (Hback _ _ Hk) as (pk0 & Hk0 & [Ek| ->]); [|done]. apply (Hone j k pj0 pk0 q); congruence.
  - intros j pj q [[-> [<- _]]|[Hji Hj]]%list_lookup_insert_Some Hq.
    + destruct Hkeep as [E|E]; rewrite E in Hq; [|done]. apply bstep_progress; [done|]. by eapply Hwork.
    + eapply progress_ext; [intros t; apply bstep_others|done|by eapply Hwork].
      intros Hc. destruct Hji. by eapply Hone.
  - intros q Hq. rewrite idle_spec in Hq. destruct (decide (bpc_plugin pc = Some q)) as [E|E].
    + pose proof (Hwork _ _ _ Hi E) as Hp. apply bstep_progress in Hp; [|done]. fold pc' in Hp.
      destruct Hkeep as [Ek|Ek]; [|by rewrite Ek in Hp].
      destruct (Hq i pc'); [by rewrite list_lookup_insert_eq|congruence].
    + eapply progress_ext; [intros t; by apply bstep_others|done|]. apply Hrest, idle_spec.
      intros j pj Hj. destruct (decide (i = j)) as [->|Hne]; [congruence|].
      apply (Hq j). by rewrite list_lookup_insert_ne.
Qed.

Lemma bus_race_reachable s : rtc bus_race_step bus_race_new s -> bus_race_ok s.
Proof.
  revert s. apply rtc_ind_r.
  - split; cbn; [done..|]. intros q _ t. unfold subscribed, listed. cbn. by rewrite !lookup_empty.
  - intros s s' _ Hs Hok. destruct Hs; [by apply call_ok|by apply run_ok].
Qed.

(** ** Properties *)

(** Two buses that no subscriber can tell apart. *)
Definition bus_equiv (b b' : EventBus) : Prop :=
  forall q t, (subscribed b q t <-> subscribed b' q t) /\ (listed b q t <-> listed b' q t).

#[local] Instance bus_equiv_equivalence : Equivalence bus_equiv.
Proof. split; unfold bus_equiv; repeat intro; naive_solver. Qed.

#[local] Instance delivery_targets_proper t : Proper (bus_equiv ==> eq) (delivery_targets t).
Proof.
  intros b b' Hb. apply set_eq. intros q. unfold delivery_targets. rewrite !elem_of_union.
  destruct (Hb q t) as [Ht _], (Hb q "*") as [Hw _]. unfold subscribed in *. by rewrite Ht, Hw.
Qed.

(** C10: calls for different plugins may be interleaved in any way: at every
    moment a plugin with no call under way is subscribed to exactly what the
    calls so far, made one after the other in the order they began, leave it
    subscribed to, and once all have returned the whole bus is the
    sequential one: its maps mirror each other and every event has the same
    targets. *)
Theorem bus_linearizable s :
  rtc bus_race_step bus_race_new s ->
  (forall q t, idle q (br_threads s) = true ->
     (subscribed (br_bus s) q t <-> subscribed (replay (br_log s)) q t) /\
     (subscribed (br_bus s) q t <-> listed (br_bus s) q t)) /\
  (Forall (fun pc => pc = BEnd) (br_threads s) ->
     bus_equiv (br_bus s) (replay (br_log s)) /\
     forall t, delivery_targets t (br_bus s) = delivery_targets t (replay (br_log s))).
Proof.
  intros [_ _ Hrest]%bus_race_reachable. pose proof (replay_ok (br_log s)) as Hrb.
  assert (Hq : forall q t, idle q (br_threads s) = true ->
    (subscribed (br_bus s) q t <-> subscribed (replay (br_log s)) q t) /\
    (subscribed (br_bus s) q t <-> listed (br_bus s) q t)).
  { intros q t Hq. destruct (Hrest q Hq t) as [-> ->]. by rewrite (Hrb q t). }
  split; [done|]. intros Hend.
  assert (Heq : bus_equiv (br_bus s) (replay (br_log s))).
  { intros q t. assert (idle q (br_threads s) = true) as Hi.
    { apply idle_spec. intros i pc Hi. by rewrite (Forall_lookup_1 _ _ _ _ Hend Hi). }
    split; [by apply Hq|]. destruct (Hq q t Hi) as [Hs Hl]. rewrite <- Hl, Hs. apply Hrb. }
  split; [done|]. intros t. by rewrite Heq.
Qed.

End Calls.

(** ** Runs *)

Module BusRaceRuns.

#[local] Instance iter : HashIter := canonical_iter.

Definition call (op : BusOp) (s : BusRace) : BusRace :=
  mkBusRace (br_bus s) (br_threads s ++ [start_op op]) (br_log s ++ [op]).

(** Two plugins subscribe at once. *)
Definition s1 : BusRace := call (OpSubscribe "mic" ["say"]) (call (OpSubscribe "tts" ["say"]) bus_race_new).

(** [mic] first, then [tts], then [mic], then [tts]. *)
Definition turn (i : nat) (s : BusRace) : BusRace :=
  match br_threads s !! i with
  | Some pc => mkBusRace (bstep pc (br_bus s)).2 (<[i := (bstep pc (br_bus s)).1]> (br_threads s)) (br_log s)
  | None => s
  end.

Lemma turn_step i s : is_Some (br_threads s !! i) -> bus_race_step s (turn i s).
Proof. intros [pc Hi]. unfold turn. rewrite Hi. by apply br_run. Defined.

Definition s2 : BusRace := turn 0 (turn 1 (turn 0 (turn 1 s1))).

Lemma bus_linearizable_witness :
  delivery_targets "say" (br_bus s2) = {["tts"; "mic"]} /\ bus_equiv (br_bus s2) (replay (br_log s2)).
Proof.
  destruct (bus_linearizable s2) as [_ Hend].
  { do 4 (eapply rtc_r; [|apply turn_step; vm_compute; by eexists]).
    do 2 (eapply rtc_r; [|apply br_call; reflexivity]). reflexivity. }
  destruct Hend as [Heq Ht]; [vm_compute; repeat constructor|].
  split; [|exact Heq]. rewrite Ht. vm_compute. reflexivity.
Defined.

(** The bus after the plugin [tts] subscribed to [say]. *)
Definition said : EventBus := subscribe "tts" ["say"] bus_new.

(** The disconnect loop drops the subscriptions of a plugin while the router
    serves its last request: both calls return, the plugin is listed under
    [say], and no event of that type reaches it. *)
Theorem overlap_breaks_mirror :
  let '(ts, b) := bus_schedule [0; 1; 1; 0; 0]%nat
                    [start_op (OpUnsubscribeAll "tts"); start_op (OpSubscribe "tts" ["say"])] said in
  ts = [BEnd; BEnd] /\ listed b "tts" "say" /\ delivery_targets "say" b = ∅.
Proof. vm_compute. split_and!; [reflexivity| |reflexivity]. done. Qed.

(** With the first operation of the request before the disconnect and the
    second after it, the plugin stays subscribed though it has gone. *)
Theorem overlap_leaks_subscription :
  let '(ts, b) := bus_schedule [1; 0; 1]%nat
                    [start_op (OpUnsubscribeAll "tts"); start_op (OpSubscribe "tts" ["say"])] bus_new in
  ts = [BEnd; BEnd] /\ delivery_targets "say" b = {["tts"]}.
Proof. vm_compute. by split. Qed.

End BusRaceRuns.
