(* ===== verification/Commands.v ===== *)
(** * Kernel commands ([src/kernel/commands.rs])

    The read-only discovery commands and [reload_config].  What reading the
    configuration file and setting the log filter yield is an argument. *)

From S2P Require Import Prelude Wire Channel Registry EventStore World EventBus.

Open Scope Z_scope.

Record CommandOutcome := mkOutcome {
  out_status : CommandStatus;
  out_data_json : bytes;
  out_error : string;
}.

Definition outcome_ok (data : string) : CommandOutcome := mkOutcome CommandOk (string_bytes data) EmptyString.
Definition outcome_err (s : CommandStatus) (e : string) : CommandOutcome := mkOutcome s [] e.
Definition permission_denied (e : string) : CommandOutcome := outcome_err CommandPermissionDenied e.

(** [load_config(path)] as its log level and port, and [set_log_level]. *)
Record ConfigIo := mkConfigIo {
  load_config : string -> Result string (string * Z);
  set_log_level : string -> bool;
}.

Definition dq : string := String (ascii_of_nat 34) EmptyString.
Definition quoted (s : string) : string := dq +:+ s +:+ dq.

(** [v.get(key).and_then(|p| p.as_str())] *)
Definition json_get_str (key : string) (v : Json) : option string :=
  match v with
  | JObj fields =>
      match list_find (fun kv => kv.1 = key) fields with
      | Some (_, (_, JStr s)) => Some s
      | _ => None
      end
  | _ => None
  end.

(** [start_time.elapsed().as_secs()] *)
Definition elapsed_secs (start now : Z) : Z := duration_since now start / 1000000000.

Section Commands.
Context `{HashIter} `{WireCrate} `{SerdeJson}.

Definition device_json (d : DeviceInfo) : Json :=
  JObj [("device_id", JStr (dev_device_id d)); ("os", JStr (device_os_str (dev_os d)));
        ("arch", JStr (dev_arch d)); ("os_version", JStr (dev_os_version d));
        ("capabilities", JArr (map JStr (dev_capabilities d))); ("last_seen", JNum (dev_last_seen d));
        ("state", JStr (device_state_str (dev_state d)))].

Definition manifest_json (e : PluginEntry) : Json :=
  let m := manifest e in
  JObj [("plugin_id", JStr (plugin_id e)); ("device_id", JStr (device_id e));
        ("user_id", JStr (user_id e)); ("permissions", JArr (map JStr (permissions m)));
        ("actions", JArr (map JStr (actions m))); ("events", JArr (map JStr (events m)));
        ("ipc_targets", JArr (map JStr (ipc_targets m))); ("platforms", JArr (map JStr (platforms m)));
        ("action_specs", JArr (map action_spec_json (action_specs m)))].

Definition plugin_json (e : PluginEntry) : Json :=
  JObj [("plugin_id", JStr (plugin_id e)); ("state", JStr (plugin_state_str (state e)));
        ("actions", JArr (map JStr (actions (manifest e))))].

Definition dispatch (io : ConfigIo) (command : string) (r : PluginRegistry) (start now : Z)
    (config_path : option string) (params_json : bytes) : CommandOutcome :=
  if command ==? "health_check" then
    outcome_ok ("{" +:+ quoted "uptime_secs" +:+ ":" +:+ show (elapsed_secs start now) +:+ ","
                +:+ quoted "plugin_count" +:+ ":" +:+ show (Z.of_nat (length (list_entries r))) +:+ "}")
  else if command ==? "list_devices" then
    outcome_ok (json_to_string (JArr (map device_json (list_devices r))))
  else if command ==? "get_manifest" then
    let pid := default EmptyString (v ← json_of_bytes params_json; json_get_str "plugin_id" v) in
    match get pid r with
    | Some entry => outcome_ok (json_to_string (manifest_json entry))
    | None => outcome_err CommandError ("plugin not registered: " +:+ pid)
    end
  else if command ==? "list_plugins" then
    outcome_ok (json_to_string (JArr (map plugin_json (list_entries r))))
  else if command ==? "reload_config" then
    match config_path with
    | Some path =>
        match load_config io path with
        | Ok (log_level, port) =>
            let items := if set_log_level io log_level then "log_level" else EmptyString in
            outcome_ok ("{" +:+ quoted "reloaded" +:+ ":[" +:+ quoted items +:+ "],"
                        +:+ quoted "log_level" +:+ ":" +:+ quoted log_level +:+ ","
                        +:+ quoted "port" +:+ ":" +:+ show port +:+ "}")
        | Err e => outcome_err CommandError ("config reload failed: " +:+ e)
        end
    | None => outcome_err CommandError "no config path configured"
    end
  else outcome_err CommandUnknown ("unknown command: " +:+ command).

End Commands.
