(* ===== verification/Router.v ===== *)
(** * The message router ([src/ipc/protocol/router.rs])

    [MessageRouter::run_with_context]: one task owns the router, takes one
    message or one tick of the prune timer at a time and handles it to the
    end.  [router_step] is one turn of its loop; each arm of
    [handle_kernel_message] is a definition of its own.  A handler returns
    whether the message counts against the connection's error budget. *)

From S2P Require Import Prelude Wire Text Channel Registry Permissions Jwt DeviceStore EventStore World EventBus Commands.

Open Scope Z_scope.

Record IncomingMessage := mkIncoming {
  m_conn_id : Z;
  m_frame : Frame;
  m_write_tx : ChanId;
  m_session_key : CellId;
}.

(** The parameters of [run_with_context]. *)
Record Ctx := mkCtx {
  jwt_validator : option JwtValidator;
  start_time : Z;
  config_path : option string;
  ctx_event_store : option Z;
  mac_secret : option bytes;
  config_permissions : option (gmap string (list string));
  action_caller_max_concurrent : option Z;
  action_timeout_ms : Z;
  max_conn_errors : Z;
  max_tracked_error_conns : nat;
  session_idle_timeout_secs : option Z;
  device_store : option bytes;
  has_bridge : bool;
  config_io : ConfigIo;
}.

(** [Duration]s in nanoseconds. *)
Definition millis (ms : Z) : Z := ms * 1000000.
Definition secs (s : Z) : Z := s * 1000000000.
Definition ERROR_BUDGET_IDLE_TTL : Z := secs 300.

Definition READONLY_COMMANDS : list string := ["health_check"; "list_plugins"; "get_manifest"].

Section Router.
Context `{HashIter} `{WireCrate} `{Governor} `{SerdeJson} `{JwtCrate} `{StoreCrates}.

(** [registry.get_by_conn_id(conn).map(|e| e.plugin_id).unwrap_or_default()] *)
Definition sender_id_of (cid : Z) (r : PluginRegistry) : string :=
  match get_by_conn_id cid r with Some e => plugin_id e | None => EmptyString end.

(** ** Registration *)

(** D-03: the major version must match, when the plugin states one. *)
Definition check_protocol (reg : PluginRegister) : option string :=
  let wire_major := split_first "." PROTOCOL_VERSION in
  let plugin_major := split_first "." (reg_protocol_version reg) in
  if negb (is_empty (reg_protocol_version reg)) && (plugin_major <>? wire_major)
  then Some ("protocol version " +:+ reg_protocol_version reg +:+ " incompatible with kernel "
             +:+ PROTOCOL_VERSION)
  else None.

Definition with_claims (claims : PluginClaims) (mf : PluginManifest) : PluginManifest :=
  mkManifest (claim_permissions claims) (actions mf) (events mf) (claim_ipc_targets claims)
    (platforms mf) (action_specs mf).

(** The token check; an [Err] is the reason of the rejection. *)
Definition check_jwt (ctx : Ctx) (env : Env) (reg : PluginRegister) (mf : PluginManifest)
    : Result string PluginManifest :=
  match jwt_validator ctx with
  | None => Ok mf
  | Some jv =>
      match validate jv (unix_secs (clk env)) (reg_jwt_token reg) with
      | Ok claims =>
          let device_match := negb (is_empty (reg_device_id reg)) && (sub claims ==? reg_device_id reg) in
          if (sub claims <>? reg_plugin_id reg) && negb device_match
          then Err "token plugin_id mismatch"
          else Ok (with_claims claims mf)
      | Err _ => Err "authentication failed"
      end
  end.

(** E-01: the credential of a device-scoped registration. *)
Definition check_device (ctx : Ctx) (env : Env) (reg : PluginRegister) : Result string (option bytes) :=
  if negb (is_empty (reg_device_id reg)) && is_some (mac_secret ctx) then
    match device_store ctx with
    | None => Ok None
    | Some key =>
        match active_secret key (unix_secs (clk env)) (reg_device_id reg) (device_file env) with
        | Returns (Ok (Some secret)) => Ok (Some (string_bytes secret))
        | Returns (Ok None) => Err "unknown device — pair it first"
        | Returns (Err e) => Err (error_display e)
        | Panics => Err "panicked"
        end
    end
  else Ok None.

(** T-04: the clamp to the operator's allowlist. *)
Definition clamp_permissions (ctx : Ctx) (pid : string) (mf : PluginManifest) : PluginManifest :=
  match config_permissions ctx ≫= lookup pid with
  | Some allowed =>
      if bool_decide (allowed = []) then mf
      else
        let allowed_norm : gset string := list_to_set (map normalize_permission allowed) in
        mkManifest (filter (fun p => normalize_permission p ∈ allowed_norm) (permissions mf))
          (actions mf) (events mf) (ipc_targets mf) (platforms mf) (action_specs mf)
  | None => mf
  end.

Definition reg_meta (reg : PluginRegister) : DeviceMeta :=
  mkDeviceMeta (reg_device_id reg) (reg_user_id reg)
    (default OsUnspecified (device_os_of_i32 (reg_os reg))) (reg_arch reg) (reg_os_version reg)
    (reg_capabilities reg).

Definition is_mux_device (reg : PluginRegister) : bool :=
  negb (bool_decide (reg_capabilities reg = [])) && negb (is_empty (reg_device_id reg))
  && (reg_plugin_id reg ==? reg_device_id reg).

Definition do_register (env : Env) (msg : IncomingMessage) (reg : PluginRegister) (mf : PluginManifest)
    : PluginRegistry -> Result VynkorError unit * PluginRegistry :=
  if is_mux_device reg
  then register_device (clk env) (reg_device_id reg) (m_conn_id msg) (reg_capabilities reg) mf
         (m_write_tx msg) (reg_meta reg)
  else register_with_device (clk env) (reg_plugin_id reg) (m_conn_id msg) mf (m_write_tx msg)
         (reg_meta reg).

(** What follows the registry call: ack, MAC activation, joined event. *)
Definition finish_register (ctx : Ctx) (env : Env) (msg : IncomingMessage) (mid : string)
    (reg : PluginRegister) (device_secret : option bytes) (result : Result VynkorError unit) : K unit :=
  let pid := reg_plugin_id reg in
  let nonce := if is_some (mac_secret ctx) && is_ok result then fresh_nonce env else [] in
  r ← gets registry;
  let ack := match result with
             | Ok _ =>
                 let granted := match get pid r with Some e => permissions (manifest e) | None => [] end in
                 mkPluginRegisterAck true EmptyString granted nonce
             | Err e => mkPluginRegisterAck false (error_display e) [] []
             end in
  _ ← send_envelope env (m_write_tx msg) (env_reply mid (PPluginRegisterAck ack));
  _ ← (match mac_secret ctx, is_ok result with
       | Some secret, true =>
           let ikm := match device_secret with Some s => s | None => secret end in
           chan_send_await (m_write_tx msg) (OEnableMac (derive_session_key ikm nonce pid) (m_session_key msg))
       | _, _ => mret tt
       end);
  if is_ok result then
    r ← gets registry;
    publish env (mkEvent ("sys-joined-" +:+ pid +:+ "-" +:+ show (unix_ms (clk env)))
                   "system.plugin_joined" (plugin_lifecycle_payload r pid) 0)
  else mret tt.

Definition handle_register (ctx : Ctx) (env : Env) (msg : IncomingMessage) (mid : string)
    (reg : PluginRegister) : K bool :=
  let mf := default default_manifest (reg_manifest reg) in
  match check_protocol reg with
  | Some m => _ ← send_error env (m_write_tx msg) ErrProtocolMismatch m; mret true
  | None =>
      match check_jwt ctx env reg mf with
      | Err reason => _ ← send_register_reject env (m_write_tx msg) reason; mret true
      | Ok mf =>
          match check_device ctx env reg with
          | Err reason => _ ← send_register_reject env (m_write_tx msg) reason; mret true
          | Ok device_secret =>
              let mf := clamp_permissions ctx (reg_plugin_id reg) mf in
              result ← on_registry (do_register env msg reg mf);
              _ ← finish_register ctx env msg mid reg device_secret result;
              mret false
          end
      end
  end.

(** ** Liveness, subscriptions, events *)

Definition handle_ping (env : Env) (msg : IncomingMessage) (mid : string) (ts : Z) : K bool :=
  _ ← send_envelope env (m_write_tx msg) (env_reply mid (PPong ts (unix_ms (clk env))));
  mret false.

Definition handle_pong (env : Env) (msg : IncomingMessage) : K bool :=
  r ← gets registry;
  _ ← (match get_by_conn_id (m_conn_id msg) r with
       | Some entry => modify (upd_registry (record_pong (clk env) (plugin_id entry)))
       | None => mret tt
       end);
  mret false.

Definition handle_subscribe (msg : IncomingMessage) (types : list string) : K bool :=
  r ← gets registry;
  _ ← (match get_by_conn_id (m_conn_id msg) r with
       | Some entry => modify (upd_bus (subscribe (plugin_id entry) types))
       | None => mret tt
       end);
  mret false.

Definition handle_unsubscribe (msg : IncomingMessage) (types : list string) : K bool :=
  r ← gets registry;
  _ ← (match get_by_conn_id (m_conn_id msg) r with
       | Some entry => modify (upd_bus (unsubscribe (plugin_id entry) types))
       | None => mret tt
       end);
  mret false.

Definition handle_event_publish (env : Env) (msg : IncomingMessage) (mid : string) (req : EventPublishReq)
    : K bool :=
  r ← gets registry;
  let sid := sender_id_of (m_conn_id msg) r in
  res ← (if is_err (check_permission r sid PermissionEventPublish)
         then mret (EventPublishPermissionDeny, EmptyString)
         else
           seq ← fetch_event_seq;
           let eid := "evt-" +:+ sid +:+ "-" +:+ show (unix_ms (clk env)) +:+ "-" +:+ show seq in
           _ ← publish env (mkEvent eid ("plugin." +:+ sid +:+ "." +:+ pub_event_type req)
                              (pub_payload_json req) 0);
           mret (EventPublishOk, eid));
  _ ← send_envelope env (m_write_tx msg)
        (env_reply mid (PEventPublishAck (mkEventPublishAck res.2 (publish_status_i32 res.1) EmptyString)));
  mret false.

Definition handle_event_ack (ctx : Ctx) (env : Env) (eid : string) : K bool :=
  _ ← (match ctx_event_store ctx with
       | Some sid => modify (upd_stores (alter (mark_delivered (db_ok env) eid) sid))
       | None => mret tt
       end);
  mret false.

(** ** Actions *)

(** The permission guard of the [Found] arm. *)
Definition action_denied (r : PluginRegistry) (provider : PluginEntry) (sid action : string) : bool :=
  let required := match action_requirement (plugin_id provider) action r with
                  | Some p => Some p
                  | None => required_permission_for_action action
                  end in
  match required with
  | Some perm => is_err (check_permission r (plugin_id provider) perm) || is_err (check_permission r sid perm)
  | None => false
  end.

(** [action_limiter.is_some_and(|l| l.check_key(..).is_err())], negated. *)
Definition action_limiter_grants (env : Env) (key : string * string) : K bool :=
  fun w => match action_limiter w with
           | None => (true, w)
           | Some l => let '(b, l') := check_key (instant (clk env)) key l in
                       (b, upd_action_limiter (fun _ => Some l') w)
           end.

Definition route_action (ctx : Ctx) (env : Env) (msg : IncomingMessage) (mid sid : string)
    (req : ActionRequest) : K (option ActionStatus) :=
  r ← gets registry;
  match find_action_provider (areq_action req) r with
  | NotFound | Ambiguous _ => mret (Some ActionNotFound)
  | Found provider =>
      if action_denied r provider sid (areq_action req) then mret (Some ActionPermissionDeny)
      else if match action_caller_max_concurrent ctx with
              | Some cap => cap <=? count_pending_actions_for sid (plugin_id provider) r
              | None => false
              end
      then mret (Some ActionQuotaExceeded)
      else
        granted ← action_limiter_grants env (sid, plugin_id provider);
        if negb granted then mret (Some ActionQuotaExceeded)
        else
          seq ← fetch_action_seq;
          let internal_id := "kact-" +:+ show seq in
          let timeout := if areq_timeout_ms req =? 0 then action_timeout_ms ctx else areq_timeout_ms req in
          _ ← modify (upd_registry (register_pending_action internal_id
                (mkPending (m_write_tx msg) (areq_action_id req) sid
                   (instant (clk env) + millis timeout) (plugin_id provider) (areq_streaming req)
                   false (instant (clk env)))));
          _ ← send_envelope env (write_tx provider)
                (env_reply mid (PActionRequest (mkActionRequest internal_id (areq_action req)
                   (areq_params_json req) (areq_timeout_ms req) (areq_streaming req) sid)));
          mret None
  end.

Definition handle_action_request (ctx : Ctx) (env : Env) (msg : IncomingMessage) (mid : string)
    (req : ActionRequest) : K bool :=
  r ← gets registry;
  let sid := sender_id_of (m_conn_id msg) r in
  refused ← route_action ctx env msg mid sid req;
  _ ← (match refused with
       | Some st =>
           send_envelope env (m_write_tx msg)
             (env_reply mid (PActionResponse (mkActionResponse (areq_action_id req)
                (action_status_i32 st) [] (action_status_message st))))
       | None => mret tt
       end);
  mret false.

Definition handle_action_response (env : Env) (msg : IncomingMessage) (mid : string)
    (resp : ActionResponse) : K bool :=
  r ← gets registry;
  let status_ok := aresp_status resp ==? action_status_i32 ActionOk in
  taken ← (match get_by_conn_id (m_conn_id msg) r with
           | Some e => on_registry (resolve_action_response (instant (clk env)) (aresp_action_id resp)
                                      (plugin_id e) status_ok)
           | None => mret None
           end);
  _ ← (match taken with
       | Some pending =>
           send_envelope env (requester_write_tx pending)
             (env_reply mid (PActionResponse (mkActionResponse (original_action_id pending)
                (aresp_status resp) (aresp_data_json resp) (aresp_error resp))))
       | None => mret tt
       end);
  mret false.

(** [find_pending_internal_id] then [get_pending_action]. *)
Definition find_pending (sid orig : string) (r : PluginRegistry) : option (string * PendingAction) :=
  iid ← find_pending_internal_id sid orig r;
  (fun p => (iid, p)) <$> get_pending_action iid r.

Definition handle_request_chunk (env : Env) (msg : IncomingMessage) (mid : string)
    (chunk : ActionRequestChunk) : K bool :=
  r ← gets registry;
  _ ← (match find_pending (sender_id_of (m_conn_id msg) r) (rqc_action_id chunk) r with
       | Some (iid, pending) =>
           _ ← modify (upd_registry (touch_pending_action (instant (clk env)) iid));
           r ← gets registry;
           match get (provider_id pending) r with
           | Some provider =>
               sent ← try_send_envelope env (write_tx provider)
                        (env_reply mid (PActionRequestChunk (mkActionRequestChunk iid (rqc_seq chunk)
                           (rqc_chunk chunk) (rqc_final chunk))));
               if sent : bool then mret tt else abort_stream env iid "receiver backpressure"
           | None => abort_stream env iid "provider disconnected"
           end
       | None => mret tt
       end);
  mret false.

Definition handle_response_chunk (env : Env) (msg : IncomingMessage) (mid : string)
    (chunk : ActionResponseChunk) : K bool :=
  r ← gets registry;
  let found := e ← get_by_conn_id (m_conn_id msg) r;
               p ← get_pending_action (rsc_action_id chunk) r;
               if provider_id p ==? plugin_id e then Some p else None in
  _ ← (match found with
       | Some pending =>
           _ ← modify (upd_registry (touch_pending_action (instant (clk env)) (rsc_action_id chunk)));
           sent ← try_send_envelope env (requester_write_tx pending)
                    (env_reply mid (PActionResponseChunk (mkActionResponseChunk (original_action_id pending)
                       (rsc_seq chunk) (rsc_chunk chunk))));
           if sent : bool then mret tt else abort_stream env (rsc_action_id chunk) "receiver backpressure"
       | None => mret tt
       end);
  mret false.

(** The slot a [SessionClose] names, and whether it comes from the provider. *)
Definition resolve_close (sid action_id : string) (r : PluginRegistry)
    : option (string * PendingAction * bool) :=
  match (p ← get_pending_action action_id r; if provider_id p ==? sid then Some p else None) with
  | Some p => Some (action_id, p, true)
  | None => (fun ip => (ip.1, ip.2, false)) <$> find_pending sid action_id r
  end.

Definition handle_session_close (env : Env) (msg : IncomingMessage) (mid : string) (close : SessionClose)
    : K bool :=
  r ← gets registry;
  match get_by_conn_id (m_conn_id msg) r with
  | None => _ ← send_error env (m_write_tx msg) ErrNotRegistered "not registered"; mret true
  | Some entry =>
      match resolve_close (plugin_id entry) (close_action_id close) r with
      | None => _ ← send_error env (m_write_tx msg) ErrUnknown "no matching session"; mret true
      | Some (iid, pending, from_provider) =>
          if negb (session_accepted pending) then
            _ ← send_error env (m_write_tx msg) ErrUnknown "session not accepted, nothing to close";
            mret true
          else
            _ ← (if from_provider : bool then
                   _ ← try_send_envelope env (requester_write_tx pending)
                         (env_reply mid (PSessionClose (mkSessionClose (original_action_id pending)
                            (close_reason close))));
                   mret tt
                 else match get (provider_id pending) r with
                      | Some provider =>
                          _ ← try_send_envelope env (write_tx provider)
                                (env_reply mid (PSessionClose (mkSessionClose iid (close_reason close))));
                          mret tt
                      | None => mret tt
                      end);
            _ ← on_registry (take_pending_action iid);
            mret false
      end
  end.

(** ** Kernel commands *)

Definition handle_kernel_command (ctx : Ctx) (env : Env) (msg : IncomingMessage) (mid : string)
    (cmd : KernelCommand) : K bool :=
  r ← gets registry;
  let sid := sender_id_of (m_conn_id msg) r in
  let outcome :=
    if negb (cmd_command cmd ∈? READONLY_COMMANDS) && is_err (check_permission r sid PermissionKernelAdmin)
    then permission_denied (sid +:+ " lacks PERMISSION_KERNEL_ADMIN")
    else dispatch (config_io ctx) (cmd_command cmd) r (start_time ctx) (instant (clk env))
           (config_path ctx) (cmd_params_json cmd) in
  _ ← send_envelope env (m_write_tx msg)
        (env_reply mid (PKernelCommandAck (mkKernelCommandAck (cmd_command_id cmd)
           (command_status_i32 (out_status outcome)) (out_data_json outcome) (out_error outcome))));
  mret false.

(** ** Dispatch of kernel-addressed messages *)

Definition is_register (p : option Payload) : bool :=
  match p with Some (PPluginRegister _) => true | _ => false end.

Definition handle_payload (ctx : Ctx) (env : Env) (msg : IncomingMessage) (mid : string)
    (p : option Payload) : K bool :=
  match p with
  | Some (PPluginRegister reg) => handle_register ctx env msg mid reg
  | Some (PPing ts) => handle_ping env msg mid ts
  | Some (PPong _ _) => handle_pong env msg
  | Some (PSubscribe types) => handle_subscribe msg types
  | Some (PUnsubscribe types) => handle_unsubscribe msg types
  | Some (PEventPublish req) => handle_event_publish env msg mid req
  | Some (PActionRequest req) => handle_action_request ctx env msg mid req
  | Some (PActionResponse resp) => handle_action_response env msg mid resp
  | Some (PActionRequestChunk c) => handle_request_chunk env msg mid c
  | Some (PActionResponseChunk c) => handle_response_chunk env msg mid c
  | Some (PSessionClose c) => handle_session_close env msg mid c
  | Some (PKernelCommand cmd) => handle_kernel_command ctx env msg mid cmd
  | Some (PEventAck eid) => handle_event_ack ctx env eid
  | _ => _ ← send_error env (m_write_tx msg) ErrUnknown "unhandled message"; mret true
  end.

Definition handle_kernel_message (ctx : Ctx) (env : Env) (msg : IncomingMessage) : K bool :=
  match decode_envelope (f_payload (m_frame msg)) with
  | None => _ ← send_error env (m_write_tx msg) ErrDeserialization "decode failed"; mret true
  | Some e =>
      r ← gets registry;
      if negb (is_register (payload e)) && negb (is_registered (m_conn_id msg) r)
      then _ ← send_error env (m_write_tx msg) ErrNotRegistered "not registered"; mret true
      else handle_payload ctx env msg (message_id e) (payload e)
  end.

(** ** Peer-to-peer forwarding *)

(** [BridgeHandle::relay_to_host] ([src/bridge/mod.rs]). *)
Definition relay_to_host (frame : Frame) : K bool :=
  conns ← gets bridge_conns;
  match conns with
  | [] => mret false
  | tx :: _ => chan_try_send tx (out_frame (strip_mac frame))
  end.

(** The allowlist test of [forward]: the target itself, or the device of a
    resolved [device.capability] target. *)
Definition forward_allowed (sender : PluginEntry) (target : string) (resolved : option PluginEntry) : bool :=
  existsb (fun t => t ==? target) (ipc_targets (manifest sender)) ||
  (contains_char "." target && is_some resolved &&
   match split_once "." target with
   | Some (dev, _) => existsb (fun t => t ==? dev) (ipc_targets (manifest sender))
   | None => false
   end).

(** The pending slot a direct [device.capability] request opens. *)
Definition register_direct_pending (env : Env) (msg : IncomingMessage) (target sid : string)
    (entry : PluginEntry) : K unit :=
  match decode_envelope (f_payload (m_frame msg)) with
  | Some e =>
      match payload e with
      | Some (PActionRequest req) =>
          if is_empty (areq_action req) && contains_char "." target then
            modify (upd_registry (register_pending_action (areq_action_id req)
              (mkPending (m_write_tx msg) (areq_action_id req) sid (instant (clk env) + millis 30000)
                 (plugin_id entry) (areq_streaming req) false (instant (clk env)))))
          else mret tt
      | _ => mret tt
      end
  | None => mret tt
  end.

(** The audio gate (T-06) shared by [forward] and [broadcast]. *)
Definition audio_denied (r : PluginRegistry) (msg : IncomingMessage) (sid : string) : bool :=
  has_flag (f_flags (m_frame msg)) FLAG_RAW_BINARY && is_err (check_permission r sid PermissionAudioStream).

Definition forward (ctx : Ctx) (env : Env) (msg : IncomingMessage) (target : string) : K bool :=
  let deny m := (_ ← send_error env (m_write_tx msg) ErrPermissionDenied m; mret true) in
  r ← gets registry;
  match get_by_conn_id (m_conn_id msg) r with
  | None => _ ← send_error env (m_write_tx msg) ErrNotRegistered "not registered"; mret true
  | Some entry =>
      let sid := plugin_id entry in
      if is_err (check_ipc_send r sid) then deny "PERMISSION_IPC_SEND required"
      else match get sid r with
      | None => deny "sender not found"
      | Some sender =>
          let resolved := get_mux target r in
          if match resolved with Some t => user_id t <>? user_id sender | None => false end
          then deny "cross-user IPC denied"
          else if negb (forward_allowed sender target resolved)
          then deny "target not in ipc_targets allowlist"
          else if audio_denied r msg sid
          then deny "PERMISSION_AUDIO_STREAM required for FLAG_RAW_BINARY frames"
          else match resolved with
          | Some entry =>
              _ ← register_direct_pending env msg target sid entry;
              _ ← chan_try_send (write_tx entry) (out_frame (strip_mac (m_frame msg)));
              mret false
          | None =>
              relayed ← (if has_bridge ctx then relay_to_host (m_frame msg) else mret false);
              if relayed : bool then mret false
              else _ ← send_error env (m_write_tx msg) ErrUnknown "plugin not found"; mret true
          end
      end
  end.

(** One iteration of the fan-out loop. *)
Definition broadcast_to (r : PluginRegistry) (msg : IncomingMessage) (sid : string) (entry : PluginEntry)
    : K unit :=
  if conn_id entry ==? m_conn_id msg then mret tt
  else if is_err (check_ipc_target r sid (plugin_id entry)) then mret tt
  else _ ← chan_try_send (write_tx entry) (out_frame (strip_mac (m_frame msg))); mret tt.

Definition broadcast (env : Env) (msg : IncomingMessage) : K bool :=
  let deny m := (_ ← send_error env (m_write_tx msg) ErrPermissionDenied m; mret true) in
  r ← gets registry;
  match get_by_conn_id (m_conn_id msg) r with
  | None => _ ← send_error env (m_write_tx msg) ErrNotRegistered "not registered"; mret true
  | Some entry =>
      let sid := plugin_id entry in
      if is_err (check_ipc_send r sid) then deny "PERMISSION_IPC_SEND required"
      else if audio_denied r msg sid
      then deny "PERMISSION_AUDIO_STREAM required for FLAG_RAW_BINARY frames"
      else _ ← for_each (broadcast_to r msg sid) (list_entries r); mret false
  end.

(** ** The loop *)

(** The prune tick: idle limiter keys, timed-out actions, idle sessions. *)
Definition timeout_response (p : PendingAction) : Envelope :=
  env_of (PActionResponse (mkActionResponse (original_action_id p)
    (action_status_i32 ActionTimeout) [] "action timed out")).

Definition prune_tick (ctx : Ctx) (env : Env) : K unit :=
  let now := instant (clk env) in
  _ ← modify (upd_ipc_limiter (fmap (retain_recent now)));
  _ ← modify (upd_action_limiter (fmap (retain_recent now)));
  expired ← on_registry (sweep_expired_actions now);
  _ ← for_each (fun p => send_envelope env (requester_write_tx p) (timeout_response p)) expired;
  match session_idle_timeout_secs ctx with
  | None => mret tt
  | Some idle =>
      swept ← on_registry (sweep_idle_sessions now (secs idle));
      for_each (fun ip => notify_forced_termination env ip.1 ip.2 "idle timeout") swept
  end.

(** [limiter.check_key(&conn_id)] of the per-connection limiter. *)
Definition ipc_limiter_grants (env : Env) (cid : Z) : K bool :=
  fun w => match ipc_limiter w with
           | None => (true, w)
           | Some l => let '(b, l') := check_key (instant (clk env)) cid l in
                       (b, upd_ipc_limiter (fun _ => Some l') w)
           end.

Definition error_count (cid : Z) (ec : gmap Z (Z * Z)) : Z :=
  match ec !! cid with Some (c, _) => c | None => 0 end.

Definition throttled (ctx : Ctx) (msg : IncomingMessage) (w : World) : bool :=
  (max_conn_errors ctx <=? error_count (m_conn_id msg) (error_counts w))
  && negb (is_throttle_exempt (m_frame msg)).

(** The bookkeeping after a handled message. *)
Definition note_error (ctx : Ctx) (now cid : Z) (ec : gmap Z (Z * Z)) : gmap Z (Z * Z) :=
  let ec := if (max_tracked_error_conns ctx <=? size ec)%nat
            then filter (fun kv => duration_since now kv.2.2 < ERROR_BUDGET_IDLE_TTL) ec
            else ec in
  <[cid := ((error_count cid ec + 1) mod 2 ^ 32, now)]> ec.

Definition route (ctx : Ctx) (env : Env) (msg : IncomingMessage) (target : string) : K bool :=
  if target ==? "kernel" then handle_kernel_message ctx env msg
  else if target ==? "*" then broadcast env msg
  else forward ctx env msg target.

Definition handle_message (ctx : Ctx) (env : Env) (msg : IncomingMessage) : K unit :=
  granted ← ipc_limiter_grants env (m_conn_id msg);
  if negb granted then send_error env (m_write_tx msg) ErrRateLimited "IPC rate limit exceeded"
  else match target_as_str (f_target (m_frame msg)) with
  | None => send_error env (m_write_tx msg) ErrUnknown "invalid UTF-8 in frame target"
  | Some target =>
      drop ← gets (throttled ctx msg);
      if drop : bool then mret tt
      else
        errored ← route ctx env msg target;
        modify (upd_error_counts (if errored : bool then note_error ctx (instant (clk env)) (m_conn_id msg)
                                  else delete (m_conn_id msg)))
  end.

(** What the [select!] of the loop picks. *)
Inductive RouterInput := Tick | Incoming (msg : IncomingMessage).

Definition router_step (ctx : Ctx) (env : Env) (i : RouterInput) : K unit :=
  match i with
  | Tick => prune_tick ctx env
  | Incoming msg => handle_message ctx env msg
  end.

End Router.
