(* ===== verification/RouterFacts.v ===== *)
(** * Frames of the router's handlers

    What each handler may touch.  [keeps R m] relations are proved by
    composition: the router only changes the registry and the bus through
    their own operations, so every invariant of theirs is an invariant of the
    running kernel. *)

From S2P Require Import Prelude Wire Text Channel Registry RegistryFacts Permissions Jwt DeviceStore EventStore World EventBus Commands Router.

Open Scope Z_scope.

(** Composition of [keeps] facts over the shape of a handler; [lem] closes
    the primitive steps. *)
Ltac keep_with lem :=
  repeat (cbv beta zeta; lazymatch goal with
    | |- keeps _ (mbind _ _) => apply keeps_bind; [apply _| |intros ?]
    | |- keeps _ (mret _) => apply keeps_ret; apply _
    | |- keeps _ (gets _) => apply keeps_gets; apply _
    | |- keeps _ (for_each _ _) => apply keeps_for_each; [apply _|intros ? _]
    | |- keeps _ (match ?x with _ => _ end) => destruct x
    | |- _ => lem
    end).

Section Facts.
Context `{HashIter} `{WireCrate} `{Governor} `{SerdeJson} `{JwtCrate} `{StoreCrates}.

(** ** Simulation: registry and bus move by their own steps *)

Definition sim (w w' : World) : Prop :=
  rtc registry_step (registry w) (registry w') /\ rtc bus_step (event_bus w) (event_bus w').

#[export] Instance sim_preorder : PreOrder sim.
Proof.
  split; [intros w; split; reflexivity|]. intros w1 w2 w3 [? ?] [? ?]. split; by etrans.
Qed.

Lemma net_only_sim w w' : net_only w w' -> sim w w'.
Proof. unfold sim. intros (E1&E2&_). rewrite E1, E2. split; reflexivity. Qed.

Lemma upd_registry_sim f w : registry_step (registry w) (f (registry w)) -> sim w (upd_registry f w).
Proof. intros Hs. split; simpl; [by apply rtc_once|reflexivity]. Qed.

Lemma on_registry_sim {A} (f : PluginRegistry -> A * PluginRegistry) w :
  registry_step (registry w) (f (registry w)).2 -> sim w (exec (on_registry f) w).
Proof.
  intros Hs. unfold exec, on_registry. destruct (f (registry w)). by apply upd_registry_sim.
Qed.

Lemma upd_bus_sim f w : bus_step (event_bus w) (f (event_bus w)) -> sim w (upd_bus f w).
Proof. intros Hs. split; simpl; [reflexivity|by apply rtc_once]. Qed.

(** Sends keep everything but the network. *)
Lemma send_envelope_net env tx e : keeps net_only (send_envelope env tx e).
Proof. intros w. apply send_envelope_spec. Qed.

Lemma send_error_net env tx c m : keeps net_only (send_error env tx c m).
Proof. intros w. apply send_error_spec. Qed.

Lemma try_send_envelope_net env tx e : keeps net_only (try_send_envelope env tx e).
Proof.
  intros w. pose proof (try_send_envelope_spec env tx e w) as Hs. unfold exec.
  by destruct (try_send_envelope env tx e w) as [b w'], Hs.
Qed.

Lemma chan_try_send_net tx o : keeps net_only (chan_try_send tx o).
Proof.
  intros w. pose proof (chan_try_send_spec tx o w) as Hs. unfold exec.
  by destruct (chan_try_send tx o w) as [b w'], Hs.
Qed.

Lemma chan_send_await_net tx o : keeps net_only (chan_send_await tx o).
Proof. intros w. done. Qed.

Lemma notify_net env iid p reason : keeps net_only (notify_forced_termination env iid p reason).
Proof. unfold notify_forced_termination. keep_with ltac:(apply try_send_envelope_net). Qed.

Lemma deliver_sim env e : keeps sim (deliver env e).
Proof. intros w. apply net_only_sim, deliver_spec. Qed.

Lemma publish_sim env e : keeps sim (publish env e).
Proof.
  intros w. destruct (publish_stores env e w) as (_&E1&E2&_). unfold sim.
  rewrite E1, E2. split; reflexivity.
Qed.

Lemma net_sim {A} (m : K A) : keeps net_only m -> keeps sim m.
Proof. apply keeps_mono, net_only_sim. Qed.

Lemma fetch_sim : keeps sim fetch_action_seq /\ keeps sim fetch_event_seq.
Proof. split; intros w; split; reflexivity. Qed.

Lemma limiter_sim env k cid :
  keeps sim (action_limiter_grants env k) /\ keeps sim (ipc_limiter_grants env cid).
Proof.
  split; intros w; unfold exec, action_limiter_grants, ipc_limiter_grants.
  - destruct (action_limiter w); [|done]. destruct (check_key _ _ _). split; reflexivity.
  - destruct (ipc_limiter w); [|done]. destruct (check_key _ _ _). split; reflexivity.
Qed.

Lemma do_register_sim env msg reg mf : keeps sim (on_registry (do_register env msg reg mf)).
Proof.
  intros w. apply on_registry_sim. unfold do_register. destruct (is_mux_device reg); constructor.
Qed.

Lemma stores_sim f : keeps sim (modify (upd_stores f)).
Proof. intros w. split; reflexivity. Qed.

(** The primitive steps of the handlers. *)
Ltac sim_step :=
  lazymatch goal with
  | |- keeps sim (send_envelope _ _ _) => apply net_sim, send_envelope_net
  | |- keeps sim (send_error _ _ _ _) => apply net_sim, send_error_net
  | |- keeps sim (send_register_reject _ _ _) => apply net_sim, send_envelope_net
  | |- keeps sim (try_send_envelope _ _ _) => apply net_sim, try_send_envelope_net
  | |- keeps sim (chan_try_send _ _) => apply net_sim, chan_try_send_net
  | |- keeps sim (chan_send_await _ _) => apply net_sim, chan_send_await_net
  | |- keeps sim (notify_forced_termination _ _ _ _) => apply net_sim, notify_net
  | |- keeps sim (publish _ _) => apply publish_sim
  | |- keeps sim fetch_action_seq => apply fetch_sim
  | |- keeps sim fetch_event_seq => apply fetch_sim
  | |- keeps sim (action_limiter_grants _ _) => apply (limiter_sim _ _ 0)
  | |- keeps sim (ipc_limiter_grants _ _) => apply (limiter_sim _ (EmptyString, EmptyString))
  | |- keeps sim (modify (upd_stores _)) => apply stores_sim
  | |- keeps sim (modify (upd_registry _)) => intros ?; apply upd_registry_sim; constructor
  | |- keeps sim (modify (upd_bus _)) => intros ?; apply upd_bus_sim; constructor
  | |- keeps sim (modify _) => intros ?; split; reflexivity
  | |- keeps sim (on_registry (do_register _ _ _ _)) => apply do_register_sim
  | |- keeps sim (on_registry _) => intros ?; apply on_registry_sim; constructor
  | |- keeps sim _ => auto with vyn
  end.

Ltac keep_sim := keep_with ltac:(idtac; sim_step).

Lemma abort_stream_sim env iid reason : keeps sim (abort_stream env iid reason).
Proof. unfold abort_stream. keep_sim. Qed.
#[local] Hint Resolve abort_stream_sim : vyn.

Lemma finish_register_sim ctx env msg mid reg ds res : keeps sim (finish_register ctx env msg mid reg ds res).
Proof. unfold finish_register. keep_sim. Qed.
#[local] Hint Resolve finish_register_sim : vyn.

Lemma handle_register_sim ctx env msg mid reg : keeps sim (handle_register ctx env msg mid reg).
Proof. unfold handle_register. keep_sim. Qed.

Lemma route_action_sim ctx env msg mid sid req : keeps sim (route_action ctx env msg mid sid req).
Proof. unfold route_action. keep_sim. Qed.
#[local] Hint Resolve handle_register_sim route_action_sim : vyn.

Lemma handle_payload_sim ctx env msg mid p : keeps sim (handle_payload ctx env msg mid p).
Proof.
  unfold handle_payload, handle_ping, handle_pong, handle_subscribe, handle_unsubscribe,
    handle_event_publish, handle_event_ack, handle_action_request, handle_action_response,
    handle_request_chunk, handle_response_chunk, handle_session_close, handle_kernel_command.
  keep_sim.
Qed.
#[local] Hint Resolve handle_payload_sim : vyn.

Lemma handle_kernel_message_sim ctx env msg : keeps sim (handle_kernel_message ctx env msg).
Proof. unfold handle_kernel_message. keep_sim. Qed.

Lemma forward_sim ctx env msg target : keeps sim (forward ctx env msg target).
Proof. unfold forward, register_direct_pending, relay_to_host. keep_sim. Qed.

Lemma broadcast_sim env msg : keeps sim (broadcast env msg).
Proof. unfold broadcast, broadcast_to. keep_sim. Qed.
#[local] Hint Resolve handle_kernel_message_sim forward_sim broadcast_sim : vyn.

Lemma router_step_sim ctx env i : keeps sim (router_step ctx env i).
Proof. unfold router_step, prune_tick, handle_message, route. keep_sim. Qed.

(** ** Queues *)

(** The free slots of a channel. *)
Definition room (cs : Chans) (tx : ChanId) : nat :=
  match cs !! tx with
  | Some c => if chan_open c then (chan_cap c - length (chan_queue c))%nat else 0%nat
  | None => 0%nat
  end.

Lemma can_send_room cs tx : can_send cs tx = (0 <? room cs tx)%nat.
Proof.
  unfold can_send, room. destruct (cs !! tx) as [c|]; [|done]. destruct (chan_open c); [|done]. simpl.
  destruct (Nat.ltb_spec (length (chan_queue c)) (chan_cap c)), (Nat.ltb_spec 0 (chan_cap c - length (chan_queue c)));
    (done || lia).
Qed.

Lemma room_try_send tx o cs ty :
  room (try_send tx o cs).2 ty = (room cs ty - (if (tx ==? ty) && can_send cs tx then 1 else 0))%nat.
Proof.
  destruct (decide (tx = ty)) as [->|Hne].
  - rewrite try_send_spec. rewrite bool_decide_eq_true_2 by done. simpl.
    destruct (can_send cs ty) eqn:E; simpl; [|lia].
    unfold room. rewrite lookup_insert_eq. simpl. unfold can_send, queue_of in *.
    destruct (cs !! ty) as [c|]; [|done]. destruct (chan_open c); [|done]. simpl.
    rewrite length_app. simpl. lia.
  - rewrite bool_decide_eq_false_2 by done. simpl. unfold room. rewrite try_send_other by done. lia.
Qed.

(** A loop that offers at most one item per element. *)
Definition offer (x : option (ChanId * Outbound)) : K unit :=
  match x with
  | Some (tx, o) => _ ← chan_try_send tx o; mret tt
  | None => mret tt
  end.

Definition offered {A} (g : A -> option (ChanId * Outbound)) (ty : ChanId) (a : A) : option Outbound :=
  match g a with Some (tx, o) => if tx ==? ty then Some o else None | None => None end.

Lemma offer_chans x w :
  net_only w (exec (offer x) w) /\
  chans (exec (offer x) w) = match x with Some (tx, o) => (try_send tx o (chans w)).2 | None => chans w end.
Proof.
  destruct x as [[tx o]|]; [|done]. unfold offer. rewrite exec_bind, exec_ret. split; [apply chan_try_send_net|].
  unfold exec, chan_try_send. by destruct (try_send tx o (chans w)).
Qed.

Lemma fan_out_spec {A} (g : A -> option (ChanId * Outbound)) l w :
  let w' := exec (for_each (fun a => offer (g a)) l) w in
  net_only w w' /\
  forall ty, queue_of (chans w') ty =
             queue_of (chans w) ty ++ take (room (chans w) ty) (omap (offered g ty) l).
Proof.
  revert w. induction l as [|a l IH]; intros w; simpl.
  - split; [done|]. intros ty. by rewrite take_nil, app_nil_r.
  - rewrite exec_bind. destruct (IH (exec (offer (g a)) w)) as [Hn Hq].
    destruct (offer_chans (g a) w) as [Hn1 Hc1]. split; [by etrans|]. intros ty.
    rewrite Hq, Hc1. unfold offered at 2. destruct (g a) as [[tx o]|]; [|done].
    rewrite try_send_queue, room_try_send, <- app_assoc. f_equal.
    case_bool_decide; simpl; [|by rewrite Nat.sub_0_r].
    subst ty. rewrite can_send_room. destruct (room (chans w) tx); simpl; [done|].
    by rewrite Nat.sub_0_r.
Qed.

(** ** Queues only grow *)

Definition grows (w w' : World) : Prop :=
  forall ty, queue_of (chans w) ty `prefix_of` queue_of (chans w') ty.

#[export] Instance grows_preorder : PreOrder grows.
Proof. split; [by intros w ty|]. intros w1 w2 w3 H12 H23 ty. etrans; [apply H12|apply H23]. Qed.

Lemma try_send_envelope_grows env tx e : keeps grows (try_send_envelope env tx e).
Proof.
  intros w ty. pose proof (try_send_envelope_spec env tx e w) as Hs. unfold exec.
  destruct (try_send_envelope env tx e w) as [b w']. destruct Hs as (_ & Hq & _). simpl.
  rewrite Hq. by apply prefix_app_r.
Qed.

Lemma send_envelope_grows env tx e : keeps grows (send_envelope env tx e).
Proof.
  intros w ty. destruct (send_envelope_spec env tx e w) as (_ & Hq). rewrite Hq. by apply prefix_app_r.
Qed.

Lemma chan_try_send_grows tx o : keeps grows (chan_try_send tx o).
Proof.
  intros w ty. pose proof (chan_try_send_spec tx o w) as Hs. unfold exec.
  destruct (chan_try_send tx o w) as [b w']. destruct Hs as (_ & _ & _ & Hq & _). simpl.
  rewrite Hq. by apply prefix_app_r.
Qed.

Lemma deliver_to_grows p pid : keeps grows (deliver_to p pid).
Proof.
  unfold deliver_to. keep_with ltac:(idtac; apply chan_try_send_grows).
Qed.

Lemma deliver_grows env e : keeps grows (deliver env e).
Proof.
  unfold deliver. keep_with ltac:(idtac; first [apply deliver_to_grows|intros ? ?; reflexivity]).
Qed.

Lemma publish_grows env e : keeps grows (publish env e).
Proof.
  unfold publish. keep_with ltac:(idtac; first [apply deliver_grows|intros ? ?; reflexivity]).
Qed.

(** ** What a reply touches *)

Lemma sent_ext env tx e w w' :
  chans w' = chans w -> MSG_SEQ w' = MSG_SEQ w -> sent env tx e w' = sent env tx e w.
Proof. intros Hc Hm. unfold sent, stamped_frame, stamped. by rewrite Hc, Hm. Qed.

(** Only the channel [tx] and the message counter. *)
Definition only_chan (tx : ChanId) (w w' : World) : Prop :=
  net_only w w' /\ forall ty, ty <> tx -> queue_of (chans w') ty = queue_of (chans w) ty.

#[export] Instance only_chan_preorder tx : PreOrder (only_chan tx).
Proof.
  split; [by intros w|]. intros w1 w2 w3 [N1 Q1] [N2 Q2]. split; [by etrans|].
  intros ty Hty. by rewrite Q2, Q1.
Qed.

Lemma send_envelope_only env tx e : keeps (only_chan tx) (send_envelope env tx e).
Proof.
  intros w. destruct (send_envelope_spec env tx e w) as [Hn Hq]. split; [done|].
  intros ty Hty. rewrite Hq, bool_decide_eq_false_2 by done. by rewrite app_nil_r.
Qed.

Lemma send_error_only env tx c m : keeps (only_chan tx) (send_error env tx c m).
Proof. apply send_envelope_only. Qed.

(** A refused message: the error flag and one reply on the sender's channel. *)
Lemma err_reply_spec env tx c m w :
  let '(b, w') := run (_ ← send_error env tx c m; mret true) w in
  b = true /\ only_chan tx w w'.
Proof. unfold run. rewrite bind_run. simpl. split; [done|]. apply send_error_only. Qed.

Lemma err_reply_case env tx c m w (P : World -> Prop) :
  let '(b, w') := (_ ← send_error env tx c m; mret true) w in
  if b : bool then only_chan tx w w' else P w'.
Proof. rewrite bind_run. simpl. apply send_error_only. Qed.

Lemma on_registry_run {A} (f : PluginRegistry -> A * PluginRegistry) w :
  on_registry f w = ((f (registry w)).1, upd_registry (fun _ => (f (registry w)).2) w).
Proof. unfold on_registry. by destruct (f (registry w)). Qed.

Lemma exec_on_registry {A} (f : PluginRegistry -> A * PluginRegistry) w :
  exec (on_registry f) w = upd_registry (fun _ => (f (registry w)).2) w.
Proof. unfold exec. by rewrite on_registry_run. Qed.

Lemma eval_on_registry {A} (f : PluginRegistry -> A * PluginRegistry) w :
  eval (on_registry f) w = (f (registry w)).1.
Proof. unfold eval. by rewrite on_registry_run. Qed.

(** ** Projections a handler leaves alone *)

Definition same {A} (f : World -> A) (w w' : World) : Prop := f w' = f w.

#[export] Instance same_preorder {A} (f : World -> A) : PreOrder (same f).
Proof. split; [by intros w|]. unfold same. intros w1 w2 w3. congruence. Qed.

Lemma net_budget {A} (m : K A) : keeps net_only m -> keeps (same error_counts) m.
Proof. apply keeps_mono. by intros w w' (_&_&_&_&_&_&_&?&_). Qed.

Lemma net_registry {A} (m : K A) : keeps net_only m -> keeps (same registry) m.
Proof. apply keeps_mono. by intros w w' (?&_). Qed.

Lemma on_registry_budget {A} (f : PluginRegistry -> A * PluginRegistry) :
  keeps (same error_counts) (on_registry f).
Proof. intros w. unfold exec, on_registry. by destruct (f (registry w)). Qed.

Lemma publish_same env e : keeps (same error_counts) (publish env e) /\ keeps (same registry) (publish env e).
Proof.
  split; intros w; by destruct (publish_stores env e w) as (_&?&_&_&_&_&?&_).
Qed.

Lemma limiter_budget env k : keeps (same error_counts) (action_limiter_grants env k).
Proof.
  intros w. unfold exec, action_limiter_grants. destruct (action_limiter w); [|done].
  by destruct (check_key _ _ _).
Qed.

Ltac net_step :=
  lazymatch goal with
  | |- keeps net_only (send_envelope _ _ _) => apply send_envelope_net
  | |- keeps net_only (send_error _ _ _ _) => apply send_error_net
  | |- keeps net_only (send_register_reject _ _ _) => apply send_envelope_net
  | |- keeps net_only (try_send_envelope _ _ _) => apply try_send_envelope_net
  | |- keeps net_only (chan_try_send _ _) => apply chan_try_send_net
  | |- keeps net_only (chan_send_await _ _) => apply chan_send_await_net
  | |- keeps net_only (notify_forced_termination _ _ _ _) => apply notify_net
  end.

Ltac budget_step :=
  lazymatch goal with
  | |- keeps _ (publish _ _) => apply publish_same
  | |- keeps _ (on_registry _) => apply on_registry_budget
  | |- keeps _ (action_limiter_grants _ _) => apply limiter_budget
  | |- keeps _ (modify _) => intros ?; reflexivity
  | |- keeps _ fetch_action_seq => intros ?; reflexivity
  | |- keeps _ fetch_event_seq => intros ?; reflexivity
  | |- _ => first [apply net_budget; net_step | auto with vyn]
  end.

Lemma register_budget ctx env msg mid reg : keeps (same error_counts) (handle_register ctx env msg mid reg).
Proof. unfold handle_register, finish_register. keep_with ltac:(idtac; budget_step). Qed.

Lemma abort_stream_budget env iid reason : keeps (same error_counts) (abort_stream env iid reason).
Proof. unfold abort_stream. keep_with ltac:(idtac; budget_step). Qed.
#[local] Hint Resolve register_budget abort_stream_budget : vyn.

Lemma handle_payload_budget ctx env msg mid p : keeps (same error_counts) (handle_payload ctx env msg mid p).
Proof.
  unfold handle_payload, handle_ping, handle_pong, handle_subscribe, handle_unsubscribe,
    handle_event_publish, handle_event_ack, handle_action_request, route_action, handle_action_response,
    handle_request_chunk, handle_response_chunk, handle_session_close, handle_kernel_command.
  keep_with ltac:(idtac; budget_step).
Qed.
#[local] Hint Resolve handle_payload_budget : vyn.

Lemma route_keeps_budget ctx env msg target : keeps (same error_counts) (route ctx env msg target).
Proof.
  unfold route, handle_kernel_message, forward, broadcast, broadcast_to, register_direct_pending, relay_to_host.
  keep_with ltac:(idtac; budget_step).
Qed.

Lemma finish_register_registry ctx env msg mid reg ds res :
  keeps (same registry) (finish_register ctx env msg mid reg ds res).
Proof.
  unfold finish_register.
  keep_with ltac:(idtac; first [apply publish_same|apply net_registry; net_step]).
Qed.

Lemma net_bus {A} (m : K A) : keeps net_only m -> keeps (same event_bus) m.
Proof. apply keeps_mono. by intros w w' (_&?&_). Qed.

Lemma route_action_bus ctx env msg mid sid req :
  keeps (same event_bus) (route_action ctx env msg mid sid req).
Proof.
  unfold route_action. keep_with ltac:(idtac; lazymatch goal with
    | |- keeps _ (action_limiter_grants _ _) =>
        intros w; unfold same, exec, action_limiter_grants; destruct (action_limiter w); [|done];
        by destruct (check_key _ _ _)
    | |- keeps _ (send_envelope _ _ _) => apply net_bus, send_envelope_net
    | |- _ => intros ?; reflexivity
    end).
Qed.

End Facts.
