(* ===== verification/RouterProps.v ===== *)
(** * What the router guarantees

    Safety of the routing paths: who may cause a frame to appear in whose
    channel, and under which checks. *)

From S2P Require Import Prelude Wire Toy Text Channel Registry RegistryFacts Permissions Jwt DeviceStore EventStore World EventBus Commands Router RouterFacts.

Open Scope Z_scope.

Section Props.
Context `{HashIter} `{WireCrate} `{Governor} `{SerdeJson} `{JwtCrate} `{StoreCrates}.

(** ** Lemmas *)

Lemma get_by_conn_None cid r : is_registered cid r = false -> get_by_conn_id cid r = None.
Proof. unfold is_registered, get_by_conn_id. by destruct (by_conn_id r !! cid). Qed.

Lemma is_err_false {A} (x : Result VynkorError A) : is_err x = false -> exists a, x = Ok a.
Proof. destruct x; [eauto|done]. Qed.

Lemma not_denied_holds r pid p :
  is_err (check_permission r pid p) = false -> exists e, get pid r = Some e /\ holds e p.
Proof. intros [[] Hc]%is_err_false. by apply check_permission_Ok. Qed.

Lemma audio_gate r msg sid :
  audio_denied r msg sid = false -> has_flag (f_flags (m_frame msg)) FLAG_RAW_BINARY = true ->
  exists e, get sid r = Some e /\ holds e PermissionAudioStream.
Proof. unfold audio_denied. intros Ha Hf. rewrite Hf in Ha. simpl in Ha. by apply not_denied_holds. Qed.

Lemma existsb_eq (l : list string) x : existsb (fun t => t ==? x) l = true <-> x ∈ l.
Proof. rewrite (existsb_decide (fun t => t = x)). naive_solver. Qed.

Lemma forward_allowed_spec s target resolved :
  forward_allowed s target resolved = true ->
  target ∈ ipc_targets (manifest s) \/
  exists dev cap, target = dev +:+ String "." cap /\ dev ∈ ipc_targets (manifest s) /\ is_Some resolved.
Proof.
  unfold forward_allowed. rewrite orb_true_iff. intros [Ha%existsb_eq|Ha]; [by left|]. right. bools.
  destruct (split_once "." target) as [[dev cap]|] eqn:Hs; [|done].
  apply split_once_Some in Hs as [-> _]. exists dev, cap. split_and!; [done|by apply existsb_eq|].
  by destruct resolved.
Qed.

Lemma register_direct_pending_frame env msg target sid entry :
  keeps (fun w w' => same_core (registry w) (registry w') /\ chans w' = chans w /\ MSG_SEQ w' = MSG_SEQ w /\
                     event_bus w' = event_bus w /\ bridge_conns w' = bridge_conns w)
        (register_direct_pending env msg target sid entry).
Proof.
  intros w. unfold register_direct_pending.
  destruct (decode_envelope _) as [e|]; [|done]. destruct (payload e) as [[]|]; try done.
  by destruct (_ && _).
Qed.

(** ** Properties *)

(** The running kernel keeps the invariants of its parts: whatever
    messages and ticks the router handles, from any connection and in any
    order, the registry stays reachable by registry operations (so it
    satisfies the registry invariant) and the subscription maps of the bus
    keep mirroring each other. *)
Theorem router_preserves_invariants ctx (inputs : list (Env * RouterInput)) w :
  registry_reachable (registry w) -> rtc bus_step bus_new (event_bus w) ->
  let w' := foldl (fun w ei => exec (router_step ctx ei.1 ei.2) w) w inputs in
  registry_reachable (registry w') /\ registry_ok (registry w') /\ bus_ok (event_bus w').
Proof.
  intros Hr Hb. cbv zeta.
  assert (registry_reachable (registry (foldl (fun w ei => exec (router_step ctx ei.1 ei.2) w) w inputs)) /\
          rtc bus_step bus_new (event_bus (foldl (fun w ei => exec (router_step ctx ei.1 ei.2) w) w inputs)))
    as [Hr' Hb'].
  { unfold registry_reachable in *. revert w Hr Hb. induction inputs as [|ei inputs IH]; intros w Hr Hb; [done|]. simpl.
    destruct (router_step_sim ctx ei.1 ei.2 w) as [Hr1 Hb1]. apply IH; by etrans. }
  split_and!; [done|by apply reachable_ok|by apply bus_reachable_ok].
Qed.

(** C5: a connection that has not registered can do nothing but register:
    any other message, whatever its target, is counted as an error, leaves
    the registry, the bus, the stores and every counter alone, and reaches
    no channel but the sender's own. *)
Theorem unregistered_is_inert ctx env msg target w :
  is_registered (m_conn_id msg) (registry w) = false ->
  (forall e, target = "kernel" -> decode_envelope (f_payload (m_frame msg)) = Some e ->
             is_register (payload e) = false) ->
  let '(errored, w') := run (route ctx env msg target) w in
  errored = true /\ only_chan (m_write_tx msg) w w'.
Proof.
  intros Hreg Hpay. unfold route. pose proof (get_by_conn_None _ _ Hreg) as Hg.
  case_bool_decide as Hk; [|case_bool_decide].
  - unfold handle_kernel_message. destruct (decode_envelope _) as [e|] eqn:He; [|apply err_reply_spec].
    unfold run. rewrite bind_run. unfold eval, exec. simpl. rewrite Hreg, (Hpay e Hk eq_refl). simpl.
    apply err_reply_spec.
  - unfold broadcast, run. rewrite bind_run. unfold eval, exec. simpl. rewrite Hg. apply err_reply_spec.
  - unfold forward, run. rewrite bind_run. unfold eval, exec. simpl. rewrite Hg. apply err_reply_spec.
Qed.

(** C1: the safety of unicast.  A frame leaves the sender for another channel
    only if the sender is registered, holds the IPC permission, lists the
    target (or its device, for a resolved device capability) in its
    allowlist, holds the audio permission if the frame is raw binary, and
    the target is of the same user; what is delivered is the frame without
    the sender's MAC, to the resolved target's channel if it has room, or,
    for an unknown target, to the first live bridge connection.  A refused
    frame reaches nobody. *)
Theorem forward_safety ctx env msg target w :
  let r := registry w in
  let out := OFrame (strip_mac (m_frame msg)) in
  let '(errored, w') := run (forward ctx env msg target) w in
  if errored : bool then only_chan (m_write_tx msg) w w'
  else
    same_core r (registry w') /\ event_bus w' = event_bus w /\
    exists s e, get_by_conn_id (m_conn_id msg) r = Some s /\ get (plugin_id s) r = Some e /\
      holds e PermissionIpcSend /\
      (has_flag (f_flags (m_frame msg)) FLAG_RAW_BINARY = true -> holds e PermissionAudioStream) /\
      (target ∈ ipc_targets (manifest e) \/
       exists dev cap, target = dev +:+ String "." cap /\ dev ∈ ipc_targets (manifest e) /\
                       is_Some (get_mux target r)) /\
      match get_mux target r with
      | Some t =>
          user_id t = user_id e /\
          forall ty, queue_of (chans w') ty = queue_of (chans w) ty ++
            (if (write_tx t ==? ty) && can_send (chans w) (write_tx t) then [out] else [])
      | None =>
          has_bridge ctx = true /\ exists tx, head (bridge_conns w) = Some tx /\
          forall ty, queue_of (chans w') ty = queue_of (chans w) ty ++ (if tx ==? ty then [out] else [])
      end.
Proof.
  intros r out. unfold forward, run. rewrite bind_run. unfold eval, exec. cbn [gets fst snd]. fold r.
  destruct (get_by_conn_id (m_conn_id msg) r) as [s|] eqn:Hs; [|apply err_reply_case].
  destruct (is_err (check_ipc_send r (plugin_id s))) eqn:Hipc; [apply err_reply_case|].
  apply not_denied_holds in Hipc as (e & Hge & Hipc). rewrite Hge.
  destruct (match get_mux target r with Some t => _ | None => false end) eqn:Huser; [apply err_reply_case|].
  destruct (negb (forward_allowed e target (get_mux target r))) eqn:Hall; [apply err_reply_case|].
  destruct (audio_denied r msg (plugin_id s)) eqn:Haud; [apply err_reply_case|].
  assert (has_flag (f_flags (m_frame msg)) FLAG_RAW_BINARY = true -> holds e PermissionAudioStream) as Haud'.
  { intros Hf. destruct (audio_gate _ _ _ Haud Hf) as (e' & He' & ?). by simplify_eq. }
  apply negb_false_iff, forward_allowed_spec in Hall.
  destruct (get_mux target r) as [t|] eqn:Hmux.
  - apply negb_false_iff, bool_decide_eq_true_1 in Huser. rewrite !bind_run. unfold eval, exec. simpl.
    destruct (register_direct_pending_frame env msg target (plugin_id s) t w) as (F1 & F2 & _ & F4 & _).
    set (w1 := exec (register_direct_pending env msg target (plugin_id s) t) w) in *.
    change ((register_direct_pending env msg target (plugin_id s) t w).2) with w1.
    pose proof (chan_try_send_spec (write_tx t) (out_frame (strip_mac (m_frame msg))) w1) as Hc.
    destruct (chan_try_send _ _ w1) as [b w2]. destruct Hc as ((E1&E2&_) & _ & _ & Hq & _). simpl.
    rewrite E1, E2. split_and!; [done..|]. exists s, e. split_and!; try done.
    intros ty. by rewrite Hq, F2.
  - rewrite bind_run. destruct (has_bridge ctx) eqn:Hb; [|apply err_reply_case].
    unfold relay_to_host. rewrite eval_gets, exec_gets.
    destruct (bridge_conns w) as [|tx conns] eqn:Hconns; [apply err_reply_case|].
    pose proof (chan_try_send_spec tx (out_frame (strip_mac (m_frame msg))) w) as Hc.
    unfold eval, exec. destruct (chan_try_send _ _ w) as [b w1]. simpl.
    destruct Hc as (Hn & _ & Hsent & Hq & Ho). destruct b; simpl.
    + destruct Hn as (E1&E2&_). rewrite E1, E2. split_and!; [done..|]. exists s, e.
      split_and!; try done. exists tx. split; [done|]. intros ty. rewrite Hq, <- Hsent.
      by rewrite andb_true_r.
    + pose proof (err_reply_spec env (m_write_tx msg) ErrUnknown "plugin not found" w1) as He.
      unfold run in He. destruct ((_ ← send_error env (m_write_tx msg) ErrUnknown "plugin not found"; mret true) w1)
        as [b w2]. destruct He as [-> [Hn2 Hq2]]. split; [by etrans|].
      intros ty Hty. rewrite Hq2, Hq, <- Hsent by done. by rewrite andb_false_r, app_nil_r.
Qed.






(** ** The error budget *)

Lemma note_error_self ctx now cid ec :
  error_count cid ec + 1 < 2 ^ 32 -> 0 <= error_count cid ec ->
  error_count cid (note_error ctx now cid ec) = error_count cid ec + 1 \/
  (error_count cid (note_error ctx now cid ec) = 1 /\
   exists c last, ec !! cid = Some (c, last) /\ ERROR_BUDGET_IDLE_TTL <= duration_since now last).
Proof.
  intros Hb H0c. unfold note_error.
  set (ec' := if (max_tracked_error_conns ctx <=? size ec)%nat then _ else ec).
  assert (error_count cid (<[cid := ((error_count cid ec' + 1) mod 2 ^ 32, now)]> ec') =
          (error_count cid ec' + 1) mod 2 ^ 32) as -> by (unfold error_count at 1; by rewrite lookup_insert_eq).
  assert (ec' !! cid = ec !! cid \/
          (ec' !! cid = None /\ exists c last, ec !! cid = Some (c, last) /\
             ERROR_BUDGET_IDLE_TTL <= duration_since now last)) as [Heq|[Hn Hst]].
  { unfold ec'. destruct (_ <=? _)%nat; [|by left].
    destruct (ec !! cid) as [[c last]|] eqn:Hl; [|left; by apply map_lookup_filter_None_2; left].
    destruct (decide (duration_since now last < ERROR_BUDGET_IDLE_TTL)).
    - left. by apply map_lookup_filter_Some_2.
    - right. split; [|exists c, last; split; [done|lia]].
      apply map_lookup_filter_None_2. right. naive_solver. }
  - left. replace (error_count cid ec') with (error_count cid ec)
      by (unfold error_count; by rewrite Heq). apply Z.mod_small. lia.
  - right. split; [|done]. unfold error_count. by rewrite Hn.
Qed.

Lemma note_error_other ctx now cid cid' ec :
  cid' <> cid ->
  note_error ctx now cid ec !! cid' = ec !! cid' \/ note_error ctx now cid ec !! cid' = None.
Proof.
  intros Hne. unfold note_error. rewrite lookup_insert_ne by done. destruct (_ <=? _)%nat; [|by left].
  set (P := fun kv : Z * (Z * Z) => _). destruct (filter P ec !! cid') eqn:Hf; [|by right].
  left. by apply map_lookup_filter_Some in Hf as [-> _].
Qed.

(** One turn without an IPC limiter and with a readable target. *)
Lemma handle_message_run ctx env msg target w :
  ipc_limiter w = None -> target_as_str (f_target (m_frame msg)) = Some target ->
  exec (handle_message ctx env msg) w =
  if throttled ctx msg w then w
  else upd_error_counts (if eval (route ctx env msg target) w
                         then note_error ctx (instant (clk env)) (m_conn_id msg)
                         else delete (m_conn_id msg)) (exec (route ctx env msg target) w).
Proof.
  intros Hlim Ht. unfold handle_message. rewrite exec_bind.
  assert (ipc_limiter_grants env (m_conn_id msg) w = (true, w)) as Hg
    by (unfold ipc_limiter_grants; by rewrite Hlim).
  unfold eval at 1, exec at 2. rewrite Hg. cbn [fst snd negb]. rewrite Ht, exec_gets.
  destruct (throttled ctx msg w); [done|]. by rewrite exec_bind.
Qed.

(** One turn of the router against the error budget (no IPC limiter).  A
    message with a readable target from a connection over its budget is
    dropped without any effect or reply unless it is one of the exempt
    kinds; otherwise it is handled, and an error raises the connection's
    count by one (from zero if its entry was pruned as stale) while a
    well-behaved message clears it; the other connections' counts are never
    raised. *)
Theorem error_budget_step ctx env msg target w :
  ipc_limiter w = None -> target_as_str (f_target (m_frame msg)) = Some target ->
  0 <= error_count (m_conn_id msg) (error_counts w) ->
  let cid := m_conn_id msg in
  let w' := exec (handle_message ctx env msg) w in
  if throttled ctx msg w then w' = w
  else
    let errored := eval (route ctx env msg target) w in
    (errored = false -> error_count cid (error_counts w') = 0) /\
    (errored = true -> error_count cid (error_counts w) + 1 < 2 ^ 32 ->
       error_count cid (error_counts w') = error_count cid (error_counts w) + 1 \/
       (error_count cid (error_counts w') = 1 /\
        exists c last, error_counts w !! cid = Some (c, last) /\
                       ERROR_BUDGET_IDLE_TTL <= duration_since (instant (clk env)) last)) /\
    (forall cid', cid' <> cid ->
       error_counts w' !! cid' = error_counts w !! cid' \/ error_counts w' !! cid' = None).
Proof.
  intros Hlim Ht H0c. cbv zeta. rewrite (handle_message_run ctx env msg target w Hlim Ht).
  destruct (throttled ctx msg w); [done|].
  pose proof (route_keeps_budget ctx env msg target w) as Hec. unfold same in Hec. split_and!.
  - intros ->. simpl. unfold error_count. by rewrite lookup_delete_eq.
  - intros -> Hb. simpl. rewrite Hec. by apply note_error_self.
  - intros cid' Hne. destruct (eval (route ctx env msg target) w); simpl; rewrite Hec.
    + by apply note_error_other.
    + left. by apply lookup_delete_ne.
Qed.

(** A frame whose target is not valid UTF-8 escapes the error budget: the
    error reply is sent even when the connection is over its budget, and the
    message is not counted. *)
Theorem invalid_target_escapes_budget ctx env msg w :
  ipc_limiter w = None -> target_as_str (f_target (m_frame msg)) = None ->
  let w' := exec (handle_message ctx env msg) w in
  error_counts w' = error_counts w /\
  queue_of (chans w') (m_write_tx msg) = queue_of (chans w) (m_write_tx msg) ++
    sent env (m_write_tx msg)
      (env_of (PError (mkErrorMessage (error_code_i32 ErrUnknown) "invalid UTF-8 in frame target" EmptyString))) w.
Proof.
  intros Hlim Ht. cbv zeta.
  set (e := env_of (PError _)).
  assert (exec (handle_message ctx env msg) w = exec (send_envelope env (m_write_tx msg) e) w) as ->.
  { unfold handle_message. rewrite exec_bind.
    assert (ipc_limiter_grants env (m_conn_id msg) w = (true, w)) as Hg
      by (unfold ipc_limiter_grants; by rewrite Hlim).
    unfold eval at 1, exec at 2. rewrite Hg. cbn [fst snd negb]. by rewrite Ht. }
  destruct (send_envelope_spec env (m_write_tx msg) e w) as [Hn Hq].
  split; [by destruct Hn as (_&_&_&_&_&_&_&?&_)|]. rewrite Hq. by rewrite bool_decide_eq_true_2.
Qed.

End Props.
