(* ===== verification/ActionProps.v ===== *)
(** * Actions, commands and events through the router

    The life of a routed action (request, response, chunks, timeouts), the
    gate on kernel commands and the publication of plugin events. *)

From S2P Require Import Prelude Wire Toy Text Channel Registry RegistryFacts Permissions Jwt DeviceStore EventStore World EventBus Commands Router RouterFacts RouterProps.

Open Scope Z_scope.

Section Props.
Context `{HashIter} `{WireCrate} `{Governor} `{SerdeJson} `{JwtCrate} `{StoreCrates}.

(** The slot and the request the kernel makes for the [n]-th routed action. *)
Definition kact (n : Z) : string := "kact-" +:+ show n.

Definition routed_pending (ctx : Ctx) (env : Env) (msg : IncomingMessage) (sid : string)
    (req : ActionRequest) (provider : PluginEntry) : PendingAction :=
  mkPending (m_write_tx msg) (areq_action_id req) sid
    (instant (clk env) + millis (if areq_timeout_ms req =? 0 then action_timeout_ms ctx else areq_timeout_ms req))
    (plugin_id provider) (areq_streaming req) false (instant (clk env)).

Definition routed_request (n : Z) (sid : string) (req : ActionRequest) : Payload :=
  PActionRequest (mkActionRequest (kact n) (areq_action req) (areq_params_json req) (areq_timeout_ms req)
                    (areq_streaming req) sid).

Definition refusal (req : ActionRequest) (st : ActionStatus) : Payload :=
  PActionResponse (mkActionResponse (areq_action_id req) (action_status_i32 st) [] (action_status_message st)).

Lemma action_limiter_frame env key w :
  let '(b, w') := action_limiter_grants env key w in
  registry w' = registry w /\ event_bus w' = event_bus w /\ chans w' = chans w /\ MSG_SEQ w' = MSG_SEQ w /\
  ACTION_CORRELATION_SEQ w' = ACTION_CORRELATION_SEQ w.
Proof.
  unfold action_limiter_grants. destruct (action_limiter w) as [l|]; [|done]. by destruct (check_key _ _ _).
Qed.

Lemma not_denied r provider sid action :
  action_denied r provider sid action = false ->
  forall perm, action_requirement (plugin_id provider) action r = Some perm ->
    (exists e, get (plugin_id provider) r = Some e /\ holds e perm) /\
    (exists e, get sid r = Some e /\ holds e perm).
Proof.
  unfold action_denied. intros Hd perm Hp. rewrite Hp in Hd. bools. split; by apply not_denied_holds.
Qed.

(** The two outcomes of [route_action]. *)
Definition routed ctx env msg mid sid req w w' : Prop :=
  let r := registry w in
  let n := ACTION_CORRELATION_SEQ w in
  exists provider,
    find_action_provider (areq_action req) r = Found provider /\
    (forall perm, action_requirement (plugin_id provider) (areq_action req) r = Some perm ->
       (exists e, get (plugin_id provider) r = Some e /\ holds e perm) /\
       (exists e, get sid r = Some e /\ holds e perm)) /\
    (forall cap, action_caller_max_concurrent ctx = Some cap ->
       count_pending_actions_for sid (plugin_id provider) r < cap) /\
    registry w' = register_pending_action (kact n) (routed_pending ctx env msg sid req provider) r /\
    ACTION_CORRELATION_SEQ w' = u64_succ n /\
    forall ty, queue_of (chans w') ty = queue_of (chans w) ty ++
      (if write_tx provider ==? ty then sent env ty (env_reply mid (routed_request n sid req)) w else []).

Definition refused (w w' : World) : Prop :=
  registry w' = registry w /\ ACTION_CORRELATION_SEQ w' = ACTION_CORRELATION_SEQ w /\
  chans w' = chans w /\ MSG_SEQ w' = MSG_SEQ w /\ event_bus w' = event_bus w.

Lemma route_action_spec ctx env msg mid sid req w :
  let '(o, w') := route_action ctx env msg mid sid req w in
  match o with
  | Some st => st <> ActionOk /\ refused w w'
  | None => routed ctx env msg mid sid req w w'
  end.
Proof.
  unfold route_action. rewrite bind_run. unfold eval, exec. cbn [gets fst snd].
  destruct (find_action_provider (areq_action req) (registry w)) as [|provider|ids] eqn:Hf; [done| |done].
  destruct (action_denied _ _ _ _) eqn:Hd; [done|].
  destruct (match action_caller_max_concurrent ctx with Some _ => _ | None => false end) eqn:Hcap; [done|].
  rewrite bind_run. unfold eval, exec.
  pose proof (action_limiter_frame env (sid, plugin_id provider) w) as Hl.
  destruct (action_limiter_grants env (sid, plugin_id provider) w) as [granted w1].
  destruct Hl as (L1 & L2 & L3 & L4 & L5). cbn [fst snd].
  destruct granted; simpl; [|unfold refused; split_and!; [done|congruence..]].
  rewrite bind_run. unfold eval, exec, fetch_action_seq. simpl.
  rewrite !bind_run. unfold eval, exec. simpl. rewrite L5.
  match goal with |- context [send_envelope env ?tx ?e ?w0] =>
    set (w2 := w0); destruct (send_envelope_spec env tx e w2) as [Hn Hq] end.
  unfold exec in Hn, Hq. exists provider.
  pose proof Hn as (N1 & _ & _ & N4 & _). split_and!; try done.
  - by apply not_denied.
  - intros cap Hc. rewrite Hc in Hcap. apply Z.leb_gt in Hcap. lia.
  - rewrite N1. simpl. by rewrite L1.
  - rewrite N4. simpl. by rewrite L5.
  - intros ty. rewrite Hq. unfold w2 at 1. simpl. rewrite L3. case_bool_decide; [|done]. subst ty.
    f_equal. apply sent_ext; simpl; [by rewrite L3|by rewrite L4].
Qed.

(** C2: a request for an action has exactly one of two outcomes.  Either it is
    refused: nothing changes but one response on the requester's own
    channel, with its own id and a non-OK status.  Or it is routed to the
    only plugin that declares the action: then the requester and the
    provider both hold the permission the action requires, the requester is
    under its concurrency cap, the slot is recorded under a fresh kernel id
    with the requester's channel and id and the routed provider, and the
    provider gets the request under the kernel id with the caller stamped
    from the connection, whatever the message claimed. *)
Theorem action_request_outcome ctx env msg mid req w :
  let sid := sender_id_of (m_conn_id msg) (registry w) in
  let '(errored, w') := run (handle_action_request ctx env msg mid req) w in
  errored = false /\ event_bus w' = event_bus w /\
  (routed ctx env msg mid sid req w w' \/
   exists st, st <> ActionOk /\ registry w' = registry w /\
     ACTION_CORRELATION_SEQ w' = ACTION_CORRELATION_SEQ w /\
     forall ty, queue_of (chans w') ty = queue_of (chans w) ty ++
       (if m_write_tx msg ==? ty then sent env ty (env_reply mid (refusal req st)) w else [])).
Proof.
  intros sid. unfold handle_action_request, run. rewrite bind_run. unfold eval, exec. cbn [gets fst snd].
  fold sid. rewrite bind_run. unfold eval, exec.
  pose proof (route_action_spec ctx env msg mid sid req w) as Hr.
  pose proof (route_action_bus ctx env msg mid sid req w) as Hbus. unfold same, exec in Hbus.
  destruct (route_action ctx env msg mid sid req w) as [[st|] w1]; cbn [fst snd] in *; rewrite bind_run.
  - destruct Hr as (Hst & R1 & R2 & R3 & R4 & R5). simpl.
    match goal with |- context [send_envelope env ?tx ?e] =>
      destruct (send_envelope_spec env tx e w1) as [Hn Hq] end.
    destruct Hn as (N1 & N2 & _ & N4 & _). split_and!; [done|by rewrite N2|].
    right. exists st. split_and!; [done|by rewrite N1|by rewrite N4|].
    intros ty. rewrite Hq, R3. case_bool_decide; [|done]. subst ty. f_equal. by apply sent_ext.
  - simpl. split_and!; [done|done|]. by left.
Qed.

Lemma kact_inj n m : kact n = kact m -> n = m.
Proof. unfold kact. intros Hx. by apply string_app_inj_l, show_inj in Hx. Qed.

(** The response a requester gets, under its own id. *)
Definition proxied (p : PendingAction) (resp : ActionResponse) : Payload :=
  PActionResponse (mkActionResponse (original_action_id p) (aresp_status resp) (aresp_data_json resp)
                     (aresp_error resp)).

(** C13: responses cannot be spoofed or stolen.  A response takes effect only
    if the sending connection is registered as the plugin the action was
    routed to; then exactly the recorded requester's channel gets it, under
    the requester's own id, and the slot is resolved as the registry
    specifies.  Any other response changes nothing at all. *)
Theorem action_response_routing env msg mid resp w :
  let r := registry w in
  let ok := aresp_status resp ==? action_status_i32 ActionOk in
  let '(errored, w') := run (handle_action_response env msg mid resp) w in
  errored = false /\
  match get_by_conn_id (m_conn_id msg) r, get_pending_action (aresp_action_id resp) r with
  | Some s, Some p =>
      if provider_id p ==? plugin_id s then
        registry w' = (resolve_action_response (instant (clk env)) (aresp_action_id resp) (plugin_id s) ok r).2 /\
        forall ty, queue_of (chans w') ty = queue_of (chans w) ty ++
          (if requester_write_tx p ==? ty then sent env ty (env_reply mid (proxied p resp)) w else [])
      else w' = w
  | _, _ => w' = w
  end.
Proof.
  intros r ok. unfold handle_action_response, run. rewrite bind_run. unfold eval, exec. cbn [gets fst snd].
  fold r ok. destruct (get_by_conn_id (m_conn_id msg) r) as [s|]; [|done].
  rewrite bind_run. unfold eval, exec. rewrite on_registry_run. cbn [fst snd]. fold r.
  unfold resolve_action_response, get_pending_action.
  destruct (pending_actions r !! aresp_action_id resp) as [p|]; [|by destruct w].
  destruct (bool_decide (provider_id p = plugin_id s)) eqn:Hp; simpl; [|by destruct w].
  destruct (ok && streaming p); simpl; rewrite bind_run; simpl;
    (match goal with |- context [exec (send_envelope env ?tx ?e) ?w0] =>
       destruct (send_envelope_spec env tx e w0) as [(N1 & _) Hq] end;
     split_and!; [done|by rewrite N1|]; intros ty; rewrite Hq; simpl;
     destruct (bool_decide (requester_write_tx p = ty)) eqn:Hty; [|done]; bools; subst ty;
     f_equal; by apply sent_ext).
Qed.

(** A stream chunk is never lost silently: when a requester's chunk names
    an action of its own that is in flight, either the provider's queue gets
    it, under the kernel id, and the slot is kept with its activity renewed,
    or the whole stream is aborted and its slot is gone. *)
Theorem request_chunk_not_lost env msg mid chunk w iid p :
  let r := registry w in
  find_pending (sender_id_of (m_conn_id msg) r) (rqc_action_id chunk) r = Some (iid, p) ->
  let w' := exec (handle_request_chunk env msg mid chunk) w in
  (exists provider f, get (provider_id p) r = Some provider /\
     stamped_frame env (env_reply mid (PActionRequestChunk (mkActionRequestChunk iid (rqc_seq chunk)
       (rqc_chunk chunk) (rqc_final chunk)))) w = Some f /\
     queue_of (chans w') (write_tx provider) = queue_of (chans w) (write_tx provider) ++ [OFrame f] /\
     get_pending_action iid (registry w') = Some (touch_pending (instant (clk env)) p)) \/
  get_pending_action iid (registry w') = None.
Proof.
  intros r Hf w'. assert (get_pending_action iid r = Some p) as Hp.
  { unfold find_pending in Hf. apply bind_Some in Hf as (i & _ & Hx). apply fmap_Some in Hx as (q & Hq & ?).
    by simplify_eq. }
  unfold w', handle_request_chunk. rewrite exec_gets. fold r. rewrite Hf. cbv beta iota.
  rewrite exec_bind, exec_ret, exec_bind, exec_gets.
  set (w1 := exec (modify _) w).
  assert (get (provider_id p) (registry w1) = get (provider_id p) r) as -> by done.
  assert (get_pending_action iid (registry w1) = Some (touch_pending (instant (clk env)) p)) as Hp1.
  { unfold w1, get_pending_action. simpl. rewrite lookup_alter, decide_True by done.
    unfold get_pending_action in Hp. unfold r in Hp. by rewrite Hp. }
  assert (forall reason w2, registry w2 = registry w1 ->
            get_pending_action iid (registry (exec (abort_stream env iid reason) w2)) = None) as Hab.
  { intros reason w2 Hw2. unfold abort_stream. rewrite exec_bind.
    unfold eval, exec. rewrite on_registry_run. simpl. rewrite Hw2.
    unfold get_pending_action in Hp1. rewrite Hp1.
    match goal with |- context [notify_forced_termination ?a ?b ?c ?d ?w0] =>
      pose proof (notify_net a b c d w0) as (N1 & _) end.
    unfold exec in N1. unfold get_pending_action. rewrite N1. simpl. apply lookup_delete_eq. }
  destruct (get (provider_id p) r) as [provider|] eqn:Hg; [|right; by apply Hab].
  rewrite exec_bind.
  match goal with |- context [try_send_envelope env ?tx ?e] =>
    pose proof (try_send_envelope_spec env tx e w1) as Hs; unfold eval, exec;
    destruct (try_send_envelope env tx e w1) as [b w2] end.
  destruct Hs as (Hn & Hq & Hb). cbn [fst snd]. pose proof Hn as (N1 & _).
  destruct b; [|right; by apply (Hab "receiver backpressure" w2)].
  left. symmetry in Hb. apply andb_prop in Hb as [Hb1 Hb2].
  match type of Hb1 with is_some (stamped_frame env ?e w1) = true => set (e0 := e) in * end.
  assert (stamped_frame env e0 w1 = stamped_frame env e0 w) as Hsf by done. rewrite Hsf in Hb1.
  destruct (stamped_frame env e0 w) as [f|] eqn:Ef; [|done]. exists provider, f.
  split_and!; [done|done| |simpl; by rewrite N1].
  simpl. rewrite Hq, bool_decide_eq_true_2 by done. unfold sent. by rewrite Hsf, Hb2.
Qed.

(** The prune tick leaves no slot overdue.  After it, no request that is
    not an accepted session is past its deadline and, when an idle timeout is
    configured, no accepted session is idle beyond it; every other slot is
    kept unchanged and plugins, connections and devices are untouched. *)
Theorem prune_tick_sweeps ctx env w k p :
  let now := instant (clk env) in
  let w' := exec (prune_tick ctx env) w in
  same_core (registry w) (registry w') /\
  (get_pending_action k (registry w') = Some p <->
   get_pending_action k (registry w) = Some p /\ is_expired now p = false /\
   forall idle, session_idle_timeout_secs ctx = Some idle -> is_idle now (secs idle) p = false).
Proof.
  intros now w'.
  set (r1 := (sweep_expired_actions now (registry w)).2).
  assert (registry w' = match session_idle_timeout_secs ctx with
          | Some idle => (sweep_idle_sessions now (secs idle) r1).2 | None => r1 end) as Hr.
  { unfold w', prune_tick. fold now. rewrite !exec_bind, eval_on_registry, exec_on_registry.
    set (w1 := upd_registry _ _).
    match goal with |- context [for_each ?f ?l] => set (loop := for_each f l) end.
    assert (registry (exec loop w1) = r1) as Hloop.
    { assert (keeps net_only loop) as Hk by (apply keeps_for_each; [apply _|intros ? _; apply send_envelope_net]).
      by rewrite (net_only_registry _ _ (Hk w1)). }
    destruct (session_idle_timeout_secs ctx) as [idle|]; [|by rewrite exec_ret].
    rewrite exec_bind, eval_on_registry, exec_on_registry, Hloop.
    match goal with |- context [for_each ?f ?l] =>
      assert (keeps net_only (for_each f l)) as Hk by (apply keeps_for_each; [apply _|intros ? _; apply notify_net]) end.
    match goal with |- registry (exec _ ?w2) = _ => by rewrite (net_only_registry _ _ (Hk w2)) end. }
  assert (same_core (registry w) r1) as Hc1 by apply sweep_expired_core.
  assert (forall k p, get_pending_action k r1 = Some p <->
            get_pending_action k (registry w) = Some p /\ is_expired now p = false) as Hx.
  { intros k' p'. unfold r1, sweep_expired_actions, get_pending_action.
    destruct (sweep_spec (is_expired now) (registry w)) as (X1 & _). destruct (take_all _ _). simpl in *.
    rewrite X1. simpl. by rewrite map_lookup_filter_Some. }
  rewrite Hr. destruct (session_idle_timeout_secs ctx) as [idle|].
  - split.
    + destruct Hc1 as (?&?&?&?&?). pose proof (take_all_core ((filter (fun kp => is_idle now (secs idle) kp.2 = true)
        (map_iter (pending_actions r1))).*1) r1) as (?&?&?&?&?).
      unfold sweep_idle_sessions. unfold same_core. split_and!; congruence.
    + unfold sweep_idle_sessions. destruct (sweep_spec (is_idle now (secs idle)) r1) as (I1 & _).
      rewrite I1. unfold get_pending_action at 1. simpl. rewrite map_lookup_filter_Some. simpl.
      change (pending_actions r1 !! k = Some p) with (get_pending_action k r1 = Some p).
      rewrite Hx. naive_solver.
  - split; [done|]. rewrite Hx. naive_solver.
Qed.

(** The gate on kernel commands.  A plugin without the admin permission
    gets a permission-denied acknowledgement for every command but the three
    read-only ones, and only those are then dispatched; in every case the
    command changes no state of the kernel and only the sender's channel
    gets the acknowledgement. *)
Theorem kernel_command_gate ctx env msg mid cmd w :
  let r := registry w in
  let sid := sender_id_of (m_conn_id msg) r in
  let admin := exists e, get sid r = Some e /\ holds e PermissionKernelAdmin in
  let '(errored, w') := run (handle_kernel_command ctx env msg mid cmd) w in
  errored = false /\ net_only w w' /\
  exists out,
    (forall ty, queue_of (chans w') ty = queue_of (chans w) ty ++
       (if m_write_tx msg ==? ty then
          sent env ty (env_reply mid (PKernelCommandAck (mkKernelCommandAck (cmd_command_id cmd)
            (command_status_i32 (out_status out)) (out_data_json out) (out_error out)))) w
        else [])) /\
    (admin \/ cmd_command cmd ∈ ["health_check"; "list_plugins"; "get_manifest"] ->
     out = dispatch (config_io ctx) (cmd_command cmd) r (start_time ctx) (instant (clk env))
             (config_path ctx) (cmd_params_json cmd)) /\
    (~ admin -> cmd_command cmd ∉ ["health_check"; "list_plugins"; "get_manifest"] ->
     out = mkOutcome CommandPermissionDenied [] (sid +:+ " lacks PERMISSION_KERNEL_ADMIN")).
Proof.
  intros r sid admin. unfold handle_kernel_command, run. rewrite bind_run. unfold eval, exec. cbn [gets fst snd].
  fold r sid. set (out := if negb _ && _ then _ else _). rewrite bind_run. simpl.
  match goal with |- context [exec (send_envelope env ?tx ?e) w] =>
    destruct (send_envelope_spec env tx e w) as [Hn Hq] end.
  split_and!; [done|done|]. exists out. split_and!.
  - intros ty. rewrite Hq. by case_bool_decide; subst.
  - intros Hok. unfold out. destruct (negb _) eqn:Hro; [|done].
    apply negb_true_iff, bool_decide_eq_false_1 in Hro. destruct Hok as [Hadm|?]; [|done].
    apply check_permission_Ok in Hadm. unfold is_err. by rewrite Hadm.
  - intros Hna Hro. unfold out. rewrite bool_decide_eq_false_2 by done. simpl.
    destruct (is_err (check_permission r sid PermissionKernelAdmin)) eqn:He; [done|].
    apply not_denied_holds in He. done.
Qed.

(** A plugin can only publish events in its own namespace.  Without the
    publish permission nothing is published and no store changes; with it
    the event is published once, under the type
    [plugin.<sender>.<declared type>] with the sender taken from the
    connection, and under an id that carries the sender and a fresh
    sequence number. *)
Theorem event_publish_namespaced env msg mid req w :
  let r := registry w in
  let sid := sender_id_of (m_conn_id msg) r in
  let ack st eid := env_reply mid (PEventPublishAck (mkEventPublishAck eid (publish_status_i32 st) EmptyString)) in
  let w' := exec (handle_event_publish env msg mid req) w in
  if is_err (check_permission r sid PermissionEventPublish) then
    w' = exec (send_envelope env (m_write_tx msg) (ack EventPublishPermissionDeny EmptyString)) w /\
    stores w' = stores w
  else
    let eid := "evt-" +:+ sid +:+ "-" +:+ show (unix_ms (clk env)) +:+ "-" +:+ show (EVENT_PUBLISH_SEQ w) in
    let ev := mkEvent eid ("plugin." +:+ sid +:+ "." +:+ pub_event_type req) (pub_payload_json req) 0 in
    w' = exec (send_envelope env (m_write_tx msg) (ack EventPublishOk eid))
           (exec (publish env ev) (upd_event_seq u64_succ w)) /\
    EVENT_PUBLISH_SEQ w' = u64_succ (EVENT_PUBLISH_SEQ w) /\ registry w' = r.
Proof.
  intros r sid ack w'. unfold w', handle_event_publish. rewrite exec_gets. fold r sid.
  destruct (is_err (check_permission r sid PermissionEventPublish)) eqn:He.
  - rewrite exec_bind, exec_bind, exec_ret. split; [done|].
    match goal with |- context [exec (send_envelope env ?tx ?e) ?w0] =>
      pose proof (send_envelope_net env tx e w0) as (_&_&Hs&_) end. exact Hs.
  - cbv zeta. set (ev := mkEvent _ _ _ _).
    rewrite exec_bind, exec_bind, exec_ret. rewrite !exec_bind, !eval_bind.
    set (w1 := exec (publish env ev) (upd_event_seq u64_succ w)).
    assert (registry w1 = r /\ EVENT_PUBLISH_SEQ w1 = u64_succ (EVENT_PUBLISH_SEQ w)) as [R1 R2].
    { destruct (publish_stores env ev (upd_event_seq u64_succ w)) as (_&E1&_&_&E2&_). done. }
    split; [done|].
    match goal with |- context [exec (send_envelope env ?tx ?e) ?w0] =>
      pose proof (send_envelope_net env tx e w0) as (N1&_&_&_&N5&_) end.
    split; [etrans; [exact N5|exact R2]|etrans; [exact N1|exact R1]].
Qed.

(** A direct request to a device capability takes whatever pending slot
    its own action id names: the requester, not the kernel, chooses the key,
    so the slot of another caller's in-flight action is overwritten. *)
Theorem direct_request_overwrites_slot ctx env msg target w e req :
  decode_envelope (f_payload (m_frame msg)) = Some e -> payload e = Some (PActionRequest req) ->
  is_empty (areq_action req) = true -> contains_char "." target = true ->
  is_Some (get_mux target (registry w)) ->
  eval (forward ctx env msg target) w = false ->
  exists p, get_pending_action (areq_action_id req) (registry (exec (forward ctx env msg target) w)) = Some p /\
            requester_id p = sender_id_of (m_conn_id msg) (registry w) /\
            requester_write_tx p = m_write_tx msg.
Proof.
  intros Hd Hp Ha Hdot [t Ht]. unfold forward. rewrite eval_gets, exec_gets. unfold sender_id_of.
  destruct (get_by_conn_id (m_conn_id msg) (registry w)) as [s|]; [|by rewrite eval_bind].
  destruct (is_err _); [by rewrite eval_bind|]. destruct (get (plugin_id s) (registry w)) as [e1|]; [|by rewrite eval_bind].
  rewrite Ht. destruct (negb _); [by rewrite eval_bind|]. destruct (negb _); [by rewrite eval_bind|].
  destruct (audio_denied _ _ _); [by rewrite eval_bind|]. intros _.
  rewrite exec_bind, exec_bind, exec_ret. unfold register_direct_pending. rewrite Hd, Hp, Ha, Hdot.
  cbn [andb]. set (w1 := exec (modify _) w).
  pose proof (chan_try_send_net (write_tx t) (out_frame (strip_mac (m_frame msg))) w1) as (N1 & _).
  eexists. unfold get_pending_action. rewrite N1. split; [apply lookup_insert_eq|done].
Qed.

End Props.
