(* ===== verification/RegisterProps.v ===== *)
(** * Registration through the router

    What a registration proves about the plugin: its token, its device
    credential, the clamp of its permissions, and the order in which the
    frame MAC is armed. *)

From S2P Require Import Prelude Wire Toy Text Channel Registry RegistryFacts Permissions Jwt DeviceStore EventStore World EventBus Commands Router RouterFacts RouterProps.

Open Scope Z_scope.

Section Props.
Context `{HashIter} `{WireCrate} `{Governor} `{SerdeJson} `{JwtCrate} `{StoreCrates}.

(** ** Lemmas *)

Lemma do_register_spec env msg reg mf r :
  match do_register env msg reg mf r with
  | (Err _, r') => r' = r
  | (Ok _, r') =>
      get (reg_plugin_id reg) r = None /\
      exists e, get (reg_plugin_id reg) r' = Some e /\ conn_id e = m_conn_id msg /\
        write_tx e = m_write_tx msg /\ permissions (manifest e) = permissions mf /\
        ipc_targets (manifest e) = ipc_targets mf
  end.
Proof.
  unfold do_register. destruct (is_mux_device reg) eqn:Hm.
  - destruct (register_device _ _ _ _ _ _ _ r) as [[[]|e] r'] eqn:E.
    + apply register_device_add in E as (_ & _ & Hp & e & -> & E1 & E2 & E3 & E4 & _).
      unfold is_mux_device in Hm. bools. unfold get.
      match goal with Hx : reg_plugin_id reg = _ |- _ => rewrite Hx end.
      split; [done|]. exists e. destruct (add_entry_fields (clk env) e (reg_meta reg) (reg_capabilities reg) r) as (->&_).
      rewrite E1, lookup_insert_eq, E3. done.
    + by apply register_device_err in E.
  - destruct (register_with_device _ _ _ _ _ _ r) as [[[]|e] r'] eqn:E.
    + apply register_with_device_add in E as (_ & _ & Hp & e & -> & E1 & E2 & E3 & E4 & _).
      unfold get. split; [done|]. exists e.
      destruct (add_entry_fields (clk env) e (reg_meta reg) (meta_capabilities (reg_meta reg)) r) as (->&_).
      rewrite E1, lookup_insert_eq, E3. done.
    + by apply register_with_device_err in E.
Qed.

(** The three checks passed and the registry was asked. *)
Definition admitted ctx env reg mf ds : Prop :=
  check_protocol reg = None /\
  check_jwt ctx env reg (default default_manifest (reg_manifest reg)) = Ok mf /\
  check_device ctx env reg = Ok ds.

Lemma handle_register_run ctx env msg mid reg w :
  let '(errored, w') := run (handle_register ctx env msg mid reg) w in
  if errored : bool then only_chan (m_write_tx msg) w w'
  else exists mf ds, admitted ctx env reg mf ds /\
    let res := do_register env msg reg (clamp_permissions ctx (reg_plugin_id reg) mf) (registry w) in
    w' = exec (finish_register ctx env msg mid reg ds res.1) (upd_registry (fun _ => res.2) w).
Proof.
  unfold handle_register, run. destruct (check_protocol reg) eqn:Hp; [apply err_reply_case|].
  destruct (check_jwt _ _ _ _) as [mf|reason] eqn:Hj.
  2: { rewrite bind_run. simpl. apply send_envelope_only. }
  destruct (check_device ctx env reg) as [ds|reason] eqn:Hd.
  2: { rewrite bind_run. simpl. apply send_envelope_only. }
  rewrite bind_run. simpl. rewrite bind_run. simpl. exists mf, ds. split; [done|].
  rewrite exec_on_registry, eval_on_registry. done.
Qed.

Lemma clamp_subset ctx pid mf p : p ∈ permissions (clamp_permissions ctx pid mf) -> p ∈ permissions mf.
Proof.
  unfold clamp_permissions. destruct (config_permissions ctx ≫= lookup pid) as [allowed|]; [|done].
  case_bool_decide; [done|]. simpl. rewrite list_elem_of_filter. naive_solver.
Qed.

Lemma clamp_targets ctx pid mf : ipc_targets (clamp_permissions ctx pid mf) = ipc_targets mf.
Proof. unfold clamp_permissions. repeat case_match; done. Qed.

Lemma clamp_allowed ctx pid mf cfg allowed p :
  config_permissions ctx = Some cfg -> cfg !! pid = Some allowed -> allowed <> [] ->
  p ∈ permissions (clamp_permissions ctx pid mf) ->
  exists a, a ∈ allowed /\ normalize_permission a = normalize_permission p.
Proof.
  intros Hc Ha Hne. unfold clamp_permissions. rewrite Hc. simpl. rewrite Ha.
  rewrite bool_decide_eq_false_2 by done. simpl.
  rewrite list_elem_of_filter, elem_of_list_to_set, list_elem_of_fmap. naive_solver.
Qed.

(** What the token check guarantees. *)
Lemma check_jwt_Ok ctx env reg mf0 mf jv :
  check_jwt ctx env reg mf0 = Ok mf -> jwt_validator ctx = Some jv ->
  exists c, validate jv (unix_secs (clk env)) (reg_jwt_token reg) = Ok c /\
    (sub c = reg_plugin_id reg \/ (reg_device_id reg <> EmptyString /\ sub c = reg_device_id reg)) /\
    permissions mf = claim_permissions c /\ ipc_targets mf = claim_ipc_targets c.
Proof.
  unfold check_jwt. intros Hc Hjv. rewrite Hjv in Hc.
  destruct (validate _ _ _) as [c|]; [|done].
  destruct (negb (bool_decide (sub c = reg_plugin_id reg)) && _) eqn:Hs; simplify_eq/=.
  exists c. split_and!; try done. unfold is_empty in Hs.
  destruct (decide (sub c = reg_plugin_id reg)); [by left|].
  rewrite (bool_decide_eq_false_2 (sub c = reg_plugin_id reg)) in Hs by done. simpl in Hs. bools. by right.
Qed.

Lemma check_device_Ok ctx env reg ds secret :
  check_device ctx env reg = Ok ds -> mac_secret ctx = Some secret ->
  if is_empty (reg_device_id reg) then ds = None
  else match device_store ctx with
       | None => ds = None
       | Some key => exists s, active_secret key (unix_secs (clk env)) (reg_device_id reg) (device_file env)
                                 = Returns (Ok (Some s)) /\ ds = Some (string_bytes s)
       end.
Proof.
  unfold check_device. intros Hd Hm. rewrite Hm in Hd. simpl in Hd.
  destruct (is_empty (reg_device_id reg)); simplify_eq/=; [done|].
  destruct (device_store ctx) as [key|]; simplify_eq; [|done].
  destruct (active_secret _ _ _ _) as [[[s|]|]|]; simplify_eq. eauto.
Qed.

(** C3: an admitted registration is authorised.  When a plugin appears in the
    registry through a registration message, then: if tokens are required,
    its token validated, was issued for that plugin id or for the device id
    it declares, its permissions are among the token's and its IPC targets
    are the token's; if the operator restricted the plugin's permissions,
    each of its permissions is in the operator's list up to spelling; if it
    declares a device on a kernel with device credentials, that device's
    credential is active; and it is bound to the sending connection.  A
    registration that is refused leaves the registry as it was. *)
Theorem registration_authorised ctx env msg mid reg w e :
  let w' := exec (handle_register ctx env msg mid reg) w in
  let pid := reg_plugin_id reg in
  get pid (registry w) = None -> get pid (registry w') = Some e ->
  conn_id e = m_conn_id msg /\ write_tx e = m_write_tx msg /\
  (forall jv, jwt_validator ctx = Some jv ->
     exists c, validate jv (unix_secs (clk env)) (reg_jwt_token reg) = Ok c /\
       (sub c = pid \/ (reg_device_id reg <> EmptyString /\ sub c = reg_device_id reg)) /\
       (forall p, p ∈ permissions (manifest e) -> p ∈ claim_permissions c) /\
       ipc_targets (manifest e) = claim_ipc_targets c) /\
  (forall cfg allowed, config_permissions ctx = Some cfg -> cfg !! pid = Some allowed -> allowed <> [] ->
     forall p, p ∈ permissions (manifest e) ->
       exists a, a ∈ allowed /\ normalize_permission a = normalize_permission p) /\
  (forall secret key, mac_secret ctx = Some secret -> device_store ctx = Some key ->
     reg_device_id reg <> EmptyString ->
     exists s, active_secret key (unix_secs (clk env)) (reg_device_id reg) (device_file env)
               = Returns (Ok (Some s))).
Proof.
  intros w' pid Hnone Hget.
  pose proof (handle_register_run ctx env msg mid reg w) as Hr. unfold w', exec in Hget. unfold run in Hr.
  destruct (handle_register ctx env msg mid reg w) as [errored w2]. simpl in Hget.
  destruct errored; [destruct Hr as [(E & _) _]; rewrite E in Hget; congruence|].
  destruct Hr as (mf & ds & (_ & Hj & Hd) & Hw). cbv zeta in Hw.
  pose proof (do_register_spec env msg reg (clamp_permissions ctx pid mf) (registry w)) as Hdo. fold pid in Hw, Hdo.
  assert (registry w2 = (do_register env msg reg (clamp_permissions ctx pid mf) (registry w)).2) as Hreg.
  { rewrite Hw. apply finish_register_registry. }
  rewrite Hreg in Hget. destruct (do_register _ _ _ _ _) as [[[]|] r']; simpl in Hget; [|congruence].
  destruct Hdo as (_ & e' & He' & Hc & Htx & Hperm & Htgt). rewrite Hget in He'. injection He' as <-.
  split_and!; [done|done|..].
  - intros jv Hjv. destruct (check_jwt_Ok _ _ _ _ _ _ Hj Hjv) as (c & Hv & Hsub & Hcp & Hct).
    exists c. split_and!; [done|done| |].
    + intros p. rewrite Hperm, <- Hcp. apply clamp_subset.
    + by rewrite Htgt, clamp_targets.
  - intros cfg allowed Hcfg Hal Hne p. rewrite Hperm. by apply clamp_allowed with cfg.
  - intros secret key Hm Hk Hdev. pose proof (check_device_Ok _ _ _ _ _ Hd Hm) as Hx.
    unfold is_empty in Hx. rewrite bool_decide_eq_false_2, Hk in Hx by done. destruct Hx as (s & ? & _). eauto.
Qed.

(** ** The order of the acknowledgement and the MAC *)

Definition is_open (cs : Chans) (tx : ChanId) : bool :=
  match cs !! tx with Some c => chan_open c | None => false end.

Lemma try_send_open tx o cs : is_open (try_send tx o cs).2 tx = is_open cs tx.
Proof.
  unfold try_send, is_open. destruct (cs !! tx) as [c|] eqn:E; simpl; [|by rewrite E].
  destruct (chan_open c) eqn:Ho; simpl; [|by rewrite E]. destruct (_ <? _)%nat; simpl; rewrite ?E; [|done].
  by rewrite lookup_insert_eq.
Qed.

Lemma send_envelope_open env tx e w :
  is_open (chans (exec (send_envelope env tx e) w)) tx = is_open (chans w) tx.
Proof.
  unfold send_envelope. rewrite exec_bind. unfold eval, exec. rewrite build_outbound_spec. simpl.
  set (w1 := if is_empty (message_id e) then _ else w).
  assert (chans w1 = chans w) as Hc by (unfold w1; by destruct (is_empty _)).
  destruct (stamped_frame env e w) as [f|]; simpl; [|by rewrite Hc].
  rewrite bind_run. simpl. unfold exec, chan_try_send. rewrite Hc.
  pose proof (try_send_open tx (OFrame f) (chans w)) as Ho. by destruct (try_send tx (OFrame f) (chans w)).
Qed.

Lemma send_await_queue tx o cs :
  is_open cs tx = true -> queue_of (send_await tx o cs).2 tx = queue_of cs tx ++ [o].
Proof.
  unfold is_open, send_await, queue_of. destruct (cs !! tx) as [c|] eqn:E; [|done]. intros ->. simpl.
  by rewrite lookup_insert_eq.
Qed.

(** The acknowledgement of a successful registration. *)
Definition ok_ack (env : Env) (pid : string) (r : PluginRegistry) : PluginRegisterAck :=
  mkPluginRegisterAck true EmptyString
    (match get pid r with Some e => permissions (manifest e) | None => [] end) (fresh_nonce env).

Lemma finish_register_queue ctx env msg mid reg ds secret w :
  mac_secret ctx = Some secret -> is_open (chans w) (m_write_tx msg) = true ->
  exists l,
    queue_of (chans (exec (finish_register ctx env msg mid reg ds (Ok tt)) w)) (m_write_tx msg) =
    queue_of (chans w) (m_write_tx msg) ++
    sent env (m_write_tx msg) (env_reply mid (PPluginRegisterAck (ok_ack env (reg_plugin_id reg) (registry w)))) w ++
    OEnableMac (derive_session_key (match ds with Some s => s | None => secret end) (fresh_nonce env)
                  (reg_plugin_id reg)) (m_session_key msg) :: l.
Proof.
  intros Hm Ho. unfold finish_register. rewrite Hm. cbn [is_some is_ok andb].
  rewrite exec_gets, exec_bind. fold (ok_ack env (reg_plugin_id reg) (registry w)).
  set (ack := env_reply mid _).
  destruct (send_envelope_spec env (m_write_tx msg) ack w) as [_ Hq].
  pose proof (send_envelope_open env (m_write_tx msg) ack w) as Ho1. rewrite Ho in Ho1.
  set (w1 := exec (send_envelope env (m_write_tx msg) ack) w) in *.
  rewrite exec_bind. set (w2 := exec (chan_send_await _ _) w1).
  assert (queue_of (chans w2) (m_write_tx msg) = queue_of (chans w) (m_write_tx msg) ++
            sent env (m_write_tx msg) ack w ++
            [OEnableMac (derive_session_key (match ds with Some s => s | None => secret end) (fresh_nonce env)
                  (reg_plugin_id reg)) (m_session_key msg)]) as Hq2.
  { change (chans w2) with (send_await (m_write_tx msg)
      (OEnableMac (derive_session_key (match ds with Some s => s | None => secret end) (fresh_nonce env)
                  (reg_plugin_id reg)) (m_session_key msg)) (chans w1)).2.
    rewrite send_await_queue by done. rewrite Hq, bool_decide_eq_true_2 by done. by rewrite app_assoc. }
  rewrite exec_gets.
  match goal with |- context [exec (publish env ?ev) w2] =>
    destruct (publish_grows env ev w2 (m_write_tx msg)) as [l Hl] end.
  exists l. rewrite Hl, Hq2. by rewrite <- !app_assoc.
Qed.

(** C14: the frame MAC is armed after the acknowledgement, with the right key.
    When a registration succeeds on a kernel with authentication, the
    connection's queue receives the (still untagged) acknowledgement first
    and the activation of the MAC right behind it, before any later frame;
    the key comes from the device's own credential if the registration is
    device-scoped and credentials are kept, from the master secret
    otherwise, and from the nonce the acknowledgement carries. *)
Theorem mac_armed_after_ack ctx env msg mid reg w secret :
  let w' := exec (handle_register ctx env msg mid reg) w in
  let pid := reg_plugin_id reg in
  let tx := m_write_tx msg in
  mac_secret ctx = Some secret -> is_open (chans w) tx = true ->
  get pid (registry w) = None -> is_Some (get pid (registry w')) ->
  exists ack ikm l,
    queue_of (chans w') tx = queue_of (chans w) tx ++
      sent env tx (env_reply mid (PPluginRegisterAck ack)) w ++
      OEnableMac (derive_session_key ikm (fresh_nonce env) pid) (m_session_key msg) :: l /\
    accepted ack = true /\ session_nonce ack = fresh_nonce env /\
    match device_store ctx with
    | Some key =>
        if is_empty (reg_device_id reg) then ikm = secret
        else exists s, active_secret key (unix_secs (clk env)) (reg_device_id reg) (device_file env)
                         = Returns (Ok (Some s)) /\ ikm = string_bytes s
    | None => ikm = secret
    end.
Proof.
  intros w' pid tx Hm Ho Hnone Hget.
  pose proof (handle_register_run ctx env msg mid reg w) as Hr. unfold w', exec in *. unfold run in Hr.
  destruct (handle_register ctx env msg mid reg w) as [errored w2]. cbn [snd] in *.
  destruct errored; [destruct Hr as [(E & _) _]; rewrite E in Hget; by destruct Hget; congruence|].
  destruct Hr as (mf & ds & (_ & _ & Hd) & Hw). cbv zeta in Hw. fold pid in Hw.
  pose proof (do_register_spec env msg reg (clamp_permissions ctx pid mf) (registry w)) as Hdo. fold pid in Hdo.
  destruct (do_register env msg reg (clamp_permissions ctx pid mf) (registry w)) as [[[]|err] r'] eqn:Hdr; cbn [fst snd] in Hw.
  - destruct (finish_register_queue ctx env msg mid reg ds secret (upd_registry (fun _ => r') w) Hm Ho) as [l Hl].
    exists (ok_ack env pid r'), (match ds with Some s => s | None => secret end), l.
    split_and!; [|done|done|].
    + rewrite Hw. exact Hl.
    + pose proof (check_device_Ok _ _ _ _ _ Hd Hm) as Hx.
      destruct (device_store ctx) as [key|]; destruct (is_empty (reg_device_id reg)); try by subst ds.
      destruct Hx as (s & Hs & ->). eauto.
  - exfalso. assert (registry w2 = r') as E by (rewrite Hw; apply finish_register_registry).
    rewrite E, Hdo in Hget. by destruct Hget; congruence.
Qed.

End Props.
