(* ===== verification/RouterRuns.v ===== *)
(** * Runs of the router

    A small kernel with three plugins on the concrete wire crate: the
    theorems on the router, applied to it. *)

From S2P Require Import Prelude Wire Toy Text Channel Registry RegistryFacts Permissions Jwt DeviceStore EventStore World EventBus Commands Router RouterFacts RouterProps ActionProps RegisterProps.

Open Scope Z_scope.

Module Runs.

(** Inbound payloads, by index. *)
Definition new_manifest : PluginManifest :=
  mkManifest ["PERMISSION_NETWORK"; "ipc_send"] ["fetch"] [] [] [] [].

Definition table : list Envelope :=
  [ env_of (PPluginRegister (mkPluginRegister "new" "1.0.0" (Some new_manifest) EmptyString EmptyString
              EmptyString 0 EmptyString EmptyString [] "1.2"));
    env_of (PPing 5);
    env_of (PActionRequest (mkActionRequest "kact-0" EmptyString [] 0 false EmptyString));
    env_of (PActionRequestChunk (mkActionRequestChunk "a1" 0 [42] false)) ].

#[local] Instance wire : WireCrate := toy_wire table.
#[local] Instance iter : HashIter := canonical_iter.
#[local] Instance gov : Governor := open_governor.
#[local] Instance json : SerdeJson := toy_json.
#[local] Instance jwt : JwtCrate := JwtRuns.crate.
#[local] Instance store : StoreCrates := CredentialRuns.crates.

Definition env : Env := mkEnv (mkClock 1000 5000) [9; 9] true FAbsent.

Definition ctx : Ctx :=
  mkCtx None 0 None None (Some [1; 2; 3]) (Some {["new" := ["network"]]}) (Some 4) 30000 3 16 (Some 60)
    None false (mkConfigIo (fun _ => Err "unreadable") (fun _ => false)).

(** [app] may talk to the device [phone]; [phone] offers the camera. *)
Definition app_manifest : PluginManifest := mkManifest ["ipc_send"] [] [] ["phone"] [] [].

Definition reg1 : PluginRegistry :=
  (register_with_device (clk env) "app" 1 app_manifest 101
     (mkDeviceMeta EmptyString EmptyString OsLinux EmptyString EmptyString []) registry_new).2.
Definition reg2 : PluginRegistry :=
  (register_device (clk env) "phone" 2 ["cam"] default_manifest 102
     (mkDeviceMeta "phone" EmptyString OsAndroid EmptyString EmptyString ["cam"]) reg1).2.
Definition reg3 : PluginRegistry :=
  (register_with_device (clk env) "tts" 3 default_manifest 103
     (mkDeviceMeta EmptyString EmptyString OsLinux EmptyString EmptyString []) reg2).2.

(** A slot of [tts] and one of [app], both with the provider [phone]. *)
Definition slot (tx : ChanId) (orig req : string) : PendingAction :=
  mkPending tx orig req 900000 "phone" true false 1000.
Definition reg : PluginRegistry :=
  register_pending_action "kact-1" (slot 101 "a1" "app")
    (register_pending_action "kact-0" (slot 103 "t1" "tts") reg3).

Definition chan : Chan := mkChan 64 true [].
Definition w : World :=
  mkWorld reg bus_new ∅ {[101 := chan; 102 := chan; 103 := chan; 109 := chan]} 0 2 0 None None ∅ [].

Definition frame (target : string) (i : Z) : Frame := build_frame target 0 [i].
Definition incoming (cid tx : Z) (target : string) (i : Z) : IncomingMessage :=
  mkIncoming cid (frame target i) tx tx.

Lemma reg_reachable : registry_reachable reg.
Proof.
  unfold registry_reachable. eapply rtc_r; [|apply step_pending]. eapply rtc_r; [|apply step_pending].
  eapply rtc_r; [|apply step_register]. eapply rtc_r; [|apply step_register_device].
  apply rtc_once, step_register.
Defined.

Lemma router_preserves_witness :
  let w' := foldl (fun w ei => exec (router_step ctx ei.1 ei.2) w) w
              [(env, Incoming (incoming 9 109 "kernel" 0)); (env, Tick)] in
  is_Some (get "new" (registry w')) /\ registry_ok (registry w').
Proof.
  cbv zeta. split; [by eexists; vm_compute|].
  apply (router_preserves_invariants ctx
    [(env, Incoming (incoming 9 109 "kernel" 0)); (env, Tick)] w); [apply reg_reachable|reflexivity].
Defined.

Lemma unregistered_witness :
  let '(errored, w') := run (route ctx env (incoming 9 109 "kernel" 1) "kernel") w in
  errored = true /\ only_chan 109 w w'.
Proof.
  apply (unregistered_is_inert ctx env (incoming 9 109 "kernel" 1) "kernel" w); [vm_compute; reflexivity|].
  intros e _ He. vm_compute in He. by simplify_eq.
Defined.

(** A connection over its budget of three: a ping is dropped without a trace. *)
Definition w_over : World := upd_error_counts (fun _ => {[1 := (3, 1000)]}) w.

Lemma error_budget_witness :
  throttled ctx (incoming 1 101 "kernel" 1) w_over = true /\
  exec (handle_message ctx env (incoming 1 101 "kernel" 1)) w_over = w_over.
Proof.
  split; [vm_compute; reflexivity|].
  pose proof (error_budget_step ctx env (incoming 1 101 "kernel" 1) "kernel" w_over) as Hx.
  apply Hx; [reflexivity|vm_compute; reflexivity|by vm_compute].
Defined.

(** The same connection with an unreadable target gets its reply. *)
Definition bad : IncomingMessage :=
  mkIncoming 1 (mkFrame FRAME_MAGIC 0 0 [200] 0 [] None) 101 101.

Lemma invalid_target_witness :
  error_counts (exec (handle_message ctx env bad) w_over) = {[1 := (3, 1000)]} /\
  length (queue_of (chans (exec (handle_message ctx env bad) w_over)) 101) = 1%nat.
Proof.
  destruct (invalid_target_escapes_budget ctx env bad w_over) as [Hc Hq];
    [reflexivity|vm_compute; reflexivity|].
  split; [exact Hc|]. change (m_write_tx bad) with 101 in Hq. rewrite Hq. vm_compute. reflexivity.
Defined.

Lemma request_chunk_witness :
  let w' := exec (handle_request_chunk env (incoming 1 101 "kernel" 3) EmptyString
                    (mkActionRequestChunk "a1" 0 [42] false)) w in
  length (queue_of (chans w') 102) = 1%nat /\
  ((exists provider f, get "phone" reg = Some provider /\
      stamped_frame env (env_reply EmptyString (PActionRequestChunk (mkActionRequestChunk "kact-1" 0 [42] false))) w
        = Some f /\
      queue_of (chans w') (write_tx provider) = queue_of (chans w) (write_tx provider) ++ [OFrame f] /\
      get_pending_action "kact-1" (registry w') = Some (touch_pending 1000 (slot 101 "a1" "app"))) \/
   get_pending_action "kact-1" (registry w') = None).
Proof.
  cbv zeta. split; [vm_compute; reflexivity|].
  apply (request_chunk_not_lost env (incoming 1 101 "kernel" 3) EmptyString
           (mkActionRequestChunk "a1" 0 [42] false) w "kact-1" (slot 101 "a1" "app")).
  vm_compute. reflexivity.
Defined.

(** [app] names the slot of [tts] and takes it. *)
Lemma direct_request_witness :
  get_pending_action "kact-0" (registry w) = Some (slot 103 "t1" "tts") /\
  exists p, get_pending_action "kact-0" (registry (exec (forward ctx env (incoming 1 101 "phone.cam" 2) "phone.cam") w))
              = Some p /\ requester_id p = "app" /\ requester_write_tx p = 101.
Proof.
  split; [vm_compute; reflexivity|].
  destruct (direct_request_overwrites_slot ctx env (incoming 1 101 "phone.cam" 2) "phone.cam" w
    (env_of (PActionRequest (mkActionRequest "kact-0" EmptyString [] 0 false EmptyString)))
    (mkActionRequest "kact-0" EmptyString [] 0 false EmptyString)) as (p & Hp & Hr & Ht);
    [vm_compute; reflexivity|reflexivity|reflexivity|reflexivity|by eexists; vm_compute|vm_compute; reflexivity|].
  exists p. split; [exact Hp|]. split; [rewrite Hr; vm_compute; reflexivity|exact Ht].
Defined.

(** The new plugin claims two permissions; the operator allows one. *)
Definition new_entry : PluginEntry :=
  mkEntry "new" 9 (mkManifest ["PERMISSION_NETWORK"] ["fetch"] [] [] [] []) 109 5 Registered "local" "default".

Definition new_reg : PluginRegister :=
  mkPluginRegister "new" "1.0.0" (Some new_manifest) EmptyString EmptyString
    EmptyString 0 EmptyString EmptyString [] "1.2".

Lemma registration_witness :
  get "new" (registry (exec (handle_register ctx env (incoming 9 109 "kernel" 0) EmptyString new_reg) w))
    = Some new_entry /\
  exists a, a ∈ ["network"] /\ normalize_permission a = normalize_permission "PERMISSION_NETWORK".
Proof.
  split; [vm_compute; reflexivity|].
  destruct (registration_authorised ctx env (incoming 9 109 "kernel" 0) EmptyString new_reg w new_entry)
    as (_ & _ & _ & Hcfg & _); [vm_compute; reflexivity|vm_compute; reflexivity|].
  apply (Hcfg {["new" := ["network"]]} ["network"]); [reflexivity|vm_compute; reflexivity|done|left].
Defined.

Lemma mac_armed_witness :
  exists ack ikm l,
    queue_of (chans (exec (handle_register ctx env (incoming 9 109 "kernel" 0) EmptyString new_reg) w)) 109 =
      sent env 109 (env_reply EmptyString (PPluginRegisterAck ack)) w ++
      OEnableMac (derive_session_key ikm [9; 9] "new") 109 :: l /\
    accepted ack = true /\ ikm = [1; 2; 3].
Proof.
  destruct (mac_armed_after_ack ctx env (incoming 9 109 "kernel" 0) EmptyString new_reg w [1; 2; 3])
    as (ack & ikm & l & Hq & Ha & _ & Hk);
    [reflexivity|vm_compute; reflexivity|vm_compute; reflexivity|by eexists; vm_compute|].
  exists ack, ikm, l. split; [exact Hq|]. split; [exact Ha|exact Hk].
Defined.

End Runs.
