(* ===== verification/ForwardRace.v ===== *)
(** * Forwarding while plugins leave

    [forward] of [src/ipc/protocol/router.rs] looks at the registry several
    times: the sender's connection and entry, its permissions, the target
    once for the checks and once more for the delivery.  [Router.forward]
    reads them all from one state.  Here each read has a state of its own,
    and between two reads the other tasks unregister plugins ([Races]). *)

From S2P Require Import Prelude Wire Toy Text Channel Registry RegistryFacts Permissions Jwt DeviceStore EventStore World EventBus Commands Router RouterFacts RouterProps Races.

Open Scope Z_scope.

Section Reads.
Context `{HashIter} `{WireCrate} `{Governor} `{SerdeJson} `{JwtCrate} `{StoreCrates}.

(** The registry at each read. *)
Variable snap : nat -> PluginRegistry.

Definition get_by_conn_at (i : nat) (cid : Z) : option PluginEntry :=
  pid ← by_conn_id (snap i) !! cid; by_plugin_id (snap (i + 1)) !! pid.

(** [get_mux] reads the target, the device before the dot, its record. *)
Definition get_mux_at (i : nat) (target : string) : option PluginEntry :=
  match get target (snap i) with
  | Some entry => Some entry
  | None =>
      '(dev, cap) ← split_once "." target;
      entry ← get dev (snap (i + 1));
      let is_declared :=
        (target ∈? actions (manifest entry)) ||
        existsb (fun a => match split_once "." a with Some (_, c) => c ==? cap | None => false end)
                (actions (manifest entry)) ||
        match devices (snap (i + 2)) !! dev with Some d => cap ∈? dev_capabilities d | None => false end in
      if is_declared then Some entry else None
  end.

(** What [forward] does with the frame. *)
Inductive Verdict :=
| VError (code : ErrorCode) (text : string)
| VDeliver (sid : string) (target : PluginEntry)
| VUnresolved.

Definition forward_verdict (msg : IncomingMessage) (target : string) : Verdict :=
  match get_by_conn_at 0 (m_conn_id msg) with
  | None => VError ErrNotRegistered "not registered"
  | Some entry =>
      let sid := plugin_id entry in
      if is_err (check_ipc_send (snap 2) sid) then VError ErrPermissionDenied "PERMISSION_IPC_SEND required"
      else match get sid (snap 3) with
      | None => VError ErrPermissionDenied "sender not found"
      | Some sender =>
          let resolved_for_auth := get_mux_at 4 target in
          if match resolved_for_auth with Some t => user_id t <>? user_id sender | None => false end
          then VError ErrPermissionDenied "cross-user IPC denied"
          else if negb (forward_allowed sender target resolved_for_auth)
          then VError ErrPermissionDenied "target not in ipc_targets allowlist"
          else if audio_denied (snap 7) msg sid
          then VError ErrPermissionDenied "PERMISSION_AUDIO_STREAM required for FLAG_RAW_BINARY frames"
          else match get_mux_at 8 target with
          | Some t => VDeliver sid t
          | None => VUnresolved
          end
      end
  end.

(** The sends that follow the last read. *)
Definition act (ctx : Ctx) (env : Env) (msg : IncomingMessage) (target : string) (v : Verdict) : K bool :=
  match v with
  | VError code text => _ ← send_error env (m_write_tx msg) code text; mret true
  | VDeliver sid entry =>
      _ ← register_direct_pending env msg target sid entry;
      _ ← chan_try_send (write_tx entry) (out_frame (strip_mac (m_frame msg)));
      mret false
  | VUnresolved =>
      relayed ← (if has_bridge ctx then relay_to_host (m_frame msg) else mret false);
      if relayed : bool then mret false
      else _ ← send_error env (m_write_tx msg) ErrUnknown "plugin not found"; mret true
  end.

End Reads.

Section Safety.
Context `{HashIter} `{WireCrate} `{Governor} `{SerdeJson} `{JwtCrate} `{StoreCrates}.

Lemma get_mux_still r i target : get_mux_at (fun _ => r) i target = get_mux target r.
Proof. done. Qed.

(** With no other task in between, the reads one by one do what [forward]
    does on one state. *)
Theorem forward_verdict_still ctx env msg target w :
  run (forward ctx env msg target) w = run (act ctx env msg target (forward_verdict (fun _ => registry w) msg target)) w.
Proof.
  unfold forward, forward_verdict, run. rewrite bind_run. unfold eval, exec. cbn [gets fst snd].
  change (get_by_conn_at (fun _ => registry w) 0 (m_conn_id msg)) with (get_by_conn_id (m_conn_id msg) (registry w)).
  destruct (get_by_conn_id (m_conn_id msg) (registry w)) as [entry|]; [|done]. cbv zeta. rewrite !get_mux_still.
  destruct (is_err _); [done|]. destruct (get (plugin_id entry) (registry w)) as [sender|]; [|done].
  destruct (match get_mux target (registry w) with Some _ => _ | None => _ end); [done|].
  destruct (negb _); [done|]. destruct (audio_denied _ _ _); [done|]. by destruct (get_mux target (registry w)).
Qed.

(** The other tasks only take plugins away, and leave what a device declared. *)
Definition shrinks (r r' : PluginRegistry) : Prop :=
  by_plugin_id r' ⊆ by_plugin_id r /\
  forall dev, dev_capabilities <$> devices r' !! dev = dev_capabilities <$> devices r !! dev.

#[export] Instance shrinks_preorder : PreOrder shrinks.
Proof.
  split; [by intros r|]. intros r1 r2 r3 [A B] [C D]. split; [by etrans|]. intros dev. by rewrite D.
Qed.

Lemma unregister_shrinks pid r : shrinks r (unregister pid r).
Proof.
  destruct (by_plugin_id r !! pid) as [e|] eqn:He; [|by unfold unregister; rewrite He].
  destruct (unregister_fields pid e r He) as (E1 & _ & _ & E4 & _). split; [rewrite E1; apply delete_subseteq|].
  intros dev. rewrite E4. case_bool_decide; [done|]. destruct (decide (device_id e = dev)) as [<-|Hne].
  - rewrite lookup_alter_eq. by destruct (devices r !! device_id e).
  - by rewrite lookup_alter_ne.
Qed.

Lemma leaving_shrinks `{Sharding} pc r : leaving pc = true -> leaving (tstep pc r).1 = true /\ shrinks r (tstep pc r).2.
Proof.
  intros Hl. assert (Hrefl : shrinks r r) by reflexivity.
  destruct pc as [| | | | | | | |pid|pid e|pid e|pid e|pid e [|a acts]|pid e a o acts|pid e a o acts|pid e a acts|pid e a acts|e k|e|res];
    try done; cbn [tstep leaving join_step leave_step]; try (by repeat case_match).
  - destruct (by_plugin_id r !! pid); [|done]. split; [done|]. split; [apply delete_subseteq|done].
  - split; [done|]. split; [done|]. intros dev. cbn. destruct (decide (device_id e = dev)) as [<-|Hne].
    + rewrite lookup_alter_eq. by destruct (devices r !! device_id e).
    + by rewrite lookup_alter_ne.
Qed.

Lemma snaps_shrink snap i j : (forall k, shrinks (snap k) (snap (S k))) -> (i <= j)%nat -> shrinks (snap i) (snap j).
Proof. intros Hs Hij. induction Hij as [|j Hij IH]; [reflexivity|]. by etrans; [exact IH|apply Hs]. Qed.

(** A target that is still resolved was resolved before, to the same entry,
    unless a plugin under the full dotted name has left. *)
Lemma mux_earlier snap i j target t :
  (forall k, shrinks (snap k) (snap (S k))) -> (i + 2 <= j)%nat ->
  get_mux_at snap j target = Some t ->
  get_mux_at snap i target = Some t \/
  (is_Some (get target (snap i)) /\ get target (snap j) = None /\ contains_char "." target = true).
Proof.
  intros Hs Hij. unfold get_mux_at.
  assert (Hget : forall k l p e, (k <= l)%nat -> get p (snap l) = Some e -> get p (snap k) = Some e).
  { intros k l p e Hkl. destruct (snaps_shrink snap k l Hs Hkl) as [Hsub _]. intros He. by eapply lookup_weaken. }
  destruct (get target (snap j)) as [x|] eqn:Hj.
  { intros [= ->]. left. by rewrite (Hget i j target t) by (done || lia). }
  destruct (get target (snap i)) as [x|] eqn:Hi.
  { intros Hm. right. split_and!; [done..|]. destruct (contains_char "." target) eqn:Hc; [done|].
    by rewrite (proj2 (split_once_None _ _) Hc) in Hm. }
  destruct (split_once "." target) as [[dev cap]|]; [|done]. cbn. destruct (get dev (snap (j + 1)%nat)) as [d|] eqn:Hd; [|done].
  cbn. intros Hm. left. rewrite (Hget (i + 1)%nat (j + 1)%nat dev d) by (done || lia). cbn.
  destruct (snaps_shrink snap (i + 2) (j + 2) Hs ltac:(lia)) as [_ Hcaps]. specialize (Hcaps dev).
  replace (match devices (snap (i + 2)%nat) !! dev with Some d => _ | None => false end)
    with (match devices (snap (j + 2)%nat) !! dev with Some d => cap ∈? dev_capabilities d | None => false end); [done|].
  destruct (devices (snap (i + 2)%nat) !! dev), (devices (snap (j + 2)%nat) !! dev); cbn in Hcaps; try done.
  injection Hcaps as ->. done.
Qed.

(** C8: forwarding is safe while plugins leave.  Whatever plugins leave between
    the reads of [forward], a frame reaches a plugin only if its sender was
    registered on the connection, held the permission to send (and to stream
    audio, for a raw frame) and lists the target or its device; and the
    receiver has the sender's user, except where the target was a plugin with
    a dotted name that left in between and the device before the dot took its
    place. *)
Theorem forward_race_safe snap msg target sid t :
  (forall k, shrinks (snap k) (snap (S k))) ->
  forward_verdict snap msg target = VDeliver sid t ->
  exists e, is_registered (m_conn_id msg) (snap 0%nat) = true /\ get sid (snap 3%nat) = Some e /\
    (exists e', get sid (snap 2%nat) = Some e' /\ holds e' PermissionIpcSend) /\
    (has_flag (f_flags (m_frame msg)) FLAG_RAW_BINARY = true ->
       exists e', get sid (snap 7%nat) = Some e' /\ holds e' PermissionAudioStream) /\
    (target ∈ ipc_targets (manifest e) \/ exists dev cap, target = dev +:+ String "." cap /\ dev ∈ ipc_targets (manifest e)) /\
    (user_id t = user_id e \/
     (is_Some (get target (snap 4%nat)) /\ get target (snap 8%nat) = None /\ contains_char "." target = true)).
Proof.
  intros Hs. unfold forward_verdict. destruct (get_by_conn_at snap 0 (m_conn_id msg)) as [x|] eqn:Hx; [|done].
  destruct (is_err (check_ipc_send _ _)) eqn:Hipc; [done|]. destruct (get (plugin_id x) (snap 3%nat)) as [e|] eqn:He; [|done].
  destruct (match get_mux_at snap 4 target with Some _ => _ | None => _ end) eqn:Huser; [done|].
  destruct (negb (forward_allowed _ _ _)) eqn:Hall; [done|]. destruct (audio_denied _ _ _) eqn:Haud; [done|].
  destruct (get_mux_at snap 8 target) as [t'|] eqn:Hm; [|done]. intros [= <- ->]. exists e.
  apply negb_false_iff, forward_allowed_spec in Hall. split_and!; [|done|by apply not_denied_holds|by apply audio_gate| |].
  - unfold get_by_conn_at in Hx. unfold is_registered. by destruct (by_conn_id (snap 0%nat) !! m_conn_id msg).
  - destruct Hall as [?|(dev & cap & ? & ? & _)]; [by left|right; by exists dev, cap].
  - destruct (mux_earlier snap 4 8 target t Hs ltac:(lia) Hm) as [Hauth|?]; [|by right]. left. rewrite Hauth in Huser.
    by apply negb_false_iff, bool_decide_eq_true_1 in Huser.
Qed.

End Safety.

(** ** Runs *)
Module ForwardRuns.

#[local] Instance wire : WireCrate := toy_wire [].
#[local] Instance iter : HashIter := canonical_iter.

Definition clk : Clock := mkClock 1000 5000.
Definition of_user (user : string) : DeviceMeta := mkDeviceMeta EmptyString user OsLinux EmptyString EmptyString [].
Definition sender_manifest : PluginManifest := mkManifest ["ipc_send"; "audio_stream"] [] [] ["desk.mic"] [] [].

(** Ann's application may send to the plugin [desk.mic], which is hers; the
    device [desk] with its microphone is Bob's. *)
Definition r0 : PluginRegistry :=
  (register_device clk "desk" 3 ["mic"] default_manifest 103 (mkDeviceMeta "desk" "bob" OsLinux EmptyString EmptyString ["mic"])
     (register_with_device clk "desk.mic" 2 default_manifest 102 (of_user "ann")
        (register_with_device clk "app" 1 sender_manifest 101 (of_user "ann") registry_new).2).2).2.

(** Her plugin leaves between the checks and the delivery. *)
Definition leaves (k : nat) : PluginRegistry := if (k <? 7)%nat then r0 else unregister "desk.mic" r0.
(** It leaves after the delivery. *)
Definition stays (k : nat) : PluginRegistry := if (k <? 11)%nat then r0 else unregister "desk.mic" r0.

Definition msg : IncomingMessage := mkIncoming 1 (mkFrame 0x5652 0 1 (target_bytes "desk.mic") 7 [7] None) 101 101.

Lemma leaves_shrinks k : shrinks (leaves k) (leaves (S k)).
Proof. unfold leaves. destruct (Nat.ltb_spec k 7), (Nat.ltb_spec (S k) 7); [reflexivity|apply unregister_shrinks|lia|reflexivity]. Qed.
Lemma stays_shrinks k : shrinks (stays k) (stays (S k)).
Proof. unfold stays. destruct (Nat.ltb_spec k 11), (Nat.ltb_spec (S k) 11); [reflexivity|apply unregister_shrinks|lia|reflexivity]. Qed.

Lemma forward_race_witness :
  exists t e, forward_verdict stays msg "desk.mic" = VDeliver "app" t /\ get "app" r0 = Some e /\ user_id t = user_id e.
Proof.
  assert (exists t, forward_verdict stays msg "desk.mic" = VDeliver "app" t) as [t Ht] by (eexists; vm_compute; reflexivity).
  destruct (forward_race_safe stays msg "desk.mic" "app" t stays_shrinks Ht) as (e & _ & He & _ & _ & _ & [Hu|(_ & Hn & _)]).
  - exists t, e. split; [exact Ht|split; [exact He|exact Hu]].
  - by vm_compute in Hn.
Defined.

(** The exception is real.  The checks find Ann's plugin [desk.mic]; it
    disconnects before the second lookup, which falls back to the device
    [desk]; her frame is delivered to Bob. *)
Theorem takeover_crosses_users :
  exists t e, (forall k, shrinks (leaves k) (leaves (S k))) /\
    forward_verdict leaves msg "desk.mic" = VDeliver "app" t /\
    get "app" r0 = Some e /\ user_id e = "ann" /\ user_id t = "bob".
Proof.
  eexists _, _. split; [exact leaves_shrinks|]. split_and!; vm_compute; reflexivity.
Qed.

End ForwardRuns.
