(* ===== verification/ActionRace.v ===== *)
(** * Requests for actions while plugins leave

    The arm [ActionRequest] of [handle_kernel_message]
    ([src/ipc/protocol/router.rs]) looks at the registry once for the
    sender, three times for the provider, then for the permission the action
    requires, for the grants of both sides and for the slots in use.
    [Router.handle_action_request] reads them all from one state.  Here each
    read has a state of its own, and between two reads the other tasks
    unregister plugins. *)

From S2P Require Import Prelude Wire Toy Text Channel Registry RegistryFacts Permissions Jwt DeviceStore EventStore World EventBus Commands Router RouterFacts RouterProps ForwardRace.

Open Scope Z_scope.

Section Reads.
Context `{HashIter} `{WireCrate} `{Governor} `{SerdeJson} `{JwtCrate} `{StoreCrates}.

(** The registry at each read. *)
Variable snap : nat -> PluginRegistry.

(** [find_action_provider]: the ambiguous actions, the index, the entry. *)
Definition find_action_provider_at (i : nat) (action : string) : ActionLookup :=
  match ambiguous_actions (snap i) !! action with
  | Some ids => Ambiguous ids
  | None =>
      match action_index (snap (i + 1)) !! action with
      | Some pid => match by_plugin_id (snap (i + 2)) !! pid with Some e => Found e | None => NotFound end
      | None => NotFound
      end
  end.

(** The required permission, then the grants of the provider and the sender. *)
Definition action_denied_at (i : nat) (provider : PluginEntry) (sid action : string) : bool :=
  let required := match action_requirement (plugin_id provider) action (snap i) with
                  | Some p => Some p
                  | None => required_permission_for_action action
                  end in
  match required with
  | Some perm =>
      is_err (check_permission (snap (i + 1)) (plugin_id provider) perm) ||
      is_err (check_permission (snap (i + 2)) sid perm)
  | None => false
  end.

(** Refused, or offered to a provider if the rate limit grants it. *)
Inductive ActionVerdict :=
| ARefused (st : ActionStatus)
| AOffered (sid : string) (provider : PluginEntry).

Definition action_verdict (ctx : Ctx) (msg : IncomingMessage) (req : ActionRequest) : ActionVerdict :=
  let sid := match get_by_conn_at snap 0 (m_conn_id msg) with Some e => plugin_id e | None => EmptyString end in
  match find_action_provider_at 2 (areq_action req) with
  | NotFound | Ambiguous _ => ARefused ActionNotFound
  | Found provider =>
      if action_denied_at 5 provider sid (areq_action req) then ARefused ActionPermissionDeny
      else if match action_caller_max_concurrent ctx with
              | Some cap => cap <=? count_pending_actions_for sid (plugin_id provider) (snap 8%nat)
              | None => false
              end
      then ARefused ActionQuotaExceeded
      else AOffered sid provider
  end.

(** What follows the last of these reads: the rate limit, the slot and the
    request to the provider. *)
Definition offer_action (ctx : Ctx) (env : Env) (msg : IncomingMessage) (mid : string) (req : ActionRequest)
    (v : ActionVerdict) : K (option ActionStatus) :=
  match v with
  | ARefused st => mret (Some st)
  | AOffered sid provider =>
      granted ← action_limiter_grants env (sid, plugin_id provider);
      if negb granted then mret (Some ActionQuotaExceeded)
      else
        seq ← fetch_action_seq;
        let internal_id := "kact-" +:+ show seq in
        let timeout := if areq_timeout_ms req =? 0 then action_timeout_ms ctx else areq_timeout_ms req in
        _ ← modify (upd_registry (register_pending_action internal_id
              (mkPending (m_write_tx msg) (areq_action_id req) sid
                 (instant (clk env) + millis timeout) (plugin_id provider) (areq_streaming req)
                 false (instant (clk env)))));
        _ ← send_envelope env (write_tx provider)
              (env_reply mid (PActionRequest (mkActionRequest internal_id (areq_action req)
                 (areq_params_json req) (areq_timeout_ms req) (areq_streaming req) sid)));
        mret None
  end.

(** The refusal, if any, goes back to the requester. *)
Definition act_on_action (ctx : Ctx) (env : Env) (msg : IncomingMessage) (mid : string) (req : ActionRequest)
    (v : ActionVerdict) : K bool :=
  refused ← offer_action ctx env msg mid req v;
  _ ← (match refused with
       | Some st =>
           send_envelope env (m_write_tx msg)
             (env_reply mid (PActionResponse (mkActionResponse (areq_action_id req)
                (action_status_i32 st) [] (action_status_message st))))
       | None => mret tt
       end);
  mret false.

End Reads.

Section Safety.
Context `{HashIter} `{WireCrate} `{Governor} `{SerdeJson} `{JwtCrate} `{StoreCrates}.

(** With no other task in between, the reads one by one do what the handler
    does on one state. *)
Theorem action_verdict_still ctx env msg mid req w :
  run (handle_action_request ctx env msg mid req) w =
  run (act_on_action ctx env msg mid req (action_verdict (fun _ => registry w) ctx msg req)) w.
Proof.
  unfold handle_action_request, run. rewrite bind_run. unfold eval, exec. cbn [gets fst snd].
  unfold act_on_action. rewrite !bind_run. unfold eval, exec.
  set (sid := sender_id_of (m_conn_id msg) (registry w)).
  assert (route_action ctx env msg mid sid req w =
          offer_action ctx env msg mid req (action_verdict (fun _ => registry w) ctx msg req) w) as ->; [|reflexivity].
  unfold route_action, action_verdict. rewrite bind_run. unfold eval, exec. cbn [gets fst snd].
  change (get_by_conn_at (fun _ => registry w) 0 (m_conn_id msg)) with (get_by_conn_id (m_conn_id msg) (registry w)).
  change (find_action_provider_at (fun _ => registry w) 2 (areq_action req)) with (find_action_provider (areq_action req) (registry w)).
  destruct (find_action_provider (areq_action req) (registry w)) as [|provider|ids]; try reflexivity.
  change (action_denied_at (fun _ => registry w) 5 provider ?s ?a) with (action_denied (registry w) provider s a).
  fold (sender_id_of (m_conn_id msg) (registry w)). fold sid.
  destruct (action_denied _ _ _ _); [reflexivity|].
  destruct (match action_caller_max_concurrent ctx with Some _ => _ | None => _ end); reflexivity.
Qed.

(** The other tasks only take plugins away, with the permissions their
    actions require. *)
Record departs (r r' : PluginRegistry) : Prop := mkDeparts {
  dep_entries : by_plugin_id r' ⊆ by_plugin_id r;
  dep_required : forall pid action, is_Some (by_plugin_id r' !! pid) ->
    action_requirement pid action r' = action_requirement pid action r;
}.

#[export] Instance departs_preorder : PreOrder departs.
Proof.
  split; [by split|]. intros r1 r2 r3 [A B] [C D]. split; [by etrans|].
  intros pid action Hp. rewrite D by done. apply B. destruct Hp as [e Hp]. exists e. by eapply lookup_weaken.
Qed.

Lemma unregister_departs pid r : departs r (unregister pid r).
Proof.
  destruct (by_plugin_id r !! pid) as [e|] eqn:He; [|by unfold unregister; rewrite He].
  destruct (unregister_fields pid e r He) as (E1 & _ & _ & _ & _ & E6 & _).
  split; [rewrite E1; apply delete_subseteq|]. intros p action Hp. rewrite E1 in Hp. unfold action_requirement. rewrite E6.
  destruct (decide (pid = p)) as [<-|Hne]; [|by rewrite lookup_delete_ne]. rewrite lookup_delete_eq in Hp. by destruct Hp.
Qed.

Lemma snaps_depart snap i j : (forall k, departs (snap k) (snap (S k))) -> (i <= j)%nat -> departs (snap i) (snap j).
Proof. intros Hs Hij. induction Hij as [|j Hij IH]; [reflexivity|]. by etrans; [exact IH|apply Hs]. Qed.

(** C9: whatever plugins leave between the reads, a request is offered only to a
    plugin that the index named for the action and that was registered then;
    and the permission the action requires of that plugin was held by the
    provider and by the sender, except where the provider left between its
    lookup and the reading of the requirement. *)
Theorem action_race_safe snap ctx msg req sid provider perm :
  (forall k, departs (snap k) (snap (S k))) ->
  action_verdict snap ctx msg req = AOffered sid provider ->
  (exists pid, action_index (snap 3%nat) !! areq_action req = Some pid /\ get pid (snap 4%nat) = Some provider) /\
  (action_requirement (plugin_id provider) (areq_action req) (snap 4%nat) = Some perm ->
   get (plugin_id provider) (snap 5%nat) = None \/
   exists e e', get (plugin_id provider) (snap 6%nat) = Some e /\ holds e perm /\
                get sid (snap 7%nat) = Some e' /\ holds e' perm).
Proof.
  intros Hs. unfold action_verdict, find_action_provider_at.
  destruct (ambiguous_actions (snap 2%nat) !! areq_action req); [done|].
  destruct (action_index (snap (2 + 1)%nat) !! areq_action req) as [pid|] eqn:Hidx; [|done].
  destruct (by_plugin_id (snap (2 + 2)%nat) !! pid) as [e|] eqn:He; [|done].
  set (s := match get_by_conn_at _ _ _ with Some _ => _ | None => _ end).
  destruct (action_denied_at snap 5 e s (areq_action req)) eqn:Hd; [done|].
  destruct (match action_caller_max_concurrent ctx with Some _ => _ | None => _ end); [done|].
  intros [= <- <-]. split; [by exists pid|]. intros Hreq.
  destruct (get (plugin_id e) (snap 5%nat)) as [e5|] eqn:H5; [right|by left].
  unfold action_denied_at in Hd. rewrite (dep_required _ _ (snaps_depart snap 4 5 Hs ltac:(lia))), Hreq in Hd by by exists e5.
  apply orb_false_elim in Hd as [Hd1 Hd2].
  destruct (not_denied_holds _ _ _ Hd1) as (x & Hx & Hhx), (not_denied_holds _ _ _ Hd2) as (y & Hy & Hhy).
  by exists x, y.
Qed.

(** A plugin is unregistered before the read [n]. *)
Definition leaves_before (n : nat) (pid : string) (r : PluginRegistry) (k : nat) : PluginRegistry :=
  if (k <? n)%nat then r else unregister pid r.

Lemma leaves_before_departs n pid r k : departs (leaves_before n pid r k) (leaves_before n pid r (S k)).
Proof.
  unfold leaves_before. destruct (Nat.ltb_spec k n), (Nat.ltb_spec (S k) n); [reflexivity|apply unregister_departs|lia|reflexivity].
Qed.

(** C40: the exception is real, for every action with a requirement.  The sender
    does not hold the permission the action requires of its provider, so that
    the request is refused as long as the provider stays.  When the provider
    is unregistered between its lookup and the reading of the requirement,
    which goes with it, the request of the same sender is offered to it. *)
Theorem requirement_race ctx msg req r provider perm :
  let sid := sender_id_of (m_conn_id msg) r in
  find_action_provider (areq_action req) r = Found provider ->
  get (plugin_id provider) r = Some provider ->
  action_requirement (plugin_id provider) (areq_action req) r = Some perm ->
  is_err (check_permission r sid perm) = true ->
  (forall cap, action_caller_max_concurrent ctx = Some cap -> count_pending_actions_for sid (plugin_id provider) r < cap) ->
  action_verdict (fun _ => r) ctx msg req = ARefused ActionPermissionDeny /\
  action_verdict (leaves_before 5 (plugin_id provider) r) ctx msg req = AOffered sid provider /\
  (forall k, departs (leaves_before 5 (plugin_id provider) r k) (leaves_before 5 (plugin_id provider) r (S k))).
Proof.
  intros sid Hf Hp Hreq Hno Hcap. split_and!; [..|apply leaves_before_departs].
  - unfold action_verdict. change (find_action_provider_at (fun _ => r) 2 (areq_action req)) with (find_action_provider (areq_action req) r).
    rewrite Hf. change (get_by_conn_at (fun _ => r) 0 (m_conn_id msg)) with (get_by_conn_id (m_conn_id msg) r).
    fold (sender_id_of (m_conn_id msg) r). fold sid. unfold action_denied_at. rewrite Hreq, Hno. by rewrite orb_true_r.
  - unfold action_verdict. set (snap := leaves_before 5 (plugin_id provider) r).
    change (find_action_provider_at snap 2 (areq_action req)) with (find_action_provider (areq_action req) r). rewrite Hf.
    change (get_by_conn_at snap 0 (m_conn_id msg)) with (get_by_conn_id (m_conn_id msg) r).
    fold (sender_id_of (m_conn_id msg) r). fold sid. destruct (unregister_fields _ _ _ Hp) as (_ & _ & _ & _ & E5 & E6 & _).
    unfold action_denied_at, action_requirement. change (snap 5%nat) with (unregister (plugin_id provider) r).
    rewrite E6, lookup_delete_eq. cbn [mbind option_bind required_permission_for_action].
    destruct (action_caller_max_concurrent ctx) as [cap|]; [|done].
    unfold count_pending_actions_for in *. change (snap 8%nat) with (unregister (plugin_id provider) r). rewrite E5.
    destruct (Z.leb_spec cap (as_u32 (Z.of_nat (length (filter (fun kp => requester_id kp.2 = sid /\
      provider_id kp.2 = plugin_id provider) (map_iter (pending_actions r))))))); [|done].
    specialize (Hcap cap eq_refl). lia.
Qed.

End Safety.

(** ** Runs *)

Module ActionRuns.

#[local] Instance wire : WireCrate := toy_wire [].
#[local] Instance iter : HashIter := canonical_iter.
#[local] Instance gov : Governor := open_governor.

Definition clk : Clock := mkClock 1000 5000.
Definition meta : DeviceMeta := mkDeviceMeta EmptyString EmptyString OsLinux EmptyString EmptyString [].
Definition provider_manifest : PluginManifest := mkManifest ["kernel_admin"] ["reboot"] [] [] [] [].
Definition caller_manifest (perms : list string) : PluginManifest := mkManifest perms [] [] [] [] [].

(** [ops] provides [reboot], which requires [PERMISSION_KERNEL_ADMIN]; [app]
    has the given permissions. *)
Definition reg (perms : list string) : PluginRegistry :=
  set_action_requirements "ops" {["reboot" := PermissionKernelAdmin]}
    (register_with_device clk "ops" 2 provider_manifest 102 meta
       (register_with_device clk "app" 1 (caller_manifest perms) 101 meta registry_new).2).2.

Definition ctx : Ctx := mkCtx None 0 None None None None (Some 4) 30000 3 16 (Some 60) None false
  (mkConfigIo (fun _ => Err "unreadable") (fun _ => false)).
Definition msg : IncomingMessage := mkIncoming 1 (mkFrame 0x5652 0 1 [] 7 [7] None) 101 101.
Definition req : ActionRequest := mkActionRequest "a1" "reboot" [] 0 false EmptyString.

(** A caller with the permission, and the provider leaves after the reads. *)
Lemma action_race_witness :
  exists provider e e', action_verdict (leaves_before 9 "ops" (reg ["kernel_admin"])) ctx msg req = AOffered "app" provider /\
    get "ops" (reg ["kernel_admin"]) = Some e /\ holds e PermissionKernelAdmin /\
    get "app" (reg ["kernel_admin"]) = Some e' /\ holds e' PermissionKernelAdmin.
Proof.
  assert (exists provider, action_verdict (leaves_before 9 "ops" (reg ["kernel_admin"])) ctx msg req = AOffered "app" provider /\
    plugin_id provider = "ops") as (provider & Hv & Hp) by (eexists; split; vm_compute; reflexivity).
  destruct (action_race_safe (leaves_before 9 "ops" (reg ["kernel_admin"])) ctx msg req "app" provider PermissionKernelAdmin
              (leaves_before_departs 9 _ _) Hv) as [_ [Hn|(e & e' & He & Hh & He' & Hh')]].
  - rewrite Hp. vm_compute. reflexivity.
  - exfalso. rewrite Hp in Hn. by vm_compute in Hn.
  - rewrite Hp in He. exists provider, e, e'. split_and!; [exact Hv|exact He|exact Hh|exact He'|exact Hh'].
Defined.

(** [app] may not reboot, but is offered [ops]. *)
Lemma requirement_race_witness :
  exists provider, action_verdict (fun _ => reg []) ctx msg req = ARefused ActionPermissionDeny /\
    action_verdict (leaves_before 5 "ops" (reg [])) ctx msg req = AOffered "app" provider /\ write_tx provider = 102.
Proof.
  assert (exists provider, get "ops" (reg []) = Some provider /\ plugin_id provider = "ops" /\ write_tx provider = 102)
    as (provider & Hg & Hp & Ht) by (eexists; split_and!; vm_compute; reflexivity).
  exists provider. destruct (requirement_race ctx msg req (reg []) provider PermissionKernelAdmin) as (H1 & H2 & _).
  - change (match get "ops" (reg []) with Some e => Found e | None => NotFound end = Found provider). by rewrite Hg.
  - by rewrite Hp.
  - rewrite Hp. vm_compute. reflexivity.
  - vm_compute. reflexivity.
  - intros cap [= <-]. rewrite Hp. vm_compute. reflexivity.
  - rewrite Hp in H2. split_and!; [exact H1|exact H2|exact Ht].
Defined.

End ActionRuns.
