(* ===== verification/Connection.v ===== *)
(** * Connections ([src/ipc/connection.rs])

    The read loop of a connection (MAC check, fragment reassembly, hand-over
    to the router), as a function of one read; the write loop, as a function
    of the items it drains; and the accept loop of [src/ipc/server.rs]. *)

From stdpp Require Import sorting.
From S2P Require Import Prelude Wire Toy Channel Registry.

Open Scope Z_scope.

(** ** Reassembly *)

Record ReassemblyBuf := mkBuf {
  fragments : gmap Z bytes;
  total : Z;
  buf_target : bytes;
  first_seen : Z;
  buffered_bytes : Z;
}.

Abbreviation ReassemblyMap := (gmap Z ReassemblyBuf).

Definition is_complete (b : ReassemblyBuf) : bool := Z.of_nat (size (fragments b)) =? total b.

(** The keys sorted, then the fragments concatenated in that order. *)
Definition reassemble (b : ReassemblyBuf) : bytes :=
  concat (map (fun s => default [] (fragments b !! s)) (merge_sort Z.le (elements (dom (fragments b))))).

Definition prune_stale_reassembly (now fragment_timeout : Z) (m : ReassemblyMap) : ReassemblyMap :=
  filter (fun kb => duration_since now (first_seen kb.2) < fragment_timeout) m.

Record ConnLimits := mkLimits {
  fragment_timeout : Z;
  max_reassembly_streams : nat;
}.

(** What one turn of the loop of [run] does: hand at most one frame to the
    router and go on, or close the connection, with a notice to the peer if
    the MAC was at fault. *)
Inductive ReadOutcome :=
| RContinue (m : ReassemblyMap) (out : option Frame)
| RClose (notice : option ErrorCode).

Section Connection.
Context `{WireCrate}.

(** The insertion of one fragment, after the checks on its header.  The sum
    of the check fits; the difference that is added to the count is negative
    when a re-sent fragment is shorter, and wraps where overflow is not
    checked. *)
Definition insert_fragment (lim : ConnLimits) (now : Z) (frame : Frame) (hdr : FragmentHeader)
    (m : ReassemblyMap) : ReadOutcome :=
  let frag_data := drop FRAG_HEADER_SIZE (f_payload frame) in
  let entry := default (mkBuf ∅ (fh_total hdr) (f_target frame) now 0) (m !! fh_stream_id hdr) in
  let replaced_len := match fragments entry !! fh_sequence hdr with
                      | Some old => Z.of_nat (length old) | None => 0 end in
  let grown := buffered_bytes entry + Z.of_nat (length frag_data) - replaced_len in
  if MAX_PAYLOAD_SIZE <? grown then RClose None
  else
    let entry := mkBuf (<[fh_sequence hdr := frag_data]> (fragments entry)) (total entry)
                   (buf_target entry) (first_seen entry)
                   (usize_add (buffered_bytes entry) (usize_sub (Z.of_nat (length frag_data)) replaced_len)) in
    if is_complete entry then
      let payload := reassemble entry in
      RContinue (delete (fh_stream_id hdr) m)
        (Some {| f_magic := f_magic frame;
                 f_flags := clear_flag (f_flags frame) FLAG_FRAGMENTED;
                 f_length := as_u32 (Z.of_nat (length payload));
                 f_target := buf_target entry;
                 f_crc32 := crc32_hash payload;
                 f_payload := payload;
                 f_mac := None |})
    else RContinue (<[fh_stream_id hdr := entry]> m) None.

Definition handle_fragment (lim : ConnLimits) (now : Z) (frame : Frame) (m : ReassemblyMap) : ReadOutcome :=
  match parse_frag_header (f_payload frame) with
  | None => RClose None
  | Some hdr =>
      if (fh_total hdr =? 0) || (fh_total hdr <=? fh_sequence hdr) then RClose None
      else match m !! fh_stream_id hdr with
           | Some existing =>
               if total existing <>? fh_total hdr then RClose None
               else insert_fragment lim now frame hdr m
           | None =>
               if (max_reassembly_streams lim <=? size m)%nat then RClose None
               else insert_fragment lim now frame hdr m
           end
  end.

(** One turn of [ConnectionHandler::run]: [key] is the content of the
    session-key cell when the frame arrived. *)
Definition read_step (lim : ConnLimits) (now : Z) (key : option bytes) (read : Result VynkorError Frame)
    (m : ReassemblyMap) : ReadOutcome :=
  match read with
  | Err _ => RClose None
  | Ok frame =>
      if match key with Some k => negb (mac_valid k frame) | None => false end
      then RClose (Some (if tag_present frame then ErrMacInvalid else ErrMacMissing))
      else
        let m := prune_stale_reassembly now (fragment_timeout lim) m in
        if has_flag (f_flags frame) FLAG_FRAGMENTED then handle_fragment lim now frame m
        else RContinue m (Some frame)
  end.

(** [ConnectionHandler::send_error]: the notice before a close. *)
Definition mac_notice (code : ErrorCode) : option Outbound :=
  (fun p => out_frame (build_frame "client" 0 p)) <$>
  encode_envelope (env_of (PError (mkErrorMessage (error_code_i32 code) EmptyString EmptyString))).

(** ** The write loop

    [io f] is the result of [write_frame_raw] on [f]; the cells are the
    session-key cells of the connections. *)

Fixpoint write_loop (io : Frame -> Result VynkorError unit) (items : list Outbound) (key : option bytes)
    (cells : gmap Z bytes) : list Frame * gmap Z bytes :=
  match items with
  | [] => ([], cells)
  | OEnableMac k cell :: items' => write_loop io items' (Some k) (<[cell := k]> cells)
  | OFrame f :: items' =>
      let f := match key with Some k => tag_frame k f | None => f end in
      match io f with
      | Ok _ => let '(out, cells') := write_loop io items' key cells in (f :: out, cells')
      | Err (EPayloadTooLarge _) => write_loop io items' key cells
      | Err _ => ([], cells)
      end
  end.

(** ** The invariant of the reassembly map *)

Definition frag_bytes (m : gmap Z bytes) : Z := map_fold (fun _ d n => Z.of_nat (length d) + n) 0 m.

Record buf_ok (b : ReassemblyBuf) : Prop := mkBufOk {
  bok_bytes : buffered_bytes b = frag_bytes (fragments b);
  bok_cap : buffered_bytes b <= MAX_PAYLOAD_SIZE;
  bok_seq : forall s, is_Some (fragments b !! s) -> s < total b;
  bok_open : Z.of_nat (size (fragments b)) <> total b;
}.

Definition reassembly_ok (lim : ConnLimits) (m : ReassemblyMap) : Prop :=
  (size m <= max_reassembly_streams lim)%nat /\ forall sid b, m !! sid = Some b -> buf_ok b.

Lemma frag_bytes_insert (m : gmap Z bytes) s d :
  m !! s = None -> frag_bytes (<[s := d]> m) = Z.of_nat (length d) + frag_bytes m.
Proof.
  intros Hs. unfold frag_bytes.
  apply (map_fold_insert_L (fun (_ : Z) (d : bytes) n => Z.of_nat (length d) + n)); [intros; lia|done].
Qed.

Lemma frag_bytes_replace (m : gmap Z bytes) s d :
  frag_bytes (<[s := d]> m) =
  frag_bytes m + Z.of_nat (length d) -
  match m !! s with Some old => Z.of_nat (length old) | None => 0 end.
Proof.
  destruct (m !! s) as [old|] eqn:Hs; [|rewrite frag_bytes_insert by done; lia].
  rewrite <- (insert_delete_id m s old) at 2 by done.
  rewrite <- insert_delete_eq, !frag_bytes_insert by apply lookup_delete_eq. lia.
Qed.

Lemma frag_bytes_nonneg m : 0 <= frag_bytes m.
Proof. unfold frag_bytes. apply (map_fold_weak_ind (fun n _ => 0 <= n)); [done|]. intros. lia. Qed.

Lemma reassembly_prune lim now t m : reassembly_ok lim m -> reassembly_ok lim (prune_stale_reassembly now t m).
Proof.
  intros [Hsz Hb]. split.
  - unfold prune_stale_reassembly. etrans; [apply map_size_filter|done].
  - intros sid b [Hl _]%map_lookup_filter_Some. by apply Hb with sid.
Qed.

Lemma reassembly_delete lim sid m : reassembly_ok lim m -> reassembly_ok lim (delete sid m).
Proof.
  intros [Hsz Hb]. split.
  - etrans; [|exact Hsz]. apply map_subseteq_size, delete_subseteq.
  - intros s b [_ Hl]%lookup_delete_Some. by apply Hb with s.
Qed.

Lemma insert_fragment_ok lim now frame hdr m m' out :
  reassembly_ok lim m ->
  (forall b, m !! fh_stream_id hdr = Some b -> total b = fh_total hdr) ->
  (m !! fh_stream_id hdr = None -> (size m < max_reassembly_streams lim)%nat) ->
  fh_total hdr <> 0 -> fh_sequence hdr < fh_total hdr ->
  insert_fragment lim now frame hdr m = RContinue m' out -> reassembly_ok lim m'.
Proof.
  intros Hm Htot Hroom Hnz Hseq. unfold insert_fragment.
  set (data := drop FRAG_HEADER_SIZE (f_payload frame)).
  set (entry := default _ (m !! fh_stream_id hdr)). set (grown := _ - _). cbv zeta.
  destruct (Z.ltb_spec MAX_PAYLOAD_SIZE grown) as [|Hcap]; [done|].
  assert (buffered_bytes entry = frag_bytes (fragments entry) /\ total entry = fh_total hdr /\
          (forall s, is_Some (fragments entry !! s) -> s < total entry)) as (Hbytes & Ht & Hs).
  { unfold entry. destruct (m !! fh_stream_id hdr) as [b|] eqn:E; simpl.
    - destruct Hm as [_ Hm]. destruct (Hm _ _ E). split_and!; [done|by apply Htot|done].
    - split_and!; [done|done|]. intros s [? ?]. by rewrite lookup_empty in *. }
  assert (Hcount : usize_add (buffered_bytes entry) (usize_sub (Z.of_nat (length data))
            (match fragments entry !! fh_sequence hdr with Some old => Z.of_nat (length old) | None => 0 end)) = grown).
  { apply usize_add_sub. pose proof (frag_bytes_nonneg (<[fh_sequence hdr := data]> (fragments entry))) as Hnn.
    rewrite frag_bytes_replace, <- Hbytes in Hnn. pose proof max_payload_usize. unfold usize_max, u64_max, grown in *. lia. }
  set (entry' := mkBuf _ _ _ _ _). destruct (is_complete entry') eqn:Hc.
  - intros [= <- _]. by apply reassembly_delete.
  - intros [= <- _]. apply Z.eqb_neq in Hc. split.
    + destruct (m !! fh_stream_id hdr) as [b|] eqn:E.
      * rewrite map_size_insert_Some by eauto. apply Hm.
      * rewrite map_size_insert_None by done. specialize (Hroom eq_refl). lia.
    + intros sid b. rewrite lookup_insert_Some. intros [[_ <-]|[_ Hl]]; [|by apply Hm in Hl].
      split; simpl; [|rewrite Hcount; done| |done].
      * rewrite Hcount, frag_bytes_replace. unfold grown. by rewrite Hbytes.
      * intros s [d Hd]. apply lookup_insert_Some in Hd as [[<- _]|[_ Hd]]; [lia|]. apply Hs. eauto.
Qed.

(** ** Properties *)

Lemma read_step_keeps lim now key read m m' out :
  reassembly_ok lim m -> read_step lim now key read m = RContinue m' out -> reassembly_ok lim m'.
Proof.
  intros Hm. unfold read_step. destruct read as [frame|]; [|done].
  destruct (match key with Some _ => _ | None => false end); [done|].
  apply (reassembly_prune lim now (fragment_timeout lim)) in Hm. cbv zeta.
  set (m1 := prune_stale_reassembly _ _ _) in *.
  destruct (has_flag _ _); [|by intros [= <- _]].
  unfold handle_fragment. destruct (parse_frag_header _) as [hdr|]; [|done].
  destruct (Z.eqb_spec (fh_total hdr) 0); [done|]. destruct (Z.leb_spec (fh_total hdr) (fh_sequence hdr)); [done|].
  simpl. destruct (m1 !! fh_stream_id hdr) as [b|] eqn:E.
  - destruct (negb _) eqn:Ht; [done|]. bools.
    apply insert_fragment_ok; [done| |congruence|done|done]. intros b' Hb'. congruence.
  - destruct (Nat.leb_spec (max_reassembly_streams lim) (size m1)); [done|].
    apply insert_fragment_ok; [done|congruence|done|done|done].
Qed.

(** C21: the memory a peer can hold is bounded.  Every turn of the read loop
    keeps the reassembly map within its stream cap, every buffer's byte count
    exact and within the single-frame cap, every sequence number below the
    declared total, and no complete buffer is left behind. *)
Theorem read_step_bounded lim now key read m m' out :
  reassembly_ok lim m -> read_step lim now key read m = RContinue m' out -> reassembly_ok lim m'.
Proof. apply read_step_keeps. Qed.

(** On a secured connection only authentic frames get through.  With a
    session key installed, a turn goes on only for a frame whose tag is
    present and verifies; any other frame closes the connection and hands
    nothing to the router, with a notice that tells a missing tag from a
    wrong one. *)
Theorem read_step_mac lim now k frame m :
  match read_step lim now (Some k) (Ok frame) m with
  | RContinue _ _ => mac_valid k frame = true
  | RClose notice =>
      mac_valid k frame = true \/
      notice = Some (if tag_present frame then ErrMacInvalid else ErrMacMissing)
  end.
Proof.
  unfold read_step. destruct (mac_valid k frame) eqn:Hv; simpl; [|by right].
  by destruct (if has_flag _ _ then _ else _); [|left].
Qed.

(** ** Reassembly in any order *)

(** The reads of a sequence of frames, each at its own time: the frames
    handed to the router, or [None] if the connection is closed. *)
Fixpoint feed (lim : ConnLimits) (key : option bytes) (frames : list (Z * Frame)) (m : ReassemblyMap)
    : option (ReassemblyMap * list Frame) :=
  match frames with
  | [] => Some (m, [])
  | (now, f) :: frames' =>
      match read_step lim now key (Ok f) m with
      | RContinue m' out =>
          '(m'', outs) ← feed lim key frames' m'; Some (m'', option_list out ++ outs)
      | RClose _ => None
      end
  end.

(** [f] is the fragment number [i] of [n] on the stream [sid], with data [d]. *)
Definition is_fragment (sid n : Z) (f : Frame) (i : nat) (d : bytes) : Prop :=
  has_flag (f_flags f) FLAG_FRAGMENTED = true /\
  (exists id, parse_frag_header (f_payload f) = Some (mkFragmentHeader id (Z.of_nat i) n sid)) /\
  drop FRAG_HEADER_SIZE (f_payload f) = d.

(** ** Tagging on the way out *)

Lemma has_set_mac_flag fl : has_flag (set_flag fl FLAG_MAC_PRESENT) FLAG_MAC_PRESENT = true.
Proof.
  unfold has_flag, set_flag, FLAG_MAC_PRESENT. apply negb_true_iff, Z.eqb_neq. intros Hz.
  assert (Z.testbit (Z.land (Z.lor fl 1) 1) 0 = false) as Hb by (rewrite Hz; done).
  rewrite Z.land_spec, Z.lor_spec in Hb. simpl in Hb. by rewrite orb_true_r in Hb.
Qed.

Lemma tag_frame_valid `{!WireLaws} k f : mac_valid k (tag_frame k f) = true.
Proof.
  unfold mac_valid, tag_present, tag_frame. cbn [f_flags f_mac is_some f_payload].
  rewrite has_set_mac_flag. simpl.
  rewrite (header_without_mac _ _ _ _ _ _ (Some _) (f_mac f)). apply verify_compute.
Qed.

(** The frames among the items of a queue. *)
Definition queued_frames (items : list Outbound) : list Frame :=
  omap (fun o => match o with OFrame f => Some f | OEnableMac _ _ => None end) items.

(** The frames the socket takes: an oversized one is dropped. *)
Definition written (io : Frame -> Result VynkorError unit) (fs : list Frame) : list Frame :=
  filter (fun f => is_ok (io f) = true) fs.

Definition soft_io (io : Frame -> Result VynkorError unit) : Prop :=
  forall f e, io f = Err e -> exists n, e = EPayloadTooLarge n.

Definition only_frames (items : list Outbound) : Prop := Forall (fun o => exists f, o = OFrame f) items.

Lemma write_loop_app io items rest key cells :
  soft_io io -> only_frames items ->
  write_loop io (items ++ rest) key cells =
  let '(out, cells') := write_loop io rest key cells in
  (written io (map (fun f => match key with Some k => tag_frame k f | None => f end) (queued_frames items)) ++ out,
   cells').
Proof.
  intros Hio. induction 1 as [|o items [f ->] Hitems IH]; simpl; [by destruct (write_loop _ _ _ _)|].
  set (f' := match key with Some k => tag_frame k f | None => f end).
  rewrite IH. unfold written. rewrite filter_cons.
  destruct (io f') as [[]|e] eqn:Hf; simpl.
  - by destruct (write_loop io rest key cells).
  - destruct (Hio _ _ Hf) as [n ->]. by destruct (write_loop io rest key cells).
Qed.

(** The write loop tags exactly what follows the activation of the MAC.
    While the socket works, the frames queued before it are written as they
    are, those behind it carry a tag that verifies under the session key on
    the other side with the payload unchanged, an oversized frame is dropped
    alone, and the key that arms the inbound check of the connection is
    installed by the same item. *)
Theorem write_loop_tags_after_activation `{!WireLaws} io pre k cell post cells :
  soft_io io -> only_frames pre -> only_frames post ->
  write_loop io (pre ++ OEnableMac k cell :: post) None cells =
    (written io (queued_frames pre) ++ written io (map (tag_frame k) (queued_frames post)),
     <[cell := k]> cells) /\
  Forall (fun f => mac_valid k f = true) (map (tag_frame k) (queued_frames post)) /\
  map f_payload (map (tag_frame k) (queued_frames post)) = map f_payload (queued_frames post).
Proof.
  intros Hio Hpre Hpost. split_and!.
  - rewrite write_loop_app by done. cbn [write_loop]. rewrite <- (app_nil_r post), write_loop_app by done. simpl.
    by rewrite map_id, !app_nil_r.
  - apply Forall_forall. intros f (g & -> & _)%list_elem_of_fmap. apply tag_frame_valid.
  - rewrite map_map. done.
Qed.

End Connection.

(** ** The accept loop ([src/ipc/server.rs])

    [live] is the set of connections whose handlers run; the server itself
    only keeps the two counters. *)

Record Acceptor := mkAcceptor {
  counter : Z;
  open_conns : Z;
}.

Definition acceptor_new : Acceptor := mkAcceptor 1 0.

(** One accepted stream: the id of its handler, or [None] when dropped. *)
Definition accept (max_connections : Z) (a : Acceptor) : option Z * Acceptor :=
  if max_connections <=? open_conns a then (None, a)
  else (Some (counter a), mkAcceptor (u64_succ (counter a)) (open_conns a + 1)).

(** A handler returned. *)
Definition conn_closed (a : Acceptor) : Acceptor := mkAcceptor (counter a) (open_conns a - 1).

Inductive accept_step (max : Z) : Acceptor * gset Z -> Acceptor * gset Z -> Prop :=
| step_accept a live : accept_step max (a, live)
    ((accept max a).2, match (accept max a).1 with Some cid => {[cid]} ∪ live | None => live end)
| step_close a live cid : cid ∈ live -> accept_step max (a, live) (conn_closed a, live ∖ {[cid]}).

(** The server after [n] steps. *)
Lemma accept_run max n a live :
  0 <= max -> Z.of_nat n < 2 ^ 64 - 1 -> nsteps (accept_step max) n (acceptor_new, ∅) (a, live) ->
  open_conns a = Z.of_nat (size live) /\ open_conns a <= max /\ 1 <= counter a <= 1 + Z.of_nat n /\
  (forall cid, cid ∈ live -> 1 <= cid < counter a).
Proof.
  intros Hmax. revert a live. induction n as [|n IH]; intros a live Hn Hs.
  - inversion Hs; subst. simpl. split_and!; [done|done|lia|lia|]. set_solver.
  - apply nsteps_inv_r in Hs as ([a0 live0] & Hs & Hstep).
    destruct (IH a0 live0) as (Ho & Hm & Hc & Hl); [lia|done|].
    inversion Hstep as [? ?|? ? cid Hin]; subst.
    + unfold accept in *. destruct (Z.leb_spec max (open_conns a0)); simpl in *; [split_and!; try done; lia|].
      assert (u64_succ (counter a0) = counter a0 + 1) as Hsucc
        by (unfold u64_succ; apply Z.mod_small; lia).
      assert (counter a0 ∉ live0) as Hfresh by (intros Hx%Hl; lia).
      rewrite Hsucc. split_and!; [|lia|lia|lia|].
      * rewrite size_union, size_singleton by set_solver. lia.
      * intros cid [->%elem_of_singleton|Hx%Hl]%elem_of_union; lia.
    + simpl. rewrite size_difference, size_singleton by set_solver.
      assert (size ({[cid]} : gset Z) <= size live0)%nat as Hsz by (apply subseteq_size; set_solver).
      rewrite size_singleton in Hsz.
      split_and!; [lia|lia|lia|lia|]. intros cid' Hx. apply Hl. set_solver.
Qed.

(** The connection cap holds and ids are not reused.  However streams
    arrive and handlers end (for fewer steps than the id counter can count),
    the number of running handlers is exactly the server's count and never
    exceeds the configured maximum, a new stream is turned away exactly when
    the maximum is reached, and an accepted one gets an id no running
    connection has. *)
Theorem accept_loop_cap max n a live :
  0 <= max -> Z.of_nat n < 2 ^ 64 - 1 -> nsteps (accept_step max) n (acceptor_new, ∅) (a, live) ->
  open_conns a = Z.of_nat (size live) /\ Z.of_nat (size live) <= max /\
  match (accept max a).1 with
  | None => Z.of_nat (size live) = max
  | Some cid => Z.of_nat (size live) < max /\ cid ∉ live
  end.
Proof.
  intros Hmax Hn Hs. destruct (accept_run max n a live Hmax Hn Hs) as (Ho & Hm & _ & Hl).
  split_and!; [done|lia|]. unfold accept. destruct (Z.leb_spec max (open_conns a)); simpl; [lia|].
  split; [lia|]. intros Hx%Hl. lia.
Qed.

(** ** Runs *)

Module ConnectionRuns.

#[local] Instance wire : WireCrate := toy_wire [].
#[local] Instance laws_here : WireLaws := toy_laws [].

Definition lim : ConnLimits := mkLimits 30 2.

(** Fragment [i] of 2 on stream 7; the toy header is four bytes. *)
Definition frag (i : Z) (d : bytes) : Frame :=
  mkFrame FRAME_MAGIC FLAG_FRAGMENTED 0 (target_bytes "tts") 0 ([1; i; 2; 7] ++ d) None.

Lemma read_step_bounded_witness :
  exists m' out, read_step lim 100 None (Ok (frag 1 [5; 6])) ∅ = RContinue m' out /\ reassembly_ok lim m'.
Proof.
  eexists _, _. split; [vm_compute; reflexivity|].
  apply (read_step_bounded lim 100 None (Ok (frag 1 [5; 6])) ∅ _ None); [|vm_compute; reflexivity].
  split; [vm_compute; lia|]. intros sid b Hb. by rewrite lookup_empty in Hb.
Defined.

Definition io (f : Frame) : Result VynkorError unit :=
  if (3 <? Z.of_nat (length (f_payload f))) then Err (EPayloadTooLarge 4) else Ok tt.

Definition f1 : Frame := build_frame "client" 0 [1].
Definition f2 : Frame := build_frame "client" 0 [1; 2; 3; 4].

Lemma write_loop_witness :
  write_loop io [OFrame f1; OEnableMac [9] 5; OFrame f2; OFrame f1] None ∅ =
  ([f1; tag_frame [9] f1], {[5 := [9]]}).
Proof.
  etrans; [apply (write_loop_tags_after_activation io [OFrame f1] [9] 5 [OFrame f2; OFrame f1] ∅)|].
  - intros f e. unfold io. destruct (3 <? _); intros He; simplify_eq; eauto.
  - repeat constructor; eauto.
  - repeat constructor; eauto.
  - vm_compute. reflexivity.
Defined.

Lemma accept_loop_witness :
  open_conns (accept 1 acceptor_new).2 = 1 /\ (accept 1 (accept 1 acceptor_new).2).1 = None.
Proof.
  split; [vm_compute; reflexivity|].
  destruct (accept_loop_cap 1 1 (accept 1 acceptor_new).2 {[1]}) as (_ & _ & Hx); [lia|lia| |].
  - replace ({[1]} : gset Z) with ({[1]} ∪ ∅ : gset Z) by set_solver.
    eapply nsteps_l; [|apply nsteps_O]. apply (step_accept 1 acceptor_new ∅).
  - destruct (accept 1 (accept 1 acceptor_new).2).1 as [cid|] eqn:E; [|reflexivity].
    destruct Hx as [Hx _]. vm_compute in Hx. discriminate.
Defined.

End ConnectionRuns.
