(* ===== verification/Session.v ===== *)
(** * A connection from accept to disconnect

    [ConnectionHandler::with_limits] and the loop of [ConnectionHandler::run]
    ([src/ipc/connection.rs]) around the single turns of [Connection]. *)

From S2P Require Import Prelude Wire Toy Channel Connection.

Open Scope Z_scope.

Section Session.
Context `{WireCrate}.

(** [with_limits]: a write channel for 64 items and an empty key cell. *)
Definition conn_open (tx : ChanId) (cs : Chans) : Chans * option bytes := (<[tx := mkChan 64 true []]> cs, None).

(** What one turn of the loop meets: the time, the key cell when the frame has
    arrived, the frame or the error of the read, and whether the router still
    takes messages. *)
Record Turn := mkTurn {
  t_now : Z;
  t_key : option bytes;
  t_read : Result VynkorError Frame;
  t_accepts : bool;
}.

Record Outcome := mkOutcome {
  forwarded : list Frame;            (** handed to the router, in order *)
  notice : option ErrorCode;         (** the error sent before the end *)
  ended : bool;                      (** the loop has left; the disconnect loop is told *)
  buffers : ReassemblyMap;
}.

Fixpoint conn_run (lim : ConnLimits) (m : ReassemblyMap) (turns : list Turn) : Outcome :=
  match turns with
  | [] => mkOutcome [] None false m
  | t :: turns =>
      match read_step lim (t_now t) (t_key t) (t_read t) m with
      | RClose n => mkOutcome [] n true m
      | RContinue m' None => conn_run lim m' turns
      | RContinue m' (Some f) =>
          if t_accepts t then
            let o := conn_run lim m' turns in mkOutcome (f :: forwarded o) (notice o) (ended o) (buffers o)
          else mkOutcome [] None true m'
      end
  end.

(** [disconnect_tx.send(conn_id)] *)
Definition disconnects (cid : Z) (o : Outcome) : list Z := if ended o then [cid] else [].

(** ** Properties *)

Definition authentic (k : bytes) (t : Turn) : Prop :=
  exists f, t_read t = Ok f /\ mac_valid k f = true.

Lemma read_step_continues lim now k read m m' out :
  read_step lim now (Some k) read m = RContinue m' out -> exists f, read = Ok f /\ mac_valid k f = true.
Proof.
  unfold read_step. destruct read as [f|]; [|done]. destruct (mac_valid k f) eqn:Hv; cbn [negb]; [|done]. by exists f.
Qed.

(** C19: a secured session takes authentic frames up to its end and nothing
    after.  With a key in the cell, what a connection hands to the router is
    what a prefix of authentic frames yields; the loop has ended unless that
    prefix is everything received; the buffers stay within their limits. *)
Theorem session_secured lim k turns m :
  reassembly_ok lim m -> Forall (fun t => t_key t = Some k) turns ->
  exists n, Forall (authentic k) (take n turns) /\
    forwarded (conn_run lim m turns) = forwarded (conn_run lim m (take n turns)) /\
    (ended (conn_run lim m turns) = false -> n = length turns) /\
    reassembly_ok lim (buffers (conn_run lim m turns)).
Proof.
  revert m. induction turns as [|t turns IH]; intros m Hm Hk; [by exists O|]. apply Forall_cons in Hk as [Ht Hk].
  cbn [conn_run]. destruct (read_step lim (t_now t) (t_key t) (t_read t) m) as [m' [f|]|e] eqn:Hs.
  3: { exists O. by split_and!. }
  all: pose proof (read_step_keeps _ _ _ _ _ _ _ Hm Hs) as Hm'; rewrite Ht in Hs;
    pose proof (read_step_continues _ _ _ _ _ _ _ Hs) as Ha; destruct (IH m' Hm' Hk) as (n & Hn & Hf & He & Hb).
  - destruct (t_accepts t) eqn:Hacc; [|by exists O]. exists (S n). cbn [take conn_run]. rewrite Ht, Hs, Hacc. cbn.
    split_and!; [by constructor|by rewrite Hf|intros E; by rewrite He|done].
  - exists (S n). cbn [take conn_run]. rewrite Ht, Hs. split_and!; [by constructor|done|intros E; cbn; by rewrite He|done].
Qed.

End Session.

(** ** Runs *)
Module SessionRuns.

#[local] Instance wire : WireCrate := toy_wire [].

Definition lim : ConnLimits := mkLimits 30 2.
Definition key : bytes := [1; 2; 3].
Definition tagged (d : Z) : Frame := tag_frame key (mkFrame FRAME_MAGIC 0 1 (target_bytes "tts") d [d] None).

(** Two tagged frames, then one without a tag, then a tagged one. *)
Definition turns : list Turn :=
  [mkTurn 1 (Some key) (Ok (tagged 7)) true; mkTurn 2 (Some key) (Ok (tagged 8)) true;
   mkTurn 3 (Some key) (Ok (build_frame "tts" 0 [9])) true; mkTurn 4 (Some key) (Ok (tagged 10)) true].

Lemma session_witness :
  exists n, Forall (authentic key) (take n turns) /\
    forwarded (conn_run lim ∅ turns) = forwarded (conn_run lim ∅ (take n turns)) /\
    length (forwarded (conn_run lim ∅ turns)) = 2%nat /\ notice (conn_run lim ∅ turns) = Some ErrMacMissing.
Proof.
  destruct (session_secured lim key turns ∅) as (n & Ha & Hf & _ & _).
  - split; [rewrite map_size_empty; lia|]. by intros sid b ?%lookup_empty_Some.
  - by repeat constructor.
  - exists n. split_and!; [done..|by vm_compute|by vm_compute].
Defined.

End SessionRuns.
