(* ===== verification/Reassembly.v ===== *)
(** * Fragment reassembly is correct in any order

    The fragments of a message may arrive in any order and over time, as long
    as they all come before the timeout and with no other frame in between:
    the connection hands the router exactly the message, once, when the last
    one is in.  Buffers of other streams may time out meanwhile. *)

From stdpp Require Import sorting.
From S2P Require Import Prelude Wire Toy Channel Registry Connection.

Open Scope Z_scope.

Lemma map_lookup_seq (chunks : list bytes) : map (fun i => chunks !!! i) (seq 0 (length chunks)) = chunks.
Proof.
  apply list_eq. intros i. rewrite list_lookup_fmap.
  destruct (decide (i < length chunks)%nat) as [Hi|Hi].
  - rewrite lookup_seq_lt by done. simpl. symmetry. by apply list_lookup_lookup_total_lt.
  - rewrite lookup_seq_ge by lia. simpl. symmetry. apply lookup_ge_None. lia.
Qed.

Lemma sum_length_concat {A} (g : A -> bytes) l :
  sum_list_with (fun i => length (g i)) l = length (concat (map g l)).
Proof. induction l as [|i l IH]; simpl; [done|]. by rewrite length_app, IH. Qed.

Lemma NoDup_of_nat (l : list nat) : NoDup l -> NoDup (map Z.of_nat l).
Proof. apply NoDup_fmap_2. apply _. Qed.

(** What a later clean-up removes an earlier one may have removed already. *)
Lemma prune_prune now later timeout m :
  now <= later ->
  prune_stale_reassembly later timeout (prune_stale_reassembly now timeout m) = prune_stale_reassembly later timeout m.
Proof.
  intros Hle. unfold prune_stale_reassembly. rewrite map_filter_filter. apply map_filter_ext. intros sid b _.
  cbn. unfold duration_since. lia.
Qed.

Section AnyOrder.
Context `{WireCrate}.
Variables (lim : ConnLimits) (key : option bytes) (sid : Z) (chunks : list bytes).
(** The time of the first fragment. *)
Variable t0 : Z.
Let n : Z := Z.of_nat (length chunks).
Hypothesis Hsize : Z.of_nat (length (concat chunks)) <= MAX_PAYLOAD_SIZE.

Let bytes_of (l : list nat) : nat := sum_list_with (fun i => length (chunks !!! i)) l.

Let frags (l : list nat) : gmap Z bytes := list_to_map (map (fun i => (Z.of_nat i, chunks !!! i)) l).

(** The buffer after the fragments [l], the last one first. *)
Let buf_of (l : list nat) (t : bytes) : ReassemblyBuf := mkBuf (frags l) n t t0 (Z.of_nat (bytes_of l)).

(** The map with that buffer, over the other streams. *)
Let map_of (m : ReassemblyMap) (l : list nat) (t : bytes) : ReassemblyMap :=
  match l with [] => m | _ => <[sid := buf_of l t]> m end.

Lemma frags_keys l : (map (fun i => (Z.of_nat i, chunks !!! i)) l).*1 = map Z.of_nat l.
Proof. induction l as [|i l IH]; [done|]. simpl. f_equal. exact IH. Qed.

Lemma frags_lookup l i : NoDup l -> i ∈ l -> frags l !! Z.of_nat i = Some (chunks !!! i).
Proof.
  intros Hnd Hi. unfold frags. apply elem_of_list_to_map_1.
  - rewrite frags_keys. by apply NoDup_of_nat.
  - apply list_elem_of_fmap. by exists i.
Qed.

Lemma frags_None l i : i ∉ l -> frags l !! Z.of_nat i = None.
Proof.
  intros Hi. unfold frags. apply not_elem_of_list_to_map_1. rewrite frags_keys, list_elem_of_fmap.
  intros (j & Hj & ?). assert (i = j) by lia. by subst.
Qed.

Lemma frags_size l : NoDup l -> size (frags l) = length l.
Proof.
  intros Hnd. unfold frags. rewrite map_size_list_to_map by (rewrite frags_keys; by apply NoDup_of_nat).
  apply length_map.
Qed.

Lemma bytes_le l rest : l ++ rest ≡ₚ seq 0 (length chunks) -> Z.of_nat (bytes_of l) <= MAX_PAYLOAD_SIZE.
Proof.
  intros Hp. assert (bytes_of (l ++ rest) = length (concat chunks)) as Hb.
  { unfold bytes_of. rewrite Hp, sum_length_concat, map_lookup_seq. done. }
  unfold bytes_of in *. rewrite sum_list_with_app in Hb. lia.
Qed.

Lemma sorted_of_nat (k s : nat) : Sorted Z.le (map Z.of_nat (seq s k)).
Proof.
  revert s. induction k as [|k IH]; intros s; simpl; constructor; [done|]. destruct k; simpl; constructor; lia.
Qed.

Lemma reassemble_all l t : l ≡ₚ seq 0 (length chunks) -> reassemble (buf_of l t) = concat chunks.
Proof.
  intros Hp. assert (NoDup l) as Hnd by (rewrite Hp; apply NoDup_seq).
  unfold reassemble. cbn [fragments buf_of].
  assert (merge_sort Z.le (elements (dom (frags l))) = map Z.of_nat (seq 0 (length chunks))) as ->.
  { apply (Sorted_unique Z.le); [apply Sorted_merge_sort, _|apply sorted_of_nat|].
    rewrite merge_sort_Permutation. unfold frags.
    rewrite dom_list_to_map_L, frags_keys, elements_list_to_set by by apply NoDup_of_nat.
    by rewrite Hp. }
  rewrite map_map. rewrite <- (map_lookup_seq chunks) at 2. f_equal. apply map_ext_in.
  intros i Hi. apply list_elem_of_In in Hi. rewrite frags_lookup; [done|done|]. by rewrite Hp.
Qed.

(** The message the router gets, from the last fragment received. *)
Definition assembled (f : Frame) (t : bytes) (payload : bytes) : Frame :=
  mkFrame (f_magic f) (clear_flag (f_flags f) FLAG_FRAGMENTED) (as_u32 (Z.of_nat (length payload)))
    t (crc32_hash payload) payload None.

Lemma insert_one now m l i f t hdr rest :
  m !! sid = None -> (l = [] -> now = t0 /\ t = f_target f) ->
  i :: l ++ rest ≡ₚ seq 0 (length chunks) ->
  drop FRAG_HEADER_SIZE (f_payload f) = chunks !!! i ->
  fh_sequence hdr = Z.of_nat i -> fh_total hdr = n -> fh_stream_id hdr = sid ->
  insert_fragment lim now f hdr (map_of m l t) =
  match rest with
  | [] => RContinue m (Some (assembled f t (concat chunks)))
  | _ => RContinue (map_of m (i :: l) t) None
  end.
Proof.
  intros Hfresh Hfirst Hp Hd Hs Ht Hsid. unfold insert_fragment. rewrite Hd, Hs, Ht, Hsid.
  assert (NoDup (i :: l ++ rest)) as Hnd by (rewrite Hp; apply NoDup_seq).
  apply NoDup_cons in Hnd as [Hi Hnd]. apply NoDup_app in Hnd as (Hnl & _ & _).
  assert (i ∉ l) as Hil by set_solver.
  assert (default (mkBuf ∅ n (f_target f) now 0) (map_of m l t !! sid) = buf_of l t) as ->.
  { unfold map_of. destruct l as [|j l']; [|by rewrite lookup_insert_eq].
    destruct (Hfirst eq_refl) as [-> ->]. by rewrite Hfresh. }
  assert (bytes_of (i :: l) = length (chunks !!! i) + bytes_of l)%nat as Hb by done.
  cbn [fragments buffered_bytes total buf_target first_seen buf_of]. rewrite frags_None by done.
  pose proof (bytes_le (i :: l) rest Hp) as Hle. pose proof max_payload_usize as Hmax. unfold usize_max, u64_max in Hmax.
  rewrite usize_add_sub by lia.
  replace (Z.of_nat (bytes_of l) + Z.of_nat (length (chunks !!! i)) - 0) with (Z.of_nat (bytes_of (i :: l))) by lia.
  destruct (Z.ltb_spec MAX_PAYLOAD_SIZE (Z.of_nat (bytes_of (i :: l)))) as [Hbad|_]; [lia|].
  change (mkBuf (<[Z.of_nat i := chunks !!! i]> (frags l)) n t t0 (Z.of_nat (bytes_of (i :: l))))
    with (buf_of (i :: l) t).
  assert (size (frags (i :: l)) = length (i :: l)) as Hsz by (apply frags_size, NoDup_cons; done).
  assert (length (i :: l) + length rest = length chunks)%nat as Hlen.
  { pose proof (Permutation_length Hp) as Hl. rewrite length_seq in Hl. simpl in *. rewrite length_app in Hl. lia. }
  unfold is_complete. cbn [fragments total buf_of]. rewrite Hsz. destruct rest as [|j rest].
  - rewrite app_nil_r in Hp. rewrite (proj2 (Z.eqb_eq _ _)) by (unfold n; simpl in *; lia).
    rewrite (reassemble_all (i :: l) t Hp). f_equal. unfold map_of.
    destruct l; [by apply delete_id|by rewrite delete_insert_id].
  - rewrite (proj2 (Z.eqb_neq _ _)) by (unfold n; simpl in *; lia). f_equal. unfold map_of.
    destruct l; [done|]. by rewrite insert_insert_eq.
Qed.

(** The clean-up before a read in time keeps the buffer. *)
Lemma prune_map_of now m l t :
  duration_since now t0 < fragment_timeout lim ->
  prune_stale_reassembly now (fragment_timeout lim) (map_of m l t) =
  map_of (prune_stale_reassembly now (fragment_timeout lim) m) l t.
Proof.
  intros Hlive. unfold map_of. destruct l as [|i l]; [done|]. unfold prune_stale_reassembly.
  by rewrite map_filter_insert_True.
Qed.

Lemma prune_fresh now timeout (m : ReassemblyMap) : m !! sid = None -> prune_stale_reassembly now timeout m !! sid = None.
Proof. intros Hm. unfold prune_stale_reassembly. apply map_lookup_filter_None. by left. Qed.

Lemma read_one now m l i f t rest :
  m !! sid = None -> (size m < max_reassembly_streams lim)%nat -> duration_since now t0 < fragment_timeout lim ->
  (l = [] -> now = t0 /\ t = f_target f) ->
  i :: l ++ rest ≡ₚ seq 0 (length chunks) ->
  is_fragment sid n f i (chunks !!! i) ->
  match key with Some k => mac_valid k f = true | None => True end ->
  read_step lim now key (Ok f) (map_of m l t) =
  let m' := prune_stale_reassembly now (fragment_timeout lim) m in
  match rest with
  | [] => RContinue m' (Some (assembled f t (concat chunks)))
  | _ => RContinue (map_of m' (i :: l) t) None
  end.
Proof.
  intros Hfresh Hroom Hlive Hfirst Hp (Hfl & [id Hh] & Hd) Hmac. unfold read_step.
  assert (match key with Some k => negb (mac_valid k f) | None => false end = false) as ->
    by (destruct key; [by rewrite Hmac|done]).
  rewrite Hfl, prune_map_of by done. cbv zeta. set (m' := prune_stale_reassembly _ _ m).
  assert (Hfresh' : m' !! sid = None) by by apply prune_fresh.
  assert (Hroom' : (size m' < max_reassembly_streams lim)%nat) by (eapply Nat.le_lt_trans; [apply map_size_filter|done]).
  unfold handle_fragment. rewrite Hh. cbn [fh_total fh_sequence fh_stream_id].
  assert (i < length chunks)%nat as Hi.
  { assert (i ∈ seq 0 (length chunks)) as Hin by (rewrite <- Hp; left). apply elem_of_seq in Hin. lia. }
  rewrite (proj2 (Z.eqb_neq n 0)), (proj2 (Z.leb_gt n (Z.of_nat i))) by (unfold n; lia). simpl.
  destruct (map_of m' l t !! sid) as [b|] eqn:Hb.
  - assert (total b = n) as Htot.
    { unfold map_of in Hb. destruct l; [congruence|]. rewrite lookup_insert_eq in Hb. by simplify_eq. }
    rewrite Htot, bool_decide_eq_true_2 by done. by apply insert_one.
  - assert (l = []) as ->.
    { unfold map_of in Hb. destruct l; [done|]. by rewrite lookup_insert_eq in Hb. }
    destruct (Nat.leb_spec (max_reassembly_streams lim) (size (map_of m' [] t))); [simpl in *; lia|].
    by apply insert_one.
Qed.

(** A frame received at some time is the fragment [i], with a valid tag where
    one is asked for. *)
Definition fragment_read (x : Z * Frame) (i : nat) : Prop :=
  is_fragment sid n x.2 i (chunks !!! i) /\ match key with Some k => mac_valid k x.2 = true | None => True end.

Lemma feed_from m l order frames t t1 final :
  m !! sid = None -> (size m < max_reassembly_streams lim)%nat ->
  reverse l ++ order ≡ₚ seq 0 (length chunks) -> Forall2 fragment_read frames order ->
  StronglySorted Z.le frames.*1 -> Forall (fun x => duration_since x.1 t0 < fragment_timeout lim) frames ->
  last frames = Some (t1, final) ->
  (l = [] -> exists f, head frames = Some (t0, f) /\ t = f_target f) ->
  feed lim key frames (map_of m l t) =
  Some (prune_stale_reassembly t1 (fragment_timeout lim) m, [assembled final t (concat chunks)]).
Proof.
  revert m l frames. induction order as [|i order IH]; intros m l frames Hfresh Hroom Hp HF Hsort Hlive Hlast Hfirst.
  { apply Forall2_nil_inv_r in HF as ->. done. }
  apply Forall2_cons_inv_r in HF as ([now f] & frames' & [Hf Hk] & HF & ->). cbn [feed fmap list_fmap fst snd] in *.
  apply StronglySorted_inv in Hsort as [Hsort Hle]. apply Forall_cons in Hlive as [Hnow Hlive].
  assert (i :: l ++ order ≡ₚ seq 0 (length chunks)) as Hp'.
  { rewrite <- Hp, reverse_Permutation. by rewrite Permutation_middle. }
  rewrite (read_one now m l i f t order); [|done|done|done| |done|done|done].
  2: { intros ->. destruct (Hfirst eq_refl) as (g & [= <- <-] & ->). done. }
  destruct order as [|j order]; cbv beta iota zeta.
  - apply Forall2_nil_inv_r in HF as ->. injection Hlast as <- <-. done.
  - assert (frames' <> []) as Hne by (intros ->; by apply Forall2_nil_inv_l in HF).
    assert (last frames' = Some (t1, final)) as Hlast' by (by destruct frames').
    set (m' := prune_stale_reassembly now (fragment_timeout lim) m).
    rewrite (IH m' (i :: l) frames'); try done.
    + unfold m'. rewrite prune_prune; [done|]. rewrite Forall_forall in Hle. apply Hle, list_elem_of_fmap.
      exists (t1, final). split; [done|]. by apply last_Some_elem_of.
    + by apply prune_fresh.
    + eapply Nat.le_lt_trans; [apply map_size_filter|done].
    + by rewrite reverse_cons, <- app_assoc.
Qed.

(** C20: reassembly depends neither on the order of arrival nor on the pace.  If
    the fragments of a message are read in any order on a fresh stream, within
    the caps, at times that do not decrease and of which the last is less than
    the timeout after the first, each (on a secured connection) with a valid
    tag, then the connection stays open and hands the router exactly one
    frame: its payload is the chunks concatenated in sequence order, its
    target the one of the first fragment received, its length and checksum
    those of the payload, its fragment flag cleared; and the other streams are
    those that have not timed out at the last read. *)
Theorem reassembly_any_order m order frames first t1 final :
  m !! sid = None -> (size m < max_reassembly_streams lim)%nat ->
  order ≡ₚ seq 0 (length chunks) -> Forall2 fragment_read frames order ->
  head frames = Some (t0, first) -> last frames = Some (t1, final) ->
  StronglySorted Z.le frames.*1 -> t1 - t0 < fragment_timeout lim ->
  feed lim key frames m =
  Some (prune_stale_reassembly t1 (fragment_timeout lim) m, [assembled final (f_target first) (concat chunks)]).
Proof.
  intros Hfresh Hroom Hp HF Hhead Hlast Hsort Htime.
  apply (feed_from m [] order frames (f_target first)); try done; [|intros _; by exists first].
  assert (Hbetween : forall t, t ∈ frames.*1 -> t0 <= t <= t1).
  { intros t Ht. split.
    - destruct frames as [|x frames]; [done|]. injection Hhead as ->. apply StronglySorted_inv in Hsort as [_ Hle].
      apply elem_of_cons in Ht as [->|Ht]; [done|]. rewrite Forall_forall in Hle. by apply Hle.
    - destruct (last_Some frames (t1, final)) as [Hl _]. destruct (Hl Hlast) as [pre ->].
      rewrite fmap_app in Hsort, Ht. apply elem_of_app in Ht as [Ht|Ht]; [|apply list_elem_of_singleton in Ht as ->; done].
      eapply (StronglySorted_app_1_elem_of Z.le); [exact Hsort|exact Ht|by left]. }
  apply Forall_forall. intros x Hx. destruct (Hbetween x.1) as [? ?]; [by apply list_elem_of_fmap_2|].
  unfold duration_since. lia.
Qed.

End AnyOrder.

(** The second fragment first. *)
Module ReassemblyRuns.

#[local] Instance wire : WireCrate := toy_wire [].

Definition lim : ConnLimits := mkLimits 30 2.

Definition frag (i : Z) (d : bytes) : Frame :=
  mkFrame FRAME_MAGIC FLAG_FRAGMENTED 0 (target_bytes "tts") 0 ([1; i; 2; 7] ++ d) None.

(** A buffer of another stream that times out between the two reads. *)
Definition old : ReassemblyBuf := mkBuf {[0 := [9]]} 2 (target_bytes "tts") 85 1.
Definition reads : list (Z * Frame) := [(100, frag 1 [5; 6]); (120, frag 0 [4])].

Lemma reassembly_witness :
  feed lim None reads {[8 := old]} = Some (∅, [assembled (frag 0 [4]) (target_bytes "tts") [4; 5; 6]]).
Proof.
  transitivity (Some (prune_stale_reassembly 120 (fragment_timeout lim) {[8 := old]},
                      [assembled (frag 0 [4]) (f_target (frag 1 [5; 6])) (concat [[4]; [5; 6]])])); [|reflexivity].
  apply (reassembly_any_order lim None 7 [[4]; [5; 6]] 100) with (order := [1%nat; 0%nat]); try done.
  - vm_compute. lia.
  - apply Permutation_swap.
  - repeat constructor; try (eexists; vm_compute; reflexivity).
  - repeat constructor; done.
Defined.

End ReassemblyRuns.
