(* ===== verification/Sandbox.v ===== *)
(** * Plugin process configuration

    The configuration of a supervised plugin and what the supervisor passes
    to its process: the filesystem ceiling and its encoding in the shim's
    environment ([src/plugins/fsaccess.rs]), the command environment
    assembled by [spawn_internal] ([src/plugins/supervisor/spawn.rs]) and the
    name of the plugin's cgroup ([src/plugins/runner.rs]).

    Paths are strings; a path that is not valid UTF-8 is not represented. *)

From S2P Require Import Prelude Wire Text.

Open Scope Z_scope.

(** ** The filesystem ceiling *)

Inductive FsAccessMode := FsFull | FsReadOnly | FsNone.

#[export] Instance FsAccessMode_eq_dec : EqDecision FsAccessMode.
Proof. solve_decision. Defined.

Definition fs_as_str (m : FsAccessMode) : string :=
  match m with FsFull => "full" | FsReadOnly => "read-only" | FsNone => "none" end.

Definition fs_parse (s : string) : option FsAccessMode :=
  if s ==? "full" then Some FsFull
  else if (s ==? "read-only") || (s ==? "readonly") then Some FsReadOnly
  else if s ==? "none" then Some FsNone
  else None.

Record FsRestriction := mkRestriction {
  fsr_mode : FsAccessMode;
  fsr_readonly_paths : list string;
  fsr_writable_paths : list string;
}.

Definition MAX_FS_ACCESS_ENV : string := "VYN_MAX_FS_ACCESS".
Definition RO_PATHS_ENV : string := "VYN_RO_PATHS".
Definition RW_PATHS_ENV : string := "VYN_RW_PATHS".
Definition PATH_SEP : ascii := ascii_of_N 0x1f.

Fixpoint join_paths_env (paths : list string) : string :=
  match paths with
  | [] => EmptyString
  | [p] => p
  | p :: ps => p +:+ String PATH_SEP (join_paths_env ps)
  end.

(** [v.split(sep)]: always at least one piece. *)
Fixpoint split_char (c : ascii) (s : string) : list string :=
  match s with
  | EmptyString => [EmptyString]
  | String a s' =>
      if decide (a = c) then EmptyString :: split_char c s'
      else match split_char c s' with
           | p :: ps => String a p :: ps
           | [] => [String a EmptyString]
           end
  end.

Abbreviation ProcEnv := (gmap string string).

Definition parse_paths_env (env : ProcEnv) (name : string) : list string :=
  match env !! name with
  | Some v => filter (fun s => s <> EmptyString) (split_char PATH_SEP v)
  | None => []
  end.

(** What the shim reads back. *)
Definition from_env (env : ProcEnv) : option FsRestriction :=
  match env !! MAX_FS_ACCESS_ENV with
  | None => None
  | Some v =>
      match fs_parse v with
      | None => None
      | Some mode =>
          if mode ==? FsFull then None
          else Some (mkRestriction mode (parse_paths_env env RO_PATHS_ENV) (parse_paths_env env RW_PATHS_ENV))
      end
  end.

(** ** Plugin configuration *)

Inductive RestartPolicy := Always | OnFailure | Never.

Record PluginConfig := mkConfig {
  cfg_plugin_id : string;
  binary_path : string;
  cfg_args : list string;
  cfg_env : list string;
  restart_policy : RestartPolicy;
  max_restarts : Z;
  sandbox : bool;
  grace_seconds : Z;
  max_procs : option Z;
  max_vmem_mb : option Z;
  max_fs_access : FsAccessMode;
  readonly_paths : list string;
  writable_paths : list string;
}.

(** ** The command of a spawn *)

(** [Path::join]: an absolute component replaces the path. *)
Fixpoint ends_with_slash (s : string) : bool :=
  match s with
  | EmptyString => false
  | String a EmptyString => a ==? "/"%char
  | String _ s' => ends_with_slash s'
  end.

Definition path_join (dir p : string) : string :=
  if starts_with "/" p then p
  else if is_empty dir || ends_with_slash dir then dir +:+ p
  else dir +:+ "/" +:+ p.

(** The data directory granted to a plugin, when one could be created. *)
Definition plugin_data_dir (data_dir : option string) (created : bool) (cfg : PluginConfig)
    : option string :=
  match data_dir with
  | Some d => if created then Some (path_join (path_join d "plugins") (cfg_plugin_id cfg)) else None
  | None => None
  end.

(** [for kv in &config.env { if let Some((k, v)) = kv.split_once('=') .. }] *)
Definition env_pairs (kvs : list string) : list (string * string) := omap (split_once "="%char) kvs.

Definition set_env (env : ProcEnv) (kv : string * string) : ProcEnv := <[kv.1 := kv.2]> env.

(** The variables of the sandbox shim. *)
Definition shim_vars (cfg : PluginConfig) (writable : list string) : list (string * string) :=
  (if 0 <? grace_seconds cfg then [("VYN_SHIM_GRACE_SECS", show (grace_seconds cfg))] else []) ++
  (if max_fs_access cfg <>? FsFull
   then [(MAX_FS_ACCESS_ENV, fs_as_str (max_fs_access cfg));
         (RO_PATHS_ENV, join_paths_env (readonly_paths cfg));
         (RW_PATHS_ENV, join_paths_env writable)]
   else []).

(** The variables the supervisor sets, in the order of the calls; a later
    one wins. *)
Definition spawn_vars (socket_path : string) (data : option string) (cfg : PluginConfig)
    : list (string * string) :=
  let writable := writable_paths cfg ++ option_list data in
  (if sandbox cfg then shim_vars cfg writable else [])
  ++ [("VYN_SOCKET_PATH", socket_path)]
  ++ match data with Some d => [("VYN_DATA_DIR", d)] | None => [] end
  ++ env_pairs (cfg_env cfg).

(** The environment of the child: the kernel's own, overridden. *)
Definition spawn_env (inherited : ProcEnv) (socket_path : string) (data : option string)
    (cfg : PluginConfig) : ProcEnv :=
  foldl set_env inherited (spawn_vars socket_path data cfg).

(** Program and arguments: through the shim when sandboxed. *)
Definition spawn_argv (shim_bin : string) (cfg : PluginConfig) : string * list string :=
  if sandbox cfg then (shim_bin, "__shim" :: binary_path cfg :: cfg_args cfg)
  else (binary_path cfg, cfg_args cfg).

(** ** The cgroup name *)

(** The first bytes of the characters of a UTF-8 string: a character is
    ASCII when its first byte is. *)
Definition char_heads (s : string) : list ascii :=
  filter (fun a => (N_of_ascii a < 0x80 \/ 0xC0 <= N_of_ascii a)%N) (String.list_ascii_of_string s).

Definition sanitize_char (a : ascii) : ascii :=
  if is_ascii_alphanumeric a || (a ==? "."%char) || (a ==? "_"%char) || (a ==? "-"%char) then a else "_"%char.

Definition sanitize_plugin_id (s : string) : string :=
  let out := String.string_of_list_ascii (map sanitize_char (take 63 (char_heads s))) in
  if (out ==? EmptyString) || (out ==? ".") || (out ==? "..") then "plugin" else out.

Definition parse_cgroup_v2_line (line : string) : option string :=
  rest ← strip_prefix "0::" line;
  let path := trim rest in
  if is_empty path then None else Some path.

(** ** Lemmas *)

Lemma fs_parse_as_str m : fs_parse (fs_as_str m) = Some m.
Proof. by destruct m. Qed.

Lemma contains_char_app c s t : contains_char c (s +:+ t) = contains_char c s || contains_char c t.
Proof. induction s as [|a s IH]; simpl; [done|]. by rewrite IH, orb_assoc. Qed.

Lemma split_char_none c s : contains_char c s = false -> split_char c s = [s].
Proof.
  induction s as [|a s IH]; simpl; [done|]. intros [Ha Hs]%orb_false_elim.
  rewrite decide_False by by apply bool_decide_eq_false in Ha. by rewrite IH.
Qed.

Lemma split_char_app c p s :
  contains_char c p = false -> split_char c (p +:+ String c s) = p :: split_char c s.
Proof.
  induction p as [|a p IH]; simpl; [by rewrite decide_True|]. intros [Ha Hp]%orb_false_elim.
  rewrite decide_False by by apply bool_decide_eq_false in Ha. by rewrite IH.
Qed.

(** A path the encoding can carry. *)
Definition plain_path (p : string) : Prop := p <> EmptyString /\ contains_char PATH_SEP p = false.

Lemma split_join_paths ps :
  Forall plain_path ps -> filter (fun s => s <> EmptyString) (split_char PATH_SEP (join_paths_env ps)) = ps.
Proof.
  induction ps as [|p [|q ps] IH]; intros Hps; [done|..].
  - apply Forall_singleton in Hps as [Hp Hc]. simpl. rewrite split_char_none by done.
    by rewrite filter_cons_True.
  - apply Forall_cons in Hps as [[Hp Hc] Hps]. change (join_paths_env (p :: q :: ps))
      with (p +:+ String PATH_SEP (join_paths_env (q :: ps))).
    rewrite split_char_app by done. rewrite filter_cons_True by done. by rewrite IH.
Qed.

Lemma foldl_set_env_notin (l : list (string * string)) (env : ProcEnv) k :
  k ∉ l.*1 -> foldl set_env env l !! k = env !! k.
Proof.
  revert env. induction l as [|[k' v] l IH]; intros env Hk; simpl; [done|].
  rewrite IH by set_solver. unfold set_env. simpl. rewrite lookup_insert_ne by set_solver. done.
Qed.

Lemma foldl_set_env_last (l1 l2 : list (string * string)) (env : ProcEnv) k v :
  k ∉ l2.*1 -> foldl set_env env (l1 ++ (k, v) :: l2) !! k = Some v.
Proof.
  intros Hk. rewrite foldl_app. simpl. rewrite foldl_set_env_notin by done. apply lookup_insert_eq.
Qed.

(** The names the filesystem restriction travels under. *)
Definition fs_names : list string := [MAX_FS_ACCESS_ENV; RO_PATHS_ENV; RW_PATHS_ENV].

Lemma sanitize_char_ok a : sanitize_char a = "_"%char \/
  is_ascii_alphanumeric (sanitize_char a) || (sanitize_char a ==? "."%char) || (sanitize_char a ==? "_"%char)
    || (sanitize_char a ==? "-"%char) = true.
Proof. unfold sanitize_char. destruct (_ || _ || _ || _) eqn:E; [by right|by left]. Qed.

(** ** Properties *)

(** The filesystem restriction of a sandboxed plugin reaches the shim
    unchanged: whatever environment the kernel itself has, [from_env] on the
    child's environment returns the configured mode, read-only paths and
    writable paths with the data directory added, for paths that are
    non-empty and free of the separator, when the plugin's own variables do
    not shadow the three names. *)
Theorem restriction_roundtrip inherited sock data cfg :
  sandbox cfg = true ->
  max_fs_access cfg <> FsFull ->
  Forall plain_path (readonly_paths cfg) ->
  Forall plain_path (writable_paths cfg ++ option_list data) ->
  (forall n, n ∈ fs_names -> n ∉ (env_pairs (cfg_env cfg)).*1) ->
  from_env (spawn_env inherited sock data cfg) =
    Some (mkRestriction (max_fs_access cfg) (readonly_paths cfg) (writable_paths cfg ++ option_list data)).
Proof.
  intros Hsb Hm Hro Hrw Hn. unfold from_env, parse_paths_env, spawn_env, spawn_vars, shim_vars.
  rewrite Hsb, bool_decide_eq_false_2 by done. cbn [negb].
  set (g := if 0 <? grace_seconds cfg then _ else _).
  set (d := match data with Some d => [("VYN_DATA_DIR", d)] | None => [] end).
  assert (forall n, n ∈ fs_names ->
            n ∉ ([("VYN_SOCKET_PATH", sock)] ++ d ++ env_pairs (cfg_env cfg)).*1) as Hrest.
  { intros n Hin. rewrite !fmap_app, !elem_of_app. specialize (Hn n Hin).
    assert (n <> "VYN_SOCKET_PATH" /\ n <> "VYN_DATA_DIR") as [? ?].
    { unfold fs_names in Hin. set_unfold. naive_solver. }
    unfold d. destruct data; set_solver. }
  set (rest := [("VYN_SOCKET_PATH", sock)] ++ d ++ env_pairs (cfg_env cfg)) in *.
  set (m := (MAX_FS_ACCESS_ENV, _)). set (ro := (RO_PATHS_ENV, _)). set (rw := (RW_PATHS_ENV, _)).
  assert (forall l1 n v l2, n ∈ fs_names -> n ∉ l2.*1 ->
            (g ++ [m; ro; rw]) = l1 ++ (n, v) :: l2 ->
            foldl set_env inherited ((g ++ [m; ro; rw]) ++ rest) !! n = Some v) as Hget.
  { intros l1 n v l2 Hin Hl2 ->. rewrite <- app_assoc. cbn [app]. apply foldl_set_env_last.
    rewrite fmap_app, elem_of_app. intros [?|?]; [done|]. by apply (Hrest n Hin). }
  rewrite (Hget g _ _ [ro; rw]) by (unfold fs_names; set_solver || done).
  rewrite fs_parse_as_str, bool_decide_eq_false_2 by done.
  rewrite (Hget (g ++ [m]) _ _ [rw]) by first [by rewrite <- app_assoc|unfold fs_names; set_solver].
  rewrite (Hget (g ++ [m; ro]) _ _ []) by first [by rewrite <- app_assoc|unfold fs_names; set_solver].
  by rewrite !split_join_paths.
Qed.

(** The cgroup component of a plugin never leaves its parent directory:
    it is not empty, [.] or [..], has at most 63 characters, and consists of
    letters, digits, [.], [_] and [-] only, so in particular has no slash. *)
Theorem sanitize_plugin_id_safe s :
  let out := sanitize_plugin_id s in
  out <> EmptyString /\ out <> "." /\ out <> ".." /\ (String.length out <= 63)%nat /\
  contains_char "/" out = false /\
  string_forallb (fun a => is_ascii_alphanumeric a || (a ==? "."%char) || (a ==? "_"%char) || (a ==? "-"%char))
    out = true.
Proof.
  intros out. unfold out, sanitize_plugin_id.
  set (l := map sanitize_char (take 63 (char_heads s))).
  assert (length l <= 63)%nat as Hlen by (unfold l; rewrite length_map, length_take; lia).
  assert (Forall (fun a => exists b, a = sanitize_char b) l) as Hl.
  { apply Forall_forall. intros a (b&->&_)%list_elem_of_fmap. by exists b. }
  clearbody l. destruct (_ || _ || _) eqn:E; [split_and!; try done; simpl; lia|].
  bools. split_and!; try done.
  - clear -Hlen. revert Hlen. generalize 63%nat. induction l as [|a l IH]; intros n Hn; simpl in *; [lia|].
    destruct n; [lia|]. specialize (IH n). lia.
  - clear -Hl. induction Hl as [|a l [b ->] Hl IH]; simpl; [done|]. rewrite IH, orb_false_r.
    apply bool_decide_eq_false_2. intros Hb.
    destruct (sanitize_char_ok b) as [Hs|Hs]; rewrite Hb in Hs; done.
  - clear -Hl. induction Hl as [|a l [b ->] Hl IH]; simpl; [done|]. rewrite IH, andb_true_r.
    destruct (sanitize_char_ok b) as [->|Hs]; done.
Qed.

(** ** A restricted plugin *)
Module SandboxRuns.

Definition cfg : PluginConfig :=
  mkConfig "notes" "/opt/notes/bin" [] ["LANG=C"] OnFailure 5 true 0 None None FsReadOnly
    ["/usr/share/dict"] ["/tmp/notes"].

(** Its own variables shadow none of the restriction's. *)
Lemma cfg_names n : n ∈ fs_names -> n ∉ (env_pairs (cfg_env cfg)).*1.
Proof.
  intros Hn. change ((env_pairs (cfg_env cfg)).*1) with ["LANG"]. rewrite list_elem_of_singleton. intros ->.
  revert Hn. vm_compute. intros Hn. repeat (apply elem_of_cons in Hn as [Hn|Hn]; [done|]). by apply elem_of_nil in Hn.
Qed.

Lemma restriction_witness :
  from_env (spawn_env {[MAX_FS_ACCESS_ENV := "full"]} "/run/vyn.sock" (Some "/data/plugins/notes") cfg) =
    Some (mkRestriction FsReadOnly ["/usr/share/dict"] ["/tmp/notes"; "/data/plugins/notes"]).
Proof.
  apply (restriction_roundtrip {[MAX_FS_ACCESS_ENV := "full"]} "/run/vyn.sock"
           (Some "/data/plugins/notes") cfg).
  - reflexivity.
  - done.
  - repeat constructor; done.
  - repeat constructor; done.
  - exact cfg_names.
Defined.

End SandboxRuns.
