(* ===== verification/Supervisor.v ===== *)
(** * The plugin supervisor ([src/plugins/supervisor/])

    Process bookkeeping: spawn instances and their epochs, explicit stops
    and manual restarts, the monitor task that turns exit events into
    restarts with backoff, the watchdog and the log ring buffers.

    The tasks of the supervisor interleave at their suspension points, so an
    operation that suspends is cut there into pieces: a spawn into
    [spawn_begin] and [spawn_commit] (the shim reports its pid in between),
    the handling of an exit into [monitor_decide], [monitor_apply] (after the
    publication), [monitor_wake] (after the backoff) and the spawn's commit.
    The operating system is an argument: the result of a process creation,
    the moment of an exit; what the supervisor does to it is the list
    [effects]. *)

From S2P Require Import Prelude Wire Text Channel Registry DeviceStore EventStore World EventBus Sandbox.

Open Scope Z_scope.

(** ** State *)

Inductive Signal := SIGTERM | SIGKILL.

Inductive Effect :=
| FxSpawn (epoch : Z)                     (** a child process was created *)
| FxSignal (target : Z) (sig : Signal)    (** [kill(target, sig)] *)
| FxReap (epoch : Z)                      (** the child was killed and waited for *)
| FxCgroupCleanup (epoch : Z).            (** its cgroup scope was removed *)

(** [PluginEntry] of the supervisor.  The receiver [exited] fires when the
    instance leaves [running]. *)
Record ProcEntry := mkProc {
  pe_config : PluginConfig;
  pe_restart_count : Z;
  pe_pid : Z;
  pe_shim_pid : option Z;
  pe_epoch : Z;
}.

Definition signal_target (e : ProcEntry) : Z := default (pe_pid e) (pe_shim_pid e).

Record ExitEvent := mkExit {
  ex_plugin_id : string;
  ex_epoch : Z;
  ex_pid : Z;
  ex_success : bool;
}.

(** The settings of [PluginSupervisor]. *)
Record SupConfig := mkSupConfig {
  socket_path : string;
  data_dir : option string;
  max_log_lines : nat;
  has_events : bool;
  backoff_base_ms : Z;
  backoff_max_ms : Z;
}.

(** Its state.  [log_buffers] maps a plugin to the buffer of its latest
    instance; a drain task keeps the buffer of its own instance.  [running]
    holds the instances whose wait task has not finished. *)
Record Supervisor := mkSup {
  entries : gmap string ProcEntry;
  event_queue : list ExitEvent;
  log_buffers : gmap string Z;
  log_store : gmap Z (list string);
  forced_restarts : gset string;
  stopped_counts : gmap string Z;
  next_epoch : Z;
  stopped_epochs : gmap string Z;
  running : gmap Z (string * Z);
  effects : list Effect;
}.

Definition sup_new : Supervisor := mkSup ∅ [] ∅ ∅ ∅ ∅ 0 ∅ ∅ [].

Definition set_entries (f : gmap string ProcEntry -> gmap string ProcEntry) (s : Supervisor) : Supervisor :=
  mkSup (f (entries s)) (event_queue s) (log_buffers s) (log_store s) (forced_restarts s)
    (stopped_counts s) (next_epoch s) (stopped_epochs s) (running s) (effects s).
Definition set_queue (f : list ExitEvent -> list ExitEvent) (s : Supervisor) : Supervisor :=
  mkSup (entries s) (f (event_queue s)) (log_buffers s) (log_store s) (forced_restarts s)
    (stopped_counts s) (next_epoch s) (stopped_epochs s) (running s) (effects s).
Definition set_logs (f : gmap string Z -> gmap string Z)
    (g : gmap Z (list string) -> gmap Z (list string)) (s : Supervisor) : Supervisor :=
  mkSup (entries s) (event_queue s) (f (log_buffers s)) (g (log_store s)) (forced_restarts s)
    (stopped_counts s) (next_epoch s) (stopped_epochs s) (running s) (effects s).
Definition set_forced (f : gset string -> gset string) (s : Supervisor) : Supervisor :=
  mkSup (entries s) (event_queue s) (log_buffers s) (log_store s) (f (forced_restarts s))
    (stopped_counts s) (next_epoch s) (stopped_epochs s) (running s) (effects s).
Definition set_counts (f : gmap string Z -> gmap string Z) (s : Supervisor) : Supervisor :=
  mkSup (entries s) (event_queue s) (log_buffers s) (log_store s) (forced_restarts s)
    (f (stopped_counts s)) (next_epoch s) (stopped_epochs s) (running s) (effects s).
Definition set_next_epoch (f : Z -> Z) (s : Supervisor) : Supervisor :=
  mkSup (entries s) (event_queue s) (log_buffers s) (log_store s) (forced_restarts s)
    (stopped_counts s) (f (next_epoch s)) (stopped_epochs s) (running s) (effects s).
Definition set_stopped_epochs (f : gmap string Z -> gmap string Z) (s : Supervisor) : Supervisor :=
  mkSup (entries s) (event_queue s) (log_buffers s) (log_store s) (forced_restarts s)
    (stopped_counts s) (next_epoch s) (f (stopped_epochs s)) (running s) (effects s).
Definition set_running (f : gmap Z (string * Z) -> gmap Z (string * Z)) (s : Supervisor) : Supervisor :=
  mkSup (entries s) (event_queue s) (log_buffers s) (log_store s) (forced_restarts s)
    (stopped_counts s) (next_epoch s) (stopped_epochs s) (f (running s)) (effects s).
Definition add_effects (l : list Effect) (s : Supervisor) : Supervisor :=
  mkSup (entries s) (event_queue s) (log_buffers s) (log_store s) (forced_restarts s)
    (stopped_counts s) (next_epoch s) (stopped_epochs s) (running s) (effects s ++ l).

(** ** Queries *)

Definition is_running (pid : string) (s : Supervisor) : bool := is_some (entries s !! pid).

Definition grace_seconds_for (pid : string) (s : Supervisor) : option Z :=
  e ← entries s !! pid;
  let g := grace_seconds (pe_config e) in
  if 0 <? g then Some g else None.

Definition restart_count_of (pid : string) (s : Supervisor) : option Z :=
  match entries s !! pid with
  | Some e => Some (pe_restart_count e)
  | None => stopped_counts s !! pid
  end.

Definition backoff_delay (cfg : SupConfig) (restart_count : Z) : Z :=
  let ms := u64_saturating_mul (backoff_base_ms cfg) (Z.shiftl 1 (Z.min restart_count 8)) in
  Z.min ms (backoff_max_ms cfg).

(** ** Logs *)

(** One line of [drain_to_log] into the buffer of an instance. *)
Definition push_line (max_lines : nat) (buf : list string) (line : string) : list string :=
  (if (max_lines <=? length buf)%nat then tail buf else buf) ++ [line].

Definition log_line (cfg : SupConfig) (epoch : Z) (line : string) (s : Supervisor) : Supervisor :=
  set_logs id (alter (fun buf => push_line (max_log_lines cfg) buf line) epoch) s.

Definition get_logs (pid : string) (n : nat) (s : Supervisor) : list string :=
  match log_buffers s !! pid with
  | None => []
  | Some b => let buf := default [] (log_store s !! b) in drop (length buf - n) buf
  end.

(** ** Spawning *)

(** [u32::from_str]: an optional [+], then digits, within range. *)
Definition parse_u32 (s : string) : option Z :=
  let digits := match s with String a s' => if a ==? "+"%char then s' else s | EmptyString => s end in
  if is_empty digits then None else digits_value u32_max 0 digits.

(** The [{:?}] form of a line and of an optional line, for printable text. *)
Fixpoint escape_debug (s : string) : string :=
  match s with
  | EmptyString => EmptyString
  | String a s' =>
      (if (N_of_ascii a =? 34)%N || (N_of_ascii a =? 92)%N
       then String (ascii_of_N 92) (String a EmptyString)
       else if (N_of_ascii a =? 9)%N then String (ascii_of_N 92) "t"
       else if (N_of_ascii a =? 13)%N then String (ascii_of_N 92) "r"
       else if (N_of_ascii a =? 10)%N then String (ascii_of_N 92) "n"
       else String a EmptyString) +:+ escape_debug s'
  end.

Definition debug_str (s : string) : string :=
  String (ascii_of_N 34) (escape_debug s +:+ String (ascii_of_N 34) EmptyString).

Definition debug_line (o : option string) : string :=
  match o with
  | Some l => "Some(" +:+ debug_str l +:+ ")"
  | None => "None"
  end.

(** What the shim's stdout gave within fifteen seconds. *)
Inductive ShimLine :=
| LineTimeout
| LineError (e : string)
| LineRead (line : option string).

(** The outcome of [cmd.spawn()] and of the wait for the shim. *)
Record Child := mkChild {
  child_id : option Z;
  child_line : ShimLine;
  child_cgroup : bool;
}.

(** B3: the guard, then the epoch of the new instance. *)
Definition spawn_begin (config : PluginConfig) (replace_epoch : option Z) (s : Supervisor)
    : Result VynkorError Z * Supervisor :=
  if negb (is_some replace_epoch) && is_some (entries s !! cfg_plugin_id config)
  then (Err (EPluginAlreadyRunning (cfg_plugin_id config)), s)
  else (Ok (u64_succ (next_epoch s)), set_next_epoch u64_succ s).

(** The pids of the instance, or why the spawn fails, with what is done to
    the child. *)
Definition spawn_pids (config : PluginConfig) (epoch : Z) (c : Child)
    : Result VynkorError (Z * option Z) * list Effect :=
  if sandbox config then
    match child_line c with
    | LineTimeout => (Err (EInternal "sandbox shim did not report a plugin pid within 15s"), [])
    | LineError e => (Err (EIo e), [])
    | LineRead line =>
        match line ≫= fun l => parse_u32 (trim l) with
        | Some p =>
            if 0 <? p then
              match child_id c with
              | Some shim => (Ok (p, Some shim), [])
              | None => (Err (EInternal "no shim pid"), [])
              end
            else (Err (EInternal ("sandbox shim exited before the plugin started (line: "
                                  +:+ debug_line line +:+ ")")),
                  FxReap epoch :: if child_cgroup c then [FxCgroupCleanup epoch] else [])
        | None => (Err (EInternal ("sandbox shim exited before the plugin started (line: "
                                  +:+ debug_line line +:+ ")")),
                   FxReap epoch :: if child_cgroup c then [FxCgroupCleanup epoch] else [])
        end
    end
  else match child_id c with
       | Some p => (Ok (p, None), [])
       | None => (Err (EInternal "no pid"), [])
       end.

(** The rest of [spawn_internal]: [res] is the result of [cmd.spawn()]. *)
Definition spawn_commit (config : PluginConfig) (restart_count epoch : Z) (res : Result (string * bool) Child)
    (s : Supervisor) : Result VynkorError Z * Supervisor :=
  match res with
  | Err (e, cgroup) => (Err (EIo e), add_effects (if cgroup then [FxCgroupCleanup epoch] else []) s)
  | Ok c =>
      let pid := cfg_plugin_id config in
      let s := add_effects [FxSpawn epoch] s in
      let s := set_logs <[pid := epoch]> <[epoch := []]> s in
      let '(pids, fx) := spawn_pids config epoch c in
      let s := add_effects fx s in
      match pids with
      | Err e => (Err e, s)
      | Ok (p, shim) =>
          let s := set_entries <[pid := mkProc config restart_count p shim epoch]> s in
          (Ok p, set_running <[epoch := (pid, p)]> s)
      end
  end.

(** [spawn_internal] when nothing interleaves. *)
Definition spawn_internal (config : PluginConfig) (restart_count : Z) (replace_epoch : option Z)
    (res : Result (string * bool) Child) (s : Supervisor) : Result VynkorError Z * Supervisor :=
  match spawn_begin config replace_epoch s with
  | (Err e, s) => (Err e, s)
  | (Ok epoch, s) => spawn_commit config restart_count epoch res s
  end.

Definition spawn_plugin (config : PluginConfig) (res : Result (string * bool) Child) (s : Supervisor)
    : Result VynkorError Z * Supervisor := spawn_internal config 0 None res s.

(** The wait task of an instance: the process tree is gone, the exit is
    published to the monitor. *)
Definition wait_task (epoch : Z) (success : bool) (s : Supervisor) : Supervisor :=
  match running s !! epoch with
  | None => s
  | Some (pid, p) =>
      set_queue (fun q => q ++ [mkExit pid epoch p success]) (set_running (delete epoch) s)
  end.

(** ** Explicit stop and restart *)

(** [stop_plugin] up to its wait for the exit, its map operations as one step;
    [StopRace] has them one by one, with the monitor in between. *)
Definition stop_plugin (pid : string) (s : Supervisor) : Result VynkorError ProcEntry * Supervisor :=
  match entries s !! pid with
  | None => (Err (EPluginNotFound pid), s)
  | Some e =>
      let s := set_entries (delete pid) s in
      let s := set_stopped_epochs <[pid := pe_epoch e]> s in
      let s := set_forced (fun f => f ∖ {[pid]}) s in
      (Ok e, add_effects [FxSignal (signal_target e) SIGTERM] s)
  end.

(** The rest: escalation when the tree did not exit within the grace. *)
Definition stop_grace (e : ProcEntry) : Z :=
  let g := grace_seconds (pe_config e) in if 0 <? g then g else 5.

Definition stop_escalate (e : ProcEntry) (exited_in_grace : bool) (s : Supervisor) : Supervisor :=
  if exited_in_grace then s else add_effects [FxSignal (signal_target e) SIGKILL] s.

Definition restart_plugin (pid : string) (s : Supervisor) : Result VynkorError unit * Supervisor :=
  match entries s !! pid with
  | None => (Err (EPluginNotFound pid), s)
  | Some e =>
      (Ok tt, add_effects [FxSignal (signal_target e) SIGTERM] (set_forced (fun f => {[pid]} ∪ f) s))
  end.

(** ** The monitor *)

Definition should_restart (forced : bool) (e : ProcEntry) (success : bool) : bool :=
  forced || match restart_policy (pe_config e) with
            | Never => false
            | Always => pe_restart_count e <? max_restarts (pe_config e)
            | OnFailure => negb success && (pe_restart_count e <? max_restarts (pe_config e))
            end.

(** Where the monitor task is: [decision] is the configuration and the
    restart count read before the publication. *)
Inductive Monitor :=
| MIdle
| MPublish (ev : ExitEvent) (decision : option (PluginConfig * Z)) (restart_count : Z)
| MBackoff (config : PluginConfig) (new_count : Z) (epoch : Z)
| MSpawn (config : PluginConfig) (new_count : Z) (replace_epoch epoch : Z).

(** From [recv] to the publication. *)
Definition monitor_decide (ev : ExitEvent) (s : Supervisor) : Monitor * Supervisor :=
  let pid := ex_plugin_id ev in
  let forced := pid ∈? forced_restarts s in
  let s := set_forced (fun f => f ∖ {[pid]}) s in
  let is_current := match entries s !! pid with Some e => pe_epoch e ==? ex_epoch ev | None => false end in
  let was_stopped := match stopped_epochs s !! pid with Some e => e ==? ex_epoch ev | None => false end in
  if negb is_current || was_stopped then (MIdle, s)
  else
    let decision := match entries s !! pid with
                    | Some e => if should_restart forced e (ex_success ev)
                                then Some (pe_config e, pe_restart_count e) else None
                    | None => None
                    end in
    let count := match entries s !! pid with Some e => pe_restart_count e | None => 0 end in
    (MPublish ev decision count, s).

(** After the publication: the backoff, or the removal of the dead entry. *)
Definition monitor_apply (ev : ExitEvent) (decision : option (PluginConfig * Z)) (s : Supervisor)
    : Monitor * Supervisor :=
  match decision with
  | Some (config, prev_count) => (MBackoff config (as_u32 (prev_count + 1)) (ex_epoch ev), s)
  | None =>
      let pid := ex_plugin_id ev in
      let final := match entries s !! pid with Some e => pe_restart_count e | None => 0 end in
      (MIdle, set_counts <[pid := final]> (set_entries (delete pid) s))
  end.

(** After the backoff: cancelled by a stop, else the spawn begins. *)
Definition monitor_wake (config : PluginConfig) (new_count epoch : Z) (s : Supervisor)
    : Monitor * Supervisor :=
  let stopped := match stopped_epochs s !! cfg_plugin_id config with Some e => e ==? epoch | None => false end in
  if stopped then (MIdle, s)
  else match spawn_begin config (Some epoch) s with
       | (Ok new_epoch, s) => (MSpawn config new_count epoch new_epoch, s)
       | (Err _, s) => (MIdle, s)
       end.

(** ** Shutdown *)

Section Shutdown.
Context `{HashIter}.

(** The grace of one entry in [graceful_shutdown]. *)
Definition shutdown_grace (default_grace : Z) (e : ProcEntry) : Z :=
  let g := grace_seconds (pe_config e) in if 0 <? g then g else default_grace.

(** The signals of [graceful_shutdown] with the second they are sent at; it
    returns when the last one is out. *)
Definition shutdown_signals (default_grace : Z) (s : Supervisor) : list (Z * Z * Signal) :=
  map (fun kv => (0, signal_target kv.2, SIGTERM)) (map_iter (entries s)) ++
  map (fun kv => (shutdown_grace default_grace kv.2, signal_target kv.2, SIGKILL)) (map_iter (entries s)).

Definition sup_shutdown (default_grace : Z) (s : Supervisor) : Supervisor :=
  add_effects (map (fun x => FxSignal x.1.2 x.2) (shutdown_signals default_grace s)) s.

End Shutdown.

(** ** Publication, watchdog, manager: the parts that touch the kernel state *)

Section Kernel.
Context `{HashIter} `{WireCrate} `{Governor}.

Definition show_bool (b : bool) : string := if b then "true" else "false".
Definition dquote : string := String (ascii_of_N 34) EmptyString.

(** The [system.plugin_died] event. *)
Definition died_event (ev : ExitEvent) (will_restart : bool) (restart_count : Z) : Event :=
  mkEvent ("sys-died-" +:+ ex_plugin_id ev +:+ "-" +:+ show restart_count) "system.plugin_died"
    (string_bytes ("{" +:+ dquote +:+ "plugin_id" +:+ dquote +:+ ":" +:+ dquote +:+ ex_plugin_id ev
                   +:+ dquote +:+ "," +:+ dquote +:+ "restart_count" +:+ dquote +:+ ":"
                   +:+ show restart_count +:+ "," +:+ dquote +:+ "will_restart" +:+ dquote +:+ ":"
                   +:+ show_bool will_restart +:+ "}")) 0.

Definition monitor_publish (cfg : SupConfig) (env : Env) (ev : ExitEvent)
    (decision : option (PluginConfig * Z)) (restart_count : Z) : K unit :=
  if has_events cfg then publish env (died_event ev (is_some decision) restart_count) else mret tt.

(** One plugin of a watchdog round; the target it kills, if any. *)
Definition watchdog_one (env : Env) (deadline : Z) (e : ProcEntry) (pid : string) : K (option Z) :=
  r ← gets registry;
  let late := match last_pong pid r with
              | Some t => deadline <? duration_since (instant (clk env)) t
              | None => false
              end in
  if late then mret (Some (signal_target e))
  else
    _ ← (match get pid r with
         | Some reg_entry =>
             match encode_envelope (env_of (PPing (unix_ms (clk env)))) with
             | Some p => _ ← chan_try_send (write_tx reg_entry) (out_frame (build_frame "client" 0 p)); mret tt
             | None => mret tt
             end
         | None => mret tt
         end);
    mret None.

Fixpoint watchdog_round (env : Env) (deadline : Z) (l : list (string * ProcEntry)) : K (list Effect) :=
  match l with
  | [] => mret []
  | (pid, e) :: l' =>
      killed ← watchdog_one env deadline e pid;
      rest ← watchdog_round env deadline l';
      mret (match killed with Some t => FxSignal t SIGKILL :: rest | None => rest end)
  end.

(** One turn of [watchdog_loop] over the supervised plugins. *)
Definition watchdog_tick (env : Env) (deadline : Z) (s : Supervisor) : K Supervisor :=
  fx ← watchdog_round env deadline (map_iter (entries s));
  mret (add_effects fx s).

End Kernel.
