(* ===== verification/SupervisorProps.v ===== *)
(** * Properties of the supervisor

    The supervisor as a transition system over its interleaved tasks, its
    invariant, and what stops, restarts, crash loops, the watchdog and the
    logs do. *)

From S2P Require Import Prelude Wire Toy Text Channel Registry DeviceStore EventStore World EventBus Router RouterFacts Sandbox Supervisor.

Open Scope Z_scope.

(** ** The transition system *)

(** The supervisor, its monitor task and the starts in flight (the
    configuration and the epoch taken by [spawn_begin]). *)
Record Sys := mkSys {
  sup : Supervisor;
  mon : Monitor;
  inflight : list (PluginConfig * Z);
}.

Definition sys_new : Sys := mkSys sup_new MIdle [].

(** One step of one task.  The label is the plugin of a start request.
    [faults] tells whether a respawn may fail; the epoch counter is assumed
    not to wrap (2^64 spawns). *)
Inductive sup_step (faults : bool) (cfg : SupConfig) : option string -> Sys -> Sys -> Prop :=
| st_start config e s s' m fl :
    next_epoch s < u64_max -> spawn_begin config None s = (Ok e, s') ->
    sup_step faults cfg (Some (cfg_plugin_id config)) (mkSys s m fl) (mkSys s' m ((config, e) :: fl))
| st_started config e res s m fl1 fl2 :
    sup_step faults cfg None (mkSys s m (fl1 ++ (config, e) :: fl2))
      (mkSys (spawn_commit config 0 e res s).2 m (fl1 ++ fl2))
| st_stop pid s m fl :
    sup_step faults cfg None (mkSys s m fl) (mkSys (stop_plugin pid s).2 m fl)
| st_escalate e b s m fl :
    sup_step faults cfg None (mkSys s m fl) (mkSys (stop_escalate e b s) m fl)
| st_restart pid s m fl :
    sup_step faults cfg None (mkSys s m fl) (mkSys (restart_plugin pid s).2 m fl)
| st_exit e success s m fl :
    sup_step faults cfg None (mkSys s m fl) (mkSys (wait_task e success s) m fl)
| st_log e line s m fl :
    sup_step faults cfg None (mkSys s m fl) (mkSys (log_line cfg e line s) m fl)
| st_recv ev q s fl m s' :
    event_queue s = ev :: q -> monitor_decide ev (set_queue (fun _ => q) s) = (m, s') ->
    sup_step faults cfg None (mkSys s MIdle fl) (mkSys s' m fl)
| st_apply ev d c s fl m s' :
    monitor_apply ev d s = (m, s') ->
    sup_step faults cfg None (mkSys s (MPublish ev d c) fl) (mkSys s' m fl)
| st_wake config n e s fl m s' :
    next_epoch s < u64_max -> monitor_wake config n e s = (m, s') ->
    sup_step faults cfg None (mkSys s (MBackoff config n e) fl) (mkSys s' m fl)
| st_respawn config n old e res s fl out s' :
    spawn_commit config n e res s = (out, s') -> is_ok out = true \/ faults = true ->
    sup_step faults cfg None (mkSys s (MSpawn config n old e) fl) (mkSys s' MIdle fl).

Definition sup_reachable (faults : bool) (cfg : SupConfig) (x : Sys) : Prop :=
  rtc (fun a b => exists l, sup_step faults cfg l a b) sys_new x.

(** ** The invariant *)

(** The exit the monitor is working on: plugin and epoch. *)
Definition held (m : Monitor) : list (string * Z) :=
  match m with
  | MIdle => []
  | MPublish ev _ _ => [(ex_plugin_id ev, ex_epoch ev)]
  | MBackoff c _ e => [(cfg_plugin_id c, e)]
  | MSpawn c _ old _ => [(cfg_plugin_id c, old)]
  end.

(** Epochs taken by a spawn that is not committed yet. *)
Definition mon_fresh (m : Monitor) : list Z := match m with MSpawn _ _ _ e => [e] | _ => [] end.
Definition fresh (x : Sys) : list Z := (inflight x).*2 ++ mon_fresh (mon x).

(** Epochs of dead or unborn instances. *)
Definition idle_epochs (x : Sys) : list Z :=
  map ex_epoch (event_queue (sup x)) ++ (held (mon x)).*2 ++ fresh x.

(** Where the instance of an entry is: alive, or its exit is queued or in
    the hands of the monitor. *)
Definition accounted (x : Sys) (pid : string) (e : Z) : Prop :=
  (exists p, running (sup x) !! e = Some (pid, p)) \/
  (exists ev, ev ∈ event_queue (sup x) /\ ex_plugin_id ev = pid /\ ex_epoch ev = e) \/
  (pid, e) ∈ held (mon x).

Record sup_ok (x : Sys) : Prop := mkSupOk {
  ok_next : 0 <= next_epoch (sup x) <= u64_max;
  ok_nodup : NoDup (idle_epochs x);
  ok_dead : forall e, e ∈ idle_epochs x -> running (sup x) !! e = None;
  ok_bound : forall e, e ∈ idle_epochs x \/ is_Some (running (sup x) !! e) -> e <= next_epoch (sup x);
  ok_entry : forall p y, entries (sup x) !! p = Some y ->
    cfg_plugin_id (pe_config y) = p /\ accounted x p (pe_epoch y) /\
    stopped_epochs (sup x) !! p <> Some (pe_epoch y);
  ok_stopped : forall p e, stopped_epochs (sup x) !! p = Some e ->
    e <= next_epoch (sup x) /\ e ∉ fresh x;
  ok_decision : forall ev c n k, mon x = MPublish ev (Some (c, n)) k -> cfg_plugin_id c = ex_plugin_id ev;
}.

Lemma sys_new_ok : sup_ok sys_new.
Proof.
  split; simpl; unfold idle_epochs; simpl; try done; try constructor; try set_solver.
  intros e [He|[? He]]; [set_solver|by rewrite lookup_empty in He].
Qed.

(** An accounted instance is not in the middle of its spawn. *)
Lemma accounted_not_fresh x p e : sup_ok x -> accounted x p e -> e ∉ fresh x.
Proof.
  intros Hok Ha Hf. destruct Ha as [[q Hr]|[(ev & Hev & <- & <-)|Hh]].
  - rewrite (ok_dead _ Hok e) in Hr; [done|]. unfold idle_epochs. set_solver.
  - pose proof (ok_nodup _ Hok) as Hnd. unfold idle_epochs in Hnd.
    apply NoDup_app in Hnd as (_ & Hd & _). apply (Hd (ex_epoch ev)); [|set_solver].
    by apply list_elem_of_fmap_2.
  - pose proof (ok_nodup _ Hok) as Hnd. unfold idle_epochs in Hnd.
    apply NoDup_app in Hnd as (_ & _ & Hnd). apply NoDup_app in Hnd as (_ & Hd & _).
    apply (Hd e); [|done]. by apply (list_elem_of_fmap_2 snd _ _ Hh).
Qed.

Lemma accounted_bound x p e : sup_ok x -> accounted x p e -> e <= next_epoch (sup x).
Proof.
  intros Hok Ha. apply (ok_bound _ Hok). destruct Ha as [[q Hr]|[(ev & Hev & <- & <-)|Hh]].
  - right. by rewrite Hr.
  - left. unfold idle_epochs. apply elem_of_app. left. by apply list_elem_of_fmap_2.
  - left. unfold idle_epochs. rewrite !elem_of_app. right. left. by apply (list_elem_of_fmap_2 snd _ _ Hh).
Qed.

(** The parts the invariant reads. *)
Definition same_sup (s s' : Supervisor) : Prop :=
  entries s' = entries s /\ event_queue s' = event_queue s /\ next_epoch s' = next_epoch s /\
  stopped_epochs s' = stopped_epochs s /\ running s' = running s.

Lemma sup_ok_same x s' : sup_ok x -> same_sup (sup x) s' -> sup_ok (mkSys s' (mon x) (inflight x)).
Proof.
  intros [H1 H2 H3 H4 H5 H6 H7] (E1 & E2 & E3 & E4 & E5).
  split; unfold idle_epochs, accounted, fresh in *; simpl; rewrite ?E1, ?E2, ?E3, ?E4, ?E5; done.
Qed.

(** What a commit does to those parts. *)
Lemma spawn_commit_spec config n e res s :
  let '(out, s') := spawn_commit config n e res s in
  event_queue s' = event_queue s /\ next_epoch s' = next_epoch s /\ stopped_epochs s' = stopped_epochs s /\
  forced_restarts s' = forced_restarts s /\ stopped_counts s' = stopped_counts s /\
  match out with
  | Err _ => entries s' = entries s /\ running s' = running s
  | Ok p =>
      exists shim, entries s' = <[cfg_plugin_id config := mkProc config n p shim e]> (entries s) /\
                   running s' = <[e := (cfg_plugin_id config, p)]> (running s)
  end.
Proof.
  unfold spawn_commit. destruct res as [c|[err cg]]; [|done].
  destruct (spawn_pids config e c) as [[[p shim]|err] fx]; simpl; split_and!; try done.
  by exists shim.
Qed.

Lemma commit_ok x x' config n e res out l :
  sup_ok x -> spawn_commit config n e res (sup x) = (out, sup x') ->
  idle_epochs x ≡ₚ e :: l ++ idle_epochs x' ->
  e ∈ fresh x -> (forall k, k ∈ fresh x' -> k ∈ fresh x) ->
  (forall h, h ∈ held (mon x) -> h ∈ held (mon x') \/ (is_ok out = true /\ h.1 = cfg_plugin_id config)) ->
  (forall ev d k, mon x' = MPublish ev d k -> mon x = MPublish ev d k) ->
  sup_ok x'.
Proof.
  intros Hok Hc Hperm Hf Hsub Hheld Hmon.
  pose proof (spawn_commit_spec config n e res (sup x)) as Hs. rewrite Hc in Hs.
  destruct Hs as (Eq & En & Est & _ & _ & Hout).
  pose proof (ok_nodup _ Hok) as Hnd. rewrite Hperm in Hnd.
  apply NoDup_cons in Hnd as [He Hnd]. apply NoDup_app in Hnd as (_ & _ & Hnd).
  assert (forall k, k ∈ idle_epochs x' -> k ∈ idle_epochs x /\ k <> e) as Hin.
  { intros k Hk. rewrite Hperm. split; [set_solver|]. intros ->. apply He. set_solver. }
  assert (forall k, k <> e -> running (sup x') !! k = running (sup x) !! k) as Hrun.
  { intros k Hk. destruct out; [destruct Hout as (shim & _ & ->); by rewrite lookup_insert_ne|].
    by destruct Hout as [_ ->]. }
  assert (e <= next_epoch (sup x)) as Hle by (apply (ok_bound _ Hok); left; rewrite Hperm; set_solver).
  split.
  - rewrite En. apply Hok.
  - done.
  - intros k [Hk Hne]%Hin. rewrite Hrun by done. by apply Hok.
  - intros k Hk. rewrite En. destruct (decide (k = e)) as [->|Hne]; [done|]. apply (ok_bound _ Hok).
    rewrite Hrun in Hk by done. destruct Hk as [Hk|Hk]; [left; by apply Hin|by right].
  - intros p y Hy. assert (entries (sup x) !! p = Some y /\ (p = cfg_plugin_id config -> is_ok out = false) \/
      (p = cfg_plugin_id config /\ is_ok out = true /\ cfg_plugin_id (pe_config y) = p /\ pe_epoch y = e /\
       exists q, running (sup x') !! e = Some (p, q))) as Hcase.
    { destruct out as [q|]; [|left; by destruct Hout as [<- _]].
      destruct Hout as (shim & E1 & E2). rewrite E1 in Hy. apply lookup_insert_Some in Hy as [[<- <-]|[Hne Hy]].
      - right. split_and!; try done. exists q. by rewrite E2, lookup_insert_eq.
      - left. by split. }
    rewrite Est. destruct Hcase as [[Hy' Hp]|(-> & Ho & Hid & -> & q & Hr)].
    + destruct (ok_entry _ Hok p y Hy') as (Hid & Ha & Hst). split_and!; [done| |done].
      assert (pe_epoch y <> e) as Hne by (intros E; apply (accounted_not_fresh x p (pe_epoch y)); [done|done|by rewrite E]).
      destruct Ha as [[q Hr]|[Hq|Hh]]; [left; exists q; by rewrite Hrun|right; left; by rewrite Eq|].
      destruct (Hheld _ Hh) as [?|[Hok' Hc']]; [by right; right|]. simpl in Hc'.
      rewrite (Hp Hc') in Hok'. done.
    + split_and!; [done|left; by exists q|]. intros Hst. by apply (ok_stopped _ Hok) in Hst as [_ Hst].
  - intros p k Hst. rewrite Est in Hst. rewrite En. destruct (ok_stopped _ Hok p k Hst). split; [done|naive_solver].
  - intros ev c k j Hm. by apply Hmon, (ok_decision _ Hok) in Hm.
Qed.

(** Taking a new epoch. *)
Lemma begin_ok x m fl e s' config replace :
  sup_ok x -> next_epoch (sup x) < u64_max -> spawn_begin config replace (sup x) = (Ok e, s') ->
  idle_epochs (mkSys s' m fl) ≡ₚ e :: idle_epochs x ->
  (forall k, k ∈ fresh (mkSys s' m fl) -> k = e \/ k ∈ fresh x) ->
  held m = held (mon x) ->
  (forall ev d k, m = MPublish ev d k -> mon x = MPublish ev d k) ->
  sup_ok (mkSys s' m fl).
Proof.
  intros Hok Hlt Hb Hperm Hf Hh Hm. unfold spawn_begin in Hb. destruct (_ && _); [done|].
  injection Hb as <- <-. pose proof (ok_next _ Hok) as Hn. unfold u64_max in *.
  assert (u64_succ (next_epoch (sup x)) = next_epoch (sup x) + 1) as Hsucc
    by (unfold u64_succ; apply Z.mod_small; lia).
  rewrite Hsucc in *.
  assert (next_epoch (sup x) + 1 ∉ idle_epochs x) as Hni.
  { intros Hin. pose proof (ok_bound _ Hok _ (or_introl Hin)). lia. }
  split; simpl; rewrite ?Hsucc.
  - unfold u64_max. lia.
  - rewrite Hperm. apply NoDup_cons. split; [done|apply Hok].
  - intros k Hk. rewrite Hperm in Hk. apply elem_of_cons in Hk as [->|Hk]; [|by apply Hok].
    destruct (running (sup x) !! _) eqn:E; [|done].
    assert (is_Some (running (sup x) !! (next_epoch (sup x) + 1))) as Hs by by rewrite E.
    pose proof (ok_bound _ Hok _ (or_intror Hs)). lia.
  - intros k Hk. rewrite Hperm, elem_of_cons in Hk. destruct Hk as [[->|Hk]|Hk]; [lia|..].
    + pose proof (ok_bound _ Hok k (or_introl Hk)). lia.
    + pose proof (ok_bound _ Hok k (or_intror Hk)). lia.
  - intros p y Hy. destruct (ok_entry _ Hok p y Hy) as (? & Ha & ?). split_and!; [done| |done].
    unfold accounted in *. simpl. by rewrite Hh.
  - intros p k Hst. destruct (ok_stopped _ Hok p k Hst) as [Hle Hnf]. split; [lia|].
    intros [->|?]%Hf; [lia|done].
  - intros ev c k j E. by apply Hm, (ok_decision _ Hok) in E.
Qed.

Lemma stop_ok x pid : sup_ok x -> sup_ok (mkSys (stop_plugin pid (sup x)).2 (mon x) (inflight x)).
Proof.
  intros Hok. unfold stop_plugin. destruct (entries (sup x) !! pid) as [y|] eqn:Hy; simpl; [|by destruct x].
  destruct (ok_entry _ Hok pid y Hy) as (_ & Ha & _).
  pose proof (accounted_bound _ _ _ Hok Ha) as Hle. pose proof (accounted_not_fresh _ _ _ Hok Ha) as Hnf.
  destruct Hok as [H1 H2 H3 H4 H5 H6 H7].
  split; unfold idle_epochs in *; simpl; try done.
  - intros p z [Hne Hz]%lookup_delete_Some. destruct (H5 p z Hz) as (? & ? & ?).
    split_and!; [done|done|]. by rewrite lookup_insert_ne.
  - intros p e Hst. apply lookup_insert_Some in Hst as [[<- <-]|[? Hst]]; [by split|by apply H6 in Hst].
Qed.

Lemma exit_ok x e b : sup_ok x -> sup_ok (mkSys (wait_task e b (sup x)) (mon x) (inflight x)).
Proof.
  intros Hok. unfold wait_task. destruct (running (sup x) !! e) as [[pid p]|] eqn:Hr; [|by destruct x].
  assert (e ∉ idle_epochs x) as Hni by (intros Hin; by rewrite (ok_dead _ Hok e Hin) in Hr).
  assert (e <= next_epoch (sup x)) as Hle by (apply (ok_bound _ Hok); right; by rewrite Hr).
  set (x' := mkSys _ _ _).
  assert (idle_epochs x' ≡ₚ e :: idle_epochs x) as Hperm.
  { unfold idle_epochs, x', fresh. simpl. rewrite map_app. simpl. rewrite <- app_assoc. simpl. by rewrite <- Permutation_middle. }
  split; simpl.
  - apply Hok.
  - rewrite Hperm. apply NoDup_cons. split; [done|apply Hok].
  - intros k Hk. rewrite Hperm, elem_of_cons in Hk.
    destruct (decide (k = e)) as [->|Hne]; [by rewrite lookup_delete_eq|rewrite lookup_delete_ne by done].
    apply Hok. naive_solver.
  - intros k Hk. rewrite Hperm, elem_of_cons in Hk. destruct Hk as [[->|Hk]|[z Hk]]; [done|..].
    + by apply (ok_bound _ Hok); left.
    + apply lookup_delete_Some in Hk as [_ Hk]. apply (ok_bound _ Hok). right. by rewrite Hk.
  - intros q y Hy. destruct (ok_entry _ Hok q y Hy) as (? & Ha & ?). split_and!; [done| |done].
    unfold accounted in *. simpl. destruct Ha as [[z Hz]|[(ev & Hev & Hi & He)|Hh]]; [|right; left|by right; right].
    + destruct (decide (pe_epoch y = e)) as [E|Hne]; [|left; exists z; by rewrite lookup_delete_ne].
      right. left. rewrite E in Hz. rewrite Hr in Hz. injection Hz as -> _.
      exists (mkExit q e p b). split_and!; [apply elem_of_app; right; by left|done|done].
    + exists ev. split_and!; [by apply elem_of_app; left|done|done].
  - apply Hok.
  - apply Hok.
Qed.

(** The monitor takes an exit from the queue. *)
Lemma recv_ok x ev q m s' :
  sup_ok x -> mon x = MIdle -> event_queue (sup x) = ev :: q ->
  monitor_decide ev (set_queue (fun _ => q) (sup x)) = (m, s') ->
  sup_ok (mkSys s' m (inflight x)).
Proof.
  intros Hok Hm Hq Hd.
  assert (same_sup (set_queue (fun _ => q) (sup x)) s' /\
          ((m = MIdle /\ forall y, entries (sup x) !! ex_plugin_id ev = Some y ->
              pe_epoch y <> ex_epoch ev \/ stopped_epochs (sup x) !! ex_plugin_id ev = Some (ex_epoch ev)) \/
           exists d k, m = MPublish ev d k /\ forall c n, d = Some (c, n) ->
              exists y, entries (sup x) !! ex_plugin_id ev = Some y /\ c = pe_config y)) as [(E1 & E2 & E3 & E4 & E5) Hcase].
  { unfold monitor_decide in Hd. simpl in Hd. destruct (_ || _) eqn:E; simplify_eq.
    - split; [done|]. left. split; [done|]. intros y Hy. rewrite Hy in E. apply orb_true_iff in E as [E|E].
      + left. bools. done.
      + right. destruct (stopped_epochs _ !! _); [|done]. bools. by subst.
    - split; [done|]. right. do 2 eexists. split; [done|]. intros c n Hdec.
      destruct (entries (sup x) !! ex_plugin_id ev) as [y|]; [|done].
      destruct (should_restart _ _ _); simplify_eq. by exists y. }
  simpl in *.
  assert (idle_epochs x = ex_epoch ev :: map ex_epoch q ++ fresh x) as Hidle
    by (unfold idle_epochs; by rewrite Hq, Hm).
  pose proof (ok_nodup _ Hok) as Hnd. rewrite Hidle in Hnd. apply NoDup_cons in Hnd as [Hne Hnd].
  assert (fresh (mkSys s' m (inflight x)) = fresh x) as Hfr
    by (unfold fresh; rewrite Hm; simpl; destruct Hcase as [[-> _]|(? & ? & -> & _)]; done).
  assert (idle_epochs (mkSys s' m (inflight x)) = map ex_epoch q ++ fresh x \/
          idle_epochs (mkSys s' m (inflight x)) ≡ₚ idle_epochs x) as Hid.
  { unfold idle_epochs at 1 2. rewrite Hfr. simpl. rewrite E2.
    destruct Hcase as [[-> _]|(d & k & -> & _)]; [by left|right]. rewrite Hidle. simpl.
    by rewrite <- Permutation_middle. }
  assert (forall k, k ∈ idle_epochs (mkSys s' m (inflight x)) -> k ∈ idle_epochs x) as Hsub.
  { intros k. destruct Hid as [->| ->]; [rewrite Hidle; set_solver|done]. }
  split; simpl; rewrite ?E3, ?E4, ?E5, ?E1, ?Hfr; try apply Hok.
  - destruct Hid as [->| ->]; [done|apply Hok].
  - intros k Hk. by apply Hok, Hsub.
  - intros k [Hk|Hk]; apply (ok_bound _ Hok); [left; by apply Hsub|by right].
  - intros p y Hy. destruct (ok_entry _ Hok p y Hy) as (? & Ha & Hst). split_and!; [done| |done].
    unfold accounted in *. rewrite Hq, Hm in Ha. simpl. rewrite E2, E5.
    destruct Ha as [?|[(ev' & Hin & Hi & He)|Ha]]; [by left| |by apply elem_of_nil in Ha].
    apply elem_of_cons in Hin as [->|Hin]; [|right; left; by exists ev']. right. right.
    destruct Hcase as [[_ Hno]|(d & k & -> & _)]; [|rewrite <- Hi, <- He; by left].
    exfalso. rewrite Hi in Hno. destruct (Hno y Hy); congruence.
  - intros ev' c n k ->. destruct Hcase as [[? _]|(d & j & [= -> <- <-] & Hc)]; [done|].
    destruct (Hc c n eq_refl) as (y & Hy & ->). by apply (ok_entry _ Hok).
Qed.

Lemma apply_ok x ev d k m s' :
  sup_ok x -> mon x = MPublish ev d k -> monitor_apply ev d (sup x) = (m, s') ->
  sup_ok (mkSys s' m (inflight x)).
Proof.
  intros Hok Hm Ha. unfold monitor_apply in Ha. destruct d as [[c n]|]; simplify_eq.
  - pose proof (ok_decision _ Hok _ _ _ _ Hm) as Hc. destruct Hok as [H1 H2 H3 H4 H5 H6 H7].
    split; unfold idle_epochs, accounted, fresh in *; rewrite Hm in *; simpl in *; rewrite ?Hc; try done.
  - assert (idle_epochs x ≡ₚ ex_epoch ev :: idle_epochs (mkSys (sup x) MIdle (inflight x))) as Hid.
    { unfold idle_epochs, fresh. rewrite Hm. simpl. by rewrite <- Permutation_middle. }
    pose proof (ok_nodup _ Hok) as Hnd. rewrite Hid in Hnd. apply NoDup_cons in Hnd as [Hne Hnd].
    assert (fresh x = fresh (mkSys (sup x) MIdle (inflight x))) as Hfr by (unfold fresh; by rewrite Hm).
    set (x' := mkSys _ _ _). change (idle_epochs (mkSys (sup x) MIdle (inflight x))) with (idle_epochs x') in *.
    split; simpl; try apply Hok; try done.
    + intros e He. apply Hok. rewrite Hid. by right.
    + intros e [He|He]; apply (ok_bound _ Hok); [left; rewrite Hid; by right|by right].
    + intros p y [Hp Hy]%lookup_delete_Some. destruct (ok_entry _ Hok p y Hy) as (? & Hac & ?).
      split_and!; [done| |done]. unfold accounted in *. simpl. rewrite Hm in Hac. simpl in Hac.
      destruct Hac as [?|[?|Hh]]; [by left|by right; left|]. apply list_elem_of_singleton in Hh. by simplify_eq.
    + intros p e Hst. destruct (ok_stopped _ Hok p e Hst). split; [done|]. by rewrite Hfr in *.
Qed.

Lemma wake_ok x config n e m s' :
  sup_ok x -> mon x = MBackoff config n e -> next_epoch (sup x) < u64_max ->
  monitor_wake config n e (sup x) = (m, s') -> sup_ok (mkSys s' m (inflight x)).
Proof.
  intros Hok Hm Hlt Hw. unfold monitor_wake in Hw.
  destruct (match stopped_epochs (sup x) !! cfg_plugin_id config with Some e' => e' ==? e | None => false end) eqn:Hst.
  - injection Hw as <- <-.
    assert (stopped_epochs (sup x) !! cfg_plugin_id config = Some e) as Hse
      by (destruct (stopped_epochs (sup x) !! _); [bools; by subst|done]).
    assert (idle_epochs x ≡ₚ e :: idle_epochs (mkSys (sup x) MIdle (inflight x))) as Hid.
    { unfold idle_epochs, fresh. rewrite Hm. simpl. by rewrite <- Permutation_middle. }
    pose proof (ok_nodup _ Hok) as Hnd. rewrite Hid in Hnd. apply NoDup_cons in Hnd as [_ Hnd].
    split; simpl; try apply Hok; try done.
    + intros k Hk. apply Hok. rewrite Hid. by right.
    + intros k [Hk|Hk]; apply (ok_bound _ Hok); [left; rewrite Hid; by right|by right].
    + intros p y Hy. destruct (ok_entry _ Hok p y Hy) as (? & Hac & Hns). split_and!; [done| |done].
      unfold accounted in *. simpl. rewrite Hm in Hac. simpl in Hac.
      destruct Hac as [?|[?|Hh]]; [by left|by right; left|]. apply list_elem_of_singleton in Hh. injection Hh as -> He. by rewrite He in Hns.
    + intros p k Hk. destruct (ok_stopped _ Hok p k Hk) as [? Hnf]. split; [done|].
      unfold fresh in *. by rewrite Hm in Hnf.
  - destruct (spawn_begin config (Some e) (sup x)) as [[new|err] s1] eqn:Hb; [|done].
    injection Hw as <- <-. eapply begin_ok; [done|done|done| | |by rewrite Hm|done].
    + unfold spawn_begin in Hb. simpl in Hb. injection Hb as <- <-. unfold idle_epochs, fresh. rewrite Hm. simpl.
      rewrite app_nil_r, (Permutation_app_comm (inflight x).*2 [_]). simpl.
      rewrite <- !Permutation_middle. apply perm_swap.
    + unfold fresh. simpl. rewrite Hm. set_solver.
Qed.

Lemma sup_step_ok cfg lbl x x' : sup_step false cfg lbl x x' -> sup_ok x -> sup_ok x'.
Proof.
  intros Hs Hok. destruct Hs as [config e s s' m fl Hlt Hb|config e res s m fl1 fl2|pid s m fl|y b s m fl
    |pid s m fl|e b s m fl|e line s m fl|ev q s fl m s' Hq Hd|ev d k s fl m s' Ha|config n e s fl m s' Hlt Hw
    |config n old e res s fl out s' Hc Hout].
  - eapply (begin_ok (mkSys s m fl)); [done|done|done| | |done|done].
    + unfold spawn_begin in Hb. destruct (_ && _); simplify_eq. unfold idle_epochs, fresh. simpl.
      by rewrite <- !Permutation_middle.
    + unfold fresh. simpl. set_solver.
  - eapply (commit_ok _ (mkSys (spawn_commit config 0 e res s).2 m (fl1 ++ fl2)) config 0 e res
              (spawn_commit config 0 e res s).1 []); [exact Hok|by apply surjective_pairing| | | |by left|done].
    + pose proof (spawn_commit_spec config 0 e res s) as Hs. destruct (spawn_commit config 0 e res s) as [o s'].
      destruct Hs as (Eq & _). unfold idle_epochs, fresh. simpl. rewrite Eq, !fmap_app. simpl.
      rewrite <- !app_assoc. simpl. by rewrite <- !Permutation_middle.
    + unfold fresh. simpl. rewrite fmap_app. set_solver.
    + unfold fresh. simpl. rewrite !fmap_app. set_solver.
  - by apply (stop_ok (mkSys s m fl)).
  - apply (sup_ok_same (mkSys s m fl)); [done|]. unfold stop_escalate. by destruct b.
  - apply (sup_ok_same (mkSys s m fl)); [done|]. unfold restart_plugin. by destruct (entries s !! pid).
  - by apply (exit_ok (mkSys s m fl)).
  - by apply (sup_ok_same (mkSys s m fl)).
  - by apply (recv_ok (mkSys s MIdle fl) ev q).
  - by apply (apply_ok (mkSys s (MPublish ev d k) fl) ev d k).
  - by apply (wake_ok (mkSys s (MBackoff config n e) fl) config n e).
  - destruct Hout as [Ho|]; [|done].
    eapply (commit_ok (mkSys s (MSpawn config n old e) fl) (mkSys s' MIdle fl) config n e res out [old]);
      [exact Hok|done| | | | |done].
    + pose proof (spawn_commit_spec config n e res s) as Hs. rewrite Hc in Hs. destruct Hs as (Eq & _).
      unfold idle_epochs, fresh. simpl. rewrite Eq, app_nil_r.
      rewrite (Permutation_app_comm fl.*2 [e]), <- !Permutation_middle. simpl. rewrite <- Permutation_middle. apply perm_swap.
    + unfold fresh. simpl. set_solver.
    + unfold fresh. simpl. set_solver.
    + intros h Hh%list_elem_of_singleton. subst h. by right.
Qed.

Lemma sup_reachable_ok cfg x : sup_reachable false cfg x -> sup_ok x.
Proof.
  intros Hr. unfold sup_reachable in Hr. revert x Hr. apply rtc_ind_r; [apply sys_new_ok|].
  intros x y _ [l Hs] IH. by eapply sup_step_ok.
Qed.

(** ** Explicit stops *)

(** Entries and decisions are filed under the id of their configuration. *)
Definition ids_ok (x : Sys) : Prop :=
  (forall q y, entries (sup x) !! q = Some y -> cfg_plugin_id (pe_config y) = q) /\
  (forall ev c n k, mon x = MPublish ev (Some (c, n)) k -> cfg_plugin_id c = ex_plugin_id ev).

(** After a stop: the plugin is gone, its epoch recorded, and nothing under
    way brings it back. *)
Record stopped_for (pid : string) (e : Z) (x : Sys) : Prop := mkStopped {
  sf_entry : entries (sup x) !! pid = None;
  sf_epoch : stopped_epochs (sup x) !! pid = Some e;
  sf_inflight : forall c k, (c, k) ∈ inflight x -> cfg_plugin_id c <> pid;
  sf_held : forall k, (pid, k) ∈ held (mon x) -> k = e;
  sf_spawn : forall c n old k, mon x = MSpawn c n old k -> cfg_plugin_id c <> pid;
  sf_ids : ids_ok x;
}.

Lemma commit_ids c n e res s :
  (forall q y, entries s !! q = Some y -> cfg_plugin_id (pe_config y) = q) ->
  forall q y, entries (spawn_commit c n e res s).2 !! q = Some y -> cfg_plugin_id (pe_config y) = q.
Proof.
  intros Hi q y. pose proof (spawn_commit_spec c n e res s) as Hs.
  destruct (spawn_commit c n e res s) as [[p|err] s']; destruct Hs as (_ & _ & _ & _ & _ & Hout); simpl.
  - destruct Hout as (shim & -> & _). intros [[<- <-]|[_ ?]]%lookup_insert_Some; [done|eauto].
  - destruct Hout as [-> _]. apply Hi.
Qed.

Lemma commit_stopped pid c n e res s :
  cfg_plugin_id c <> pid ->
  entries (spawn_commit c n e res s).2 !! pid = entries s !! pid /\
  stopped_epochs (spawn_commit c n e res s).2 = stopped_epochs s.
Proof.
  intros Hne. pose proof (spawn_commit_spec c n e res s) as Hs.
  destruct (spawn_commit c n e res s) as [[p|err] s']; destruct Hs as (_ & _ & Est & _ & _ & Hout); simpl.
  - destruct Hout as (shim & -> & _). by rewrite lookup_insert_ne.
  - by destruct Hout as [-> _].
Qed.

Lemma ids_step faults cfg lbl x x' : sup_step faults cfg lbl x x' -> ids_ok x -> ids_ok x'.
Proof.
  intros Hs [Hi Hd]. destruct Hs as [config k s s' m fl Hlt Hb|config k res s m fl1 fl2|q s m fl|y b s m fl
    |q s m fl|k b s m fl|k line s m fl|ev q s fl m s' Hq Hr|ev d k s fl m s' Ha|config n k s fl m s' Hlt Hw
    |config n old k res s fl out s' Hc Hout]; simpl in *.
  - unfold spawn_begin in Hb. destruct (_ && _); by simplify_eq.
  - split; simpl; [by apply commit_ids|done].
  - unfold stop_plugin. destruct (entries s !! q) as [y|]; [|done]. split; simpl; [|done].
    intros p z [_ Hz]%lookup_delete_Some. eauto.
  - unfold stop_escalate. by destruct b.
  - unfold restart_plugin. by destruct (entries s !! q).
  - unfold wait_task. by destruct (running s !! k) as [[? ?]|].
  - done.
  - unfold monitor_decide in Hr. simpl in Hr. destruct (_ || _); simplify_eq; [done|]. split; simpl; [done|].
    intros ev' c n k [= <- Hdec <-]. destruct (entries s !! ex_plugin_id ev) as [y|] eqn:Hy; [|done].
    destruct (should_restart _ _ _); simplify_eq. by apply Hi.
  - unfold monitor_apply in Ha. destruct d as [[c n]|]; simplify_eq; [done|]. split; simpl; [|done].
    intros p z [_ Hz]%lookup_delete_Some. eauto.
  - unfold monitor_wake in Hw. destruct (match _ with Some _ => _ | None => _ end); simplify_eq; [done|].
    unfold spawn_begin in Hw. simpl in Hw. by simplify_eq.
  - split; simpl; [|done]. change s' with (out, s').2. rewrite <- Hc. by apply commit_ids.
Qed.

Lemma stopped_for_step faults cfg lbl pid e x x' :
  sup_step faults cfg lbl x x' -> lbl <> Some pid -> stopped_for pid e x -> stopped_for pid e x'.
Proof.
  intros Hs Hl [He Hst Hfl Hh Hsp Hids]. pose proof (ids_step _ _ _ _ _ Hs Hids) as Hids'.
  destruct Hs as [config k s s' m fl Hlt Hb|config k res s m fl1 fl2|q s m fl|y b s m fl
    |q s m fl|k b s m fl|k line s m fl|ev q s fl m s' Hq Hd|ev d k s fl m s' Ha|config n k s fl m s' Hlt Hw
    |config n old k res s fl out s' Hc Hout]; simpl in *.
  - unfold spawn_begin in Hb. destruct (_ && _); simplify_eq. split; simpl; try done.
    intros c j [[= -> ->]|Hin]%elem_of_cons; [congruence|eauto].
  - assert (cfg_plugin_id config <> pid) as Hne by (apply (Hfl config k), elem_of_app; right; by left).
    destruct (commit_stopped pid config 0 k res s Hne) as [E1 E2].
    split; simpl; rewrite ?E1, ?E2; try done. intros c j Hin. apply (Hfl c j). set_solver.
  - unfold stop_plugin in *. destruct (entries s !! q) as [y|] eqn:Hy; [|by split].
    assert (q <> pid) by congruence.
    split; simpl; try done; [by rewrite lookup_delete_ne|by rewrite lookup_insert_ne].
  - unfold stop_escalate in *. by destruct b; split.
  - unfold restart_plugin in *. destruct (entries s !! q); by split.
  - unfold wait_task in *. destruct (running s !! k) as [[? ?]|]; by split.
  - by split.
  - unfold monitor_decide in Hd. simpl in Hd. destruct (_ || _) eqn:E; simplify_eq; [by split|].
    assert (ex_plugin_id ev <> pid) as Hne by (intros Heq; by rewrite Heq, He in E).
    split; simpl; try done. intros k Hin%list_elem_of_singleton. by simplify_eq.
  - unfold monitor_apply in Ha. destruct d as [[c n]|]; simplify_eq; split; simpl; try done.
    + destruct Hids as [_ Hdec]. simpl in Hdec. rewrite (Hdec ev c n k eq_refl). done.
    + rewrite lookup_delete_None. by right.
    + set_solver.
  - unfold monitor_wake in Hw.
    destruct (match _ with Some _ => _ | None => _ end) eqn:E; simplify_eq; [split; simpl; set_solver|].
    unfold spawn_begin in Hw. simpl in Hw. simplify_eq.
    split; simpl; try done. intros c j old i [= <- <- <- <-] Heq.
    rewrite <- Heq in Hst. rewrite Hst in E. bools. destruct E. symmetry. apply Hh. rewrite <- Heq. by left.
  - destruct (commit_stopped pid config n k res s (Hsp _ _ _ _ eq_refl)) as [E1 E2].
    rewrite Hc in E1, E2. simpl in *. split; simpl; rewrite ?E1, ?E2; try done. set_solver.
Qed.

(** ** Crash loops *)

(** One crash handled without interleaving: the exit, the monitor's turn,
    the backoff and the respawn [res]. *)
Definition crash (pid : string) (res : Result (string * bool) Child) (s : Supervisor) : Supervisor :=
  match entries s !! pid with
  | None => s
  | Some y =>
      let s := wait_task (pe_epoch y) false s in
      match event_queue s with
      | [] => s
      | ev :: q =>
          match monitor_decide ev (set_queue (fun _ => q) s) with
          | (MPublish ev d _, s) =>
              match monitor_apply ev d s with
              | (MBackoff c n e, s) =>
                  match monitor_wake c n e s with
                  | (MSpawn c n _ new, s) => (spawn_commit c n new res s).2
                  | (_, s) => s
                  end
              | (_, s) => s
              end
          | (_, s) => s
          end
      end
  end.

Fixpoint crash_loop (pid : string) (outcomes : list (Result (string * bool) Child)) (s : Supervisor)
    : Supervisor :=
  match outcomes with [] => s | res :: rest => crash_loop pid rest (crash pid res s) end.

(** A live instance with nothing pending. *)
Record live (pid : string) (c : PluginConfig) (n : Z) (s : Supervisor) : Prop := mkLive {
  lv_entry : exists p shim e, entries s !! pid = Some (mkProc c n p shim e) /\
    running s !! e = Some (pid, p) /\ e <= next_epoch s /\
    (forall k, stopped_epochs s !! pid = Some k -> k < e);
  lv_queue : event_queue s = [];
  lv_forced : pid ∉ forced_restarts s;
  lv_id : cfg_plugin_id c = pid;
}.

(** The child came up. *)
Definition comes_up (c : PluginConfig) (res : Result (string * bool) Child) : Prop :=
  exists ch p shim, res = Ok ch /\ forall e, spawn_pids c e ch = (Ok (p, shim), []).

Lemma crash_decided pid c n s :
  live pid c n s ->
  exists ev s1, event_queue s1 = [] /\ next_epoch s1 = next_epoch s /\ stopped_epochs s1 = stopped_epochs s /\
    (pid ∉ forced_restarts s1) /\ ex_plugin_id ev = pid /\ ex_epoch ev <= next_epoch s /\
    (forall k, stopped_epochs s !! pid = Some k -> k < ex_epoch ev) /\
    (exists y, entries s1 !! pid = Some y /\ pe_restart_count y = n) /\
    forall res, crash pid res s =
      let d := if match restart_policy c with Never => false | _ => n <? max_restarts c end
               then Some (c, n) else None in
      match monitor_apply ev d s1 with
      | (MBackoff c n e, s) =>
          match monitor_wake c n e s with
          | (MSpawn c n _ new, s) => (spawn_commit c n new res s).2
          | (_, s) => s
          end
      | (_, s) => s
      end.
Proof.
  intros [(p & shim & e & He & Hr & Hle & Hst) Hq Hf Hid].
  set (s1 := set_forced (fun f => f ∖ {[pid]})
               (set_queue (fun _ => []) (wait_task e false s))).
  exists (mkExit pid e p false), s1.
  assert (entries s1 = entries s) as E1 by (unfold s1, wait_task; by rewrite Hr).
  split_and!; try done.
  - unfold s1, wait_task. by rewrite Hr.
  - unfold s1, wait_task. by rewrite Hr.
  - unfold s1, wait_task. rewrite Hr. simpl. set_solver.
  - exists (mkProc c n p shim e). by rewrite E1.
  - intros res. unfold crash. rewrite He. cbv zeta. cbn [pe_epoch].
    assert (event_queue (wait_task e false s) = [mkExit pid e p false]) as Eq
      by (unfold wait_task; rewrite Hr; simpl; by rewrite Hq).
    rewrite Eq. unfold monitor_decide. cbv zeta. cbn [ex_plugin_id ex_epoch ex_success].
    change (set_forced _ (set_queue _ (wait_task e false s))) with s1.
    assert (forced_restarts (set_queue (fun _ => []) (wait_task e false s)) = forced_restarts s) as ->
      by (unfold wait_task; by rewrite Hr).
    assert (stopped_epochs s1 = stopped_epochs s) as -> by (unfold s1, wait_task; by rewrite Hr).
    rewrite E1, He. cbn [pe_epoch pe_restart_count pe_config].
    rewrite bool_decide_eq_true_2, (bool_decide_eq_false_2 (pid ∈ _)) by done. cbn [negb orb].
    assert (match stopped_epochs s !! pid with Some k => k ==? e | None => false end = false) as ->.
    { destruct (stopped_epochs s !! pid) as [k|] eqn:Hk; [|done]. apply bool_decide_eq_false_2.
      specialize (Hst k eq_refl). lia. }
    unfold should_restart. cbn [orb pe_config pe_restart_count]. by destruct (restart_policy c).
Qed.

Lemma crash_restarts pid c n res s :
  live pid c n s -> restart_policy c <> Never -> 0 <= n < max_restarts c -> max_restarts c <= u32_max ->
  0 <= next_epoch s < u64_max -> comes_up c res ->
  live pid c (n + 1) (crash pid res s) /\ next_epoch (crash pid res s) = next_epoch s + 1.
Proof.
  intros Hl Hpol Hn Hmax Hnext (ch & p & shim & -> & Hch). pose proof (lv_id _ _ _ _ Hl) as Hid.
  destruct (crash_decided pid c n s Hl) as (ev & s1 & Eq & En & Est & Hf & Hpid & Hle & Hst & _ & ->).
  assert (match restart_policy c with Never => false | _ => n <? max_restarts c end = true) as ->
    by (destruct (restart_policy c); [apply Z.ltb_lt; lia|apply Z.ltb_lt; lia|done]).
  cbn [monitor_apply]. cbv zeta. unfold monitor_wake. rewrite Hid, Est.
  assert (match stopped_epochs s !! pid with Some k => k ==? ex_epoch ev | None => false end = false) as ->.
  { destruct (stopped_epochs s !! pid) as [k|]; [|done]. apply bool_decide_eq_false_2.
    specialize (Hst k eq_refl). lia. }
  unfold spawn_begin. cbn [is_some negb andb]. unfold spawn_commit. rewrite Hch, Hid. simpl.
  assert (u64_succ (next_epoch s1) = next_epoch s + 1) as Hsucc
    by (rewrite En; unfold u64_succ; apply Z.mod_small; unfold u64_max in *; lia).
  assert (as_u32 (n + 1) = n + 1) as -> by (apply Z.mod_small; unfold u32_max in *; lia).
  rewrite Hsucc. split; [|done]. split; simpl; try done.
  exists p, shim, (next_epoch s + 1). rewrite !lookup_insert_eq, Hsucc. split_and!; [done|done|lia|].
  intros k Hk. rewrite Est in Hk. specialize (Hst k Hk). lia.
Qed.

Lemma crash_gives_up pid c n res s :
  live pid c n s -> restart_policy c = Never \/ max_restarts c <= n ->
  entries (crash pid res s) !! pid = None /\ stopped_counts (crash pid res s) !! pid = Some n.
Proof.
  intros Hl Hno. pose proof (lv_id _ _ _ _ Hl) as Hid.
  destruct (crash_decided pid c n s Hl) as (ev & s1 & _ & _ & _ & _ & Hpid & _ & _ & (y & Hy & Hc) & ->).
  assert (match restart_policy c with Never => false | _ => n <? max_restarts c end = false) as ->
    by (destruct Hno as [->|?]; [done|destruct (restart_policy c); [apply Z.ltb_ge; lia|apply Z.ltb_ge; lia|done]]).
  cbn [monitor_apply]. rewrite Hpid, Hy. simpl. rewrite lookup_delete_eq, lookup_insert_eq. by rewrite Hc.
Qed.

(** ** The watchdog *)

Section Watchdog.
Context `{HashIter} `{WireCrate} `{Governor} `{SerdeJson} `{StoreCrates}.

(** Silent for longer than the deadline. *)
Definition unresponsive (env : Env) (deadline : Z) (r : PluginRegistry) (pid : string) : bool :=
  match last_pong pid r with
  | Some t => deadline <? duration_since (instant (clk env)) t
  | None => false
  end.

(** The ping of a responsive, registered plugin. *)
Definition ping_item (env : Env) (deadline : Z) (r : PluginRegistry) (x : string * ProcEntry)
    : option (ChanId * Outbound) :=
  if unresponsive env deadline r x.1 then None
  else e ← get x.1 r;
       p ← encode_envelope (env_of (PPing (unix_ms (clk env))));
       Some (write_tx e, out_frame (build_frame "client" 0 p)).

Definition kill_item (env : Env) (deadline : Z) (r : PluginRegistry) (x : string * ProcEntry)
    : option Effect :=
  if unresponsive env deadline r x.1 then Some (FxSignal (signal_target x.2) SIGKILL) else None.

Lemma watchdog_one_spec env deadline pid e w :
  eval (watchdog_one env deadline e pid) w =
    (if unresponsive env deadline (registry w) pid then Some (signal_target e) else None) /\
  exec (watchdog_one env deadline e pid) w = exec (offer (ping_item env deadline (registry w) (pid, e))) w.
Proof.
  unfold watchdog_one, ping_item. rewrite eval_gets, exec_gets. fold (unresponsive env deadline (registry w) pid).
  cbn [fst]. destruct (unresponsive env deadline (registry w) pid); [done|].
  rewrite eval_bind, exec_bind, eval_ret, exec_ret. split; [done|].
  destruct (get pid (registry w)) as [re|]; [|done]. cbn [mbind option_bind].
  by destruct (encode_envelope _).
Qed.

Lemma watchdog_round_spec env deadline l w :
  eval (watchdog_round env deadline l) w = omap (kill_item env deadline (registry w)) l /\
  exec (watchdog_round env deadline l) w =
    exec (for_each (fun x => offer (ping_item env deadline (registry w) x)) l) w.
Proof.
  revert w. induction l as [|[pid e] l IH]; intros w; [done|]. cbn [watchdog_round].
  destruct (watchdog_one_spec env deadline pid e w) as [Hv He].
  rewrite !eval_bind, !exec_bind, Hv, He. cbn [for_each].
  set (w1 := exec (offer _) w).
  assert (registry w1 = registry w) as Hr by (apply (net_only_registry w), offer_chans).
  destruct (IH w1) as [IHv IHe]. rewrite Hr in IHv, IHe. rewrite IHv. split.
  - rewrite eval_ret. cbn [omap list_omap].
    change (kill_item env deadline (registry w) (pid, e)) with
      (if unresponsive env deadline (registry w) pid then Some (FxSignal (signal_target e) SIGKILL) else None).
    by destruct (unresponsive env deadline (registry w) pid).
  - rewrite exec_ret, IHe. by rewrite exec_bind.
Qed.

End Watchdog.

Lemma reachable_ids faults cfg x : sup_reachable faults cfg x -> ids_ok x.
Proof.
  unfold sup_reachable. revert x. apply rtc_ind_r.
  - by split.
  - intros x y _ [l Hs] IH. by eapply ids_step.
Qed.

Lemma crash_loop_live pid c outs s n :
  live pid c n s -> restart_policy c <> Never -> 0 <= n -> n + Z.of_nat (length outs) <= max_restarts c ->
  max_restarts c <= u32_max -> 0 <= next_epoch s -> next_epoch s + Z.of_nat (length outs) < u64_max ->
  Forall (comes_up c) outs ->
  live pid c (n + Z.of_nat (length outs)) (crash_loop pid outs s).
Proof.
  revert s n. induction outs as [|res outs IH]; intros s n Hl Hp Hn Hle Hm Hx0 Hx Ho; simpl in *.
  - by rewrite Z.add_0_r.
  - apply Forall_cons in Ho as [Hr Ho].
    destruct (crash_restarts pid c n res s Hl Hp) as [Hl' Hn']; [lia|done|lia|done|].
    replace (n + Z.of_nat (S (length outs))) with (n + 1 + Z.of_nat (length outs)) by lia.
    apply IH; (done || rewrite ?Hn'; lia).
Qed.

Lemma crash_loop_app pid l1 l2 s : crash_loop pid (l1 ++ l2) s = crash_loop pid l2 (crash_loop pid l1 s).
Proof. revert s. induction l1; simpl; auto. Qed.

Lemma shiftl_backoff n : 0 <= n -> 1 <= Z.shiftl 1 (Z.min n 8) <= 256.
Proof.
  intros Hn. rewrite Z.shiftl_1_l. pose proof (Z.pow_le_mono_r 2 0 (Z.min n 8)).
  pose proof (Z.pow_le_mono_r 2 (Z.min n 8) 8). change (2 ^ 0) with 1 in *. change (2 ^ 8) with 256 in *. lia.
Qed.

Lemma push_lines max lines buf :
  (length buf <= Nat.max 1 max)%nat ->
  foldl (push_line max) buf lines =
    let all := buf ++ lines in drop (length all - Nat.max 1 max) all.
Proof.
  revert buf. induction lines as [|l lines IH]; intros buf Hb; simpl.
  - rewrite app_nil_r. by replace (length buf - Nat.max 1 max)%nat with 0%nat by lia.
  - rewrite IH.
    + simpl. unfold push_line. destruct (Nat.leb_spec max (length buf)).
      * rewrite <- !app_assoc. simpl. destruct buf as [|b buf]; simpl in *.
        -- replace max with 0%nat by lia. done.
        -- rewrite !length_app. simpl. rewrite Nat.sub_succ_l by lia. done.
      * by rewrite <- app_assoc.
    + unfold push_line. destruct (Nat.leb_spec max (length buf)); rewrite length_app; simpl.
      * destruct buf; simpl in *; lia.
      * lia.
Qed.

(** ** Properties *)

(** C16: in every state the interleaved tasks can reach, as long as no respawn
    fails, every supervised entry is accounted for: its instance is alive,
    or its exit waits in the queue, or the monitor is working on it.  So
    once the monitor has caught up, [is_running] means running.  And the
    monitor only ever acts on the exit of an instance that is dead and is
    the registered one. *)
Theorem entries_accounted cfg x :
  sup_reachable false cfg x ->
  (forall p y, entries (sup x) !! p = Some y -> accounted x p (pe_epoch y)) /\
  (event_queue (sup x) = [] -> mon x = MIdle -> forall p, is_running p (sup x) = true ->
     exists y k, entries (sup x) !! p = Some y /\ running (sup x) !! pe_epoch y = Some (p, k)) /\
  (forall ev q d k s', event_queue (sup x) = ev :: q ->
     monitor_decide ev (set_queue (fun _ => q) (sup x)) = (MPublish ev d k, s') ->
     running (sup x) !! ex_epoch ev = None /\
     exists y, entries (sup x) !! ex_plugin_id ev = Some y /\ pe_epoch y = ex_epoch ev).
Proof.
  intros Hok%sup_reachable_ok. split_and!.
  - intros p y Hy. by apply (ok_entry _ Hok).
  - intros Hq Hm p. unfold is_running. destruct (entries (sup x) !! p) as [y|] eqn:Hy; [|done]. intros _.
    destruct (ok_entry _ Hok p y Hy) as (_ & Ha & _). unfold accounted in Ha. rewrite Hq, Hm in Ha.
    destruct Ha as [[k Hk]|[(ev & Hin & _)|Hin]]; [by exists y, k|by apply elem_of_nil in Hin..].
  - intros ev q d k s' Hq Hd. split.
    + apply (ok_dead _ Hok). unfold idle_epochs. rewrite Hq. by left.
    + unfold monitor_decide in Hd. simpl in Hd. destruct (_ || _) eqn:E; [done|]. bools.
      destruct (entries (sup x) !! ex_plugin_id ev) as [y|]; [|done]. bools. by exists y.
Qed.

(** C32: a plugin that crashes again and again is restarted exactly
    [max_restarts] times, each crash raising its restart count by one; the
    next crash removes it, with its final count kept for lookup. *)
Theorem crash_loop_budget pid c outs res s :
  live pid c 0 s -> restart_policy c <> Never ->
  0 <= max_restarts c <= u32_max -> 0 <= next_epoch s -> next_epoch s + max_restarts c < u64_max ->
  Forall (comes_up c) outs ->
  (Z.of_nat (length outs) <= max_restarts c ->
     live pid c (Z.of_nat (length outs)) (crash_loop pid outs s)) /\
  (Z.of_nat (length outs) = max_restarts c ->
     let s' := crash_loop pid (outs ++ [res]) s in
     is_running pid s' = false /\ restart_count_of pid s' = Some (max_restarts c)).
Proof.
  intros Hl Hp Hm Hn0 Hn Ho.
  assert (Z.of_nat (length outs) <= max_restarts c ->
          live pid c (Z.of_nat (length outs)) (crash_loop pid outs s)) as Hlive.
  { intros Hle. pose proof (crash_loop_live pid c outs s 0 Hl Hp) as Hx. rewrite !Z.add_0_l in Hx.
    apply Hx; (done || lia). }
  split; [done|]. intros Hlen s'. unfold s'. rewrite crash_loop_app. simpl.
  destruct (crash_gives_up pid c (max_restarts c) res (crash_loop pid outs s)) as [He Hc].
  - rewrite <- Hlen. apply Hlive. lia.
  - right. lia.
  - unfold is_running, restart_count_of. by rewrite He, Hc.
Qed.

(** The restart delay never exceeds the ceiling, never shrinks as the
    restart count grows, doubles per restart below the ceiling up to the
    eighth restart and is constant from there on; no 64-bit overflow is
    visible. *)
Theorem backoff_bounds cfg n m :
  0 <= n -> n <= m -> 0 <= backoff_base_ms cfg -> 0 <= backoff_max_ms cfg <= u64_max ->
  0 <= backoff_delay cfg n <= backoff_max_ms cfg /\
  backoff_delay cfg n <= backoff_delay cfg m /\
  (n <= 8 -> backoff_base_ms cfg * 2 ^ n <= backoff_max_ms cfg ->
     backoff_delay cfg n = backoff_base_ms cfg * 2 ^ n) /\
  (8 <= n -> backoff_delay cfg m = backoff_delay cfg n).
Proof.
  intros Hn Hnm Hb Hm. unfold backoff_delay, u64_saturating_mul.
  pose proof (shiftl_backoff n Hn). pose proof (shiftl_backoff m ltac:(lia)).
  assert (Z.shiftl 1 (Z.min n 8) <= Z.shiftl 1 (Z.min m 8)) as Hmono.
  { rewrite !Z.shiftl_1_l. apply Z.pow_le_mono_r; lia. }
  split_and!.
  - nia.
  - nia.
  - nia.
  - intros Hn8 Hle. rewrite (Z.min_l n 8), Z.shiftl_1_l by lia. lia.
  - intros Hn8. by rewrite (Z.min_r n 8), (Z.min_r m 8) by lia.
Qed.

(** The log of an instance is a ring: after any lines it holds exactly the
    last [max_log_lines] of them (at least one), and [get_logs] returns the
    last [n] of those; a new instance of the plugin starts with an empty
    log, which the lines of the old one no longer reach. *)
Theorem logs_are_last_lines cfg pid e lines n s config res k :
  log_buffers s !! pid = Some e -> log_store s !! e = Some [] ->
  let s' := foldl (fun s l => log_line cfg e l s) s lines in
  let kept := drop (length lines - Nat.max 1 (max_log_lines cfg)) lines in
  get_logs pid n s' = drop (length kept - n) kept /\
  (cfg_plugin_id config = pid -> k <> e ->
     let s2 := (spawn_commit config 0 k (Ok res) s').2 in
     get_logs pid n s2 = [] /\ forall l, get_logs pid n (log_line cfg e l s2) = []).
Proof.
  intros Hb Hl s' kept.
  assert (log_buffers s' = log_buffers s /\
          log_store s' !! e = Some (foldl (push_line (max_log_lines cfg)) [] lines)) as [E1 E2].
  { unfold s'. clear s' kept. revert s Hb Hl. generalize (@nil string).
    induction lines as [|l lines IH]; intros buf s Hb Hl; simpl; [done|].
    destruct (IH (push_line (max_log_lines cfg) buf l) (log_line cfg e l s)) as [-> ->]; [done| |done].
    simpl. rewrite lookup_alter_eq, Hl. done. }
  rewrite push_lines in E2 by apply Nat.le_0_l. split.
  - unfold get_logs. rewrite E1, Hb, E2. done.
  - intros <- Hk s2.
    assert (log_buffers s2 = <[cfg_plugin_id config := k]> (log_buffers s') /\
            log_store s2 = <[k := []]> (log_store s')) as [F1 F2].
    { unfold s2, spawn_commit. by destruct (spawn_pids config k res) as [[[? ?]|] ?]. }
    unfold get_logs. split.
    + rewrite F1, F2, !lookup_insert_eq. done.
    + intros l. simpl. rewrite F1, F2, lookup_insert_eq, lookup_alter_ne by done. by rewrite lookup_insert_eq.
Qed.

(** When the respawn of a crashed plugin fails, its dead entry stays: the
    plugin still counts as running and a start is refused, though no
    instance lives and no exit is left to process. *)
Theorem failed_respawn_strands cfg x config n old e y res err s' :
  sup_reachable false cfg x ->
  mon x = MSpawn config n old e ->
  entries (sup x) !! cfg_plugin_id config = Some y -> pe_epoch y = old ->
  spawn_commit config n e res (sup x) = (Err err, s') ->
  let x' := mkSys s' MIdle (inflight x) in
  sup_step true cfg None x x' /\
  is_running (cfg_plugin_id config) s' = true /\
  (forall r, (spawn_plugin config r s').1 = Err (EPluginAlreadyRunning (cfg_plugin_id config))) /\
  ~ accounted x' (cfg_plugin_id config) (pe_epoch y).
Proof.
  intros Hok%sup_reachable_ok Hm Hy <- Hc x'. pose proof (spawn_commit_spec config n e res (sup x)) as Hs.
  rewrite Hc in Hs. destruct Hs as (Eq & _ & _ & _ & _ & Ee & Er). split_and!.
  - destruct x as [s m fl]. simpl in *. subst m. eapply st_respawn; [done|by right].
  - unfold is_running. by rewrite Ee, Hy.
  - intros r. unfold spawn_plugin, spawn_internal, spawn_begin. by rewrite Ee, Hy.
  - pose proof (ok_nodup _ Hok) as Hnd. pose proof (ok_dead _ Hok (pe_epoch y)) as Hd.
    unfold idle_epochs in Hnd, Hd. rewrite Hm in Hnd, Hd. simpl in Hnd, Hd.
    apply NoDup_app in Hnd as (_ & Hdis & _).
    intros [[q Hq]|[(ev & Hin & _ & He)|Hh]]; simpl in *.
    + rewrite Er, Hd in Hq; [done|]. apply elem_of_app. right. by left.
    + rewrite Eq in Hin. apply (Hdis (pe_epoch y)); [|by left]. rewrite <- He. by apply list_elem_of_fmap_2.
    + by apply elem_of_nil in Hh.
Qed.

Section WatchdogProps.
Context `{HashIter} `{WireCrate} `{Governor} `{SerdeJson} `{StoreCrates}.

(** A watchdog turn kills, with SIGKILL to the shim or else the plugin,
    exactly the supervised plugins whose last pong is older than the
    deadline; every other registered one gets one ping if its channel has
    room; the registry, the bus and the supervisor's bookkeeping do not
    change. *)
Theorem watchdog_tick_spec env deadline s w :
  let s' := eval (watchdog_tick env deadline s) w in
  let w' := exec (watchdog_tick env deadline s) w in
  same_sup s s' /\ net_only w w' /\
  effects s' = effects s ++ omap (kill_item env deadline (registry w)) (map_iter (entries s)) /\
  (forall target, FxSignal target SIGKILL ∈ omap (kill_item env deadline (registry w)) (map_iter (entries s)) <->
     exists pid y, entries s !! pid = Some y /\ target = signal_target y /\
                   unresponsive env deadline (registry w) pid = true) /\
  (forall ty, queue_of (chans w') ty = queue_of (chans w) ty ++
     take (room (chans w) ty) (omap (offered (ping_item env deadline (registry w)) ty) (map_iter (entries s)))).
Proof.
  intros s' w'. unfold s', w', watchdog_tick. rewrite eval_bind, exec_bind, eval_ret, exec_ret.
  destruct (watchdog_round_spec env deadline (map_iter (entries s)) w) as [-> ->].
  destruct (fan_out_spec (ping_item env deadline (registry w)) (map_iter (entries s)) w) as [Hn Hq].
  split_and!; [done|done|done| |done].
  intros target. rewrite list_elem_of_omap. split.
  - intros ([pid y] & Hin%elem_of_map_iter & Hk). unfold kill_item in Hk. simpl in Hk.
    destruct (unresponsive env deadline (registry w) pid) eqn:Hu; simplify_eq. by exists pid, y.
  - intros (pid & y & Hy & -> & Hu). exists (pid, y). split; [by apply elem_of_map_iter|].
    unfold kill_item. simpl. by rewrite Hu.
Qed.

End WatchdogProps.

(** ** Runs *)
Module SupervisorRuns.

Definition scfg : SupConfig := mkSupConfig "/run/vyn.sock" None 2 false 100 30000.
Definition cfg : PluginConfig :=
  mkConfig "p" "/opt/p" [] [] OnFailure 2 false 0 None None FsFull [] [].
Definition child (pid : Z) : Result (string * bool) Child := Ok (mkChild (Some pid) (LineRead None) false).

Abbreviation steps f := (rtc (fun a b => exists l, sup_step f scfg l a b)).

(** A plugin is started, crashes, and the monitor is in its backoff. *)
Definition s1 : Supervisor := (spawn_plugin cfg (child 10) sup_new).2.
Definition s2 : Supervisor := wait_task 1 false s1.
Definition ev1 : ExitEvent := mkExit "p" 1 10 false.
Definition x_run : Sys := mkSys s1 MIdle [].
Definition s3 : Supervisor := (monitor_decide ev1 (set_queue (fun _ => []) s2)).2.
Definition x_back : Sys := mkSys s3 (MBackoff cfg 1 1) [].

Lemma start_steps (s : Supervisor) (m : Monitor) (e : Z) (c : Result (string * bool) Child) s' :
  next_epoch s < u64_max -> spawn_begin cfg None s = (Ok e, s') ->
  steps false (mkSys s m []) (mkSys (spawn_commit cfg 0 e c s').2 m []).
Proof.
  intros Hn Hb. eapply rtc_l; [eexists; by eapply st_start|]. eapply rtc_once. eexists.
  apply (st_started _ _ cfg e c s' m [] []).
Qed.

Lemma x_run_reachable : sup_reachable false scfg x_run.
Proof. apply (start_steps sup_new MIdle 1 (child 10) (set_next_epoch u64_succ sup_new)); done. Qed.

Lemma x_back_reachable : sup_reachable false scfg x_back.
Proof.
  unfold sup_reachable. etrans; [apply x_run_reachable|].
  eapply rtc_l; [eexists; apply (st_exit _ _ 1 false s1 MIdle [])|].
  eapply rtc_l; [eexists; apply (st_recv _ _ ev1 [] s2 [] (MPublish ev1 (Some (cfg, 0)) 0) s3);
                 vm_compute; reflexivity|].
  eapply rtc_once. eexists. by eapply st_apply.
Qed.

Lemma entries_accounted_witness : exists y k, entries s1 !! "p" = Some y /\ running s1 !! pe_epoch y = Some ("p", k).
Proof.
  destruct (entries_accounted scfg x_run x_run_reachable) as (_ & Hq & _).
  apply Hq; [vm_compute; reflexivity|reflexivity|vm_compute; reflexivity].
Defined.

Definition y1 : ProcEntry := mkProc cfg 0 10 None 1.

Lemma s1_live : live "p" cfg 0 s1.
Proof.
  split; [|vm_compute; reflexivity|by vm_compute|done].
  exists 10, None, 1. split_and!; [vm_compute; reflexivity|vm_compute; reflexivity|vm_compute; done|].
  intros k. by vm_compute.
Qed.

Lemma crash_loop_witness :
  is_running "p" (crash_loop "p" [child 11; child 12; child 13] s1) = false /\
  restart_count_of "p" (crash_loop "p" [child 11; child 12; child 13] s1) = Some 2.
Proof.
  apply (crash_loop_budget "p" cfg [child 11; child 12] (child 13) s1).
  - apply s1_live.
  - done.
  - vm_compute; split; discriminate.
  - vm_compute; discriminate.
  - vm_compute; reflexivity.
  - constructor; [|constructor; [|constructor]].
    + by exists (mkChild (Some 11) (LineRead None) false), 11, None.
    + by exists (mkChild (Some 12) (LineRead None) false), 12, None.
  - reflexivity.
Defined.

Lemma backoff_witness : backoff_delay scfg 3 = 800.
Proof.
  destruct (backoff_bounds scfg 3 9) as (_ & _ & He & _).
  - lia.
  - lia.
  - vm_compute; discriminate.
  - vm_compute; split; discriminate.
  - rewrite He; [reflexivity|lia|vm_compute; discriminate].
Defined.

Lemma logs_witness :
  get_logs "p" 5 (foldl (fun s l => log_line scfg 1 l s) s1 ["a"; "b"; "c"]) = ["b"; "c"].
Proof.
  destruct (logs_are_last_lines scfg "p" 1 ["a"; "b"; "c"] 5 s1 cfg (mkChild None LineTimeout false) 7) as [Hl _].
  - vm_compute; reflexivity.
  - vm_compute; reflexivity.
  - rewrite Hl. reflexivity.
Defined.

(** The backoff ends and the binary is gone. *)
Definition s4 : Supervisor := set_next_epoch u64_succ s3.
Definition x_spawn : Sys := mkSys s4 (MSpawn cfg 1 1 2) [].

Lemma x_spawn_reachable : sup_reachable false scfg x_spawn.
Proof.
  unfold sup_reachable. etrans; [apply x_back_reachable|]. eapply rtc_once. eexists.
  apply (st_wake _ _ cfg 1 1 s3 []); [by vm_compute|vm_compute; reflexivity].
Qed.

Lemma failed_respawn_witness : is_running "p" (spawn_commit cfg 1 2 (Err ("enoent", false)) s4).2 = true.
Proof.
  apply (failed_respawn_strands scfg x_spawn cfg 1 1 2 y1 (Err ("enoent", false)) (EIo "enoent")
           (spawn_commit cfg 1 2 (Err ("enoent", false)) s4).2).
  - apply x_spawn_reachable.
  - reflexivity.
  - vm_compute; reflexivity.
  - reflexivity.
  - reflexivity.
Defined.

(** During the backoff of instance 1: stop, start (instance 2), stop. *)
Definition t1 : Supervisor := (stop_plugin "p" s3).2.
Definition t2 : Supervisor := (spawn_plugin cfg (child 20) t1).2.
Definition x_again : Sys := mkSys t2 (MBackoff cfg 1 1) [].

Lemma x_again_reachable : sup_reachable false scfg x_again.
Proof.
  unfold sup_reachable. etrans; [apply x_back_reachable|].
  eapply rtc_l; [eexists; apply (st_stop _ _ "p" s3 (MBackoff cfg 1 1) [])|].
  apply (start_steps t1 (MBackoff cfg 1 1) 2 (child 20) (set_next_epoch u64_succ t1)); [by vm_compute|].
  vm_compute; reflexivity.
Qed.

(** A stop is not terminal while the monitor holds an older exit: a
    plugin that is stopped, started and stopped again while the monitor
    sleeps for its first instance comes back by itself when the monitor
    wakes up, since only the epoch of the last stop is remembered. *)
Theorem stop_start_stop_resurrects :
  exists x pid x',
    sup_reachable false scfg x /\ is_ok (stop_plugin pid (sup x)).1 = true /\
    rtc (fun a b => exists l, l <> Some pid /\ sup_step false scfg l a b)
      (mkSys (stop_plugin pid (sup x)).2 (mon x) (inflight x)) x' /\
    is_running pid (sup x') = true.
Proof.
  exists x_again, "p".
  set (t3 := (stop_plugin "p" t2).2). set (t4 := set_next_epoch u64_succ t3).
  exists (mkSys (spawn_commit cfg 1 3 (child 30) t4).2 MIdle []). split_and!.
  - apply x_again_reachable.
  - vm_compute; reflexivity.
  - eapply rtc_l; [exists None; split; [done|]; apply (st_wake _ _ cfg 1 1 t3 []); [by vm_compute|]|].
    + vm_compute; reflexivity.
    + apply rtc_once. exists None. split; [done|]. change (mkSys _ (MSpawn _ _ _ _) []) with (mkSys t4 (MSpawn cfg 1 1 3) []).
      eapply (st_respawn _ _ cfg 1 1 3 (child 30)); [apply surjective_pairing|left; vm_compute; reflexivity].
  - vm_compute; reflexivity.
Qed.

(** The guard against a second start and the insertion of the entry are not
    one step: two starts of one plugin can both pass the guard, and the
    later one overwrites the entry of the earlier, whose process keeps
    running without an entry. *)
Theorem concurrent_starts_orphan :
  exists x pid k1 k2,
    sup_reachable false scfg x /\ running (sup x) !! 1 = Some (pid, k1) /\ running (sup x) !! 2 = Some (pid, k2) /\
    exists y, entries (sup x) !! pid = Some y /\ pe_epoch y = 2.
Proof.
  set (u1 := set_next_epoch u64_succ sup_new). set (u2 := set_next_epoch u64_succ u1).
  set (u3 := (spawn_commit cfg 0 1 (child 10) u2).2).
  exists (mkSys (spawn_commit cfg 0 2 (child 20) u3).2 MIdle []), "p", 10, 20. split_and!.
  - eapply rtc_l; [eexists; apply (st_start _ _ cfg 1 sup_new u1 MIdle []); [done|vm_compute; reflexivity]|].
    eapply rtc_l; [eexists; apply (st_start _ _ cfg 2 u1 u2 MIdle [(cfg, 1)]); [done|vm_compute; reflexivity]|].
    eapply rtc_l; [eexists; apply (st_started _ _ cfg 1 (child 10) u2 MIdle [(cfg, 2)] [])|].
    apply rtc_once. eexists. apply (st_started _ _ cfg 2 (child 20) u3 MIdle [] []).
  - vm_compute; reflexivity.
  - vm_compute; reflexivity.
  - exists (mkProc cfg 0 20 None 2). split; [vm_compute; reflexivity|reflexivity].
Qed.

End SupervisorRuns.
