(* ===== verification/StopRace.v ===== *)
(** * Stops and manual restarts under concurrency

    [stop_plugin] and [restart_plugin] of [plugins/supervisor/mod.rs] touch
    several [DashMap]s one after the other without suspending, but the
    monitor runs on another thread of the runtime.  Here each is a call whose
    steps are the single map operations, interleaved with the steps of the
    other tasks ([SupervisorProps.sup_step]).  Alone a call computes what
    [Supervisor] computes; a stop is terminal from the moment its epoch is
    recorded; before that, a monitor that wakes up brings the plugin back. *)

From S2P Require Import Prelude Wire Toy Text Channel Registry DeviceStore EventStore World EventBus Sandbox Supervisor SupervisorProps.

Open Scope Z_scope.

(** ** Calls *)

(** The next operation of a call. *)
Inductive CtlPc :=
| SRemove (pid : string)                    (** [entries.remove] *)
| SRecord (pid : string) (e : ProcEntry)    (** [stopped_epochs.insert] *)
| SUnforce (pid : string) (e : ProcEntry)   (** [forced_restarts.remove] *)
| SKill (e : ProcEntry)                     (** [kill(target, SIGTERM)] *)
| RLook (pid : string)                      (** [entries.get] *)
| RMark (pid : string) (target : Z)         (** [forced_restarts.insert] *)
| RKill (target : Z)                        (** [kill(target, SIGTERM)] *)
| CtlEnd (res : Result VynkorError (option ProcEntry)).

Definition stop_op (pc : CtlPc) (s : Supervisor) : CtlPc * Supervisor :=
  match pc with
  | SRemove pid =>
      match entries s !! pid with
      | None => (CtlEnd (Err (EPluginNotFound pid)), s)
      | Some e => (SRecord pid e, set_entries (delete pid) s)
      end
  | SRecord pid e => (SUnforce pid e, set_stopped_epochs <[pid := pe_epoch e]> s)
  | SUnforce pid e => (SKill e, set_forced (fun f => f ∖ {[pid]}) s)
  | SKill e => (CtlEnd (Ok (Some e)), add_effects [FxSignal (signal_target e) SIGTERM] s)
  | _ => (pc, s)
  end.

Definition restart_op (pc : CtlPc) (s : Supervisor) : CtlPc * Supervisor :=
  match pc with
  | RLook pid =>
      match entries s !! pid with
      | None => (CtlEnd (Err (EPluginNotFound pid)), s)
      | Some e => (RMark pid (signal_target e), s)
      end
  | RMark pid target => (RKill target, set_forced (fun f => {[pid]} ∪ f) s)
  | RKill target => (CtlEnd (Ok None), add_effects [FxSignal target SIGTERM] s)
  | _ => (pc, s)
  end.

Definition ctl_op (pc : CtlPc) : Supervisor -> CtlPc * Supervisor :=
  match pc with
  | SRemove _ | SRecord _ _ | SUnforce _ _ | SKill _ => stop_op pc
  | _ => restart_op pc
  end.

Fixpoint ctl_run (n : nat) (pc : CtlPc) (s : Supervisor) : CtlPc * Supervisor :=
  match n with
  | O => (pc, s)
  | S n => let '(pc, s) := ctl_op pc s in ctl_run n pc s
  end.

(** Four operations are a stop, three a restart, as [Supervisor] has them. *)
Theorem control_alone pid s :
  ctl_run 4 (SRemove pid) s =
    (CtlEnd (e ← (stop_plugin pid s).1; Ok (Some e)), (stop_plugin pid s).2) /\
  ctl_run 3 (RLook pid) s =
    (CtlEnd (_ ← (restart_plugin pid s).1; Ok None), (restart_plugin pid s).2).
Proof.
  unfold stop_plugin, restart_plugin. cbn [ctl_run ctl_op stop_op restart_op].
  by destruct (entries s !! pid) eqn:E; cbn [ctl_run ctl_op stop_op restart_op].
Qed.

(** ** Interleavings *)

Record Fine := mkFine { fine : Sys; calls : list CtlPc }.

Definition with_sup (s : Supervisor) (x : Sys) : Sys := mkSys s (mon x) (inflight x).

(** A step of another task, a new call, or the next operation of a call. *)
Inductive fine_step (faults : bool) (cfg : SupConfig) : option string -> Fine -> Fine -> Prop :=
| fine_task l z x :
    sup_step faults cfg l (fine z) x -> fine_step faults cfg l z (mkFine x (calls z))
| fine_stop pid z :
    fine_step faults cfg None z (mkFine (fine z) (calls z ++ [SRemove pid]))
| fine_restart pid z :
    fine_step faults cfg None z (mkFine (fine z) (calls z ++ [RLook pid]))
| fine_op i pc z :
    calls z !! i = Some pc ->
    fine_step faults cfg None z
      (mkFine (with_sup (ctl_op pc (sup (fine z))).2 (fine z)) (<[i := (ctl_op pc (sup (fine z))).1]> (calls z))).

Definition fine_reachable (faults : bool) (cfg : SupConfig) (z : Fine) : Prop :=
  rtc (fun a b => exists l, fine_step faults cfg l a b) (mkFine sys_new []) z.

Lemma fine_ids faults cfg l z z' : fine_step faults cfg l z z' -> ids_ok (fine z) -> ids_ok (fine z').
Proof.
  intros Hs Hids. destruct Hs as [l z x Hs|pid z|pid z|i pc z Hi]; cbn; [by eapply ids_step|done..|].
  destruct Hids as [He Hd]. split; [|done]. cbn. intros q y.
  destruct pc as [pid|pid e|pid e|e|pid|pid target|target|res]; cbn; try apply He.
  - destruct (entries (sup (fine z)) !! pid); cbn; [|apply He]. intros [_ Hq]%lookup_delete_Some. by apply He.
  - destruct (entries (sup (fine z)) !! pid); apply He.
Qed.

Lemma fine_reachable_ids faults cfg z : fine_reachable faults cfg z -> ids_ok (fine z).
Proof.
  unfold fine_reachable. revert z. apply rtc_ind_r; [by split|]. intros z z' _ [l Hs] IH. by eapply fine_ids.
Qed.

(** The stop has been recorded, nothing under way brings the plugin back, and
    no stop of an older instance is still to be recorded. *)
Definition recorded (pid : string) (e : Z) (z : Fine) : Prop :=
  stopped_for pid e (fine z) /\ forall y, SRecord pid y ∈ calls z -> pe_epoch y = e.

Lemma recorded_step faults cfg l pid e z z' :
  fine_step faults cfg l z z' -> l <> Some pid -> recorded pid e z -> recorded pid e z'.
Proof.
  intros Hs Hl [Hst Hrec]. pose proof (fine_ids _ _ _ _ _ Hs (sf_ids _ _ _ Hst)) as Hids.
  destruct Hs as [l z x Hs|q z|q z|i pc z Hi]; cbn in *.
  - split; [by eapply stopped_for_step|done].
  - split; [done|]. intros y [Hy|Hy%list_elem_of_singleton]%elem_of_app; [by apply Hrec|done].
  - split; [done|]. intros y [Hy|Hy%list_elem_of_singleton]%elem_of_app; [by apply Hrec|done].
  - destruct Hst as [He Hep Hfl Hh Hsp _].
    assert (Hold : forall y, SRecord pid y = (ctl_op pc (sup (fine z))).1 -> pe_epoch y = e).
    { intros y Hy. destruct pc as [q|q e'|q e'|e'|q|q t|t|res]; cbn in Hy;
        try (destruct (entries (sup (fine z)) !! q) eqn:Eq); simplify_eq; cbn in Hy; congruence. }
    split.
    + destruct pc as [q|q e'|q e'|e'|q|q t|t|res]; cbn in *; try by split.
      * destruct (entries (sup (fine z)) !! q) eqn:Eq; [|by split]. assert (q <> pid) by congruence.
        split; cbn; try done. by rewrite lookup_delete_ne.
      * split; cbn; try done. destruct (decide (q = pid)) as [->|]; [|by rewrite lookup_insert_ne].
        rewrite lookup_insert_eq. f_equal. apply Hrec. by eapply list_elem_of_lookup_2.
      * destruct (entries (sup (fine z)) !! q); by split.
    + intros y [j Hj]%list_elem_of_lookup_1. cbn in Hj.
      apply list_lookup_insert_Some in Hj as [(_ & Hj & _)|[_ Hj]]; [by apply Hold|].
      apply Hrec. by eapply list_elem_of_lookup_2.
Qed.

Lemma recorded_steps faults cfg pid e z z' :
  rtc (fun a b => exists l, l <> Some pid /\ fine_step faults cfg l a b) z z' ->
  recorded pid e z -> recorded pid e z'.
Proof. induction 1 as [|x y z (l & Hl & Hs) _ IH]; [done|]. intros Hst. apply IH. by eapply recorded_step. Qed.

(** C18: when a stop is terminal.  A stop has removed the entry of an instance
    and is about to record its epoch.  If at that moment the plugin has no
    entry, no spawn of it is under way, by a start or by the monitor, the
    monitor holds at most an exit of that very instance, and no other stop of
    the plugin is about to record another one, then from the record on,
    whatever the other tasks and calls do, map operation by map operation, the
    plugin is not supervised again until someone starts it. *)
Theorem recorded_stop_terminal faults cfg z i pid y z' :
  fine_reachable faults cfg z ->
  calls z !! i = Some (SRecord pid y) ->
  entries (sup (fine z)) !! pid = None ->
  (forall c k, (c, k) ∈ inflight (fine z) -> cfg_plugin_id c <> pid) ->
  (forall c n old k, mon (fine z) = MSpawn c n old k -> cfg_plugin_id c <> pid) ->
  (forall k, (pid, k) ∈ held (mon (fine z)) -> k = pe_epoch y) ->
  (forall j y', calls z !! j = Some (SRecord pid y') -> pe_epoch y' = pe_epoch y) ->
  rtc (fun a b => exists l, l <> Some pid /\ fine_step faults cfg l a b)
    (mkFine (with_sup (ctl_op (SRecord pid y) (sup (fine z))).2 (fine z)) (<[i := SUnforce pid y]> (calls z))) z' ->
  is_running pid (sup (fine z')) = false.
Proof.
  intros Hr Hi He Hfl Hsp Hh Hother Hsteps. apply fine_reachable_ids in Hr as [Hids Hdec].
  eapply recorded_steps in Hsteps as [[Hgone _ _ _ _ _] _]; [unfold is_running; by rewrite Hgone|].
  split.
  - split; cbn; try done. apply lookup_insert_eq.
  - intros y' [j Hj]%list_elem_of_lookup_1. cbn in Hj.
    apply list_lookup_insert_Some in Hj as [(_ & [=] & _)|[_ Hj]]. by eapply Hother.
Qed.

(** ** Runs *)

Module StopRaceRuns.

Import SupervisorRuns.

(** The plugin has crashed, the monitor is in its backoff, and a stop has
    removed the entry. *)
Definition z0 : Fine := mkFine x_back [SRemove "p"].
Definition op (i : nat) (z : Fine) : Fine :=
  match calls z !! i with
  | Some pc => mkFine (with_sup (ctl_op pc (sup (fine z))).2 (fine z)) (<[i := (ctl_op pc (sup (fine z))).1]> (calls z))
  | None => z
  end.
Definition z1 : Fine := op 0 z0.

Lemma op_step faults c i z : is_Some (calls z !! i) -> exists l, fine_step faults c l z (op i z).
Proof. intros [pc Hi]. exists None. unfold op. rewrite Hi. by apply fine_op. Qed.

Lemma fine_of_sys faults c x : sup_reachable faults c x -> fine_reachable faults c (mkFine x []).
Proof.
  unfold sup_reachable. revert x. apply rtc_ind_r; [constructor|]. intros x x' _ [l Hs] IH.
  eapply rtc_r; [exact IH|]. exists l. by apply (fine_task _ _ _ (mkFine x [])).
Qed.

Lemma z1_reachable : fine_reachable false scfg z1.
Proof.
  eapply rtc_r; [|apply op_step; by eexists]. eapply rtc_r; [apply fine_of_sys, x_back_reachable|].
  exists None. apply (fine_stop _ _ "p" (mkFine x_back [])).
Qed.

Lemma recorded_stop_witness : is_running "p" (sup (fine (op 0 z1))) = false.
Proof.
  apply (recorded_stop_terminal false scfg z1 0 "p" y1 (op 0 z1)).
  - apply z1_reachable.
  - vm_compute; reflexivity.
  - vm_compute; reflexivity.
  - intros c k Hin. by apply elem_of_nil in Hin.
  - done.
  - intros k Hin%list_elem_of_singleton. by injection Hin.
  - intros [|j] y'; vm_compute; [|done]. by intros [= <-].
  - apply rtc_refl.
Defined.

(** The monitor wakes up after the removal and before the record, and
    respawns. *)
Definition u1 : Supervisor := set_next_epoch u64_succ (sup (fine z1)).
Definition z2 : Fine := mkFine (mkSys (spawn_commit cfg 1 2 (child 20) u1).2 MIdle []) (calls z1).

(** Between its first two operations a stop is not terminal: a monitor that
    wakes up from its backoff there finds no record of the stop and spawns
    the plugin again; the stop then returns successfully, and the plugin is
    supervised though nobody started it. *)
Theorem stop_window_resurrects :
  fine_reachable false scfg (op 0 (op 0 (op 0 z2))) /\
  calls (op 0 (op 0 (op 0 z2))) = [CtlEnd (Ok (Some y1))] /\
  is_running "p" (sup (fine (op 0 (op 0 (op 0 z2))))) = true.
Proof.
  split_and!; [|vm_compute; reflexivity..].
  do 3 (eapply rtc_r; [|apply op_step; vm_compute; by eexists]).
  eapply rtc_r; [eapply rtc_r; [apply z1_reachable|]|].
  - exists None. apply (fine_task _ _ None z1 (mkSys u1 (MSpawn cfg 1 1 2) [])).
    apply (st_wake _ _ cfg 1 1 (sup (fine z1)) []); [by vm_compute|vm_compute; reflexivity].
  - exists None. apply (fine_task _ _ None (mkFine (mkSys u1 (MSpawn cfg 1 1 2) []) (calls z1))).
    eapply (st_respawn _ _ cfg 1 1 2 (child 20)); [apply surjective_pairing|left; vm_compute; reflexivity].
Qed.

End StopRaceRuns.
