(* ===== verification/Config.v ===== *)
(** * Configuration ([src/utils/config.rs])

    The configuration file as a record, its defaults, the merge of the
    drop-in plugin files and the repair of zero values.  Reading files and
    parsing YAML are the class [ConfigCrates]; paths are strings. *)

From stdpp Require Import sorting.
From S2P Require Import Prelude Wire Sandbox.

Open Scope Z_scope.

(** ** Paths

    [Path::components] of a path without its root: empty pieces vanish, and
    so does [.] except in front of a relative path. *)

Definition path_has_root (s : string) : bool := starts_with "/" s.

Definition path_components (s : string) : list string :=
  let pieces := filter (fun p => p <> EmptyString) (split_char "/"%char s) in
  match pieces with
  | [] => []
  | p :: ps =>
      let rest := filter (fun q => q <> ".") ps in
      if path_has_root s && (p ==? ".") then rest else p :: rest
  end.

Fixpoint join_slash (l : list string) : string :=
  match l with [] => EmptyString | [p] => p | p :: ps => p +:+ "/" +:+ join_slash ps end.

Definition path_of (root : bool) (comps : list string) : string :=
  (if root then "/" else EmptyString) +:+ join_slash comps.

(** [Path::parent], up to redundant separators. *)
Definition path_parent (s : string) : option string :=
  match path_components s with
  | [] => None
  | comps => Some (path_of (path_has_root s) (take (length comps - 1) comps))
  end.

(** ** Data *)

Record PluginDef := mkDef {
  def_id : string;
  def_binary : string;
  def_restart : string;
  def_max_restarts : Z;
  def_args : list string;
  def_env : list string;
  def_sandbox : bool;
  def_grace_seconds : Z;
  def_max_procs : option Z;
  def_max_vmem_mb : option Z;
  def_permissions : list string;
  def_max_fs_access : option string;
  def_readonly_paths : list string;
  def_writable_paths : list string;
}.

Definition default_restart_policy : string := "on-failure".
Definition default_max_restarts : Z := 5.

Inductive Role := Host | Client.

Record BridgeConfig := mkBridgeConfig {
  host_url : string;
  bridge_token : option string;
  bridge_secret : option string;
  mirror : list string;
}.

Record Config := mkCfg {
  port : Z;
  log_level : string;
  pid_file : string;
  log_file : string;
  cfg_data_dir : string;
  cfg_socket_path : string;
  jwt_secret : option string;
  allow_no_auth : bool;
  role : Role;
  bridge : option BridgeConfig;
  cfg_device_id : option string;
  plugins : list PluginDef;
  plugins_dir : option string;
  watchdog_interval_secs : Z;
  watchdog_timeout_secs : Z;
  log_buffer_lines : Z;
  max_connections : Z;
  api_rate_limit_rps : option Z;
  api_rate_limit_burst : option Z;
  ipc_rate_limit_rps : option Z;
  action_caller_rate_limit_rps : option Z;
  cfg_action_caller_max_concurrent : option Z;
  cfg_session_idle_timeout_secs : option Z;
  prune_interval_secs : Z;
  tls : bool;
  tls_cert_path : option string;
  tls_key_path : option string;
  jwt_audience : option string;
  bind : option string;
  ws_register_timeout_secs : Z;
  registry_url : option string;
  marketplace_public_key : option string;
  registry_cache_ttl_secs : Z;
  tmp_dir : string;
  cfg_action_timeout_ms : Z;
  restart_backoff_base_ms : Z;
  restart_backoff_max_ms : Z;
  default_grace_seconds : Z;
  event_max_retries : Z;
  event_retention_secs : Z;
  router_channel_capacity : Z;
  fragment_timeout_secs : Z;
  cfg_max_reassembly_streams : Z;
  cfg_max_conn_errors : Z;
  cfg_max_tracked_error_conns : Z;
  ws_handshake_timeout_secs : Z;
  max_ws_connections : Z;
  max_archive_bytes : Z;
  max_extracted_bytes : Z;
  max_archive_entries : Z;
  config_file : option string;
}.

Definition default_watchdog_interval : Z := 30.
Definition default_watchdog_timeout : Z := 10.
Definition default_log_buffer_lines : Z := 1000.
Definition default_max_connections : Z := 1024.
Definition default_prune_interval_secs : Z := 60.
Definition default_registry_cache_ttl_secs : Z := 3600.
Definition default_action_timeout_ms : Z := 30000.
Definition default_restart_backoff_base_ms : Z := 100.
Definition default_restart_backoff_max_ms : Z := 30000.
Definition default_event_max_retries : Z := 5.
Definition default_event_retention_secs : Z := 3600.
Definition default_router_channel_capacity : Z := 1024.
Definition default_fragment_timeout_secs : Z := 30.
Definition default_max_reassembly_streams : Z := 64.
Definition default_max_conn_errors : Z := 16.
Definition default_max_tracked_error_conns : Z := 8192.
Definition default_ws_handshake_timeout_secs : Z := 5.
Definition default_ws_register_timeout_secs : Z := 10.
Definition default_max_ws_connections : Z := 1024.
Definition default_max_archive_bytes : Z := 256 * 1024 * 1024.
Definition default_max_extracted_bytes : Z := 1024 * 1024 * 1024.
Definition default_max_archive_entries : Z := 10000.
Definition default_grace : Z := 5.
Definition default_tls : bool := true.

(** [Config::default], given the paths that depend on the environment. *)
Definition config_default (pid log data sock tmp : string) : Config :=
  mkCfg
    8000 "info" pid log data sock None false Host None None [] None default_watchdog_interval
    default_watchdog_timeout default_log_buffer_lines default_max_connections None None None None None
    None default_prune_interval_secs default_tls None None None None default_ws_register_timeout_secs
    None None default_registry_cache_ttl_secs tmp default_action_timeout_ms
    default_restart_backoff_base_ms default_restart_backoff_max_ms default_grace
    default_event_max_retries default_event_retention_secs default_router_channel_capacity
    default_fragment_timeout_secs default_max_reassembly_streams default_max_conn_errors
    default_max_tracked_error_conns default_ws_handshake_timeout_secs default_max_ws_connections
    default_max_archive_bytes default_max_extracted_bytes default_max_archive_entries None.

(** The paths that depend on the environment: [private_dir] is what the wire
    crate finds as the directory of the user, [temp_dir] is
    [std::env::temp_dir]. *)
Definition default_pid_path (private_dir : option string) : string :=
  match private_dir with Some dir => path_join dir "vyn.pid" | None => "vyn.pid" end.
Definition default_log_path (private_dir : option string) : string :=
  match private_dir with Some dir => path_join dir "vyn.log" | None => "vyn.log" end.
Definition default_data_dir (private_dir : option string) : string :=
  match private_dir with Some dir => path_join dir "vyn-data" | None => "vyn-data" end.
Definition default_tmp_dir (private_dir : option string) (temp_dir : string) : string :=
  default temp_dir private_dir.

Definition env_config (private_dir : option string) (temp_dir sock : string) : Config :=
  config_default (default_pid_path private_dir) (default_log_path private_dir) (default_data_dir private_dir)
    sock (default_tmp_dir private_dir temp_dir).

(** The default paths without a private directory: the PID file, the log and
    the data stay in the working directory, whatever the shared temporary
    directory is, but the scratch directory is that shared one. *)
Theorem scratch_falls_back_to_shared temp sock :
  let c := env_config None temp sock in
  pid_file c = "vyn.pid" /\ log_file c = "vyn.log" /\ cfg_data_dir c = "vyn-data" /\ tmp_dir c = temp.
Proof. done. Qed.

Definition with_plugins (ps : list PluginDef) (c : Config) : Config :=
  mkCfg
    (port c) (log_level c) (pid_file c) (log_file c) (cfg_data_dir c) (cfg_socket_path c)
    (jwt_secret c) (allow_no_auth c) (role c) (bridge c) (cfg_device_id c) ps (plugins_dir c)
    (watchdog_interval_secs c) (watchdog_timeout_secs c) (log_buffer_lines c) (max_connections c)
    (api_rate_limit_rps c) (api_rate_limit_burst c) (ipc_rate_limit_rps c)
    (action_caller_rate_limit_rps c) (cfg_action_caller_max_concurrent c)
    (cfg_session_idle_timeout_secs c) (prune_interval_secs c) (tls c) (tls_cert_path c)
    (tls_key_path c) (jwt_audience c) (bind c) (ws_register_timeout_secs c) (registry_url c)
    (marketplace_public_key c) (registry_cache_ttl_secs c) (tmp_dir c) (cfg_action_timeout_ms c)
    (restart_backoff_base_ms c) (restart_backoff_max_ms c) (default_grace_seconds c)
    (event_max_retries c) (event_retention_secs c) (router_channel_capacity c)
    (fragment_timeout_secs c) (cfg_max_reassembly_streams c) (cfg_max_conn_errors c)
    (cfg_max_tracked_error_conns c) (ws_handshake_timeout_secs c) (max_ws_connections c)
    (max_archive_bytes c) (max_extracted_bytes c) (max_archive_entries c) (config_file c).

Definition with_source (file : string) (dir : string) (c : Config) : Config :=
  mkCfg
    (port c) (log_level c) (pid_file c) (log_file c) (cfg_data_dir c) (cfg_socket_path c)
    (jwt_secret c) (allow_no_auth c) (role c) (bridge c) (cfg_device_id c) (plugins c) (Some dir)
    (watchdog_interval_secs c) (watchdog_timeout_secs c) (log_buffer_lines c) (max_connections c)
    (api_rate_limit_rps c) (api_rate_limit_burst c) (ipc_rate_limit_rps c)
    (action_caller_rate_limit_rps c) (cfg_action_caller_max_concurrent c)
    (cfg_session_idle_timeout_secs c) (prune_interval_secs c) (tls c) (tls_cert_path c)
    (tls_key_path c) (jwt_audience c) (bind c) (ws_register_timeout_secs c) (registry_url c)
    (marketplace_public_key c) (registry_cache_ttl_secs c) (tmp_dir c) (cfg_action_timeout_ms c)
    (restart_backoff_base_ms c) (restart_backoff_max_ms c) (default_grace_seconds c)
    (event_max_retries c) (event_retention_secs c) (router_channel_capacity c)
    (fragment_timeout_secs c) (cfg_max_reassembly_streams c) (cfg_max_conn_errors c)
    (cfg_max_tracked_error_conns c) (ws_handshake_timeout_secs c) (max_ws_connections c)
    (max_archive_bytes c) (max_extracted_bytes c) (max_archive_entries c) (Some file).

(** Assignments to a field. *)

(** [cfg.port = p] *)
Definition set_port (p : Z) (c : Config) : Config :=
  mkCfg
    p (log_level c) (pid_file c) (log_file c) (cfg_data_dir c) (cfg_socket_path c)
    (jwt_secret c) (allow_no_auth c) (role c) (bridge c) (cfg_device_id c) (plugins c) (plugins_dir c)
    (watchdog_interval_secs c) (watchdog_timeout_secs c) (log_buffer_lines c) (max_connections c)
    (api_rate_limit_rps c) (api_rate_limit_burst c) (ipc_rate_limit_rps c)
    (action_caller_rate_limit_rps c) (cfg_action_caller_max_concurrent c)
    (cfg_session_idle_timeout_secs c) (prune_interval_secs c) (tls c) (tls_cert_path c)
    (tls_key_path c) (jwt_audience c) (bind c) (ws_register_timeout_secs c) (registry_url c)
    (marketplace_public_key c) (registry_cache_ttl_secs c) (tmp_dir c) (cfg_action_timeout_ms c)
    (restart_backoff_base_ms c) (restart_backoff_max_ms c) (default_grace_seconds c)
    (event_max_retries c) (event_retention_secs c) (router_channel_capacity c)
    (fragment_timeout_secs c) (cfg_max_reassembly_streams c) (cfg_max_conn_errors c)
    (cfg_max_tracked_error_conns c) (ws_handshake_timeout_secs c) (max_ws_connections c)
    (max_archive_bytes c) (max_extracted_bytes c) (max_archive_entries c) (config_file c).

(** [cfg.log_level = l] *)
Definition set_log_level (l : string) (c : Config) : Config :=
  mkCfg
    (port c) l (pid_file c) (log_file c) (cfg_data_dir c) (cfg_socket_path c)
    (jwt_secret c) (allow_no_auth c) (role c) (bridge c) (cfg_device_id c) (plugins c) (plugins_dir c)
    (watchdog_interval_secs c) (watchdog_timeout_secs c) (log_buffer_lines c) (max_connections c)
    (api_rate_limit_rps c) (api_rate_limit_burst c) (ipc_rate_limit_rps c)
    (action_caller_rate_limit_rps c) (cfg_action_caller_max_concurrent c)
    (cfg_session_idle_timeout_secs c) (prune_interval_secs c) (tls c) (tls_cert_path c)
    (tls_key_path c) (jwt_audience c) (bind c) (ws_register_timeout_secs c) (registry_url c)
    (marketplace_public_key c) (registry_cache_ttl_secs c) (tmp_dir c) (cfg_action_timeout_ms c)
    (restart_backoff_base_ms c) (restart_backoff_max_ms c) (default_grace_seconds c)
    (event_max_retries c) (event_retention_secs c) (router_channel_capacity c)
    (fragment_timeout_secs c) (cfg_max_reassembly_streams c) (cfg_max_conn_errors c)
    (cfg_max_tracked_error_conns c) (ws_handshake_timeout_secs c) (max_ws_connections c)
    (max_archive_bytes c) (max_extracted_bytes c) (max_archive_entries c) (config_file c).

(** [cfg.role = r] *)
Definition set_role (r : Role) (c : Config) : Config :=
  mkCfg
    (port c) (log_level c) (pid_file c) (log_file c) (cfg_data_dir c) (cfg_socket_path c)
    (jwt_secret c) (allow_no_auth c) r (bridge c) (cfg_device_id c) (plugins c) (plugins_dir c)
    (watchdog_interval_secs c) (watchdog_timeout_secs c) (log_buffer_lines c) (max_connections c)
    (api_rate_limit_rps c) (api_rate_limit_burst c) (ipc_rate_limit_rps c)
    (action_caller_rate_limit_rps c) (cfg_action_caller_max_concurrent c)
    (cfg_session_idle_timeout_secs c) (prune_interval_secs c) (tls c) (tls_cert_path c)
    (tls_key_path c) (jwt_audience c) (bind c) (ws_register_timeout_secs c) (registry_url c)
    (marketplace_public_key c) (registry_cache_ttl_secs c) (tmp_dir c) (cfg_action_timeout_ms c)
    (restart_backoff_base_ms c) (restart_backoff_max_ms c) (default_grace_seconds c)
    (event_max_retries c) (event_retention_secs c) (router_channel_capacity c)
    (fragment_timeout_secs c) (cfg_max_reassembly_streams c) (cfg_max_conn_errors c)
    (cfg_max_tracked_error_conns c) (ws_handshake_timeout_secs c) (max_ws_connections c)
    (max_archive_bytes c) (max_extracted_bytes c) (max_archive_entries c) (config_file c).

(** [cfg.bridge = b] *)
Definition set_bridge (b : option BridgeConfig) (c : Config) : Config :=
  mkCfg
    (port c) (log_level c) (pid_file c) (log_file c) (cfg_data_dir c) (cfg_socket_path c)
    (jwt_secret c) (allow_no_auth c) (role c) b (cfg_device_id c) (plugins c) (plugins_dir c)
    (watchdog_interval_secs c) (watchdog_timeout_secs c) (log_buffer_lines c) (max_connections c)
    (api_rate_limit_rps c) (api_rate_limit_burst c) (ipc_rate_limit_rps c)
    (action_caller_rate_limit_rps c) (cfg_action_caller_max_concurrent c)
    (cfg_session_idle_timeout_secs c) (prune_interval_secs c) (tls c) (tls_cert_path c)
    (tls_key_path c) (jwt_audience c) (bind c) (ws_register_timeout_secs c) (registry_url c)
    (marketplace_public_key c) (registry_cache_ttl_secs c) (tmp_dir c) (cfg_action_timeout_ms c)
    (restart_backoff_base_ms c) (restart_backoff_max_ms c) (default_grace_seconds c)
    (event_max_retries c) (event_retention_secs c) (router_channel_capacity c)
    (fragment_timeout_secs c) (cfg_max_reassembly_streams c) (cfg_max_conn_errors c)
    (cfg_max_tracked_error_conns c) (ws_handshake_timeout_secs c) (max_ws_connections c)
    (max_archive_bytes c) (max_extracted_bytes c) (max_archive_entries c) (config_file c).

(** [cfg.jwt_secret] and [cfg.tls] *)
Definition set_auth (secret : option string) (t : bool) (c : Config) : Config :=
  mkCfg
    (port c) (log_level c) (pid_file c) (log_file c) (cfg_data_dir c) (cfg_socket_path c)
    secret (allow_no_auth c) (role c) (bridge c) (cfg_device_id c) (plugins c) (plugins_dir c)
    (watchdog_interval_secs c) (watchdog_timeout_secs c) (log_buffer_lines c) (max_connections c)
    (api_rate_limit_rps c) (api_rate_limit_burst c) (ipc_rate_limit_rps c)
    (action_caller_rate_limit_rps c) (cfg_action_caller_max_concurrent c)
    (cfg_session_idle_timeout_secs c) (prune_interval_secs c) t (tls_cert_path c)
    (tls_key_path c) (jwt_audience c) (bind c) (ws_register_timeout_secs c) (registry_url c)
    (marketplace_public_key c) (registry_cache_ttl_secs c) (tmp_dir c) (cfg_action_timeout_ms c)
    (restart_backoff_base_ms c) (restart_backoff_max_ms c) (default_grace_seconds c)
    (event_max_retries c) (event_retention_secs c) (router_channel_capacity c)
    (fragment_timeout_secs c) (cfg_max_reassembly_streams c) (cfg_max_conn_errors c)
    (cfg_max_tracked_error_conns c) (ws_handshake_timeout_secs c) (max_ws_connections c)
    (max_archive_bytes c) (max_extracted_bytes c) (max_archive_entries c) (config_file c).

(** ** Loading *)

(** [if config.x == 0 { config.x = d }] *)
Definition clamp_zero (d n : Z) : Z := if n =? 0 then d else n.

Definition clamp_invalid_numerics (c : Config) : Config :=
  mkCfg
    (port c) (log_level c) (pid_file c) (log_file c) (cfg_data_dir c) (cfg_socket_path c)
    (jwt_secret c) (allow_no_auth c) (role c) (bridge c) (cfg_device_id c) (plugins c) (plugins_dir c)
    (clamp_zero default_watchdog_interval (watchdog_interval_secs c))
    (clamp_zero default_watchdog_timeout (watchdog_timeout_secs c)) (log_buffer_lines c)
    (clamp_zero default_max_connections (max_connections c)) (api_rate_limit_rps c)
    (api_rate_limit_burst c) (ipc_rate_limit_rps c) (action_caller_rate_limit_rps c)
    (cfg_action_caller_max_concurrent c) (cfg_session_idle_timeout_secs c) (prune_interval_secs c)
    (tls c) (tls_cert_path c) (tls_key_path c) (jwt_audience c) (bind c) (ws_register_timeout_secs c)
    (registry_url c) (marketplace_public_key c) (registry_cache_ttl_secs c) (tmp_dir c)
    (cfg_action_timeout_ms c) (restart_backoff_base_ms c) (restart_backoff_max_ms c)
    (default_grace_seconds c) (event_max_retries c) (event_retention_secs c)
    (clamp_zero default_router_channel_capacity (router_channel_capacity c)) (fragment_timeout_secs c)
    (cfg_max_reassembly_streams c) (cfg_max_conn_errors c) (cfg_max_tracked_error_conns c)
    (ws_handshake_timeout_secs c) (clamp_zero default_max_ws_connections (max_ws_connections c))
    (clamp_zero default_max_archive_bytes (max_archive_bytes c)) (max_extracted_bytes c)
    (max_archive_entries c) (config_file c).

Definition resolve_plugins_dir (config_path : string) (explicit : option string) : string :=
  match explicit with
  | Some d => d
  | None => match path_parent config_path with
            | Some p => path_join p "plugins.d"
            | None => "plugins.d"
            end
  end.

(** The file system and [serde_yaml]; errors are their texts.  [list_dir]
    is [None] when the path is not a directory. *)
Class ConfigCrates := {
  read_to_string : string -> Result string string;
  list_dir : string -> option (Result string (list string));
  yaml_config : string -> Result string Config;
  yaml_plugin : string -> Result string PluginDef;
}.

(** [path.extension() == "yaml" | "yml"] of a directory entry. *)
Fixpoint after_last_dot (s : string) : option string :=
  match s with
  | EmptyString => None
  | String a s' =>
      match after_last_dot s' with
      | Some e => Some e
      | None => if a ==? "."%char then Some s' else None
      end
  end.

Definition file_name (path : string) : string := default EmptyString (last (path_components path)).

(** The dot of an extension is not the first character of the name. *)
Definition is_yaml (path : string) : bool :=
  match file_name path with
  | EmptyString => false
  | String _ rest =>
      match after_last_dot rest with
      | Some e => (e ==? "yaml") || (e ==? "yml")
      | None => false
      end
  end.

(** The order of [files.sort()] on files of one directory. *)
Definition path_le (a b : string) : Prop := String.leb a b = true.
#[export] Instance path_le_dec a b : Decision (path_le a b) := decide (String.leb a b = true).

Section Load.
Context `{ConfigCrates}.

(** The loop over the drop-in files. *)
Fixpoint merge_files (files : list string) (ps : list PluginDef) : Result string (list PluginDef) :=
  match files with
  | [] => Ok ps
  | file :: files' =>
      content ← read_to_string file;
      match yaml_plugin content with
      | Err e => Err (file +:+ ": " +:+ e)
      | Ok plugin =>
          if existsb (fun p => def_id p ==? def_id plugin) ps
          then Err ("duplicate plugin id '" +:+ def_id plugin +:+ "': defined both in " +:+ file +:+
                    " and in an inline `plugins:` entry or another drop-in file")
          else merge_files files' (ps ++ [plugin])
      end
  end.

Definition merge_plugin_dropins (c : Config) : Result string Config :=
  match plugins_dir c with
  | None => Err "plugins_dir resolved by load_config"
  | Some dir =>
      match list_dir dir with
      | None => Ok c
      | Some (Err e) => Err e
      | Some (Ok names) =>
          let files := merge_sort path_le (filter (fun f => is_yaml f = true) names) in
          ps ← merge_files files (plugins c);
          mret (with_plugins ps c)
      end
  end.

Definition load_config (path : string) : Result string Config :=
  content ← read_to_string path;
  c ← yaml_config content;
  let c := with_source path (resolve_plugins_dir path (plugins_dir c)) c in
  c ← merge_plugin_dropins c;
  mret (clamp_invalid_numerics c).

(** [hostname] is [$HOSTNAME]. *)
Definition resolve_device_id (hostname : option string) (c : Config) : string :=
  match cfg_device_id c with
  | Some d => d
  | None => default "unknown" hostname
  end.

Definition default_tls_dir (private_dir : option string) : option string :=
  (fun d => path_join d "vyn-tls") <$> private_dir.

Definition effective_tls_cert_path (private_dir : option string) (c : Config) : option string :=
  if negb (tls c) then None
  else match tls_cert_path c with
       | Some cert => Some cert
       | None => (fun d => path_join d "cert.pem") <$> default_tls_dir private_dir
       end.

(** ** Properties *)

Lemma merge_files_spec files ps ps' :
  merge_files files ps = Ok ps' ->
  exists added, ps' = ps ++ added /\ length added = length files /\
    Forall2 (fun f d => exists text, read_to_string f = Ok text /\ yaml_plugin text = Ok d) files added /\
    NoDup (map def_id added) /\ (forall d, d ∈ added -> def_id d ∉ map def_id ps).
Proof.
  revert ps. induction files as [|f files IH]; intros ps Hm; simpl in Hm.
  - injection Hm as <-. exists []. rewrite app_nil_r. split_and!; try constructor; set_solver.
  - destruct (read_to_string f) as [text|] eqn:Hr; [|done]. simpl in Hm.
    destruct (yaml_plugin text) as [d|] eqn:Hy; [|done]. destruct (existsb _ ps) eqn:He; [done|].
    assert (def_id d ∉ map def_id ps) as Hd.
    { intros (p & Hp & Hin)%list_elem_of_fmap.
      assert (existsb (fun p => def_id p ==? def_id d) ps = true) as Hc; [|congruence].
      apply (existsb_decide (fun p => def_id p = def_id d)). by exists p. }
    destruct (IH _ Hm) as (added & -> & Hlen & Hall & Hnd & Hfresh).
    exists (d :: added). rewrite <- app_assoc. split_and!; [done|simpl; lia|..].
    + constructor; [by exists text|done].
    + simpl. apply NoDup_cons. split; [|done]. intros (p & Hp & Hin)%list_elem_of_fmap.
      apply (Hfresh p Hin). rewrite map_app, elem_of_app. right. rewrite <- Hp. by left.
    + intros p [->|Hin]%elem_of_cons; [done|]. specialize (Hfresh p Hin). rewrite map_app in Hfresh. set_solver.
Qed.

(** A configuration that loads has no zero among the six clamped settings
    and every other setting as written; its plugins are the inline ones
    followed by one definition per drop-in file in file-name order, where no
    drop-in repeats an id, so that ids are unique whenever the inline list
    has no repetition. *)
Theorem load_config_spec path c :
  load_config path = Ok c ->
  exists text c0 dir added,
    read_to_string path = Ok text /\ yaml_config text = Ok c0 /\
    dir = resolve_plugins_dir path (plugins_dir c0) /\
    c = clamp_invalid_numerics (with_plugins (plugins c0 ++ added) (with_source path dir c0)) /\
    (router_channel_capacity c <> 0 /\ max_connections c <> 0 /\ watchdog_interval_secs c <> 0 /\
     watchdog_timeout_secs c <> 0 /\ max_ws_connections c <> 0 /\ max_archive_bytes c <> 0) /\
    match list_dir dir with
    | Some (Ok names) =>
        Forall2 (fun f d => exists text, read_to_string f = Ok text /\ yaml_plugin text = Ok d)
          (merge_sort path_le (filter (fun f => is_yaml f = true) names)) added
    | _ => added = []
    end /\
    (forall d, d ∈ added -> def_id d ∉ map def_id (plugins c0)) /\
    (NoDup (map def_id (plugins c0)) -> NoDup (map def_id (plugins c))).
Proof.
  unfold load_config. destruct (read_to_string path) as [text|] eqn:Hr; [|done]. simpl.
  destruct (yaml_config text) as [c0|] eqn:Hy; [|done]. simpl.
  set (dir := resolve_plugins_dir path (plugins_dir c0)).
  unfold merge_plugin_dropins. cbn [plugins_dir with_source].
  assert (forall added c1, c1 = with_plugins (plugins c0 ++ added) (with_source path dir c0) ->
    forall c, Ok (clamp_invalid_numerics c1) = Ok c :> Result string Config ->
    NoDup (map def_id added) -> (forall d, d ∈ added -> def_id d ∉ map def_id (plugins c0)) ->
    c = clamp_invalid_numerics (with_plugins (plugins c0 ++ added) (with_source path dir c0)) /\
    (router_channel_capacity c <> 0 /\ max_connections c <> 0 /\ watchdog_interval_secs c <> 0 /\
     watchdog_timeout_secs c <> 0 /\ max_ws_connections c <> 0 /\ max_archive_bytes c <> 0) /\
    (NoDup (map def_id (plugins c0)) -> NoDup (map def_id (plugins c)))) as Hfin.
  { intros added c1 -> c' [= <-] Hnd Hfresh. split_and!; [done|..|].
    1-6: cbn; unfold clamp_zero; case_match; [done|]; by apply Z.eqb_neq.
    intros Hnd0. cbn [plugins clamp_invalid_numerics with_plugins]. rewrite map_app. apply NoDup_app.
    split_and!; [done| |done]. intros i Hi (d & -> & Hd)%list_elem_of_fmap. by apply (Hfresh d Hd). }
  assert (forall c1, c1 = with_source path dir c0 -> with_plugins (plugins c0 ++ []) c1 = c1) as Hnil.
  { intros c1 ->. rewrite app_nil_r. by destruct c0. }
  destruct (list_dir dir) as [[names|e]|] eqn:Hl; simpl; [|done|].
  - destruct (merge_files _ (plugins c0)) as [ps|] eqn:Hm; [|done]. simpl. intros Hc.
    destruct (merge_files_spec _ _ _ Hm) as (added & -> & _ & Hall & Hnd & Hfresh).
    destruct (Hfin added _ eq_refl c Hc Hnd Hfresh) as (? & ? & ?).
    exists text, c0, dir, added. rewrite Hl. repeat (split; [done|]). done.
  - intros Hc. destruct (Hfin [] _ (eq_sym (Hnil _ eq_refl)) c Hc) as (? & ? & ?); [constructor|set_solver|].
    exists text, c0, dir, []. rewrite Hl. repeat (split; [done|]). split; [set_solver|done].
Qed.

End Load.

(** ** A configuration with one drop-in *)
Module ConfigRuns.

Definition base : Config := config_default "vyn.pid" "vyn.log" "vyn-data" "vyn.sock" "/tmp".
Definition def (id : string) : PluginDef := mkDef id ("/opt/" +:+ id) "always" 5 [] [] false 0 None None [] None [] [].

#[local] Instance crates : ConfigCrates := {|
  read_to_string p := Ok p;
  list_dir d := if d ==? "/etc/vyn/plugins.d" then Some (Ok ["/etc/vyn/plugins.d/b.yaml"; "/etc/vyn/plugins.d/n.txt"]) else None;
  yaml_config _ := Ok (with_plugins [def "a"] base);
  yaml_plugin t := Ok (def "b");
|}.

Definition loaded : Config :=
  clamp_invalid_numerics (with_plugins [def "a"; def "b"] (with_source "/etc/vyn/config.yaml" "/etc/vyn/plugins.d" base)).

Lemma load_config_witness : map def_id (plugins loaded) = ["a"; "b"] /\ NoDup (map def_id (plugins loaded)).
Proof.
  destruct (load_config_spec "/etc/vyn/config.yaml" loaded) as (t & c0 & dir & added & _ & Hy & _ & _ & _ & _ & _ & Hnd).
  - vm_compute; reflexivity.
  - split; [reflexivity|]. apply Hnd. injection Hy as <-. apply NoDup_singleton.
Defined.

End ConfigRuns.
