(* ===== verification/TopoSort.v ===== *)
(** * The boot order ([topo_sort] of [src/plugins/loader.rs])

    Kahn's algorithm as the loader runs it, with its in-degree map, reverse
    adjacency and work queue.  The [while] loop is a function of fuel;
    [topo_sort] gives it one turn per active plugin and one to stop, which
    is enough whenever plugin ids are unique. *)

From S2P Require Import Prelude Wire Sandbox Config.

Open Scope nat_scope.

(** ** The algorithm *)

(** [filter(|id| !refused.contains(id))] over the configured ids. *)
Definition active_ids (ids : list string) (refused : gset string) : list string :=
  filter (fun id => id ∉ refused) ids.

(** The pairs [(dep, id)] the two nested loops visit, in their order. *)
Definition edges_of (active : list string) (deps : gmap string (list string)) (refused : gset string)
    : list (string * string) :=
  concat (map (fun id => map (fun dep => (dep, id))
                           (filter (fun dep => dep ∉ refused) (default [] (deps !! id)))) active).

(** [*in_degree.entry(id).or_default() += 1] *)
Definition count_in (m : gmap string nat) (e : string * string) : gmap string nat :=
  <[e.2 := S (default 0 (m !! e.2))]> m.

Definition in_degrees (active : list string) (edges : list (string * string)) : gmap string nat :=
  foldl count_in (foldl (fun m id => <[id := 0]> m) ∅ active) edges.

(** [rev.entry(dep).or_default().push(id)] *)
Definition push_rev (m : gmap string (list string)) (e : string * string) : gmap string (list string) :=
  <[e.1 := default [] (m !! e.1) ++ [e.2]]> m.

Definition reverse_deps (edges : list (string * string)) : gmap string (list string) := foldl push_rev ∅ edges.

(** The loop over the dependants of a finished node: what it pushes. *)
Fixpoint release (dependants : list string) (m : gmap string nat) : list string * gmap string nat :=
  match dependants with
  | [] => ([], m)
  | d :: ds =>
      let cnt := default 0 (m !! d) in
      let cnt := if 0 <? cnt then cnt - 1 else cnt in
      let '(pushed, m') := release ds (<[d := cnt]> m) in
      (if cnt =? 0 then d :: pushed else pushed, m')
  end.

(** [while let Some(id) = queue.pop_front()] *)
Fixpoint kahn (fuel : nat) (rev : gmap string (list string)) (queue : list string) (m : gmap string nat)
    (order : list string) : option (list string) :=
  match fuel with
  | 0 => None
  | S fuel =>
      match queue with
      | [] => Some order
      | id :: queue =>
          let '(pushed, m) := release (default [] (rev !! id)) m in
          kahn fuel rev (queue ++ pushed) m (order ++ [id])
      end
  end.

Definition topo_sort_fuel (fuel : nat) (ids : list string) (deps : gmap string (list string))
    (refused : gset string) : option (Result (list string) (list string)) :=
  let active := active_ids ids refused in
  let edges := edges_of active deps refused in
  let m := in_degrees active edges in
  let queue := filter (fun id => default 0 (m !! id) = 0) active in
  order ← kahn fuel (reverse_deps edges) queue m [];
  Some (if length order <? length active then Err (filter (fun id => id ∉ order) active) else Ok order).

Definition topo_sort (ids : list string) (deps : gmap string (list string)) (refused : gset string)
    : option (Result (list string) (list string)) :=
  topo_sort_fuel (S (length (active_ids ids refused))) ids deps refused.

(** ** Counting *)

Definition count (x : string) (l : list string) : nat := length (filter (fun y => y = x) l).

Lemma count_cons x y l : count x (y :: l) = (if decide (y = x) then S (count x l) else count x l).
Proof.
  unfold count. case_decide; [by rewrite filter_cons_True|by rewrite filter_cons_False].
Qed.

Lemma count_app x l1 l2 : count x (l1 ++ l2) = count x l1 + count x l2.
Proof. unfold count. by rewrite filter_app, length_app. Qed.

Lemma count_elem x l : x ∈ l <-> count x l <> 0.
Proof.
  induction l as [|y l IH]; [set_solver|]. rewrite count_cons, elem_of_cons, IH.
  case_decide; subst; [split; [done|by left]|split; [by intros [?|?]|by right]].
Qed.

(** The requirements of a plugin that count. *)
Section Graph.
Context (ids : list string) (deps : gmap string (list string)) (refused : gset string).

Abbreviation active := (active_ids ids refused).
Definition reqs (id : string) : list string :=
  filter (fun dep => dep ∉ refused) (default [] (deps !! id)).
Abbreviation edges := (edges_of active deps refused).

Lemma in_degrees_spec l es x :
  (forall e, e ∈ es -> e.2 ∈ l) ->
  in_degrees l es !! x = (if decide (x ∈ l) then Some (count x es.*2) else None).
Proof.
  intros Hes. unfold in_degrees.
  assert (foldl (fun (m : gmap string nat) id => <[id := 0]> m) ∅ l !! x = if decide (x ∈ l) then Some 0 else None) as H0.
  { assert (forall m : gmap string nat, foldl (fun m id => <[id := 0]> m) m l !! x =
              if decide (x ∈ l) then Some 0 else m !! x) as Hm; [|by rewrite Hm, lookup_empty].
    clear Hes. induction l as [|y l IH]; intros m; cbn [foldl]; [by rewrite decide_False by apply not_elem_of_nil|].
    rewrite IH. destruct (decide (x ∈ l)); [by rewrite decide_True by by right|].
    destruct (decide (y = x)) as [->|]; [by rewrite lookup_insert_eq, decide_True by left|].
    rewrite lookup_insert_ne, decide_False by set_solver. done. }
  revert H0. generalize (foldl (fun (m : gmap string nat) id => <[id := 0]> m) ∅ l). intros m0 H0.
  assert (forall n m, m !! x = (if decide (x ∈ l) then Some n else None) ->
            foldl count_in m es !! x = if decide (x ∈ l) then Some (n + count x es.*2) else None) as Hgen.
  { clear m0 H0. induction es as [|[d i] es IH]; intros n m Hm; simpl.
    - rewrite Hm. unfold count. simpl. by rewrite Nat.add_0_r.
    - rewrite count_cons. destruct (decide (i = x)) as [->|Hne].
      + rewrite (IH ltac:(set_solver) (S n)); [by rewrite Nat.add_succ_r|].
        unfold count_in. simpl. rewrite lookup_insert_eq, Hm.
        rewrite !decide_True by (apply (Hes (d, x)); by left). done.
      + apply IH; [set_solver|]. unfold count_in. simpl. by rewrite lookup_insert_ne. }
  by apply (Hgen 0).
Qed.

Lemma reverse_deps_spec es d : default [] (reverse_deps es !! d) = (filter (fun e => e.1 = d) es).*2.
Proof.
  unfold reverse_deps.
  assert (forall m : gmap string (list string),
            default [] (foldl push_rev m es !! d) = default [] (m !! d) ++ (filter (fun e => e.1 = d) es).*2) as Hm.
  { induction es as [|[k i] es IH]; intros m; cbn [foldl]; [by rewrite app_nil_r|].
    rewrite IH. unfold push_rev. cbn [fst snd]. destruct (decide (k = d)) as [->|Hne].
    - rewrite lookup_insert_eq, filter_cons_True by done. simpl. by rewrite <- app_assoc.
    - by rewrite lookup_insert_ne, filter_cons_False by done. }
  rewrite Hm, lookup_empty. done.
Qed.

Lemma edges_cons id l :
  edges_of (id :: l) deps refused = map (fun dep => (dep, id)) (reqs id) ++ edges_of l deps refused.
Proof. done. Qed.

Lemma edges_second e l : e ∈ edges_of l deps refused -> e.2 ∈ l.
Proof.
  induction l as [|id l IH]; [set_solver|]. rewrite edges_cons, elem_of_app.
  intros [(d & -> & _)%list_elem_of_fmap|He]; [left|right; by apply IH].
Qed.

(** Each edge occurs as often as the requirement it stands for. *)
Lemma count_dependants l x d :
  NoDup l ->
  count x (filter (fun e => e.1 = d) (edges_of l deps refused)).*2 =
    (if decide (x ∈ l) then count d (reqs x) else 0) /\
  count x (edges_of l deps refused).*2 = (if decide (x ∈ l) then length (reqs x) else 0).
Proof.
  induction l as [|id l IH]; intros Hnd.
  - by rewrite !decide_False by apply not_elem_of_nil.
  - apply NoDup_cons in Hnd as [Hid Hnd]. destruct (IH Hnd) as [IH1 IH2]. rewrite edges_cons.
    rewrite filter_app, !fmap_app, !count_app, IH1, IH2.
    assert (forall rs, count x (filter (fun e => e.1 = d) (map (fun dep => (dep, id)) rs)).*2 =
              (if decide (id = x) then count d rs else 0) /\
              count x (map (fun dep : string => (dep, id)) rs).*2 = (if decide (id = x) then length rs else 0)) as Hr.
    { induction rs as [|r rs [IHa IHb]]; [by destruct (decide (id = x))|]. cbn [map]. split.
      - destruct (decide (r = d)) as [->|Hr].
        + rewrite filter_cons_True by done. cbn [fmap list_fmap snd]. rewrite !count_cons, IHa.
          destruct (decide (id = x)); by rewrite ?decide_True.
        + rewrite filter_cons_False, count_cons, (decide_False (P := r = d)) by done. done.
      - cbn [fmap list_fmap snd]. rewrite count_cons, IHb. by destruct (decide (id = x)). }
    destruct (Hr (reqs id)) as [-> ->].
    destruct (decide (id = x)) as [->|Hne].
    + rewrite !(decide_False (P := x ∈ l)), !(decide_True (P := x ∈ x :: l)) by (done || left).
      by rewrite !Nat.add_0_r.
    + rewrite !Nat.add_0_l. destruct (decide (x ∈ l)).
      * by rewrite !(decide_True (P := x ∈ id :: l)) by by right.
      * by rewrite !(decide_False (P := x ∈ id :: l)) by set_solver.
Qed.

Lemma release_spec ds m :
  (forall x, count x ds <= default 0 (m !! x)) ->
  let '(pushed, m') := release ds m in
  (forall x, default 0 (m' !! x) = default 0 (m !! x) - count x ds) /\ NoDup pushed /\
  (forall x, x ∈ pushed <-> x ∈ ds /\ default 0 (m !! x) = count x ds).
Proof.
  revert m. induction ds as [|d ds IH]; intros m Hm; cbn [release].
  - split_and!; [intros x; unfold count; simpl; lia|constructor|set_solver].
  - pose proof (Hm d) as Hd. rewrite count_cons, decide_True in Hd by done.
    destruct (Nat.ltb_spec 0 (default 0 (m !! d))); [|lia].
    set (c := default 0 (m !! d) - 1) in *.
    specialize (IH (<[d := c]> m)). destruct (release ds (<[d := c]> m)) as [pushed m'].
    destruct IH as (Hv & Hnd & Hin).
    { intros x. specialize (Hm x). rewrite count_cons in Hm. destruct (decide (d = x)) as [->|].
      - rewrite lookup_insert_eq. unfold c. simpl. lia.
      - by rewrite lookup_insert_ne. }
    assert (forall x, default 0 (<[d := c]> m !! x) = if decide (d = x) then c else default 0 (m !! x)) as Hl.
    { intros x. case_decide; subst; [by rewrite lookup_insert_eq|by rewrite lookup_insert_ne]. }
    assert (d ∈ pushed <-> d ∈ ds /\ c = count d ds) as Hind by (rewrite Hin, Hl, decide_True; done).
    split_and!.
    + intros x. rewrite Hv, Hl, count_cons. case_decide; subst; unfold c; lia.
    + destruct (Nat.eqb_spec c 0) as [E|]; [|done]. apply NoDup_cons. split; [|done].
      rewrite Hind, E. intros [Hc%count_elem Hz]. by rewrite <- Hz in Hc.
    + intros x. rewrite count_cons. destruct (decide (d = x)) as [<-|Hne].
      * assert (default 0 (m !! d) = S (count d ds) <-> c = count d ds) as -> by (unfold c; lia).
        destruct (Nat.eqb_spec c 0) as [E|E].
        -- rewrite elem_of_cons. split; [|by left]. intros _. split; [by left|]. unfold c in *. lia.
        -- rewrite Hind. split; [by intros [? ?]; split; [right|]|]. intros [_ Hc]. split; [|done].
           apply count_elem. lia.
      * assert (x ∈ pushed <-> x ∈ ds /\ default 0 (m !! x) = count x ds) as Hx
          by (rewrite Hin, Hl, decide_False; done).
        destruct (c =? 0); rewrite ?elem_of_cons, Hx; naive_solver.
Qed.

(** ** The loop invariant *)

(** Requirements of [x] that are not in the order yet. *)
Definition missing (x : string) (order : list string) : nat :=
  length (filter (fun d => d ∉ order) (reqs x)).

Record kinv (order queue : list string) (m : gmap string nat) : Prop := mkKinv {
  ki_nodup : NoDup (order ++ queue);
  ki_ready : forall x, x ∈ order ++ queue <-> x ∈ active /\ missing x order = 0;
  ki_degree : forall x, x ∈ active -> default 0 (m !! x) = missing x order;
  ki_before : forall l1 x l2, order = l1 ++ x :: l2 -> forall d, d ∈ reqs x -> d ∈ l1;
}.

Lemma missing_snoc x order id :
  id ∉ order -> missing x (order ++ [id]) + count id (reqs x) = missing x order.
Proof.
  intros Hid. unfold missing, count. induction (reqs x) as [|r rs IH]; [done|].
  destruct (decide (r = id)) as [->|Hne].
  - rewrite (filter_cons_False (fun d => d ∉ order ++ [id])), (filter_cons_True (fun y => y = id)),
      (filter_cons_True (fun d => d ∉ order)) by set_solver. simpl. lia.
  - rewrite (filter_cons_False (fun y => y = id)) by done.
    destruct (decide (r ∈ order)).
    + by rewrite (filter_cons_False (fun d => d ∉ order ++ [id])), (filter_cons_False (fun d => d ∉ order)) by set_solver.
    + rewrite (filter_cons_True (fun d => d ∉ order ++ [id])), (filter_cons_True (fun d => d ∉ order)) by set_solver.
      simpl. lia.
Qed.

Lemma missing_zero x order : missing x order = 0 <-> forall d, d ∈ reqs x -> d ∈ order.
Proof.
  unfold missing. rewrite length_zero_iff_nil. split.
  - intros Hf d Hd. destruct (decide (d ∈ order)) as [|Hn]; [done|]. exfalso.
    assert (d ∈ filter (fun d => d ∉ order) (reqs x)) as Hin by by apply list_elem_of_filter.
    rewrite Hf in Hin. by apply elem_of_nil in Hin.
  - intros Hall. induction (reqs x) as [|r rs IH]; [done|].
    rewrite filter_cons_False; [apply IH; set_solver|]. intros Hn. apply Hn, Hall. left.
Qed.

Lemma kahn_start :
  NoDup active ->
  kinv [] (filter (fun id => default 0 (in_degrees active edges !! id) = 0) active) (in_degrees active edges).
Proof.
  intros Hnd.
  assert (forall x, x ∈ active -> default 0 (in_degrees active edges !! x) = missing x []) as Hdeg.
  { intros x Hx. rewrite in_degrees_spec by (intros e He; by eapply edges_second). rewrite decide_True by done. simpl.
    rewrite (proj2 (count_dependants active x EmptyString Hnd)), decide_True by done.
    unfold missing. induction (reqs x) as [|r rs IH]; [done|].
    rewrite filter_cons_True by apply not_elem_of_nil. simpl. by rewrite IH. }
  split; simpl.
  - by apply NoDup_filter.
  - intros x. rewrite list_elem_of_filter. split; [intros [Hz Hx]|intros [Hx Hz]]; rewrite Hdeg in * by done; done.
  - done.
  - intros l1 x l2 Hl. by destruct l1.
Qed.

Lemma kahn_step order id queue m :
  NoDup active -> kinv order (id :: queue) m ->
  let '(pushed, m') := release (default [] (reverse_deps edges !! id)) m in
  kinv (order ++ [id]) (queue ++ pushed) m'.
Proof.
  intros Hnd [Hn Hr Hd Hb]. rewrite reverse_deps_spec.
  set (ds := (filter (fun e => e.1 = id) edges).*2).
  assert (forall x, count x ds = if decide (x ∈ active) then count id (reqs x) else 0) as Hc
    by (intros x; apply (count_dependants active x id Hnd)).
  apply NoDup_app in Hn as (Hno & Hdis & Hnq). apply NoDup_cons in Hnq as [Hiq Hnq].
  assert (id ∉ order) as Hid by (intros Hin; apply (Hdis id Hin); left).
  pose proof (release_spec ds m) as Hrel. destruct (release ds m) as [pushed m'].
  destruct Hrel as (Hv & Hnp & Hin).
  { intros x. rewrite Hc. destruct (decide (x ∈ active)) as [Hx|]; [|lia].
    rewrite Hd by done. pose proof (missing_snoc x order id Hid). lia. }
  assert (forall x, x ∈ pushed <-> x ∈ active /\ missing x (order ++ [id]) = 0 /\ missing x order <> 0) as Hp.
  { intros x. rewrite Hin, count_elem, Hc. destruct (decide (x ∈ active)) as [Hx|]; [|naive_solver].
    rewrite Hd by done. pose proof (missing_snoc x order id Hid). naive_solver lia. }
  assert (forall x, x ∈ active -> missing x (order ++ [id]) = 0 \/ missing x order <> 0) as Hmono.
  { intros x Hx. pose proof (missing_snoc x order id Hid). lia. }
  split.
  - rewrite <- app_assoc. simpl. apply NoDup_app. split_and!; [done| |].
    + intros x Hx. rewrite elem_of_cons, elem_of_app. intros [->|[Hq|Hq]]; [done|by apply (Hdis x Hx); right|].
      apply Hp in Hq as (_ & _ & Hm). apply Hm. apply (proj1 (Hr x)). apply elem_of_app. by left.
    + apply NoDup_cons. split.
      * rewrite elem_of_app. intros [?|(_ & _ & Hm)%Hp]; [done|]. apply Hm, (proj1 (Hr id)).
        apply elem_of_app. right. by left.
      * apply NoDup_app. split_and!; [done| |done]. intros x Hq (_ & _ & Hm)%Hp.
        apply Hm, (proj1 (Hr x)). apply elem_of_app. right. by right.
  - intros x. rewrite <- app_assoc. simpl. rewrite elem_of_app, elem_of_cons, elem_of_app, Hp.
    assert (x ∈ order \/ x = id \/ x ∈ queue <-> x ∈ active /\ missing x order = 0) as Hrx.
    { rewrite <- Hr, elem_of_app, elem_of_cons. done. }
    pose proof (missing_snoc x order id Hid). destruct (decide (missing x order = 0)); naive_solver lia.
  - intros x Hx. rewrite Hv, Hd, Hc, decide_True by done. pose proof (missing_snoc x order id Hid). lia.
  - intros l1 x l2 Hl d Hdx. destruct l2 as [|y l2 _] using rev_ind.
    + apply app_inj_tail in Hl as [<- <-]. revert d Hdx. apply missing_zero, Hr. apply elem_of_app. right. by left.
    + rewrite app_comm_cons, app_assoc in Hl. apply app_inj_tail in Hl as [-> ->].
      by eapply (Hb l1 x l2).
Qed.

Lemma kahn_total fuel order queue m :
  NoDup active -> kinv order queue m -> length active < fuel + length order ->
  exists order' m', kahn fuel (reverse_deps edges) queue m order = Some order' /\ kinv order' [] m'.
Proof.
  intros Hnd. revert order queue m. induction fuel as [|fuel IH]; intros order queue m Hk Hf.
  - exfalso. assert (length order <= length active); [|lia].
    destruct Hk as [Hn Hr _ _]. apply NoDup_app in Hn as (Hno & _ & _).
    apply submseteq_length, NoDup_submseteq; [done|]. intros x Hx. apply Hr, elem_of_app. by left.
  - cbn [kahn]. destruct queue as [|id queue]; [by exists order, m|].
    pose proof (kahn_step order id queue m Hnd Hk) as Hs.
    destruct (release _ m) as [pushed m']. apply (IH _ _ _ Hs). rewrite length_app. simpl. lia.
Qed.

End Graph.

(** ** Properties *)

(** The dependency relation among the plugins that take part. *)
Definition requires_rel ids deps refused (x d : string) : Prop :=
  x ∈ active_ids ids refused /\ d ∈ reqs deps refused x.

Lemma topo_sort_result ids deps refused :
  NoDup ids ->
  exists order, topo_sort ids deps refused =
      Some (if length order <? length (active_ids ids refused)
            then Err (filter (fun id => id ∉ order) (active_ids ids refused)) else Ok order) /\
    NoDup order /\
    (forall x, x ∈ order <-> x ∈ active_ids ids refused /\ forall d, d ∈ reqs deps refused x -> d ∈ order) /\
    (forall l1 x l2, order = l1 ++ x :: l2 -> forall d, d ∈ reqs deps refused x -> d ∈ l1).
Proof.
  intros Hids. assert (NoDup (active_ids ids refused)) as Hnd by by apply NoDup_filter.
  destruct (kahn_total ids deps refused (S (length (active_ids ids refused))) [] _ _ Hnd
              (kahn_start ids deps refused Hnd)) as (order & m & Hk & [Hn Hr _ Hb]); [simpl; lia|].
  rewrite app_nil_r in Hn. setoid_rewrite app_nil_r in Hr. exists order. split_and!; [|done| |done].
  - unfold topo_sort, topo_sort_fuel. cbv zeta. by rewrite Hk.
  - intros x. rewrite Hr. by rewrite missing_zero.
Qed.

(** The sort ends, with what each result says about the requirements. *)
Lemma topo_sort_sound ids deps refused :
  NoDup ids ->
  let active := active_ids ids refused in
  exists r, topo_sort ids deps refused = Some r /\
  match r with
  | Ok order =>
      order ≡ₚ active /\
      (forall l1 x l2, order = l1 ++ x :: l2 -> forall d, d ∈ reqs deps refused x -> d ∈ l1)
  | Err cycle =>
      cycle <> [] /\
      (forall x, x ∈ cycle -> x ∈ active /\ exists d, d ∈ reqs deps refused x /\ (d ∈ cycle \/ d ∉ active)) /\
      (forall x d, x ∈ active -> x ∉ cycle -> d ∈ reqs deps refused x -> d ∈ active /\ d ∉ cycle)
  end.
Proof.
  intros Hids active. destruct (topo_sort_result ids deps refused Hids) as (order & -> & Hn & Hr & Hb).
  assert (NoDup active) as Hnd by by apply NoDup_filter. fold active in Hr.
  assert (order ⊆+ active) as Hsub by (apply NoDup_submseteq; [done|]; intros x Hx; by apply Hr).
  eexists. split; [done|]. fold active. destruct (Nat.ltb_spec (length order) (length active)) as [Hlt|Hge].
  - assert (forall x, x ∈ filter (fun id => id ∉ order) active <-> x ∈ active /\ x ∉ order) as Hc
      by (intros x; rewrite list_elem_of_filter; naive_solver).
    split_and!.
    + intros Hnil. assert (active ⊆+ order) as Hs.
      { apply NoDup_submseteq; [done|]. intros x Hx. destruct (decide (x ∈ order)) as [|Hno]; [done|].
        assert (x ∈ filter (fun id => id ∉ order) active) as Hin by by apply Hc.
        rewrite Hnil in Hin. by apply elem_of_nil in Hin. }
      apply submseteq_length in Hs. lia.
    + intros x [Hx Hno]%Hc. split; [done|].
      assert (exists d, d ∈ reqs deps refused x /\ d ∉ order) as (d & Hd & Hdo).
      { destruct (decide (Exists (fun d => d ∉ order) (reqs deps refused x))) as [He|He];
          [by apply Exists_exists in He|]. exfalso. apply Hno, Hr. split; [done|]. intros d Hd.
        destruct (decide (d ∈ order)) as [|Hdo]; [done|]. exfalso. apply He, Exists_exists. by exists d. }
      exists d. split; [done|]. destruct (decide (d ∈ active)); [left; by apply Hc|by right].
    + intros x d Hx Hxc Hd. assert (x ∈ order) as Hxo by (destruct (decide (x ∈ order)); [done|]; exfalso; by apply Hxc, Hc).
      apply Hr in Hxo as [_ Hall]. specialize (Hall d Hd). split; [by apply Hr|]. rewrite Hc. naive_solver.
  - split; [|done]. by apply submseteq_length_Permutation.
Qed.

(** When ids are unique and every requirement of an active plugin is
    active, the sort fails exactly when the requirements contain a cycle,
    and every plugin on a cycle is reported. *)
Theorem topo_sort_detects_cycles ids deps refused :
  NoDup ids ->
  (forall x d, requires_rel ids deps refused x d -> d ∈ active_ids ids refused) ->
  ((exists order, topo_sort ids deps refused = Some (Ok order)) <->
     forall x, ~ tc (requires_rel ids deps refused) x x) /\
  (forall cycle x, topo_sort ids deps refused = Some (Err cycle) ->
     tc (requires_rel ids deps refused) x x -> x ∈ cycle).
Proof.
  intros Hids Hcl. destruct (topo_sort_result ids deps refused Hids) as (order & Hres & Hn & Hr & Hb).
  assert (forall x, x ∈ order -> ~ tc (requires_rel ids deps refused) x x) as Hacyc.
  { assert (forall l1 x l2 y, order = l1 ++ x :: l2 -> tc (requires_rel ids deps refused) x y -> y ∈ l1) as Hpre.
    { intros l1 x l2 y Hl Htc. revert l1 l2 Hl. induction Htc as [x y [_ Hxy]|x y z [_ Hxy] Htc IH];
        intros l1 l2 Hl; [by eapply Hb|].
      assert (y ∈ l1) as Hy by by eapply Hb. apply list_elem_of_split in Hy as (k1 & k2 & ->).
      rewrite <- app_assoc in Hl. simpl in Hl. specialize (IH k1 _ Hl). set_solver. }
    intros x Hx Htc. apply list_elem_of_split in Hx as (l1 & l2 & Hl).
    pose proof (Hpre l1 x l2 x Hl Htc) as Hin. rewrite Hl in Hn.
    apply NoDup_app in Hn as (_ & Hdis & _). apply (Hdis x Hin). left. }
  assert (NoDup (active_ids ids refused)) as Hnd by by apply NoDup_filter.
  rewrite Hres. split; [split|].
  - intros [o Ho] x Htc. destruct (Nat.ltb_spec (length order) (length (active_ids ids refused))); [done|].
    assert (active_ids ids refused ≡ₚ order) as Hp.
    { symmetry. apply submseteq_length_Permutation; [|done].
      apply NoDup_submseteq; [done|]. intros y Hy. by apply Hr. }
    apply (Hacyc x); [|done]. rewrite <- Hp. by inversion Htc as [? ? [? _]|? ? ? [? _]].
  - intros Hno. destruct (Nat.ltb_spec (length order) (length (active_ids ids refused))) as [Hlt|]; [|by exists order].
    exfalso. destruct (topo_sort_sound ids deps refused Hids) as (r & Hr2 & Hspec).
    rewrite Hres in Hr2. destruct (Nat.ltb_spec (length order) (length (active_ids ids refused))); [|lia].
    injection Hr2 as <-. set (cycle := filter _ _) in *. destruct Hspec as (Hne & Hcyc & _).
    destruct cycle as [|x0 l] eqn:Hcy; [done|]. rewrite <- Hcy in *.
    assert (x0 ∈ cycle) as Hx0 by (rewrite Hcy; left).
    assert (sn (fun x d => x ∈ cycle /\ d ∈ cycle /\ requires_rel ids deps refused x d) x0) as Hsn.
    { assert (forall a b, tc (fun x d => x ∈ cycle /\ d ∈ cycle /\ requires_rel ids deps refused x d) a b ->
                tc (requires_rel ids deps refused) a b /\ b ∈ cycle) as Htc.
      { induction 1 as [a b (_ & Hb' & Hab)|a b c (_ & _ & Hab) _ [IH Hc]];
          (split; [|done]); [by apply tc_once|by eapply tc_l]. }
      apply tc_finite_sn.
      - intros x Hx. by apply (Hno x), Htc.
      - exists cycle. intros y Hy. by apply (Htc x0 y). }
    clear Hcy. induction Hsn as [x _ IH]. destruct (Hcyc x Hx0) as (Hx & d & Hd & Hdc).
    assert (requires_rel ids deps refused x d) as Hrel by done.
    destruct Hdc as [Hdc|Hdc]; [|by apply Hdc, (Hcl x d)]. by apply (IH d).
  - intros cycle x Hc Htc. destruct (Nat.ltb_spec (length order) (length (active_ids ids refused))); [|done].
    injection Hc as <-. apply list_elem_of_filter. split; [by intros Hx; apply (Hacyc x)|].
    by inversion Htc as [? ? [? _]|? ? ? [? _]].
Qed.

(** C22: with unique plugin ids the sort always terminates.  If it succeeds the
    order is a permutation of the active plugins in which every plugin comes
    after all its requirements.  If it fails, every reported plugin has a
    requirement that is itself reported or not active, and the plugins not
    reported have none such.  When every requirement of an active plugin is
    active, it succeeds exactly when the requirements have no cycle, and
    reports every plugin on a cycle otherwise. *)
Theorem topo_sort_correct ids deps refused :
  NoDup ids ->
  let active := active_ids ids refused in
  exists r, topo_sort ids deps refused = Some r /\
  match r with
  | Ok order =>
      order ≡ₚ active /\
      (forall l1 x l2, order = l1 ++ x :: l2 -> forall d, d ∈ reqs deps refused x -> d ∈ l1)
  | Err cycle =>
      cycle <> [] /\
      (forall x, x ∈ cycle -> x ∈ active /\ exists d, d ∈ reqs deps refused x /\ (d ∈ cycle \/ d ∉ active)) /\
      (forall x d, x ∈ active -> x ∉ cycle -> d ∈ reqs deps refused x -> d ∈ active /\ d ∉ cycle)
  end /\
  ((forall x d, requires_rel ids deps refused x d -> d ∈ active) ->
   (is_ok r = true <-> forall x, ~ tc (requires_rel ids deps refused) x x) /\
   (forall cycle x, r = Err cycle -> tc (requires_rel ids deps refused) x x -> x ∈ cycle)).
Proof.
  intros Hids active. destruct (topo_sort_sound ids deps refused Hids) as (r & Hr & Hspec).
  exists r. split_and!; [done|exact Hspec|]. intros Hcl.
  destruct (topo_sort_detects_cycles ids deps refused Hids Hcl) as [Hiff Hon]. split.
  - rewrite <- Hiff, Hr. destruct r as [order|cycle]; [|by split; [|intros [? [=]]]]. split; [by exists order|done].
  - intros cycle x ->. by apply Hon.
Qed.

(** ** Repeated ids *)
Module TopoRuns.

Definition deps1 : gmap string (list string) := {["app" := ["db"; "net"]; "db" := ["net"]]}.

Lemma topo_sort_witness :
  topo_sort ["app"; "db"; "net"] deps1 ∅ = Some (Ok ["net"; "db"; "app"]) /\
  exists r, topo_sort ["app"; "db"; "net"] deps1 ∅ = Some r.
Proof.
  split; [vm_compute; reflexivity|].
  destruct (topo_sort_correct ["app"; "db"; "net"] deps1 ∅) as (r & Hr & _).
  - repeat (constructor; [set_solver|]). constructor.
  - by exists r.
Defined.

Lemma detects_witness : exists order, topo_sort ["net"] ∅ ∅ = Some (Ok order).
Proof.
  apply (topo_sort_detects_cycles ["net"] ∅ ∅).
  - apply NoDup_singleton.
  - intros x d [_ Hd]. unfold reqs in Hd. rewrite lookup_empty in Hd. simpl in Hd. by apply elem_of_nil in Hd.
  - intros x Htc. inversion Htc as [? ? [_ Hd]|? ? ? [_ Hd]]; subst; unfold reqs in Hd;
      rewrite lookup_empty in Hd; simpl in Hd; by apply elem_of_nil in Hd.
Defined.

(** [b] and [c] require each other; [a] is listed twice. *)
Definition ids2 : list string := ["a"; "a"; "b"; "c"].
Definition deps2 : gmap string (list string) := {["b" := ["a"; "c"]; "c" := ["b"]]}.

(** Uniqueness of ids is needed for termination: a configuration that lists
    an id twice next to a requirement cycle makes the loop run forever. *)
Theorem topo_sort_duplicate_diverges fuel : topo_sort_fuel fuel ids2 deps2 ∅ = None.
Proof.
  unfold topo_sort_fuel. cbv zeta.
  set (rev := reverse_deps _). set (m := in_degrees _ _).
  set (m3 := (release ["b"] (release ["c"] (release ["b"] (release ["b"] m).2).2).2).2).
  assert (filter (fun id => default 0 (m !! id) = 0) (active_ids ids2 ∅) = ["a"; "a"]) as Hq by (vm_compute; reflexivity).
  assert (forall f order, kahn f rev ["b"] m3 order = None /\ kahn f rev ["c"] m3 order = None) as Hloop.
  { induction f as [|f IH]; intros order; [done|].
    assert (release (default [] (rev !! "b")) m3 = (["c"], m3)) as Hb by (vm_compute; reflexivity).
    assert (release (default [] (rev !! "c")) m3 = (["b"], m3)) as Hc by (vm_compute; reflexivity).
    cbn [kahn]. rewrite Hb, Hc. split; apply IH. }
  assert (forall f, kahn f rev ["a"; "a"] m [] = None) as Hall; [|by rewrite Hq, Hall].
  intros f. destruct f as [|[|[|[|f]]]]; [vm_compute; reflexivity..|].
  transitivity (kahn f rev ["b"] m3 ["a"; "a"; "b"; "c"]); [|apply Hloop].
  assert (release (default [] (rev !! "a")) m = ([], (release ["b"] m).2)) as E1 by (vm_compute; reflexivity).
  cbn [kahn]. rewrite E1. cbn [app].
  set (m1 := (release ["b"] m).2) in *.
  assert (release (default [] (rev !! "a")) m1 = (["b"], (release ["b"] m1).2)) as E2 by (vm_compute; reflexivity).
  rewrite E2. cbn [app]. set (m2 := (release ["b"] m1).2) in *.
  assert (release (default [] (rev !! "b")) m2 = (["c"], (release ["c"] m2).2)) as E3 by (vm_compute; reflexivity).
  rewrite E3. cbn [app]. set (m4 := (release ["c"] m2).2) in *.
  assert (release (default [] (rev !! "c")) m4 = (["b"], m3)) as E4 by (vm_compute; reflexivity).
  by rewrite E4.
Qed.

End TopoRuns.
