(* ===== verification/Loader.v ===== *)
(** * The plugin loader ([src/plugins/loader.rs])

    From the configured definitions to running plugins: manifest checks,
    dependency order, spawns, boot-time subscriptions and action
    requirements.  Manifest parsing belongs to [vynkor-wire]. *)

From S2P Require Import Prelude Wire Toy Text Channel Registry Permissions DeviceStore EventStore World EventBus Sandbox Config TopoSort Supervisor.

Open Scope Z_scope.

(** ** Manifests *)

Record ManifestAction := mkManifestAction {
  ma_name : string;
  ma_permission : option string;
}.

(** What the loader reads of an [InstallManifest]. *)
Record InstallManifest := mkInstall {
  im_permissions : list string;
  im_requires : list string;
  im_actions : option (list ManifestAction);
  im_events : option (list string);
}.

(** The file system and [vynkor_wire::manifest]; the kernel version and the
    permission resolver [validate_manifest] is given are the same for every
    call. *)
Class ManifestCrate := {
  path_exists : string -> bool;
  validate_manifest : string -> Result WireError InstallManifest;
}.

Definition parse_restart_policy (s : string) : RestartPolicy :=
  if s ==? "always" then Always
  else if s ==? "on-failure" then OnFailure
  else if s ==? "never" then Never
  else OnFailure.

Definition config_from_def (def : PluginDef) : PluginConfig :=
  mkConfig (def_id def) (def_binary def) (def_args def) (def_env def) (parse_restart_policy (def_restart def))
    (def_max_restarts def) (def_sandbox def) (def_grace_seconds def) (def_max_procs def)
    (def_max_vmem_mb def) (default FsFull (def_max_fs_access def ≫= fs_parse))
    (def_readonly_paths def) (def_writable_paths def).

Section Loader.
Context `{HashIter} `{WireCrate} `{Governor} `{ManifestCrate}.

(** The first manifest permission the operator did not grant. *)
Definition ungranted (granted wanted : list string) : option string :=
  head (filter (fun perm => Forall (fun g => normalize_permission g <> normalize_permission perm) granted) wanted).

Definition validate_plugin_def (def : PluginDef) : Result VynkorError (option InstallManifest) :=
  match path_parent (def_binary def) with
  | None => Ok None
  | Some dir =>
      if is_empty dir then Ok None
      else
        let manifest_path := path_join dir "plugin.json" in
        if negb (path_exists manifest_path) then Ok None
        else match validate_manifest manifest_path with
             | Err e => Err (from_wire_error e)
             | Ok m =>
                 match def_permissions def with
                 | [] => Ok (Some m)
                 | granted =>
                     match ungranted granted (im_permissions m) with
                     | Some perm =>
                         Err (EPermissionDenied ("Plugin '" +:+ def_id def +:+ "' requests permission '"
                                                 +:+ perm +:+ "' which is not granted in config"))
                     | None => Ok (Some m)
                     end
                 end
             end
  end.

(** The action requirements of a manifest. *)
Definition manifest_requirements (m : InstallManifest) : gmap string PermissionType :=
  foldl (fun reqs spec =>
           match ma_permission spec ≫= resolve_permission with
           | Some pt => <[ma_name spec := pt]> reqs
           | None => reqs
           end) ∅ (default [] (im_actions m)).

(** ** The plan of a boot *)

(** [manifests.get(id)] and the refusals after validation, then after the
    check for missing requirements. *)
Definition manifests_of (defs : list PluginDef) : gmap string (option InstallManifest) :=
  foldl (fun ms def => match validate_plugin_def def with Ok m => <[def_id def := m]> ms | Err _ => ms end) ∅ defs.

Definition refused_invalid (defs : list PluginDef) : gset string :=
  list_to_set (map def_id (filter (fun def => is_ok (validate_plugin_def def) = false) defs)).

Definition requires_of (defs : list PluginDef) (id : string) : list string :=
  match manifests_of defs !! id with Some (Some m) => im_requires m | _ => [] end.

(** One turn of the loop that fills [deps] and extends [refused]. *)
Definition resolve_one (defs : list PluginDef) (st : gset string * gmap string (list string)) (def : PluginDef)
    : gset string * gmap string (list string) :=
  let '(refused, deps) := st in
  if def_id def ∈? refused then st
  else
    let reqs := requires_of defs (def_id def) in
    if existsb (fun dep => negb (dep ∈? map def_id defs)) reqs
    then ({[def_id def]} ∪ refused, deps)
    else (refused, <[def_id def := reqs]> deps).

Definition resolve_deps (defs : list PluginDef) : gset string * gmap string (list string) :=
  foldl (resolve_one defs) (refused_invalid defs, ∅) defs.

(** The ids to spawn, in order; [None] when the sort does not end. *)
Definition load_plan (defs : list PluginDef) : option (list string) :=
  let '(refused, deps) := resolve_deps defs in
  match topo_sort (map def_id defs) deps refused with
  | None => None
  | Some (Ok order) => Some (filter (fun id => id ∉ refused) order)
  | Some (Err cycle) =>
      let refused := list_to_set cycle ∪ refused in
      Some (filter (fun id => id ∉ refused) (map def_id defs))
  end.

(** ** [load_all] *)

Definition find_def (defs : list PluginDef) (id : string) : option PluginDef :=
  head (filter (fun d => def_id d = id) defs).

(** The requirements set while the manifests are validated. *)
Definition set_requirements_of (def : PluginDef) : K unit :=
  match validate_plugin_def def with
  | Ok (Some m) =>
      let reqs := manifest_requirements m in
      if bool_decide (reqs = ∅) then mret tt
      else modify (upd_registry (set_action_requirements (def_id def) reqs))
  | _ => mret tt
  end.

(** One spawn of the boot; [spawned] is what the operating system answers. *)
Definition load_one (defs : list PluginDef) (spawned : string -> Result (string * bool) Child) (id : string)
    (s : Supervisor) : K Supervisor :=
  match find_def defs id with
  | None => mret s
  | Some def =>
      let '(res, s') := spawn_plugin (config_from_def def) (spawned id) s in
      _ ← (match res, manifests_of defs !! id with
           | Ok _, Some (Some m) =>
               match default [] (im_events m) with
               | [] => mret tt
               | events => modify (upd_bus (subscribe (def_id def) events))
               end
           | _, _ => mret tt
           end);
      mret s'
  end.

Fixpoint load_each (defs : list PluginDef) (spawned : string -> Result (string * bool) Child) (ids : list string)
    (s : Supervisor) : K Supervisor :=
  match ids with
  | [] => mret s
  | id :: ids => s ← load_one defs spawned id s; load_each defs spawned ids s
  end.

(** Where the sort does not end ([None]) the boot hangs there: nothing is
    spawned. *)
Definition load_all (defs : list PluginDef) (spawned : string -> Result (string * bool) Child) (s : Supervisor)
    : K Supervisor :=
  match defs with
  | [] => mret s
  | _ =>
      _ ← for_each set_requirements_of defs;
      match load_plan defs with
      | Some ids => load_each defs spawned ids s
      | None => mret s
      end
  end.

(** ** Lemmas *)

(** A requirement of the plugin is not configured at all. *)
Definition lacks (defs : list PluginDef) (id : string) : Prop :=
  exists dep, dep ∈ requires_of defs id /\ dep ∉ map def_id defs.

Lemma lacks_existsb defs id :
  existsb (fun dep => negb (dep ∈? map def_id defs)) (requires_of defs id) = true <-> lacks defs id.
Proof.
  unfold lacks. rewrite existsb_exists. setoid_rewrite <- list_elem_of_In.
  split; intros (dep & Hin & Hd); exists dep; (split; [done|]); [|by rewrite bool_decide_eq_false_2].
  intros Hc. by rewrite bool_decide_eq_true_2 in Hd.
Qed.

Lemma resolve_loop defs l R D :
  NoDup (map def_id l) ->
  let '(R', D') := foldl (resolve_one defs) (R, D) l in
  (forall id, id ∈ R' <-> id ∈ R \/ (id ∈ map def_id l /\ lacks defs id)) /\
  (forall id, id ∈ map def_id l -> id ∉ R' -> D' !! id = Some (requires_of defs id)) /\
  (forall id, id ∉ map def_id l -> D' !! id = D !! id).
Proof.
  revert R D. induction l as [|def l IH]; intros R D Hnd; cbn [foldl map].
  { split_and!; [set_solver|set_solver|done]. }
  cbn [map] in Hnd. apply NoDup_cons in Hnd as [Hid Hnd]. set (st := resolve_one defs (R, D) def).
  assert ((forall id, id ∈ st.1 <-> id ∈ R \/ (id = def_id def /\ lacks defs id)) /\
          (def_id def ∉ st.1 -> st.2 !! def_id def = Some (requires_of defs (def_id def))) /\
          (forall id, id <> def_id def -> st.2 !! id = D !! id)) as (Q1 & Q2 & Q3).
  { unfold st, resolve_one. destruct (decide (def_id def ∈ R)) as [Hin|Hin].
    - rewrite bool_decide_eq_true_2 by done. simpl. split_and!; [set_solver|set_solver|done].
    - rewrite bool_decide_eq_false_2 by done. destruct (existsb _ _) eqn:E; simpl.
      + apply lacks_existsb in E. split_and!; [set_solver|set_solver|done].
      + assert (~ lacks defs (def_id def)) as Hl by (rewrite <- lacks_existsb; congruence).
        split_and!; [set_solver|intros _; apply lookup_insert_eq|].
        intros id Hne. by rewrite lookup_insert_ne. }
  clearbody st. destruct st as [R1 D1]. simpl in *. specialize (IH R1 D1 Hnd).
  destruct (foldl (resolve_one defs) (R1, D1) l) as [R' D']. destruct IH as (I1 & I2 & I3). split_and!.
  - intros id. rewrite I1, Q1, elem_of_cons. naive_solver.
  - intros id [->|Hin]%elem_of_cons Hn; [|by apply I2]. rewrite I3 by done. apply Q2.
    intros Hc. apply Hn, I1. by left.
  - intros id Hn. rewrite I3, Q3; set_solver.
Qed.

(** Refused before the sort: invalid, or a requirement is missing. *)
Definition refused_early (defs : list PluginDef) (id : string) : Prop :=
  (exists def, def ∈ defs /\ def_id def = id /\ is_ok (validate_plugin_def def) = false) \/
  (id ∈ map def_id defs /\ lacks defs id).

Lemma resolve_deps_spec defs :
  NoDup (map def_id defs) ->
  (forall id, id ∈ (resolve_deps defs).1 <-> refused_early defs id) /\
  (forall id, id ∈ map def_id defs -> id ∉ (resolve_deps defs).1 ->
     (resolve_deps defs).2 !! id = Some (requires_of defs id)).
Proof.
  intros Hnd. unfold resolve_deps. pose proof (resolve_loop defs defs (refused_invalid defs) ∅ Hnd) as Hl.
  destruct (foldl _ _ defs) as [R D]. destruct Hl as (Q1 & Q2 & _). simpl. split; [|done].
  intros id. rewrite Q1. unfold refused_early, refused_invalid. rewrite elem_of_list_to_set.
  assert (id ∈ map def_id (filter (fun def => is_ok (validate_plugin_def def) = false) defs) <->
          exists def, def ∈ defs /\ def_id def = id /\ is_ok (validate_plugin_def def) = false) as ->; [|done].
  split.
  - intros (def & -> & Hin)%list_elem_of_fmap. apply list_elem_of_filter in Hin as [? ?]. by exists def.
  - intros (def & Hin & <- & Hv). apply list_elem_of_fmap_2, list_elem_of_filter. by split.
Qed.

(** The dependency relation the loader sorts by. *)
Definition depends (defs : list PluginDef) : string -> string -> Prop :=
  requires_rel (map def_id defs) (resolve_deps defs).2 (resolve_deps defs).1.

Lemma depends_spec defs x d :
  NoDup (map def_id defs) ->
  depends defs x d <-> x ∈ map def_id defs /\ ~ refused_early defs x /\
                       d ∈ requires_of defs x /\ ~ refused_early defs d.
Proof.
  intros Hnd. destruct (resolve_deps_spec defs Hnd) as [Hr Hd].
  unfold depends, requires_rel, active_ids, reqs. rewrite !list_elem_of_filter, !Hr.
  split.
  - intros [[Hx Hin] [Hdr Hdd]]. rewrite Hd in Hdd by (done || by rewrite Hr). done.
  - intros (Hin & Hx & Hdd & Hdr). split; [done|]. split; [done|]. by rewrite Hd by (done || by rewrite Hr).
Qed.

Lemma depends_active defs x d :
  NoDup (map def_id defs) -> depends defs x d ->
  d ∈ active_ids (map def_id defs) (resolve_deps defs).1.
Proof.
  intros Hnd Hdep. pose proof (proj1 (depends_spec defs x d Hnd) Hdep) as (Hin & Hx & Hd & Hdr).
  destruct (resolve_deps_spec defs Hnd) as [Hr _]. apply list_elem_of_filter. rewrite Hr. split; [done|].
  destruct (decide (d ∈ map def_id defs)) as [|Hno]; [done|]. exfalso. apply Hx. right. split; [done|]. by exists d.
Qed.

(** ** Effects of the boot *)

(** The spawn of a planned plugin succeeds. *)
Definition boots (defs : list PluginDef) (spawned : string -> Result (string * bool) Child) (id : string) : Prop :=
  exists def ch p shim, find_def defs id = Some def /\ spawned id = Ok ch /\
    (spawn_pids (config_from_def def) 0 ch).1 = Ok (p, shim).

Definition boot_events (defs : list PluginDef) (id : string) : list string :=
  match manifests_of defs !! id with Some (Some m) => default [] (im_events m) | _ => [] end.

Lemma find_def_id defs id def : find_def defs id = Some def -> def_id def = id.
Proof.
  unfold find_def. intros Hf. apply head_Some_elem_of in Hf. by apply list_elem_of_filter in Hf as [? _].
Qed.

(** The result of a spawn does not depend on the epoch. *)
Lemma spawn_pids_epoch c e e' ch :
  match (spawn_pids c e ch).1, (spawn_pids c e' ch).1 with
  | Ok a, Ok b => a = b
  | Err _, Err _ => True
  | _, _ => False
  end.
Proof.
  unfold spawn_pids. destruct (sandbox c); [|by destruct (child_id ch)].
  destruct (child_line ch) as [| |line]; [done|done|].
  destruct (line ≫= _) as [p|]; [|done]. destruct (0 <? p); [|done]. by destruct (child_id ch).
Qed.

Lemma is_some_insert {A} (m : gmap string A) i x q :
  is_some (<[i := x]> m !! q) = true <-> is_some (m !! q) = true \/ q = i.
Proof.
  destruct (decide (i = q)) as [<-|Hne]; [rewrite lookup_insert_eq; simpl; tauto|].
  rewrite lookup_insert_ne by done. split; [by left|]. by intros [?| ->].
Qed.

(** The subscriptions of a plugin that came up. *)
Lemma boot_subscribes defs id w :
  let w' := exec (match manifests_of defs !! id with
                  | Some (Some m) => match default [] (im_events m) with
                                     | [] => mret tt
                                     | e0 :: l => modify (upd_bus (subscribe id (e0 :: l)))
                                     end
                  | _ => mret tt
                  end) w in
  registry w' = registry w /\
  forall q t, subscribed (event_bus w') q t <-> subscribed (event_bus w) q t \/ (q = id /\ t ∈ boot_events defs id).
Proof.
  intros w'. assert (w' = if bool_decide (boot_events defs id = []) then w else upd_bus (subscribe id (boot_events defs id)) w) as ->.
  { unfold w', boot_events. destruct (manifests_of defs !! id) as [[m|]|]; try done. by destruct (default [] (im_events m)). }
  case_bool_decide as Ht; (split; [done|]); intros q t.
  - rewrite Ht. split; [by left|]. by intros [?|[_ ?%elem_of_nil]].
  - apply (subscribe_spec (event_bus w) id (boot_events defs id) q t).
Qed.

Lemma load_one_spec defs spawned id s w :
  is_running id s = false ->
  let s' := eval (load_one defs spawned id s) w in
  let w' := exec (load_one defs spawned id s) w in
  (forall q, is_running q s' = true <-> is_running q s = true \/ (q = id /\ boots defs spawned q)) /\
  registry w' = registry w /\
  (forall q t, subscribed (event_bus w') q t <-> subscribed (event_bus w) q t \/
     (q = id /\ boots defs spawned q /\ t ∈ boot_events defs q)).
Proof.
  intros Hrun s' w'.
  assert (~ boots defs spawned id -> entries s' = entries s -> w' = w ->
    (forall q, is_running q s' = true <-> is_running q s = true \/ (q = id /\ boots defs spawned q)) /\
    registry w' = registry w /\
    (forall q t, subscribed (event_bus w') q t <-> subscribed (event_bus w) q t \/
       (q = id /\ boots defs spawned q /\ t ∈ boot_events defs q))) as Hno.
  { intros Hb Es ->. unfold is_running. rewrite Es. split_and!; [|done|].
    - intros q. split; [by left|]. by intros [?|[-> ?]].
    - intros q t. split; [by left|]. by intros [?|(-> & ? & _)]. }
  unfold s', w', load_one in *. destruct (find_def defs id) as [def|] eqn:Hf.
  2: { apply Hno; [|done|done]. intros (d & _ & _ & _ & Hd & _). congruence. }
  pose proof (find_def_id _ _ _ Hf) as Hid. unfold spawn_plugin, spawn_internal, spawn_begin in *.
  cbn [is_some negb andb] in *. change (cfg_plugin_id (config_from_def def)) with (def_id def) in *. rewrite Hid in *.
  unfold is_running in Hrun. rewrite Hrun in *.
  destruct (spawned id) as [ch|[err cg]] eqn:Hsp.
  2: { apply Hno; [|done|done]. intros (d & ch & _ & _ & _ & Hc & _). congruence. }
  unfold spawn_commit in *. cbv zeta in *. set (c := config_from_def def) in *.
  set (e := u64_succ (next_epoch s)) in *.
  pose proof (spawn_pids_epoch c e 0 ch) as He.
  destruct (spawn_pids c e ch) as [[[p shim]|err] fx]; destruct ((spawn_pids c 0 ch).1) as [b|err'] eqn:H0'; try done;
    simpl in He.
  - subst b. rewrite eval_bind, exec_bind, eval_ret, exec_ret. unfold is_running. simpl.
    change (cfg_plugin_id c) with (def_id def). rewrite Hid.
    destruct (boot_subscribes defs id w) as [Hreg Hsub].
    assert (boots defs spawned id) as Hboots by by exists def, ch, p, shim.
    split_and!; [|done|].
    + intros q. rewrite is_some_insert. naive_solver.
    + intros q t. rewrite Hsub. naive_solver.
  - apply Hno; [|done|done]. intros (d & ch' & p & shim & Hd & Hc & Hp). rewrite Hf in Hd. rewrite Hsp in Hc.
    simplify_eq. fold c in Hp. congruence.
Qed.

Lemma load_each_spec defs spawned ids s w :
  NoDup ids -> (forall id, id ∈ ids -> is_running id s = false) ->
  let s' := eval (load_each defs spawned ids s) w in
  let w' := exec (load_each defs spawned ids s) w in
  (forall q, is_running q s' = true <-> is_running q s = true \/ (q ∈ ids /\ boots defs spawned q)) /\
  registry w' = registry w /\
  (forall q t, subscribed (event_bus w') q t <-> subscribed (event_bus w) q t \/
     (q ∈ ids /\ boots defs spawned q /\ t ∈ boot_events defs q)).
Proof.
  revert s w. induction ids as [|id ids IH]; intros s w Hnd Hs; cbn [load_each].
  { split_and!; [|done|]; intros q; [|intros t]; (split; [by left|]).
    - by intros [?|[?%elem_of_nil _]].
    - by intros [?|[?%elem_of_nil _]]. }
  rewrite eval_bind, exec_bind. apply NoDup_cons in Hnd as [Hid Hnd].
  destruct (load_one_spec defs spawned id s w) as (A1 & A2 & A3); [apply Hs; left|].
  set (s1 := eval (load_one defs spawned id s) w) in *. set (w1 := exec (load_one defs spawned id s) w) in *.
  destruct (IH s1 w1 Hnd) as (B1 & B2 & B3).
  { intros q Hq. destruct (is_running q s1) eqn:E; [|done]. apply A1 in E as [E|[-> _]]; [|done].
    rewrite (Hs q) in E by (by right). done. }
  split_and!; [| by rewrite B2 |].
  - intros q. rewrite B1, A1, elem_of_cons. tauto.
  - intros q t. rewrite B3, A3, elem_of_cons. tauto.
Qed.

Lemma set_requirements_loop defs w :
  NoDup (map def_id defs) ->
  let w' := exec (for_each set_requirements_of defs) w in
  event_bus w' = event_bus w /\ by_plugin_id (registry w') = by_plugin_id (registry w) /\
  (forall id, action_requirements (registry w') !! id =
     match list_find (fun d => def_id d = id) defs with
     | Some (_, def) =>
         match validate_plugin_def def with
         | Ok (Some m) => if bool_decide (manifest_requirements m = ∅)
                          then action_requirements (registry w) !! id
                          else Some (manifest_requirements m)
         | _ => action_requirements (registry w) !! id
         end
     | None => action_requirements (registry w) !! id
     end).
Proof.
  revert w. induction defs as [|def defs IH]; intros w Hnd; [done|]. cbn [for_each].
  cbn [map] in Hnd. apply NoDup_cons in Hnd as [Hid Hnd]. rewrite exec_bind.
  set (w1 := exec (set_requirements_of def) w). destruct (IH w1 Hnd) as (E1 & E2 & E3).
  assert (event_bus w1 = event_bus w /\ by_plugin_id (registry w1) = by_plugin_id (registry w) /\
          (forall id, id <> def_id def -> action_requirements (registry w1) !! id = action_requirements (registry w) !! id) /\
          action_requirements (registry w1) !! def_id def =
            match validate_plugin_def def with
            | Ok (Some m) => if bool_decide (manifest_requirements m = ∅)
                             then action_requirements (registry w) !! def_id def
                             else Some (manifest_requirements m)
            | _ => action_requirements (registry w) !! def_id def
            end) as (F1 & F2 & F3 & F4).
  { unfold w1, set_requirements_of. destruct (validate_plugin_def def) as [[m|]|]; try done.
    case_bool_decide; [done|]. simpl. split_and!; [done|done| |apply lookup_insert_eq].
    intros id Hne. by rewrite lookup_insert_ne. }
  rewrite E1, E2, F1, F2. split_and!; [done|done|]. intros id. rewrite E3. cbn [list_find].
  destruct (decide (def_id def = id)) as [<-|Hne].
  - assert (list_find (fun d => def_id d = def_id def) defs = None) as ->; [|by rewrite F4].
    apply list_find_None, Forall_forall. intros d Hd Heq. apply Hid. rewrite <- Heq. by apply list_elem_of_fmap_2.
  - rewrite F3 by done. by destruct (list_find _ defs) as [[i d]|].
Qed.

(** ** Properties *)

(** With unique ids the boot plan always exists and repeats nothing; a
    planned plugin is configured, its manifest is valid and grants no more
    than the operator allows, and all its requirements are configured.
    Without a requirement cycle the plan is exactly those plugins, each
    after every requirement of its own that is planned; with cycles no
    plugin on a cycle is planned. *)
Theorem load_plan_correct defs :
  NoDup (map def_id defs) ->
  exists plan, load_plan defs = Some plan /\ NoDup plan /\
    (forall id, id ∈ plan -> id ∈ map def_id defs /\ ~ refused_early defs id) /\
    ((forall x, ~ tc (depends defs) x x) ->
       (forall id, id ∈ plan <-> id ∈ map def_id defs /\ ~ refused_early defs id) /\
       (forall l1 x l2, plan = l1 ++ x :: l2 -> forall d, d ∈ requires_of defs x -> d ∈ plan -> d ∈ l1)) /\
    (forall x, tc (depends defs) x x -> x ∉ plan).
Proof.
  intros Hnd. destruct (resolve_deps_spec defs Hnd) as [Hr Hd].
  unfold load_plan. destruct (resolve_deps defs) as [R D] eqn:E. simpl in Hr, Hd.
  destruct (topo_sort_detects_cycles (map def_id defs) D R Hnd) as [Hcyc Hon].
  { intros x d Hrel. pose proof (depends_active defs x d Hnd) as Ha. unfold depends in Ha. rewrite E in Ha.
    by apply Ha. }
  destruct (topo_sort_sound (map def_id defs) D R Hnd) as (r & Hres & Hspec).
  assert (forall x, x ∈ active_ids (map def_id defs) R <-> x ∈ map def_id defs /\ ~ refused_early defs x) as Hact.
  { intros x. unfold active_ids. rewrite list_elem_of_filter, Hr. naive_solver. }
  assert (NoDup (active_ids (map def_id defs) R)) as Hna by by apply NoDup_filter.
  unfold depends. rewrite E. simpl. rewrite Hres in *. destruct r as [order|cycle].
  - destruct Hspec as [Hperm Hb].
    assert (forall x, x ∈ order <-> x ∈ map def_id defs /\ ~ refused_early defs x) as Hin
      by (intros x; rewrite Hperm; apply Hact).
    assert (filter (fun id => id ∉ R) order = order) as Hf.
    { assert (Forall (fun id => id ∉ R) order) as Hall.
      { apply Forall_forall. intros x Hx. rewrite Hr. by apply Hin. }
      clear -Hall. induction Hall as [|x l Hx _ IH]; [done|]. rewrite filter_cons_True by done. by rewrite IH. }
    exists order. rewrite Hf. split_and!; [done|by rewrite Hperm|naive_solver| |].
    + intros _. split; [done|]. intros l1 x l2 Hl d Hdx Hdp. eapply Hb; [done|].
      unfold reqs. apply list_elem_of_filter. rewrite Hr. split; [by apply Hin|].
      assert (x ∈ order) as Hx by (rewrite Hl; set_solver). apply Hin in Hx as [Hx Hxr].
      by rewrite Hd by (done || by rewrite Hr).
    + intros x Htc. exfalso. by apply (proj1 Hcyc (ex_intro _ order eq_refl) x).
  - set (R' := list_to_set cycle ∪ R).
    assert (forall x, x ∈ filter (fun id => id ∉ R') (map def_id defs) <->
              x ∈ map def_id defs /\ (x ∉ cycle) /\ ~ refused_early defs x) as Hin.
    { intros x. rewrite list_elem_of_filter. unfold R'. rewrite elem_of_union, elem_of_list_to_set, Hr. naive_solver. }
    exists (filter (fun id => id ∉ R') (map def_id defs)). split_and!; [done|by apply NoDup_filter|naive_solver| |].
    + intros Hno. exfalso. destruct (proj2 Hcyc Hno) as [o Ho]. done.
    + intros x Htc [_ [Hx _]]%Hin. by apply Hx, (Hon cycle).
Qed.

(** Loading a configuration with unique ids onto an idle supervisor starts
    exactly the planned plugins whose process comes up, subscribes exactly
    those to the events of their manifests, records for each configured
    plugin with a valid manifest the permissions its actions require, and
    registers nobody. *)
Theorem load_all_spec defs spawned plan w :
  NoDup (map def_id defs) -> load_plan defs = Some plan -> NoDup plan ->
  let s' := eval (load_all defs spawned sup_new) w in
  let w' := exec (load_all defs spawned sup_new) w in
  (forall id, is_running id s' = true <-> id ∈ plan /\ boots defs spawned id) /\
  (forall id t, subscribed (event_bus w') id t <-> subscribed (event_bus w) id t \/
     (id ∈ plan /\ boots defs spawned id /\ t ∈ boot_events defs id)) /\
  by_plugin_id (registry w') = by_plugin_id (registry w) /\
  (forall def m, def ∈ defs -> validate_plugin_def def = Ok (Some m) -> manifest_requirements m <> ∅ ->
     action_requirements (registry w') !! def_id def = Some (manifest_requirements m)).
Proof.
  intros Hnd Hplan Hndp s' w'. destruct defs as [|d0 ds] eqn:Edefs.
  { assert (load_plan [] = Some []) as Hz by reflexivity. rewrite Hz in Hplan. injection Hplan as <-.
    split_and!; [| |done|].
    - intros id. split; [done|]. by intros [?%elem_of_nil _].
    - intros id t. split; [by left|]. by intros [?|[?%elem_of_nil _]].
    - intros def m Hd. by apply elem_of_nil in Hd. }
  unfold s', w', load_all. rewrite <- Edefs in *. rewrite eval_bind, exec_bind, Hplan.
  destruct (set_requirements_loop defs w Hnd) as (E1 & E2 & E3).
  set (w1 := exec (for_each set_requirements_of defs) w) in *.
  destruct (load_each_spec defs spawned plan sup_new w1 Hndp) as (L1 & L2 & L3); [done|].
  split_and!.
  - intros id. rewrite L1. split; [by intros [?|?]|by right].
  - intros id t. by rewrite L3, E1.
  - by rewrite L2, E2.
  - intros def m Hd Hv Hne. rewrite L2, E3.
    destruct (list_find (fun d => def_id d = def_id def) defs) as [[i d]|] eqn:Hf.
    + apply list_find_Some in Hf as (Hi & Heq & _).
      assert (d = def) as ->; [|by rewrite Hv, bool_decide_eq_false_2].
      apply list_elem_of_lookup in Hd as [j Hj].
      assert (i = j) as <-; [|by simplify_eq].
      eapply NoDup_lookup; [exact Hnd| |]; rewrite list_lookup_fmap; [by rewrite Hi|by rewrite Hj, Heq].
    + apply list_find_None in Hf. rewrite Forall_forall in Hf. by destruct (Hf def Hd).
Qed.

End Loader.

(** ** Boots *)
Module LoaderRuns.

#[local] Instance wire : WireCrate := toy_wire [].
#[local] Instance iter : HashIter := canonical_iter.
#[local] Instance gov : Governor := open_governor.

Definition manifest (reqs : list string) : InstallManifest :=
  mkInstall [] reqs (Some [mkManifestAction "say" (Some "AUDIO_STREAM")]) (Some ["system.x"]).

(** Every plugin has a manifest next to its binary. *)
#[local] Instance manifests : ManifestCrate := {|
  path_exists _ := true;
  validate_manifest p :=
    if p ==? "/opt/app/plugin.json" then Ok (manifest ["db"])
    else if p ==? "/opt/loop/plugin.json" then Ok (manifest ["loop"])
    else Ok (manifest []);
|}.

Definition def (id : string) : PluginDef :=
  mkDef id ("/opt/" +:+ id +:+ "/bin") "always" 5 [] [] false 0 None None [] None [] [].

Definition defs : list PluginDef := [def "app"; def "db"].

Definition spawned (id : string) : Result (string * bool) Child := Ok (mkChild (Some 7) LineTimeout false).

Definition w : World := mkWorld registry_new bus_new ∅ ∅ 0 0 0 None None ∅ [].

Lemma defs_nodup : NoDup (map def_id defs).
Proof. repeat (constructor; [set_solver|]). constructor. Qed.

Lemma load_plan_witness :
  load_plan defs = Some ["db"; "app"] /\ exists plan, load_plan defs = Some plan /\ NoDup plan.
Proof.
  split; [vm_compute; reflexivity|].
  destruct (load_plan_correct defs defs_nodup) as (plan & Hp & Hn & _). by exists plan.
Defined.

Lemma load_all_witness :
  is_running "app" (eval (load_all defs spawned sup_new) w) = true /\
  subscribed (event_bus (exec (load_all defs spawned sup_new) w)) "app" "system.x".
Proof.
  destruct (load_all_spec defs spawned ["db"; "app"] w) as (Hr & Hs & _).
  - apply defs_nodup.
  - vm_compute; reflexivity.
  - repeat (constructor; [set_solver|]). constructor.
  - assert (boots defs spawned "app") as Hb.
    { exists (def "app"), (mkChild (Some 7) LineTimeout false), 7, None. vm_compute. done. }
    assert ("app" ∈ ["db"; "app"]) as Hin by (right; left).
    split; [apply Hr; by split|]. apply Hs. right. split; [done|]. split; [done|].
    assert (boot_events defs "app" = ["system.x"]) as -> by (vm_compute; reflexivity). left.
Defined.

(** When some plugins form a requirement cycle the others are started in
    configuration order, so a plugin can be started before a requirement of
    its own although a correct order exists. *)
Theorem cycle_fallback_ignores_order :
  exists ds l1 x l2 d, NoDup (map def_id ds) /\ load_plan ds = Some (l1 ++ x :: l2) /\
    d ∈ requires_of ds x /\ d ∈ l2 /\ load_plan [def "app"; def "db"] = Some ["db"; "app"].
Proof.
  exists [def "app"; def "db"; def "loop"], [], "app", ["db"], "db". split_and!.
  - repeat (constructor; [set_solver|]). constructor.
  - vm_compute; reflexivity.
  - change (requires_of [def "app"; def "db"; def "loop"] "app") with ["db"]. left.
  - left.
  - vm_compute; reflexivity.
Qed.

End LoaderRuns.
