(* ===== verification/Kernel.v ===== *)
(** * Boot, disconnection and shutdown ([src/kernel/orchestrator/])

    The checks a configuration passes before the kernel serves
    ([orchestrator/mod.rs], [src/utils/tls.rs]), the disconnect loop and the
    shutdown sequence ([orchestrator/shutdown.rs]). *)

From S2P Require Import Prelude Wire Toy Text Channel Registry RegistryFacts Permissions Jwt DeviceStore EventStore World EventBus Router RouterFacts Sandbox Config Supervisor Loader.

Open Scope Z_scope.

(** ** Boot checks *)

Inductive BindIp := BindExplicit (ip : string) | BindUnspecified | BindLocalhost.

(** [bind.parse::<IpAddr>()] succeeds. *)
Definition bind_ip (parses : string -> bool) (c : Config) : Result string BindIp :=
  match bind c with
  | Some b => if parses b then Ok (BindExplicit b) else Err ("invalid bind address '" +:+ b +:+ "'")
  | None =>
      match role c, jwt_secret c with
      | Host, Some _ => Ok BindUnspecified
      | _, _ => Ok BindLocalhost
      end
  end.

(** The file system and certificate generator as the TLS set-up sees them:
    what each call answers, and the files that exist. *)
Record TlsIo := mkTlsIo {
  hostname : option string;
  generate_simple_self_signed : list string -> Result string (string * string);
  create_dir_all : string -> Result string unit;
  set_permissions : string -> Result string unit;
  fs_write : string -> Result string unit;
  tls_private_dir : option string;
}.

Abbreviation Files := (gmap string string).

Definition write_file (io : TlsIo) (path text : string) (fs : Files) : Result string unit * Files :=
  match fs_write io path with
  | Err e => (Err e, fs)
  | Ok _ => (Ok tt, <[path := text]> fs)
  end.

Definition ensure_self_signed (io : TlsIo) (dir cert_path key_path : string) (fs : Files)
    : Result string unit * Files :=
  if bool_decide (is_Some (fs !! cert_path)) && bool_decide (is_Some (fs !! key_path)) then (Ok tt, fs)
  else
    match generate_simple_self_signed io ["localhost"; "127.0.0.1"; default "localhost" (hostname io)] with
    | Err e => (Err ("self-signed cert generation failed: " +:+ e), fs)
    | Ok (cert, key) =>
        match create_dir_all io dir with
        | Err e => (Err e, fs)
        | Ok _ =>
            match set_permissions io dir with
            | Err e => (Err e, fs)
            | Ok _ =>
                match write_file io cert_path cert fs with
                | (Err e, fs1) => (Err e, fs1)
                | (Ok _, fs1) => write_file io key_path key fs1
                end
            end
        end
    end.

Definition resolve_tls_paths (io : TlsIo) (c : Config) (fs : Files)
    : Result string (option string * option string) * Files :=
  if negb (tls c) then (Ok (None, None), fs)
  else match tls_cert_path c, tls_key_path c with
       | Some cert, Some key => (Ok (Some cert, Some key), fs)
       | None, None =>
           match default_tls_dir (tls_private_dir io) with
           | None => (Err "cannot resolve a private dir for auto-generated TLS material", fs)
           | Some dir =>
               let cert_path := path_join dir "cert.pem" in
               let key_path := path_join dir "key.pem" in
               match ensure_self_signed io dir cert_path key_path fs with
               | (Err e, fs1) => (Err e, fs1)
               | (Ok _, fs1) => (Ok (Some cert_path, Some key_path), fs1)
               end
           end
       | _, _ => (Err "tls is on but only one of tls_cert_path/tls_key_path is set — provide both or neither", fs)
       end.

(** The authentication gate. *)
Definition auth_gate (c : Config) : Result string (option JwtValidator) :=
  match jwt_secret c with
  | Some s =>
      if (String.length s <? MIN_JWT_SECRET_BYTES)%nat
      then Err ("jwt_secret is " +:+ show (Z.of_nat (String.length s)) +:+ " bytes, must be at least "
                +:+ show (Z.of_nat MIN_JWT_SECRET_BYTES) +:+ " bytes "
                +:+ "(HS256 secrets shorter than this are brute-forceable)")
      else Ok (Some (with_audience (string_bytes s) (jwt_audience c)))
  | None =>
      if negb (allow_no_auth c)
      then Err ("refusing to start without authentication: set `jwt_secret`, or set "
                +:+ "`allow_no_auth: true` in config to run without auth (insecure)")
      else Ok None
  end.

Record Boot := mkBoot {
  boot_validator : option JwtValidator;
  boot_tls : option string * option string;
  boot_bind : BindIp;
  boot_mac_secret : option bytes;
  boot_permissions : gmap string (list string);
}.

(** The checks between the start of the socket server and the start of the
    router, in order. *)
Definition boot (io : TlsIo) (parses : string -> bool) (c : Config) (fs : Files) : Result string Boot * Files :=
  match auth_gate c with
  | Err e => (Err e, fs)
  | Ok v =>
      match resolve_tls_paths io c fs with
      | (Err e, fs1) => (Err e, fs1)
      | (Ok t, fs1) =>
          match bind_ip parses c with
          | Err e => (Err e, fs1)
          | Ok ip => (Ok (mkBoot v t ip (string_bytes <$> jwt_secret c)
                            (foldl (fun m d => <[def_id d := def_permissions d]> m) ∅ (plugins c))), fs1)
          end
      end
  end.

(** SIGHUP: reload the file, apply its log level. *)
Definition reload_config_on_sighup `{ConfigCrates} (config_file : option string)
    : Result string Config * option string :=
  match config_file with
  | None => (Err "no config file to reload from", None)
  | Some path =>
      match load_config path with
      | Err e => (Err e, None)
      | Ok cfg => (Ok cfg, Some (log_level cfg))
      end
  end.

Section Kernel.
Context `{HashIter} `{WireCrate} `{Governor} `{SerdeJson} `{JwtCrate} `{StoreCrates}.

(** ** Disconnection: one turn of [disconnect_loop] *)

Definition disconnect_one (env : Env) (cid : Z) : K unit :=
  r ← gets registry;
  match get_by_conn_id cid r with
  | None => mret tt
  | Some e =>
      let pid := plugin_id e in
      _ ← publish env (mkEvent ("sys-left-" +:+ pid +:+ "-" +:+ show (unix_ms (clk env)))
                         "system.plugin_left" (plugin_lifecycle_payload r pid) 0);
      _ ← modify (upd_bus (unsubscribe_all pid));
      modify (upd_registry (unregister pid))
  end.

(** ** Shutdown *)

Definition shutdown_frame (grace : Z) : option Frame :=
  build_frame "self" 0 <$> encode_envelope (env_of (PPluginShutdown (mkPluginShutdown "kernel shutdown" grace))).

Definition advertised_grace (default_grace : Z) (s : Supervisor) (pid : string) : Z :=
  default default_grace (grace_seconds_for pid s).

Definition notify_shutdown (default_grace : Z) (s : Supervisor) (e : PluginEntry) : K unit :=
  match shutdown_frame (advertised_grace default_grace s (plugin_id e)) with
  | None => mret tt
  | Some f => chan_send_await (write_tx e) (out_frame f)
  end.

Definition graceful_shutdown (default_grace : Z) (s : Supervisor) : K Supervisor :=
  r ← gets registry;
  match list_entries r with
  | [] => mret s
  | es =>
      _ ← for_each (notify_shutdown default_grace s) es;
      mret (sup_shutdown default_grace s)
  end.

(** ** Lemmas *)

Lemma publish_bus env ev w : event_bus (exec (publish env ev) w) = event_bus w /\
  registry (exec (publish env ev) w) = registry w.
Proof. by destruct (publish_stores env ev w) as (_ & Hr & Hb & _). Qed.

Lemma disconnect_run env cid e w :
  get_by_conn_id cid (registry w) = Some e ->
  let w' := exec (disconnect_one env cid) w in
  registry w' = unregister (plugin_id e) (registry w) /\
  event_bus w' = unsubscribe_all (plugin_id e) (event_bus w).
Proof.
  intros He w'. unfold w', disconnect_one. rewrite exec_gets, He. cbv zeta. rewrite !exec_bind.
  set (ev := mkEvent _ _ _ _). destruct (publish_bus env ev w) as [Eb Er]. simpl. by rewrite Eb, Er.
Qed.

(** What a lookup by connection finds, in a registry that satisfies the invariant. *)
Lemma get_by_conn_id_ok cid e r :
  registry_ok r -> get_by_conn_id cid r = Some e ->
  by_plugin_id r !! plugin_id e = Some e /\ conn_id e = cid.
Proof.
  intros Hr He. unfold get_by_conn_id, get in He. destruct (by_conn_id r !! cid) as [pid|] eqn:Hc; [|done].
  simpl in He. destruct (rok_conn _ Hr _ _ Hc) as (e' & He' & Hci). rewrite He' in He. injection He as ->.
  by destruct (rok_entry _ Hr _ _ He') as (<- & _).
Qed.

(** The connection and the name of a plugin that just left are free again. *)
Lemma unregister_then_register clk' cid e mf tx meta r :
  registry_ok r -> get_by_conn_id cid r = Some e ->
  exists e', get (plugin_id e)
    (register_with_device clk' (plugin_id e) cid mf tx meta (unregister (plugin_id e) r)).2 = Some e'.
Proof.
  intros Hr He. destruct (get_by_conn_id_ok _ _ _ Hr He) as [Hp Hcid].
  destruct (rok_entry _ Hr _ _ Hp) as (_ & _ & Hv).
  destruct (unregister_fields (plugin_id e) e r Hp) as (F1 & F2 & _).
  destruct (register_with_device clk' (plugin_id e) cid mf tx meta (unregister (plugin_id e) r))
    as [[[]|err] r'] eqn:Hreg.
  - destruct (register_with_device_add _ _ _ _ _ _ _ _ Hreg) as (_ & _ & _ & e' & -> & Hpid & _).
    exists e'. unfold get. cbn [snd]. destruct (add_entry_fields clk' e' meta (meta_capabilities meta)
      (unregister (plugin_id e) r)) as [-> _]. rewrite Hpid. apply lookup_insert_eq.
  - unfold register_with_device in Hreg.
    by rewrite Hv, F2, Hcid, lookup_delete_eq, F1, lookup_delete_eq in Hreg.
Qed.

(** A loop that waits for room sends to every open channel. *)
Lemma send_await_queues tx o cs ty :
  queue_of (send_await tx o cs).2 ty =
    queue_of cs ty ++ (if (tx ==? ty) && match cs !! ty with Some c => chan_open c | None => false end then [o] else []) /\
  (match (send_await tx o cs).2 !! ty with Some c => chan_open c | None => false end =
   match cs !! ty with Some c => chan_open c | None => false end).
Proof.
  unfold send_await, queue_of. destruct (decide (tx = ty)) as [->|Hne].
  - rewrite bool_decide_eq_true_2 by done. destruct (cs !! ty) as [c|] eqn:E; simpl; rewrite ?E, ?app_nil_r; [|done].
    destruct (chan_open c) eqn:Eo; simpl; [by rewrite lookup_insert_eq|by rewrite E, Eo, app_nil_r].
  - rewrite bool_decide_eq_false_2 by done. simpl. rewrite app_nil_r.
    destruct (cs !! tx) as [c|]; [|done]. destruct (chan_open c); simpl; [by rewrite lookup_insert_ne|done].
Qed.

Lemma notify_loop default_grace s es w :
  let w' := exec (for_each (notify_shutdown default_grace s) es) w in
  net_only w w' /\
  forall ty, (match chans w !! ty with Some c => chan_open c | None => false end) = true ->
    queue_of (chans w') ty = queue_of (chans w) ty ++
      omap (fun e => if write_tx e ==? ty
                     then OFrame <$> shutdown_frame (advertised_grace default_grace s (plugin_id e)) else None) es.
Proof.
  revert w. induction es as [|e es IH]; intros w; cbn [for_each].
  - split; [done|]. intros ty _. by rewrite app_nil_r.
  - rewrite exec_bind. set (w1 := exec (notify_shutdown default_grace s e) w).
    destruct (IH w1) as [Hn Hq].
    assert (net_only w w1 /\ forall ty,
        (match chans w1 !! ty with Some c => chan_open c | None => false end =
         match chans w !! ty with Some c => chan_open c | None => false end) /\
        ((match chans w !! ty with Some c => chan_open c | None => false end) = true ->
         queue_of (chans w1) ty = queue_of (chans w) ty ++
           match (if write_tx e ==? ty
                  then OFrame <$> shutdown_frame (advertised_grace default_grace s (plugin_id e)) else None) with
           | Some o => [o] | None => [] end)) as [Hn1 Hq1].
    { unfold w1, notify_shutdown. destruct (shutdown_frame _) as [f|].
      - split; [apply chan_send_await_net|]. intros ty. unfold chan_send_await, modify, exec. simpl.
        destruct (send_await_queues (write_tx e) (out_frame f) (chans w) ty) as [Eq Eo].
        split; [done|]. intros Hop. rewrite Eq, Hop, andb_true_r. by case_bool_decide.
      - split; [done|]. intros ty. split; [done|]. intros _. by case_bool_decide; rewrite app_nil_r. }
    split; [by etrans|]. intros ty Hop. destruct (Hq1 ty) as [Eo Eq]. rewrite Hq by by rewrite Eo.
    rewrite Eq, <- app_assoc by done. f_equal. cbn [omap list_omap]. by destruct (if write_tx e ==? ty then _ else _).
Qed.

(** ** Properties *)

Lemma write_file_keeps io path text fs r fs' p :
  write_file io path text fs = (r, fs') -> is_Some (fs !! p) -> is_Some (fs' !! p).
Proof.
  unfold write_file. destruct (fs_write io path); intros [= <- <-]; [|done].
  intros Hp. destruct (decide (path = p)) as [->|]; [by rewrite lookup_insert_eq|by rewrite lookup_insert_ne].
Qed.

Lemma write_file_ok io path text fs fs' u :
  write_file io path text fs = (Ok u, fs') -> is_Some (fs' !! path).
Proof. unfold write_file. destruct (fs_write io path); intros [= <- <-]. by rewrite lookup_insert_eq. Qed.

Lemma ensure_self_signed_ok io dir cp kp fs fs' u :
  ensure_self_signed io dir cp kp fs = (Ok u, fs') ->
  is_Some (fs' !! cp) /\ is_Some (fs' !! kp) /\
  (is_Some (fs !! cp) -> is_Some (fs !! kp) -> fs' = fs).
Proof.
  unfold ensure_self_signed. destruct (bool_decide (is_Some (fs !! cp))) eqn:Ec; simpl;
    [destruct (bool_decide (is_Some (fs !! kp))) eqn:Ek; simpl|].
  1: intros [= <- <-]; by apply bool_decide_eq_true in Ec, Ek.
  all: destruct (generate_simple_self_signed io _) as [[cert key]|]; [|done];
    destruct (create_dir_all io dir); [|done]; destruct (set_permissions io dir); [|done];
    destruct (write_file io cp cert fs) as [[]fs1] eqn:E1; [|done]; intros E2.
  all: split_and!; [by eapply write_file_keeps, write_file_ok|by eapply write_file_ok|].
  - intros _ Hk. by apply bool_decide_eq_false in Ek.
  - intros Hc. by apply bool_decide_eq_false in Ec.
Qed.

(** C35: what a kernel that gets past its boot checks runs with.  Without a
    secret it runs only if the operator waived authentication, and then
    checks neither tokens nor frame MACs; with one, the secret is long enough
    and both checks use it.  It listens on the address that was given, which
    parses, whether or not there is a secret; where none was given it leaves
    the loopback interface only on a host with a secret.  Without TLS there is
    no certificate; with TLS there are a certificate and a key: the configured
    paths, both of them, as they are, or a pair of files that exists
    afterwards, generated unless both existed. *)
Theorem boot_safe io parses c fs b fs' :
  boot io parses c fs = (Ok b, fs') ->
  match jwt_secret c with
  | None => allow_no_auth c = true /\ boot_validator b = None /\ boot_mac_secret b = None
  | Some s => (MIN_JWT_SECRET_BYTES <= String.length s)%nat /\
              boot_validator b = Some (with_audience (string_bytes s) (jwt_audience c)) /\
              boot_mac_secret b = Some (string_bytes s)
  end /\
  match bind c with
  | Some address => parses address = true /\ boot_bind b = BindExplicit address
  | None => boot_bind b = BindLocalhost \/ (boot_bind b = BindUnspecified /\ role c = Host /\ is_Some (jwt_secret c))
  end /\
  (tls c = false -> boot_tls b = (None, None) /\ fs' = fs) /\
  (tls c = true -> exists cert key, boot_tls b = (Some cert, Some key) /\
     match tls_cert_path c with
     | Some p => cert = p /\ tls_key_path c = Some key /\ fs' = fs
     | None => tls_key_path c = None /\ is_Some (fs' !! cert) /\ is_Some (fs' !! key) /\
               (is_Some (fs !! cert) -> is_Some (fs !! key) -> fs' = fs)
     end).
Proof.
  unfold boot. destruct (auth_gate c) as [v|] eqn:Ha; [|done].
  destruct (resolve_tls_paths io c fs) as [[t|] fs1] eqn:Ht; [|done].
  destruct (bind_ip parses c) as [ip|] eqn:Hi; [|done]. intros [= <- <-]. simpl. split; [|split].
  - unfold auth_gate in Ha. destruct (jwt_secret c) as [s|]; simpl.
    + destruct (String.length s <? MIN_JWT_SECRET_BYTES)%nat eqn:Hl; [done|]. injection Ha as <-.
      split_and!; [by apply Nat.ltb_ge|done..].
    + destruct (allow_no_auth c); [|done]. by injection Ha as <-.
  - unfold bind_ip in Hi. destruct (bind c) as [a|].
    + destruct (parses a); [|done]. by injection Hi as <-.
    + destruct (role c), (jwt_secret c); injection Hi as <-; eauto.
  - unfold resolve_tls_paths in Ht. destruct (tls c); simpl in Ht; (split; intros ?; [|]); try done.
    + destruct (tls_cert_path c) as [cp|], (tls_key_path c) as [kp|]; try done.
      * injection Ht as <- <-. eauto 10.
      * destruct (default_tls_dir _) as [dir|]; [|done].
        destruct (ensure_self_signed io dir _ _ fs) as [[u|] fs2] eqn:He; [|done]. injection Ht as <- <-.
        eexists _, _. split; [done|]. split; [done|]. by apply (ensure_self_signed_ok _ _ _ _ _ _ _ He).
    + by injection Ht as <- <-.
Qed.

(** A connection that closes leaves nothing of its plugin behind: in every
    reachable kernel state, its turn of the disconnect loop unregisters
    exactly the plugin of that connection and drops exactly its
    subscriptions; a connection that never registered changes nothing. *)
Theorem disconnect_cleans env cid w :
  registry_reachable (registry w) -> rtc bus_step bus_new (event_bus w) ->
  let w' := exec (disconnect_one env cid) w in
  match get_by_conn_id cid (registry w) with
  | None => w' = w
  | Some e =>
      conn_id e = cid /\
      get_by_conn_id cid (registry w') = None /\
      (forall pid, get pid (registry w') = if pid ==? plugin_id e then None else get pid (registry w)) /\
      (forall pid t, subscribed (event_bus w') pid t <-> subscribed (event_bus w) pid t /\ pid <> plugin_id e) /\
      pending_actions (registry w') = pending_actions (registry w)
  end.
Proof.
  intros Hr%reachable_ok Hb%bus_reachable_ok w'.
  destruct (get_by_conn_id cid (registry w)) as [e|] eqn:He.
  - destruct (disconnect_run env cid e w He) as [Er Eb]. fold w' in Er, Eb.
    destruct (get_by_conn_id_ok _ _ _ Hr He) as [Hp Hcid].
    destruct (unregister_fields (plugin_id e) e (registry w) Hp) as (F1 & F2 & _ & _ & F5 & _).
    rewrite Er, Eb. split_and!; [done|..|done].
    + unfold get_by_conn_id. by rewrite F2, Hcid, lookup_delete_eq.
    + intros pid. unfold get. rewrite F1. case_bool_decide as Hpid; [subst pid; apply lookup_delete_eq|].
      by rewrite lookup_delete_ne.
    + intros pid t. by apply unsubscribe_all_spec.
  - unfold w', disconnect_one. by rewrite exec_gets, He.
Qed.

(** On shutdown, if any plugin is registered, every registered plugin with
    a live channel is told once the grace the supervisor will grant it, and
    every supervised process gets SIGTERM and, after exactly that grace, a
    SIGKILL. *)
Theorem graceful_shutdown_notifies default_grace s w :
  list_entries (registry w) <> [] ->
  let s' := eval (graceful_shutdown default_grace s) w in
  let w' := exec (graceful_shutdown default_grace s) w in
  net_only w w' /\
  (forall ty, (match chans w !! ty with Some c => chan_open c | None => false end) = true ->
     queue_of (chans w') ty = queue_of (chans w) ty ++
       omap (fun e => if write_tx e ==? ty
                      then OFrame <$> shutdown_frame (advertised_grace default_grace s (plugin_id e)) else None)
         (list_entries (registry w))) /\
  (forall pid y, entries s !! pid = Some y ->
     (0, signal_target y, SIGTERM) ∈ shutdown_signals default_grace s /\
     (advertised_grace default_grace s pid, signal_target y, SIGKILL) ∈ shutdown_signals default_grace s) /\
  effects s' = effects s ++ map (fun x => FxSignal x.1.2 x.2) (shutdown_signals default_grace s).
Proof.
  intros Hne s' w'.
  assert (s' = sup_shutdown default_grace s /\
          w' = exec (for_each (notify_shutdown default_grace s) (list_entries (registry w))) w) as [-> ->].
  { unfold s', w', graceful_shutdown. rewrite eval_gets, exec_gets.
    destruct (list_entries (registry w)); [done|]. by rewrite eval_bind, exec_bind, eval_ret, exec_ret. }
  destruct (notify_loop default_grace s (list_entries (registry w)) w) as [Hn Hq].
  split_and!; [done|done| |done]. intros pid y Hy.
  assert ((pid, y) ∈ map_iter (entries s)) as Hin by by apply elem_of_map_iter.
  unfold shutdown_signals. rewrite !elem_of_app. split.
  - left. apply list_elem_of_fmap. by exists (pid, y).
  - right. apply list_elem_of_fmap. exists (pid, y). split; [|done]. simpl.
    unfold advertised_grace, grace_seconds_for, shutdown_grace. rewrite Hy. simpl. by case_match.
Qed.

(** If no plugin is registered the shutdown returns at once and signals
    nobody, even when supervised processes are running. *)
Theorem shutdown_skips_unregistered default_grace s w :
  list_entries (registry w) = [] ->
  run (graceful_shutdown default_grace s) w = (s, w).
Proof. intros Hl. unfold run, graceful_shutdown. rewrite bind_run. unfold gets, eval, exec. simpl. by rewrite Hl. Qed.

(** The subscriptions a plugin gets from its manifest at boot do not
    survive its first disconnection: after the connection closes and the
    plugin registers again, it is subscribed to nothing. *)
Theorem boot_subscription_lost env cid e w clk' mf meta tx t :
  registry_reachable (registry w) -> rtc bus_step bus_new (event_bus w) ->
  get_by_conn_id cid (registry w) = Some e ->
  subscribed (event_bus w) (plugin_id e) t ->
  let w1 := exec (disconnect_one env cid) w in
  let w2 := exec (on_registry (register_with_device clk' (plugin_id e) cid mf tx meta)) w1 in
  get (plugin_id e) (registry w2) <> None /\ ~ subscribed (event_bus w2) (plugin_id e) t.
Proof.
  intros Hr%reachable_ok Hb%bus_reachable_ok He _ w1 w2.
  destruct (disconnect_run env cid e w He) as [Er Eb]. fold w1 in Er, Eb.
  assert (event_bus w2 = event_bus w1 /\
          registry w2 = (register_with_device clk' (plugin_id e) cid mf tx meta (registry w1)).2) as [-> ->]
    by (unfold w2; by rewrite exec_on_registry).
  rewrite Er, Eb. split.
  - destruct (unregister_then_register clk' cid e mf tx meta _ Hr He) as [e' ->]. done.
  - rewrite (proj1 (unsubscribe_all_spec _ _ _ _ Hb)). tauto.
Qed.

End Kernel.

(** ** Runs *)

Module KernelRuns.

#[local] Instance wire : WireCrate := toy_wire [].
#[local] Instance iter : HashIter := canonical_iter.
#[local] Instance gov : Governor := open_governor.
#[local] Instance json : SerdeJson := toy_json.

Definition env : Env := mkEnv (mkClock 5 1000) [] true FAbsent.
Definition meta : DeviceMeta := mkDeviceMeta EmptyString EmptyString OsUnspecified EmptyString EmptyString [].

Definition reg : PluginRegistry :=
  (register_with_device (mkClock 0 0) "tts" 1 default_manifest 101 meta registry_new).2.
Definition tts : PluginEntry := mkEntry "tts" 1 default_manifest 101 0 Registered "local" "default".

Definition w : World :=
  mkWorld reg (subscribe "tts" ["system.x"] bus_new) ∅ {[101 := mkChan 64 true []]} 7 0 0 None None ∅ [].

Lemma tts_reachable : registry_reachable (registry w).
Proof. apply rtc_once. constructor. Qed.

Lemma bus_reachable : rtc bus_step bus_new (event_bus w).
Proof. apply rtc_once, bstep_subscribe. Qed.

Lemma tts_conn : get_by_conn_id 1 (registry w) = Some tts.
Proof. by vm_compute. Qed.

Lemma disconnect_cleans_witness :
  let w' := exec (disconnect_one env 1) w in
  get "tts" (registry w') = None /\ ~ subscribed (event_bus w') "tts" "system.x".
Proof.
  intros w'. pose proof (disconnect_cleans env 1 w tts_reachable bus_reachable) as Hd.
  cbv zeta in Hd. rewrite tts_conn in Hd. destruct Hd as (_ & _ & Hg & Hs & _).
  split; [unfold w'; by rewrite Hg|]. unfold w'. rewrite Hs. by intros [_ ?].
Defined.

(** The default configuration with authentication waived. *)
Definition boot_cfg : Config :=
  mkCfg
    8000 "info" "vyn.pid" "vyn.log" "vyn-data" "vyn.sock" None true Host None None [] None default_watchdog_interval
    default_watchdog_timeout default_log_buffer_lines default_max_connections None None None None None
    None default_prune_interval_secs default_tls None None None None default_ws_register_timeout_secs
    None None default_registry_cache_ttl_secs "/tmp" default_action_timeout_ms
    default_restart_backoff_base_ms default_restart_backoff_max_ms default_grace
    default_event_max_retries default_event_retention_secs default_router_channel_capacity
    default_fragment_timeout_secs default_max_reassembly_streams default_max_conn_errors
    default_max_tracked_error_conns default_ws_handshake_timeout_secs default_max_ws_connections
    default_max_archive_bytes default_max_extracted_bytes default_max_archive_entries None.

Definition tls_io : TlsIo :=
  mkTlsIo None (fun _ => Ok ("CERT", "KEY")) (fun _ => Ok tt) (fun _ => Ok tt) (fun _ => Ok tt) (Some "/run/vyn").

Definition booted : Boot :=
  mkBoot None (Some "/run/vyn/vyn-tls/cert.pem", Some "/run/vyn/vyn-tls/key.pem") BindLocalhost None ∅.

Lemma boot_safe_witness : boot_bind booted = BindLocalhost /\ boot_validator booted = None.
Proof.
  destruct (boot_safe tls_io (fun _ => false) boot_cfg ∅ booted
              {["/run/vyn/vyn-tls/cert.pem" := "CERT"; "/run/vyn/vyn-tls/key.pem" := "KEY"]}) as (Hs & Hb & _);
    [vm_compute; reflexivity|].
  destruct Hs as (_ & Hv & _). split; [|exact Hv]. destruct Hb as [Hb|[Hb _]]; [exact Hb|discriminate Hb].
Defined.

Definition cfg : PluginConfig := mkConfig "tts" "/opt/tts" [] [] OnFailure 2 false 0 (Some 9) None FsFull [] [].
Definition s : Supervisor := (spawn_plugin cfg (Ok (mkChild (Some 10) (LineRead None) false)) sup_new).2.

Lemma graceful_shutdown_witness :
  exists f, queue_of (chans (exec (graceful_shutdown 5 s) w)) 101 = [OFrame f].
Proof.
  destruct (graceful_shutdown_notifies 5 s w) as (_ & Hq & _); [by vm_compute|].
  specialize (Hq 101). rewrite Hq by by vm_compute.
  eexists. vm_compute. reflexivity.
Defined.

Lemma shutdown_skips_witness :
  let w0 := mkWorld registry_new bus_new ∅ ∅ 0 0 0 None None ∅ [] in
  is_running "tts" s = true /\ run (graceful_shutdown 5 s) w0 = (s, w0).
Proof. split; [by vm_compute|]. by apply shutdown_skips_unregistered; vm_compute. Defined.

Lemma boot_subscription_witness :
  subscribed (event_bus w) "tts" "system.x" /\
  ~ subscribed (event_bus (exec (on_registry (register_with_device (clk env) "tts" 1 default_manifest 101 meta))
                            (exec (disconnect_one env 1) w))) "tts" "system.x".
Proof.
  assert (subscribed (event_bus w) "tts" "system.x") as Hs by by vm_compute.
  split; [done|].
  exact (proj2 (boot_subscription_lost env 1 tts w (clk env) default_manifest meta 101 "system.x"
           tts_reachable bus_reachable tts_conn Hs)).
Defined.

End KernelRuns.
