(* ===== verification/Gateway.v ===== *)
(** * The WebSocket gateway ([src/api/websocket.rs])

    Admission of an upgrade request (token, device credential, connection
    cap) and the loop of an open socket.  The HTTP upgrade itself and the
    socket belong to [axum]: whether an upgrade completes and what the socket
    receives are arguments. *)

From S2P Require Import Prelude Wire Toy Text Channel Registry Jwt DeviceStore World Sandbox Connection.

Open Scope Z_scope.

Definition MAX_WS_PARSE_ERRORS : Z := 16.
Definition WS_CONN_ID_BASE : Z := 1000000000.

(** ** Admission *)

(** The header as [HeaderValue::to_str] reads it, [None] when it is missing
    or not visible ASCII. *)
Definition extract_ws_token (header : option string) : string :=
  match header with
  | None => EmptyString
  | Some s => default EmptyString (head (filter (fun p => p <> "vynkor") (map trim (split_char ","%char s))))
  end.

(** The counters of [WsGateway]. *)
Record WsGate := mkGate {
  conn_counter : Z;
  ws_open_conns : Z;
}.

Definition gate_new : WsGate := mkGate 0 0.

(** [open_conns.fetch_add], the comparison, and the id of an admitted one. *)
Definition ws_reserve (max_connections : Z) (g : WsGate) : option Z * WsGate :=
  let prev := ws_open_conns g in
  let g := mkGate (conn_counter g) (u64_succ prev) in
  if max_connections <=? prev then (None, g)
  else (Some ((conn_counter g + WS_CONN_ID_BASE) mod 2 ^ 64), mkGate (u64_succ (conn_counter g)) (ws_open_conns g)).

(** [open_conns.fetch_sub]: a refused request backs out, a socket ends. *)
Definition ws_release (g : WsGate) : WsGate := mkGate (conn_counter g) ((ws_open_conns g - 1) mod 2 ^ 64).

Inductive WsResponse :=
| WsUnauthorized
| WsBusy
| WsUpgrade (conn_id register_timeout : Z).

Section Gateway.
Context `{WireCrate} `{JwtCrate} `{StoreCrates}.

(** The checks before a slot is reserved: [store] is the key of the device
    store. *)
Definition ws_authorise (jv : option JwtValidator) (store : option bytes) (now : Z) (file : StoreFile)
    (header : option string) : bool :=
  match jv with
  | None => true
  | Some jv =>
      match validate jv now (extract_ws_token header) with
      | Err _ => false
      | Ok claims =>
          match store with
          | None => true
          | Some key => match active_secret key now (sub claims) file with Returns (Ok _) => true | _ => false end
          end
      end
  end.

Definition ws_handler (jv : option JwtValidator) (store : option bytes) (now : Z) (file : StoreFile)
    (max_connections register_timeout_secs : Z) (header : option string) (g : WsGate) : WsResponse * WsGate :=
  if negb (ws_authorise jv store now file header) then (WsUnauthorized, g)
  else match ws_reserve max_connections g with
       | (None, g) => (WsBusy, ws_release g)
       | (Some cid, g) => (WsUpgrade cid (if is_some jv then register_timeout_secs else 0), g)
       end.

(** ** An open socket *)

Inductive WsMessage :=
| WsBinary (data : bytes)
| WsClose
| WsOther                 (** ping, pong, text *)
| WsRecvError
| WsEnd.                  (** the stream ended *)

(** The branch [select!] takes: [router_open] and [sent] are the outcomes of
    the awaited sends; [now] is the time. *)
Inductive WsEvent :=
| EvRecv (m : WsMessage) (router_open : bool)
| EvItem (item : option Outbound) (sent : bool)
| EvDeadline (now : Z).

(** The local state of [handle_socket]. *)
Record WsConn := mkWsConn {
  ws_parse_errors : Z;
  outbound_key : option bytes;
  registered : bool;
}.

Definition ws_conn_new : WsConn := mkWsConn 0 None false.

Inductive WsTurn :=
| WsGo (c : WsConn) (cells : gmap CellId bytes) (to_router : option Frame) (to_socket : option bytes)
| WsBreak.

Definition ws_deadline (start register_timeout : Z) : option Z :=
  if 0 <? register_timeout then Some (start + register_timeout * 1000000000) else None.

(** One turn of the loop of the socket with session cell [cell]. *)
Definition ws_turn (deadline : option Z) (cell : CellId) (ev : WsEvent) (c : WsConn) (cells : gmap CellId bytes)
    : WsTurn :=
  match ev with
  | EvRecv (WsBinary data) router_open =>
      match parse_frame data with
      | Ok frame =>
          if match cells !! cell with Some k => negb (mac_valid k frame) | None => false end then WsBreak
          else if router_open then WsGo c cells (Some frame) None else WsBreak
      | Err _ =>
          let errors := ws_parse_errors c + 1 in
          if MAX_WS_PARSE_ERRORS <=? errors then WsBreak
          else WsGo (mkWsConn errors (outbound_key c) (registered c)) cells None None
      end
  | EvRecv WsOther _ => WsGo c cells None None
  | EvRecv _ _ => WsBreak
  | EvItem (Some (OFrame f)) sent =>
      let f := match outbound_key c with Some k => tag_frame k f | None => f end in
      if sent then WsGo c cells None (Some (frame_to_bytes f)) else WsBreak
  | EvItem (Some (OEnableMac k cl)) _ =>
      WsGo (mkWsConn (ws_parse_errors c) (Some k) true) (<[cl := k]> cells) None None
  | EvItem None _ => WsBreak
  | EvDeadline now =>
      match deadline with
      | Some d => if (d <=? now) && negb (registered c) then WsBreak else WsGo c cells None None
      | None => WsGo c cells None None
      end
  end.

(** The loop over a sequence of branches: what went to the router and to the
    socket, and whether the connection is still open. *)
Fixpoint ws_run (deadline : option Z) (cell : CellId) (evs : list WsEvent) (c : WsConn) (cells : gmap CellId bytes)
    : list Frame * list bytes * option (WsConn * gmap CellId bytes) :=
  match evs with
  | [] => ([], [], Some (c, cells))
  | ev :: evs =>
      match ws_turn deadline cell ev c cells with
      | WsBreak => ([], [], None)
      | WsGo c cells r s =>
          let '(rs, ss, fin) := ws_run deadline cell evs c cells in
          (option_list r ++ rs, option_list s ++ ss, fin)
      end
  end.

(** ** Admission: properties *)

Lemma u64_succ_small n : 0 <= n < u64_max -> u64_succ n = n + 1.
Proof. intros Hn. unfold u64_succ, u64_max in *. apply Z.mod_small. lia. Qed.

Lemma release_succ n ctr : 0 <= n < u64_max -> ws_release (mkGate ctr (u64_succ n)) = mkGate ctr n.
Proof.
  intros Hn. unfold ws_release. cbn [conn_counter ws_open_conns]. rewrite u64_succ_small by done.
  f_equal. unfold u64_max in *. rewrite Z.mod_small by lia. lia.
Qed.

(** Who gets through the WebSocket upgrade.  An upgrade is granted only to
    a request whose token validates and whose device, when it is a known one,
    is neither revoked nor expired (or when the kernel runs without
    authentication), only below the connection cap, under the next
    connection id and with the registration deadline exactly when
    authentication is on; every refusal leaves the counters as they were. *)
Theorem ws_handler_spec jv store now file max rt header g :
  0 <= ws_open_conns g < u64_max ->
  let '(res, g') := ws_handler jv store now file max rt header g in
  let tok := extract_ws_token header in
  match res with
  | WsUnauthorized =>
      g' = g /\ exists v, jv = Some v /\
        match validate v now tok with
        | Err _ => True
        | Ok claims => exists key, store = Some key /\
            forall s, active_secret key now (sub claims) file <> Returns (Ok s)
        end
  | WsBusy => g' = g /\ max <= ws_open_conns g
  | WsUpgrade cid t =>
      ws_open_conns g < max /\ ws_open_conns g' = ws_open_conns g + 1 /\
      cid = (conn_counter g + WS_CONN_ID_BASE) mod 2 ^ 64 /\ conn_counter g' = u64_succ (conn_counter g) /\
      match jv with
      | None => t = 0
      | Some v => t = rt /\ exists claims, validate v now tok = Ok claims /\
          (forall key, store = Some key -> exists s, active_secret key now (sub claims) file = Returns (Ok s))
      end
  end.
Proof.
  intros Hg. unfold ws_handler. destruct (ws_authorise jv store now file header) eqn:Ha; cbn [negb].
  - unfold ws_reserve. cbv zeta. destruct (Z.leb_spec max (ws_open_conns g)) as [Hm|Hm].
    + rewrite release_succ by done. by destruct g.
    + cbn [ws_open_conns conn_counter]. rewrite u64_succ_small by done. split_and!; [done..|].
      unfold ws_authorise in Ha. destruct jv as [v|]; [|done]. split; [done|].
      destruct (validate v now _) as [claims|]; [|done]. exists claims. split; [done|].
      intros key ->. destruct (active_secret key now (sub claims) file) as [[s|]|]; try done. by exists s.
  - split; [done|]. unfold ws_authorise in Ha. destruct jv as [v|]; [|done]. exists v. split; [done|].
    destruct (validate v now _) as [claims|]; [|done]. destruct store as [key|]; [|done].
    exists key. split; [done|]. intros s Hs. by rewrite Hs in Ha.
Qed.

(** ** The connection cap under concurrency *)

(** The gateway with its requests in flight: refused ones that have not
    backed out, admitted ones whose upgrade is pending, open sockets, and
    the number of upgrades that failed. *)
Record GateSys := mkGateSys {
  gate : WsGate;
  backing : nat;
  upgrading : gset Z;
  live : gset Z;
  lost : nat;
}.

Definition gate_sys_new : GateSys := mkGateSys gate_new 0 ∅ ∅ 0.

(** [axum] runs the callback of [on_upgrade] only when the upgrade
    completes; after a failed one nothing of the handler runs. *)
Inductive gate_step (max : Z) : GateSys -> GateSys -> Prop :=
| gs_admit g g' cid n u l k :
    ws_reserve max g = (Some cid, g') ->
    gate_step max (mkGateSys g n u l k) (mkGateSys g' n ({[cid]} ∪ u) l k)
| gs_refuse g g' n u l k :
    ws_reserve max g = (None, g') -> gate_step max (mkGateSys g n u l k) (mkGateSys g' (S n) u l k)
| gs_back_out g n u l k :
    gate_step max (mkGateSys g (S n) u l k) (mkGateSys (ws_release g) n u l k)
| gs_upgraded g n u l k cid :
    cid ∈ u -> gate_step max (mkGateSys g n u l k) (mkGateSys g n (u ∖ {[cid]}) ({[cid]} ∪ l) k)
| gs_failed g n u l k cid :
    cid ∈ u -> gate_step max (mkGateSys g n u l k) (mkGateSys g n (u ∖ {[cid]}) l (S k))
| gs_closed g n u l k cid :
    cid ∈ l -> gate_step max (mkGateSys g n u l k) (mkGateSys (ws_release g) n u (l ∖ {[cid]}) k).

Record gate_ok (max : Z) (n : nat) (x : GateSys) : Prop := mkGateOk {
  gk_open : ws_open_conns (gate x) =
    Z.of_nat (backing x + size (upgrading x) + size (live x) + lost x);
  gk_cap : Z.of_nat (size (upgrading x) + size (live x) + lost x) <= max;
  gk_steps : 0 <= ws_open_conns (gate x) <= Z.of_nat n /\ 0 <= conn_counter (gate x) <= Z.of_nat n;
  gk_ids : forall cid, cid ∈ upgrading x ∪ live x -> WS_CONN_ID_BASE <= cid < WS_CONN_ID_BASE + conn_counter (gate x);
  gk_disj : upgrading x ## live x;
}.

Lemma size_remove (X : gset Z) z : z ∈ X -> size X = S (size (X ∖ {[z]})).
Proof.
  intros Hz. assert (X = {[z]} ∪ (X ∖ {[z]})) as HX by (apply leibniz_equiv, union_difference; set_solver).
  rewrite HX at 1. rewrite size_union, size_singleton by set_solver. done.
Qed.

Lemma size_add (X : gset Z) z : z ∉ X -> size ({[z]} ∪ X) = S (size X).
Proof. intros Hz. rewrite size_union, size_singleton by set_solver. done. Qed.

Lemma gate_step_ok max n x x' :
  Z.of_nat n + WS_CONN_ID_BASE < u64_max -> gate_ok max n x -> gate_step max x x' -> gate_ok max (S n) x'.
Proof.
  unfold u64_max, WS_CONN_ID_BASE. intros Hn [Ho Hc [Hs1 Hs2] Hi Hd] Hst.
  unfold WS_CONN_ID_BASE in Hi.
  destruct Hst as [g g' cid m u l k Hr|g g' m u l k Hr|g m u l k|g m u l k cid Hin|g m u l k cid Hin|g m u l k cid Hin];
    cbn [gate backing upgrading live lost] in *.
  1,2: unfold ws_reserve in Hr; cbv zeta in Hr; destruct (Z.leb_spec max (ws_open_conns g)); simplify_eq/=;
    rewrite ?u64_succ_small in * by (unfold u64_max; lia).
  - rewrite Z.mod_small by (unfold WS_CONN_ID_BASE; lia).
    assert (conn_counter g + WS_CONN_ID_BASE ∉ u ∪ l) as Hf by (unfold WS_CONN_ID_BASE; intros Hx%Hi; lia).
    split; cbn [gate backing upgrading live lost ws_open_conns conn_counter]; rewrite ?size_add by set_solver;
      [lia|lia|lia| |set_solver]. unfold WS_CONN_ID_BASE in *. intros cid Hx.
    assert (cid = conn_counter g + 1000000000 \/ cid ∈ u ∪ l) as [->|Hx'%Hi] by set_solver; lia.
  - split; cbn [gate backing upgrading live lost ws_open_conns conn_counter]; [lia|lia|lia| |done].
    unfold WS_CONN_ID_BASE. intros cid Hx%Hi. lia.
  - unfold ws_release. split; cbn [gate backing upgrading live lost ws_open_conns conn_counter];
      rewrite ?Z.mod_small by lia; [lia|lia|lia| |done]. unfold WS_CONN_ID_BASE. intros cid Hx%Hi. lia.
  - pose proof (size_remove u cid Hin). assert (cid ∉ l) by set_solver.
    split; cbn [gate backing upgrading live lost]; rewrite ?size_add by done; [lia|lia|lia| |set_solver].
    unfold WS_CONN_ID_BASE. intros c Hx. apply Hi. set_solver.
  - pose proof (size_remove u cid Hin).
    split; cbn [gate backing upgrading live lost]; [lia|lia|lia| |set_solver].
    unfold WS_CONN_ID_BASE. intros c Hx. apply Hi. set_solver.
  - pose proof (size_remove l cid Hin). unfold ws_release.
    split; cbn [gate backing upgrading live lost ws_open_conns conn_counter];
      rewrite ?Z.mod_small by lia; [lia|lia|lia| |set_solver].
    unfold WS_CONN_ID_BASE. intros c Hx. apply Hi. set_solver.
Qed.

Lemma gate_run_ok max n x :
  0 <= max -> Z.of_nat n + WS_CONN_ID_BASE <= u64_max -> nsteps (gate_step max) n gate_sys_new x -> gate_ok max n x.
Proof.
  intros Hm. revert x. induction n as [|n IH]; intros x Hn Hs.
  - inversion Hs; subst. split; simpl; [done|done|lia|set_solver|set_solver].
  - apply nsteps_inv_r in Hs as (y & Hs & Hst).
    eapply gate_step_ok; [|apply IH; [lia|done]|done]. lia.
Qed.

(** The WebSocket cap holds in every interleaving of requests, upgrades,
    failures and closes: pending upgrades, open sockets and failed upgrades
    together never exceed the maximum, the counter is exactly what is in
    flight, and a request is refused exactly when the counter has reached
    the maximum. *)
Theorem ws_cap_holds max n x :
  0 <= max -> Z.of_nat n + WS_CONN_ID_BASE <= u64_max -> nsteps (gate_step max) n gate_sys_new x ->
  Z.of_nat (size (upgrading x) + size (live x) + lost x) <= max /\
  ws_open_conns (gate x) = Z.of_nat (backing x + size (upgrading x) + size (live x) + lost x) /\
  ((ws_reserve max (gate x)).1 = None <-> max <= ws_open_conns (gate x)) /\
  (forall cid, (ws_reserve max (gate x)).1 = Some cid -> Z.of_nat (S n) + WS_CONN_ID_BASE <= u64_max ->
     cid ∉ upgrading x ∪ live x).
Proof.
  intros Hm Hn Hs. destruct (gate_run_ok max n x Hm Hn Hs) as [Ho Hc Hst Hi Hd]. split_and!; [done|done| |].
  - unfold ws_reserve. cbv zeta. destruct (Z.leb_spec max (ws_open_conns (gate x))); simpl; [done|].
    split; [done|lia].
  - intros cid. unfold ws_reserve. cbv zeta. destruct (Z.leb_spec max (ws_open_conns (gate x))); simpl; [done|].
    intros [= <-] Hb Hx%Hi. unfold WS_CONN_ID_BASE, u64_max in *. rewrite Z.mod_small in Hx by lia. lia.
Qed.

(** An upgrade that fails after the slot was reserved never gives the
    slot back: once as many upgrades have failed as there are slots, every
    later request is refused, for ever. *)
Theorem ws_failed_upgrades_lock_out max n m x x' :
  0 <= max -> Z.of_nat (n + m) + WS_CONN_ID_BASE <= u64_max ->
  nsteps (gate_step max) n gate_sys_new x -> Z.of_nat (lost x) = max ->
  nsteps (gate_step max) m x x' ->
  (ws_reserve max (gate x')).1 = None.
Proof.
  intros Hm Hn Hs Hl Hs'.
  assert (Z.of_nat (lost x) <= Z.of_nat (lost x')) as Hmono.
  { clear -Hs'. induction Hs' as [|m x y z Hst Hs IH]; [done|]. destruct Hst; simpl in *; lia. }
  assert (nsteps (gate_step max) (n + m) gate_sys_new x') as Hall by by eapply nsteps_trans.
  destruct (gate_run_ok max (n + m) x' Hm Hn Hall) as [Ho _ _ _ _].
  unfold ws_reserve. cbv zeta. destruct (Z.leb_spec max (ws_open_conns (gate x'))); simpl; [done|lia].
Qed.

(** ** The socket: properties *)

Definition ev_item (ev : WsEvent) : option Outbound := match ev with EvItem o _ => o | _ => None end.

Definition arms (ev : WsEvent) : bool :=
  match ev_item ev with Some (OEnableMac _ _) => true | _ => false end.

(** A binary message that is not a frame. *)
Definition bad_message (ev : WsEvent) : bool :=
  match ev with EvRecv (WsBinary data) _ => is_err (parse_frame data) | _ => false end.






Lemma ws_turn_count d cell ev c cells c' cells' r s :
  ws_turn d cell ev c cells = WsGo c' cells' r s -> ws_parse_errors c < MAX_WS_PARSE_ERRORS ->
  ws_parse_errors c' = ws_parse_errors c + (if bad_message ev then 1 else 0) /\
  ws_parse_errors c' < MAX_WS_PARSE_ERRORS /\ registered c' = registered c || arms ev.
Proof.
  destruct ev as [[data| | | |] ro|[[f|k cl]|] sent|now]; simpl; try done; unfold bad_message, arms; simpl.
  - destruct (parse_frame data) as [f|] eqn:Hp.
    + destruct (match cells !! cell with Some _ => _ | None => _ end); [done|]. destruct ro; [|done].
      intros [= <- <- <- <-] ?. rewrite Z.add_0_r, orb_false_r. done.
    + destruct (Z.leb_spec MAX_WS_PARSE_ERRORS (ws_parse_errors c + 1)); [done|].
      intros [= <- <- <- <-] ?. simpl. by rewrite orb_false_r.
  - intros [= <- <- <- <-] ?. by rewrite Z.add_0_r, orb_false_r.
  - destruct sent; [|done]. intros [= <- <- <- <-] ?. by rewrite Z.add_0_r, orb_false_r.
  - intros [= <- <- <- <-] ?. simpl. by rewrite Z.add_0_r, orb_true_r.
  - destruct d as [d|]; [destruct ((d <=? now) && _); [done|]|]; intros [= <- <- <- <-] ?;
      by rewrite Z.add_0_r, orb_false_r.
Qed.

Lemma ws_run_count d cell evs c cells rs ss c' cells' :
  ws_run d cell evs c cells = (rs, ss, Some (c', cells')) -> ws_parse_errors c < MAX_WS_PARSE_ERRORS ->
  ws_parse_errors c' = ws_parse_errors c + Z.of_nat (length (filter (fun ev => bad_message ev = true) evs)) /\
  ws_parse_errors c' < MAX_WS_PARSE_ERRORS /\
  registered c' = registered c || existsb arms evs /\
  (forall dl now, d = Some dl -> EvDeadline now ∈ evs -> dl <= now -> registered c' = true).
Proof.
  revert c cells rs ss. induction evs as [|ev evs IH]; intros c cells rs ss; simpl.
  - intros [= _ _ <- _] Hc. rewrite Z.add_0_r, orb_false_r. split_and!; [done..|]. set_solver.
  - destruct (ws_turn d cell ev c cells) as [c1 cells1 r s|] eqn:Ht; [|done].
    destruct (ws_run d cell evs c1 cells1) as [[rs1 ss1] fin1] eqn:Hrun. intros [= _ _ ->] Hc.
    destruct (ws_turn_count _ _ _ _ _ _ _ _ _ Ht Hc) as (E1 & L1 & R1).
    destruct (IH _ _ _ _ Hrun L1) as (E2 & L2 & R2 & D2). split_and!; [|done| |].
    + rewrite E2, E1. destruct (bad_message ev) eqn:Hb; [rewrite filter_cons_True by done|rewrite filter_cons_False by congruence];
        simpl; lia.
    + by rewrite R2, R1, orb_assoc.
    + intros dl now Hd [<-|Hin]%elem_of_cons Hle; [|by eapply D2]. rewrite R2, R1.
      simpl in Ht. rewrite Hd in Ht. rewrite (proj2 (Z.leb_le dl now)) in Ht by done.
      destruct (registered c); [done|]. done.
Qed.

(** The limits on an open WebSocket connection: as long as it is open it
    has received fewer than sixteen messages that are not frames, counted
    exactly; it counts as registered exactly if its MAC was activated; and
    if its registration deadline has fired, it was registered by then. *)
Theorem ws_run_limits d cell evs cells rs ss c cells' :
  ws_run d cell evs ws_conn_new cells = (rs, ss, Some (c, cells')) ->
  ws_parse_errors c = Z.of_nat (length (filter (fun ev => bad_message ev = true) evs)) /\
  ws_parse_errors c < MAX_WS_PARSE_ERRORS /\
  (registered c = true <-> exists k cl sent, EvItem (Some (OEnableMac k cl)) sent ∈ evs) /\
  (forall dl now, d = Some dl -> EvDeadline now ∈ evs -> dl <= now ->
     exists k cl sent, EvItem (Some (OEnableMac k cl)) sent ∈ evs).
Proof.
  intros Hrun. destruct (ws_run_count _ _ _ _ _ _ _ _ _ Hrun) as (E & L & R & D); [done|].
  assert (registered c = true <-> exists k cl sent, EvItem (Some (OEnableMac k cl)) sent ∈ evs) as Hreg.
  { rewrite R. simpl. rewrite existsb_exists. split.
    - intros (ev & Hin%list_elem_of_In & Ha). destruct ev as [|[[|k cl]|] sent|]; try done. eauto.
    - intros (k & cl & sent & Hin). eexists. split; [by apply list_elem_of_In|done]. }
  split_and!; [by rewrite E|done|done|]. intros dl now Hd Hin Hle. apply Hreg. by eapply D.
Qed.

End Gateway.

(** ** Runs *)
Module GatewayRuns.

(** One message is a frame with a tag under the key [1; 2; 3], every other
    is not a frame. *)
Definition key : bytes := [1; 2; 3].
Definition inbound : Frame := mkFrame 0x5652 1 1 [] 0 [4] (Some [40]).
Definition read (b : bytes) : Result WireError Frame := if b ==? [9] then Ok inbound else Err WFrameMagicMismatch.

#[local] Instance wire : WireCrate := toy_wire_with read [].
#[local] Instance laws : WireLaws := toy_laws_with read [].
#[local] Instance jwt : JwtCrate := JwtRuns.crate.
#[local] Instance store : StoreCrates := CredentialRuns.crates.

Definition jv : JwtValidator := with_audience JwtRuns.k0 (Some "host").

(** The same token, before and after the device is revoked. *)
Lemma ws_handler_witness :
  let h f := ws_handler (Some jv) (Some CredentialRuns.key) 1050 f 8 10 (Some "vynkor, tok") gate_new in
  (h (FText "[one]")).1 = WsUpgrade 1000000000 10 /\ (h (FText "[revoked]")).2 = gate_new.
Proof.
  split; [vm_compute; reflexivity|].
  pose proof (ws_handler_spec (Some jv) (Some CredentialRuns.key) 1050 (FText "[revoked]") 8 10
                (Some "vynkor, tok") gate_new) as Hh.
  destruct (ws_handler (Some jv) (Some CredentialRuns.key) 1050 (FText "[revoked]") 8 10
              (Some "vynkor, tok") gate_new) as [res g'] eqn:E.
  assert (res = WsUnauthorized) as -> by (vm_compute in E; by injection E).
  apply Hh. done.
Defined.

Definition admitted : GateSys := mkGateSys (mkGate 1 1) 0 {[1000000000]} ∅ 0.
Definition failed : GateSys := mkGateSys (mkGate 1 1) 0 ({[1000000000]} ∖ {[1000000000]}) ∅ 1.

Lemma admit_step : gate_step 1 gate_sys_new admitted.
Proof.
  assert (admitted = mkGateSys (mkGate 1 1) 0 ({[1000000000]} ∪ ∅) ∅ 0) as -> by (vm_compute; reflexivity).
  apply gs_admit. by vm_compute.
Qed.

Lemma ws_cap_witness :
  ws_open_conns (gate admitted) = 1 /\ (ws_reserve 1 (gate admitted)).1 = None.
Proof.
  split; [reflexivity|].
  destruct (ws_cap_holds 1 1 admitted) as (_ & _ & Hr & _);
    [lia|vm_compute; discriminate|by eapply nsteps_once, admit_step|]. by apply Hr.
Defined.

Lemma ws_lock_out_witness : (ws_reserve 1 (gate failed)).1 = None.
Proof.
  apply (ws_failed_upgrades_lock_out 1 2 0 failed failed);
    [lia|vm_compute; discriminate| |reflexivity|constructor].
  eapply nsteps_l; [apply admit_step|]. apply nsteps_once, gs_failed. by apply elem_of_singleton.
Defined.



Lemma ws_run_limits_witness :
  let evs := [EvRecv (WsBinary [0]) true; EvItem (Some (OEnableMac key 5)) true; EvDeadline 20] in
  exists rs ss c cells, ws_run (Some 10) 5 evs ws_conn_new ∅ = (rs, ss, Some (c, cells)) /\
    ws_parse_errors c = 1 /\ registered c = true.
Proof.
  intros evs. eexists _, _, (mkWsConn 1 (Some key) true), {[5 := key]}.
  split; [vm_compute; reflexivity|]. split; [reflexivity|].
  apply (ws_run_limits (Some 10) 5 evs ∅ [] [] (mkWsConn 1 (Some key) true) {[5 := key]});
    [vm_compute; reflexivity|]. exists key, 5, true. unfold evs. set_solver.
Defined.

End GatewayRuns.
