(* ===== verification/Api.v ===== *)
(** * The REST interface ([src/api/])

    The routes of [routes.rs] behind the layers of [middleware.rs] and
    [rate_limit.rs], composed as [create_router_full] composes them:
    authentication, then the rate limit per token, then, for the lifecycle
    routes, the administrator check.  HTTP itself belongs to [axum]: a
    request is its route and its [Authorization] header. *)

From S2P Require Import Prelude Wire Toy Text Channel Registry RegistryFacts Permissions Jwt DeviceStore EventStore World EventBus Commands Router RouterFacts Sandbox Config TopoSort Supervisor Loader Kernel.

Open Scope Z_scope.

(** ** Requests and responses *)

Inductive Route :=
| RHealth
| RMetrics
| RPlugins
| RPlugin (id : string)
| RLogs (id : string) (lines : option nat)
| RDevices
| RStart (id : string)
| RStop (id : string)
| RRestart (id : string).

#[export] Instance Route_eq_dec : EqDecision Route.
Proof. solve_decision. Defined.

(** The header as [to_str] reads it. *)
Record Request := mkRequest {
  rq_route : Route;
  rq_authorization : option string;
}.

Record PluginInfo := mkPluginInfo {
  pi_plugin_id : string;
  pi_state : string;
  pi_registered_at : Z;
  pi_permissions : list string;
  pi_device_id : string;
  pi_last_seen : Z;
}.

Record DeviceInfoView := mkDeviceView {
  dv_device_id : string;
  dv_os : string;
  dv_arch : string;
  dv_os_version : string;
  dv_capabilities : list string;
  dv_last_seen : Z;
  dv_state : string;
  dv_created : Z;
  dv_expires : Z;
}.

Inductive Body :=
| BEmpty
| BText (s : string)
| BError (code : Z) (message : string) (retryable : bool)
| BHealth (uptime_secs : Z) (plugins : nat)
| BPlugins (l : list PluginInfo)
| BPlugin (p : PluginInfo)
| BDevices (l : list DeviceInfoView)
| BLogs (l : list string).

Record Response := mkResponse {
  rs_status : Z;
  rs_body : Body;
}.

Definition api_error (code : Z) (msg : string) : Response := mkResponse code (BError code msg false).
Definition not_found (msg : string) : Response := api_error 404 msg.
Definition conflict (msg : string) : Response := api_error 409 msg.
Definition unprocessable (msg : string) : Response := api_error 422 msg.
Definition forbidden (msg : string) : Response := api_error 403 msg.

Definition MAX_LOG_LINES : nat := Z.to_nat 10000.

Definition is_lifecycle (r : Route) : bool :=
  match r with RStart _ | RStop _ | RRestart _ => true | _ => false end.

Section Api.
Context `{HashIter} `{WireCrate} `{Governor} `{SerdeJson} `{JwtCrate} `{ManifestCrate}.

(** [AppState], with the metrics text. *)
Record AppState := mkApp {
  app_validator : option JwtValidator;
  started_at : Z;
  plugin_defs : list PluginDef;
  metrics_text : string;
}.

(** What the handlers act on: the kernel state and the supervisor behind the
    manager, and the limiter, present when tokens are checked. *)
Record Api := mkApi {
  api_world : World;
  api_sup : Supervisor;
  api_limiter : option (KeyedLimiter string);
}.

(** The operating system's part of a request: the result of a process
    creation, and whether a stopped process exits in its grace. *)
Record OsReply := mkOsReply {
  os_spawned : Result (string * bool) Child;
  os_exits : bool;
}.

(** ** Handlers *)

Definition health_check (app : AppState) (now : Z) (a : Api) : Response :=
  mkResponse 200 (BHealth (elapsed_secs (started_at app) now) (length (list_entries (registry (api_world a))))).

Definition last_seen_of (r : PluginRegistry) (e : PluginEntry) : Z :=
  match get_device (device_id e) r with Some d => dev_last_seen d | None => 0 end.

Definition plugin_info (r : PluginRegistry) (e : PluginEntry) : PluginInfo :=
  mkPluginInfo (plugin_id e) (plugin_state_str (state e)) (registered_at e) (permissions (manifest e))
    (device_id e) (last_seen_of r e).

Definition list_plugins (a : Api) : Response :=
  let r := registry (api_world a) in mkResponse 200 (BPlugins (map (plugin_info r) (list_entries r))).

Definition get_plugin (id : string) (a : Api) : Response :=
  let r := registry (api_world a) in
  match get id r with
  | Some e => mkResponse 200 (BPlugin (plugin_info r e))
  | None => mkResponse 404 BEmpty
  end.

Definition device_view (d : DeviceInfo) : DeviceInfoView :=
  mkDeviceView (dev_device_id d) (device_os_str (dev_os d)) (dev_arch d) (dev_os_version d) (dev_capabilities d)
    (dev_last_seen d) (device_state_str (dev_state d)) (dev_created d) (dev_expires d).

Definition list_devices_view (a : Api) : Response :=
  mkResponse 200 (BDevices (map device_view (list_devices (registry (api_world a))))).

Definition start_plugin (app : AppState) (os : OsReply) (id : string) (a : Api) : Response * Api :=
  if is_running id (api_sup a) then (conflict ("plugin '" +:+ id +:+ "' is already running"), a)
  else match find_def (plugin_defs app) id with
       | None => (not_found ("plugin '" +:+ id +:+ "' is not declared in config"), a)
       | Some def =>
           match validate_plugin_def def with
           | Err (EPermissionDenied _) => (forbidden "plugin requests a permission not granted by config", a)
           | Err _ => (unprocessable "plugin definition failed validation", a)
           | Ok _ =>
               let '(res, s) := spawn_plugin (config_from_def def) (os_spawned os) (api_sup a) in
               (match res with
                | Ok _ => mkResponse 200 BEmpty
                | Err _ => unprocessable ("failed to start plugin '" +:+ id +:+ "'")
                end, mkApi (api_world a) s (api_limiter a))
           end
       end.

(** [PluginManager::stop]: the process is stopped, escalated if need be, and
    the registration goes in any case. *)
Definition manager_stop (os : OsReply) (id : string) (a : Api) : Result VynkorError unit * Api :=
  let '(res, s) := Supervisor.stop_plugin id (api_sup a) in
  let s := match res with Ok e => stop_escalate e (os_exits os) s | Err _ => s end in
  (_ ← res; Ok tt, mkApi (upd_registry (unregister id) (api_world a)) s (api_limiter a)).

Definition stop_plugin (os : OsReply) (id : string) (a : Api) : Response * Api :=
  match get id (registry (api_world a)) with
  | None => (not_found ("plugin '" +:+ id +:+ "' is not registered"), a)
  | Some _ =>
      let '(res, a) := manager_stop os id a in
      (match res with
       | Ok _ => mkResponse 200 BEmpty
       | Err (EPluginNotFound _) => not_found ("plugin '" +:+ id +:+ "' exited before stop completed")
       | Err _ => unprocessable ("failed to stop plugin '" +:+ id +:+ "'")
       end, a)
  end.

Definition restart_plugin (id : string) (a : Api) : Response * Api :=
  match get id (registry (api_world a)) with
  | None => (not_found ("plugin '" +:+ id +:+ "' is not registered"), a)
  | Some _ =>
      let '(res, s) := Supervisor.restart_plugin id (api_sup a) in
      (match res with
       | Ok _ => mkResponse 202 BEmpty
       | Err _ => unprocessable ("failed to restart plugin '" +:+ id +:+ "'")
       end, mkApi (api_world a) s (api_limiter a))
  end.

Definition get_plugin_logs (id : string) (lines : option nat) (a : Api) : Response :=
  if negb (is_some (get id (registry (api_world a)))) && negb (is_running id (api_sup a))
  then not_found ("plugin '" +:+ id +:+ "' is not registered")
  else mkResponse 200 (BLogs (get_logs id (Nat.min (default 100%nat lines) MAX_LOG_LINES) (api_sup a))).

Definition handle_route (app : AppState) (now : Z) (os : OsReply) (r : Route) (a : Api) : Response * Api :=
  match r with
  | RHealth => (health_check app now a, a)
  | RMetrics => (mkResponse 200 (BText (metrics_text app)), a)
  | RPlugins => (list_plugins a, a)
  | RPlugin id => (get_plugin id a, a)
  | RLogs id lines => (get_plugin_logs id lines a, a)
  | RDevices => (list_devices_view a, a)
  | RStart id => start_plugin app os id a
  | RStop id => stop_plugin os id a
  | RRestart id => restart_plugin id a
  end.

(** ** Layers *)

(** [auth_middleware]: the verified claims, [None] when tokens are off. *)
Definition auth_middleware (app : AppState) (now : Z) (header : option string) : Result Z (option PluginClaims) :=
  match app_validator app with
  | None => Ok None
  | Some jv =>
      match header ≫= strip_prefix "Bearer " with
      | None => Err 401
      | Some token => match validate jv now token with Ok claims => Ok (Some claims) | Err _ => Err 401 end
      end
  end.

(** [rate_limit_middleware], keyed by the verified subject; [instant_now] is
    the limiter's clock. *)
Definition rate_limit_middleware (instant_now : Z) (claims : option PluginClaims) (a : Api) : bool * Api :=
  match api_limiter a, claims with
  | Some l, Some c =>
      let '(ok, l) := check_key instant_now (sub c) l in (ok, mkApi (api_world a) (api_sup a) (Some l))
  | _, _ => (true, a)
  end.

Definition require_kernel_admin (claims : option PluginClaims) : bool :=
  match claims with
  | None => true
  | Some c => existsb (fun p => p ==? perm_as_str_name PermissionKernelAdmin) (claim_permissions c)
  end.

(** [create_router_full]: the layers around the routes. *)
Definition serve (app : AppState) (clk : Clock) (os : OsReply) (rq : Request) (a : Api) : Response * Api :=
  let r := rq_route rq in
  match r with
  | RHealth => handle_route app (instant clk) os r a
  | _ =>
      match auth_middleware app (unix_secs clk) (rq_authorization rq) with
      | Err status => (mkResponse status BEmpty, a)
      | Ok claims =>
          let '(ok, a) := rate_limit_middleware (instant clk) claims a in
          if negb ok then (mkResponse 429 (BText "Too Many Requests"), a)
          else if is_lifecycle r && negb (require_kernel_admin claims) then (mkResponse 403 BEmpty, a)
          else handle_route app (instant clk) os r a
      end
  end.

(** ** Properties *)

(** The request carries a token that validates. *)
Definition bears (jv : JwtValidator) (now : Z) (rq : Request) (claims : PluginClaims) : Prop :=
  exists token, rq_authorization rq = Some ("Bearer " +:+ token) /\ validate jv now token = Ok claims.

Lemma auth_middleware_ok app now rq claims :
  auth_middleware app now (rq_authorization rq) = Ok claims ->
  match app_validator app with
  | None => claims = None
  | Some jv => exists c, claims = Some c /\ bears jv now rq c
  end.
Proof.
  unfold auth_middleware, bears. destruct (app_validator app) as [jv|]; [|by intros [= <-]].
  destruct (rq_authorization rq) as [h|] eqn:Hh; [|done].
  change (Some h ≫= strip_prefix "Bearer ") with (strip_prefix "Bearer " h).
  destruct (strip_prefix "Bearer " h) as [token|] eqn:Hs; [|done].
  destruct (validate jv now token) as [c|] eqn:Hv; [|done]. intros [= <-].
  exists c. split; [done|]. exists token. by apply strip_prefix_Some in Hs as ->.
Qed.

Lemma rate_limit_frame t claims a ok a' :
  rate_limit_middleware t claims a = (ok, a') -> api_world a' = api_world a /\ api_sup a' = api_sup a.
Proof.
  unfold rate_limit_middleware. destruct (api_limiter a) as [l|]; [destruct claims as [c|]|]; try by intros [= <- <-].
  destruct (check_key t (sub c) l) as [b l']. by intros [= <- <-].
Qed.

Lemma handle_route_reads app t os r a :
  is_lifecycle r = false -> (handle_route app t os r a).2 = a.
Proof. by destruct r. Qed.

(** How a request other than [/health] goes through the layers: refused by
    one of them, or handled. *)
Lemma serve_inv app clk os rq a resp a' :
  rq_route rq <> RHealth -> serve app clk os rq a = (resp, a') ->
  (exists st, auth_middleware app (unix_secs clk) (rq_authorization rq) = Err st /\ resp = mkResponse st BEmpty /\ a' = a) \/
  exists claims a1, auth_middleware app (unix_secs clk) (rq_authorization rq) = Ok claims /\
    api_world a1 = api_world a /\ api_sup a1 = api_sup a /\
    ((rs_status resp = 429 /\ a' = a1) \/
     (is_lifecycle (rq_route rq) = true /\ require_kernel_admin claims = false /\ rs_status resp = 403 /\ a' = a1) \/
     ((is_lifecycle (rq_route rq) = true -> require_kernel_admin claims = true) /\
      handle_route app (instant clk) os (rq_route rq) a1 = (resp, a'))).
Proof.
  intros Hr. unfold serve.
  assert (forall X Y : Response * Api, match rq_route rq with RHealth => X | _ => Y end = Y) as ->
    by (by destruct (rq_route rq)).
  destruct (auth_middleware app (unix_secs clk) (rq_authorization rq)) as [claims|st].
  2: { intros [= <- <-]. left. by exists st. }
  destruct (rate_limit_middleware (instant clk) claims a) as [ok a1] eqn:Hrl.
  destruct (rate_limit_frame _ _ _ _ _ Hrl) as [Hw Hs]. intros Hserve. right. exists claims, a1.
  split_and!; [done..|]. destruct ok; cbn [negb] in Hserve; [|injection Hserve as <- <-; by left]. right.
  destruct (is_lifecycle (rq_route rq)), (require_kernel_admin claims); cbn [negb andb] in Hserve;
    try (by right); injection Hserve as <- <-; by left.
Qed.

Lemma admin_listed c :
  require_kernel_admin (Some c) = true -> perm_as_str_name PermissionKernelAdmin ∈ claim_permissions c.
Proof. intros (p & Hin%list_elem_of_In & Hp)%existsb_exists. bools. by subst. Qed.

(** C23: authorisation of the REST interface.  The kernel state or the process
    table changes only through a start, stop or restart route, and, when
    tokens are checked, only for a request whose token validates and lists
    the administrator permission; every other answer than a refusal, health
    apart, requires a valid token; a reading route changes nothing. *)
Theorem serve_authorised app clk os rq a :
  let '(resp, a') := serve app clk os rq a in
  ((api_world a' = api_world a /\ api_sup a' = api_sup a) \/
   (is_lifecycle (rq_route rq) = true /\
    match app_validator app with
    | None => True
    | Some jv => exists claims, bears jv (unix_secs clk) rq claims /\
                                perm_as_str_name PermissionKernelAdmin ∈ claim_permissions claims
    end)) /\
  (rq_route rq = RHealth \/ rs_status resp = 401 \/
   match app_validator app with
   | None => True
   | Some jv => exists claims, bears jv (unix_secs clk) rq claims
   end).
Proof.
  destruct (serve app clk os rq a) as [resp a'] eqn:Hserve.
  destruct (decide (rq_route rq = RHealth)) as [Hr|Hr].
  { unfold serve in Hserve. rewrite Hr in Hserve. injection Hserve as _ <-. by split; left. }
  destruct (serve_inv _ _ _ _ _ _ _ Hr Hserve) as [(st & Ha & -> & ->)|(claims & a1 & Ha & Hw & Hs & Hcase)].
  { split; [by left|]. right. left. simpl. unfold auth_middleware in Ha. by split_cases_in Ha. }
  pose proof (auth_middleware_ok _ _ _ _ Ha) as Hc.
  split; [|right; right; destruct (app_validator app); [destruct Hc as (c & _ & ?); by exists c|done]].
  destruct Hcase as [[_ ->]|[(_ & _ & _ & ->)|[Hk Hh]]]; [by left..|].
  destruct (is_lifecycle (rq_route rq)) eqn:Hl.
  - right. split; [done|]. destruct (app_validator app); [|done]. destruct Hc as (c & -> & Hbe).
    exists c. split; [done|]. by apply admin_listed, Hk.
  - left. pose proof (handle_route_reads app (instant clk) os (rq_route rq) a1 Hl) as Hread.
    rewrite Hh in Hread. simpl in Hread. by subst a'.
Qed.

(** A start over the REST interface runs only what the configuration
    declares: the process table changes at most by the spawn of the
    configured definition of that id, which passed validation and was not
    running; success means the plugin is supervised. *)
Theorem start_runs_configured app os id a :
  let '(resp, a') := start_plugin app os id a in
  api_world a' = api_world a /\
  (rs_status resp = 200 -> is_running id (api_sup a') = true) /\
  (a' = a \/ exists def m, def ∈ plugin_defs app /\ def_id def = id /\ validate_plugin_def def = Ok m /\
     is_running id (api_sup a) = false /\
     api_sup a' = (spawn_plugin (config_from_def def) (os_spawned os) (api_sup a)).2).
Proof.
  unfold start_plugin. destruct (is_running id (api_sup a)) eqn:Hr; [split_and!; [done|done|by left]|].
  destruct (find_def (plugin_defs app) id) as [def|] eqn:Hf; [|split_and!; [done|done|by left]].
  pose proof (find_def_id _ _ _ Hf) as Hid.
  assert (def ∈ plugin_defs app) as Hin.
  { unfold find_def in Hf. apply head_Some_elem_of in Hf. by apply list_elem_of_filter in Hf as [_ ?]. }
  destruct (validate_plugin_def def) as [m|e] eqn:Hv; [|by destruct e; split_and!; try done; left].
  destruct (spawn_plugin (config_from_def def) (os_spawned os) (api_sup a)) as [res s] eqn:Hsp.
  split_and!; [done| |].
  - destruct res as [p|]; [|done]. intros _. simpl.
    unfold spawn_plugin, spawn_internal, spawn_begin in Hsp. simpl in Hsp. rewrite Hid in Hsp.
    unfold is_running in Hr. rewrite Hr in Hsp. unfold spawn_commit in Hsp.
    destruct (os_spawned os) as [c|[e cg]]; [|done].
    destruct (spawn_pids _ _ c) as [[[p' shim]|] fx]; [|done]. injection Hsp as _ <-.
    unfold is_running. simpl. by rewrite Hid, lookup_insert_eq.
  - right. exists def, m. split_and!; try done. simpl. by rewrite Hsp.
Qed.

(** A stop over the REST interface needs a registration, not a process: a
    supervised plugin that is not registered, such as one that hangs before
    it connects, is answered 404 and keeps running. *)
Theorem stop_needs_registration os id a :
  is_running id (api_sup a) = true -> get id (registry (api_world a)) = None ->
  let '(resp, a') := stop_plugin os id a in
  rs_status resp = 404 /\ a' = a /\ is_running id (api_sup a') = true.
Proof. intros Hs Hg. unfold stop_plugin. by rewrite Hg. Qed.

(** A plugin stopped over the REST interface keeps its subscriptions: the
    stop removes its registration, so when its connection closes the
    disconnect loop no longer finds it and neither announces its departure
    nor drops its subscriptions. *)
Theorem stop_leaks_subscriptions os env id e a t :
  registry_reachable (registry (api_world a)) ->
  get id (registry (api_world a)) = Some e ->
  subscribed (event_bus (api_world a)) id t ->
  let a' := (stop_plugin os id a).2 in
  get id (registry (api_world a')) = None /\
  exec (disconnect_one env (conn_id e)) (api_world a') = api_world a' /\
  subscribed (event_bus (api_world a')) id t.
Proof.
  intros Hr%reachable_ok Hg Hs a'. unfold get in Hg.
  assert (api_world a' = upd_registry (unregister id) (api_world a)) as Hw.
  { unfold a', stop_plugin, get. rewrite Hg. unfold manager_stop.
    destruct (Supervisor.stop_plugin id (api_sup a)) as [res s]. done. }
  destruct (unregister_fields id e _ Hg) as (F1 & F2 & _).
  rewrite Hw. cbn [registry event_bus upd_registry]. split_and!; [|..|done].
  - unfold get. by rewrite F1, lookup_delete_eq.
  - unfold disconnect_one. rewrite exec_gets. cbn [registry upd_registry]. unfold get_by_conn_id.
    rewrite F2, lookup_delete_eq. done.
Qed.

End Api.

(** ** Runs *)
Module ApiRuns.

Import KernelRuns.

#[local] Instance wire : WireCrate := toy_wire [].
#[local] Instance iter : HashIter := canonical_iter.
#[local] Instance gov : Governor := open_governor.
#[local] Instance json : SerdeJson := toy_json.
#[local] Instance jwt : JwtCrate := JwtRuns.crate.
#[local] Instance manifests : ManifestCrate := {| path_exists _ := false; validate_manifest _ := Err WFrameMagicMismatch |}.

Definition os : OsReply := mkOsReply (Err ("enoent", false)) true.

(** The plugin [tts] of the kernel's runs, registered, subscribed and
    supervised. *)
Definition api : Api := mkApi KernelRuns.w KernelRuns.s None.

Lemma stop_leaks_witness :
  subscribed (event_bus (api_world (stop_plugin os "tts" api).2)) "tts" "system.x" /\
  is_running "tts" (api_sup (stop_plugin os "tts" api).2) = false.
Proof.
  split; [|vm_compute; reflexivity].
  apply (stop_leaks_subscriptions os KernelRuns.env "tts" KernelRuns.tts api "system.x");
    [apply KernelRuns.tts_reachable|by vm_compute|by vm_compute].
Defined.

(** Before [tts] registered. *)
Definition api0 : Api := mkApi (mkWorld registry_new bus_new ∅ ∅ 0 0 0 None None ∅ []) KernelRuns.s None.

Lemma stop_needs_registration_witness : (stop_plugin os "tts" api0).2 = api0.
Proof.
  pose proof (stop_needs_registration os "tts" api0) as Hs.
  destruct (stop_plugin os "tts" api0) as [resp a'] eqn:E.
  by destruct Hs as (_ & -> & _); [vm_compute; reflexivity|vm_compute; reflexivity|].
Defined.

(** A valid token without the permission is refused. *)
Example admin_needed :
  (serve (mkApp (Some (with_audience JwtRuns.k0 (Some "host"))) 0 [] EmptyString) (mkClock 0 1050000) os
     (mkRequest (RStop "tts") (Some "Bearer tok")) api).1 = mkResponse 403 BEmpty.
Proof. vm_compute. reflexivity. Qed.

(** The two administrator checks disagree on the short spelling: the router
    accepts [kernel_admin] from a plugin, the REST layer does not from its
    token. *)
Theorem admin_spelling_differs :
  let mf := mkManifest ["kernel_admin"] [] [] [] [] [] in
  let r := (register (mkClock 0 0) "ctl" 1 mf 101 EmptyString EmptyString registry_new).2 in
  is_ok (check_permission r "ctl" PermissionKernelAdmin) = true /\
  require_kernel_admin (Some (mkClaims "ctl" ["kernel_admin"] [] 0 0 None None)) = false.
Proof. split; vm_compute; reflexivity. Qed.

End ApiRuns.
