(* ===== verification/ApiServer.v ===== *)
(** * The API server ([src/api/server.rs])

    What [create_router_full] builds from its configuration: the REST
    application with its limiter, and the WebSocket endpoint, when its
    channels are given; and the task of [spawn_rate_limiter_prune], which
    evicts idle keys from the limiter between requests.  The limiter itself
    belongs to [governor]; its documented behaviour is [GovernorLaws]. *)

From S2P Require Import Prelude Wire Toy Text Channel Registry RegistryFacts Permissions Jwt DeviceStore EventStore World EventBus Commands Router RouterFacts Sandbox Config TopoSort Supervisor Loader Kernel Api Gateway.

Open Scope Z_scope.

(** [Quota::per_second(rps).allow_burst(burst)]. *)
Class BurstQuota `{Governor} := limiter_burst : forall {K}, Z -> Z -> KeyedLimiter K.

(** Two limiters are [alike t] when they give the same answers from the time
    [t] on; [retain_recent] drops only keys whose state is that of a key
    never seen. *)
Class GovernorLaws `{Governor} := {
  alike : forall {K}, Z -> KeyedLimiter K -> KeyedLimiter K -> Prop;
  alike_equiv : forall K t, Equivalence (@alike K t);
  alike_later : forall K t t' (l l' : KeyedLimiter K), t <= t' -> alike t l l' -> alike t' l l';
  alike_check : forall K t (k : K) (l l' : KeyedLimiter K), alike t l l' ->
    (check_key t k l).1 = (check_key t k l').1 /\ alike t (check_key t k l).2 (check_key t k l').2;
  retain_alike : forall K t (l : KeyedLimiter K), alike t (retain_recent t l) l;
}.

Section Server.
Context `{HashIter} `{WireCrate} `{Governor} `{SerdeJson} `{JwtCrate} `{ManifestCrate} `{StoreCrates} `{!BurstQuota}.

(** ** Building *)

(** [RouterConfig] but for the manager, whose registry and supervisor are the
    state of [Api]. *)
Record RouterConfig := mkRouterConfig {
  rc_validator : option JwtValidator;
  rc_device_store : option bytes;
  rc_router_tx : option ChanId;
  rc_disconnect_tx : option ChanId;
  rc_started_at : Z;
  rc_rate_limit_rps : option Z;
  rc_rate_limit_burst : option Z;
  rc_plugin_defs : list PluginDef;
  rc_ws_handshake_timeout_secs : Z;
  rc_max_ws_connections : Z;
  rc_ws_register_timeout_secs : Z;
}.

(** [WsGateway], with its counters, and the timeout of the layer around its
    handler, which [tower_http] answers with 408. *)
Record WsEndpoint := mkWsEndpoint {
  we_gate : WsGate;
  we_validator : option JwtValidator;
  we_store : option bytes;
  we_max_connections : Z;
  we_register_timeout_secs : Z;
  we_handshake_timeout_secs : Z;
}.

Record Server := mkServer {
  sv_app : AppState;
  sv_api : Api;
  sv_ws : option WsEndpoint;
}.

Definition build_rate_limiter (rps burst : Z) : KeyedLimiter string :=
  limiter_burst (Z.max rps 1) (Z.max burst 1).

Definition create_router_full (rc : RouterConfig) (metrics : string) (w : World) (s : Supervisor) : Server :=
  let rate_limiter :=
    match rc_validator rc with
    | Some _ => Some (build_rate_limiter (default 100 (rc_rate_limit_rps rc)) (default 20 (rc_rate_limit_burst rc)))
    | None => None
    end in
  mkServer (mkApp (rc_validator rc) (rc_started_at rc) (rc_plugin_defs rc) metrics)
    (mkApi w s rate_limiter)
    (match rc_router_tx rc, rc_disconnect_tx rc with
     | Some _, Some _ =>
         Some (mkWsEndpoint gate_new (rc_validator rc) (rc_device_store rc) (rc_max_ws_connections rc)
                 (rc_ws_register_timeout_secs rc) (rc_ws_handshake_timeout_secs rc))
     | _, _ => None
     end).

(** ** Running *)

(** A request, an upgrade, the eviction, or another task of the kernel. *)
Inductive ServerEvent :=
| EvRequest (clk : Clock) (os : OsReply) (rq : Request)
| EvUpgrade (clk : Clock) (file : StoreFile) (header : option string)
| EvPrune (now : Z)
| EvKernel (f : World * Supervisor -> World * Supervisor).

Inductive ServerReply := ReRest (r : Response) | ReWs (r : WsResponse) | ReNotFound.

Definition set_limiter (f : KeyedLimiter string -> KeyedLimiter string) (a : Api) : Api :=
  mkApi (api_world a) (api_sup a) (f <$> api_limiter a).

Definition server_step (ev : ServerEvent) (s : Server) : option ServerReply * Server :=
  match ev with
  | EvRequest clk os rq =>
      let '(r, a) := serve (sv_app s) clk os rq (sv_api s) in (Some (ReRest r), mkServer (sv_app s) a (sv_ws s))
  | EvUpgrade clk file header =>
      match sv_ws s with
      | None => (Some ReNotFound, s)
      | Some we =>
          let '(r, g) := ws_handler (we_validator we) (we_store we) (unix_secs clk) file (we_max_connections we)
                           (we_register_timeout_secs we) header (we_gate we) in
          (Some (ReWs r), mkServer (sv_app s) (sv_api s)
             (Some (mkWsEndpoint g (we_validator we) (we_store we) (we_max_connections we) (we_register_timeout_secs we)
                     (we_handshake_timeout_secs we))))
      end
  | EvPrune now => (None, mkServer (sv_app s) (set_limiter (retain_recent now) (sv_api s)) (sv_ws s))
  | EvKernel f =>
      let '(w, p) := f (api_world (sv_api s), api_sup (sv_api s)) in
      (None, mkServer (sv_app s) (mkApi w p (api_limiter (sv_api s))) (sv_ws s))
  end.

Fixpoint server_run (evs : list ServerEvent) (s : Server) : list ServerReply * Server :=
  match evs with
  | [] => ([], s)
  | ev :: evs =>
      let '(r, s) := server_step ev s in
      let '(rs, s) := server_run evs s in
      (match r with Some r => r :: rs | None => rs end, s)
  end.

Definition is_prune (ev : ServerEvent) : bool := match ev with EvPrune _ => true | _ => false end.

(** The monotonic clock of an event that reads it. *)
Definition ev_instant (ev : ServerEvent) : option Z :=
  match ev with EvRequest clk _ _ => Some (instant clk) | EvPrune now => Some now | _ => None end.

(** The clock never goes back. *)
Fixpoint timed (t : Z) (evs : list ServerEvent) : Prop :=
  match evs with
  | [] => True
  | ev :: evs => match ev_instant ev with Some t' => t <= t' /\ timed t' evs | None => timed t evs end
  end.

(** ** Requests and the limiter *)

(** The handlers neither read nor change the limiter. *)
Lemma handle_route_limiter app t os r a l :
  let '(resp, a') := handle_route app t os r a in
  handle_route app t os r (mkApi (api_world a) (api_sup a) l) = (resp, mkApi (api_world a') (api_sup a') l) /\
  api_limiter a' = api_limiter a.
Proof.
  destruct a as [w s l0]. destruct r as [| | |id|id lines| |id|id|id]; cbn -[start_plugin stop_plugin restart_plugin]; try done.
  - unfold start_plugin. cbn. destruct (is_running id s); [done|]. destruct (find_def (plugin_defs app) id); [|done].
    destruct (validate_plugin_def _) as [|[]]; try done. by destruct (spawn_plugin _ _ s) as [[] ?].
  - unfold stop_plugin, manager_stop. cbn. destruct (get id (registry w)); [|done].
    by destruct (Supervisor.stop_plugin id s) as [[] ?].
  - unfold restart_plugin. cbn. destruct (get id (registry w)); [|done].
    by destruct (Supervisor.restart_plugin id s) as [[] ?].
Qed.

(** Every route but the health check is layered. *)
Lemma layered {A} (r : Route) (x y : A) : r <> RHealth -> match r with RHealth => x | _ => y end = y.
Proof. by destruct r. Qed.

(** Two interfaces that differ only in limiters that are alike. *)
Definition api_alike `{!GovernorLaws} (t : Z) (a a' : Api) : Prop :=
  api_world a' = api_world a /\ api_sup a' = api_sup a /\
  match api_limiter a, api_limiter a' with
  | Some l, Some l' => alike t l l'
  | None, None => True
  | _, _ => False
  end.

Lemma serve_alike `{!GovernorLaws} app clk os rq a a' t :
  api_alike t a a' -> t <= instant clk ->
  (serve app clk os rq a').1 = (serve app clk os rq a).1 /\
  api_alike (instant clk) (serve app clk os rq a).2 (serve app clk os rq a').2.
Proof.
  intros (Hw & Hs & Hl) Ht.
  assert (Hlater : api_alike (instant clk) a a').
  { split_and!; [done..|]. destruct (api_limiter a), (api_limiter a'); try done. by eapply alike_later. }
  assert (Hhandle : forall x x', api_alike (instant clk) x x' ->
    (handle_route app (instant clk) os (rq_route rq) x').1 = (handle_route app (instant clk) os (rq_route rq) x).1 /\
    api_alike (instant clk) (handle_route app (instant clk) os (rq_route rq) x).2
      (handle_route app (instant clk) os (rq_route rq) x').2).
  { intros x x' (Hxw & Hxs & Hxl).
    pose proof (handle_route_limiter app (instant clk) os (rq_route rq) x (api_limiter x')) as Hh.
    destruct (handle_route app (instant clk) os (rq_route rq) x) as [resp y]. destruct Hh as [Hh Hy].
    assert (x' = mkApi (api_world x) (api_sup x) (api_limiter x')) as -> by (destruct x'; cbn in *; by subst).
    rewrite Hh. cbn. split; [done|]. split_and!; [done..|]. cbn. by rewrite Hy. }
  unfold serve. destruct (decide (rq_route rq = RHealth)) as [Hr|Hr].
  { pose proof (Hhandle a a' Hlater) as Hh. rewrite Hr in *. exact Hh. }
  rewrite !layered by done.
  destruct (auth_middleware app (unix_secs clk) (rq_authorization rq)) as [claims|st]; [|done].
  assert (Hrate : (rate_limit_middleware (instant clk) claims a').1 = (rate_limit_middleware (instant clk) claims a).1 /\
    api_alike (instant clk) (rate_limit_middleware (instant clk) claims a).2
      (rate_limit_middleware (instant clk) claims a').2).
  { unfold rate_limit_middleware. destruct Hlater as (_ & _ & Hll).
    destruct (api_limiter a) as [l|] eqn:El, (api_limiter a') as [l'|] eqn:El', claims as [c|]; try done.
    - destruct (alike_check _ (instant clk) (sub c) l l' Hll) as [E1 E2].
      destruct (check_key (instant clk) (sub c) l), (check_key (instant clk) (sub c) l'). cbn in *. by split.
    - cbn. split; [done|]. split_and!; [done..|]. by rewrite El, El'.
    - cbn. split; [done|]. split_and!; [done..|]. by rewrite El, El'.
    - cbn. split; [done|]. split_and!; [done..|]. by rewrite El, El'. }
  destruct (rate_limit_middleware (instant clk) claims a) as [ok x], (rate_limit_middleware (instant clk) claims a') as [ok' x'].
  cbn in Hrate. destruct Hrate as [-> Hx]. destruct (negb ok); [done|].
  destruct (_ && _); [done|]. by apply Hhandle.
Qed.

(** Two servers that differ only in limiters that are alike. *)
Definition server_alike `{!GovernorLaws} (t : Z) (s s' : Server) : Prop :=
  sv_app s' = sv_app s /\ sv_ws s' = sv_ws s /\ api_alike t (sv_api s) (sv_api s').

(** The clock after an event. *)
Definition clock_after (t : Z) (ev : ServerEvent) : Z := default t (ev_instant ev).

Lemma timed_cons t ev evs : timed t (ev :: evs) <-> t <= clock_after t ev /\ timed (clock_after t ev) evs.
Proof. unfold clock_after. cbn. destruct (ev_instant ev); cbn; [done|]. split; [|naive_solver]. intros ?. split; [lia|done]. Qed.

Lemma step_alike `{!GovernorLaws} ev t s s' :
  is_prune ev = false -> t <= clock_after t ev -> server_alike t s s' ->
  (server_step ev s').1 = (server_step ev s).1 /\
  server_alike (clock_after t ev) (server_step ev s).2 (server_step ev s').2.
Proof.
  intros Hp Ht (Happ & Hws & Ha). destruct ev as [clk os rq|clk file header|now|f]; cbn in Hp, Ht |- *; try done.
  - rewrite Happ. destruct (serve_alike (sv_app s) clk os rq (sv_api s) (sv_api s') t Ha Ht) as [Hr Ha'].
    destruct (serve (sv_app s) clk os rq (sv_api s)), (serve (sv_app s) clk os rq (sv_api s')).
    cbn in Hr, Ha' |- *. rewrite Hr. by split_and!.
  - rewrite Hws. destruct (sv_ws s) as [we|] eqn:Ews.
    + destruct (ws_handler _ _ _ _ _ _ _ _). by split_and!.
    + cbn. split; [done|]. split; [done|]. split; [congruence|done].
  - destruct Ha as (Hw & Hs & Hl). rewrite Hw, Hs. destruct (f _) as [w p]. by split_and!.
Qed.

Lemma prune_alike `{!GovernorLaws} now t s s' :
  t <= now -> server_alike t s s' -> server_alike now (server_step (EvPrune now) s).2 s'.
Proof.
  intros Ht (Happ & Hws & Hw & Hs & Hl). split_and!; [done..|]. split_and!; [done..|]. cbn.
  destruct (api_limiter (sv_api s)) as [l|], (api_limiter (sv_api s')) as [l'|]; try done. cbn.
  pose proof (alike_equiv string now). etrans; [apply retain_alike|]. by eapply alike_later.
Qed.

Lemma server_run_cons ev evs s :
  server_run (ev :: evs) s =
  (match (server_step ev s).1 with
   | Some r => r :: (server_run evs (server_step ev s).2).1
   | None => (server_run evs (server_step ev s).2).1
   end, (server_run evs (server_step ev s).2).2).
Proof. cbn. destruct (server_step ev s). cbn. by destruct (server_run evs s0). Qed.

Lemma run_alike `{!GovernorLaws} evs t s s' :
  timed t evs -> server_alike t s s' ->
  let evs' := filter (fun ev => is_prune ev = false) evs in
  (server_run evs' s').1 = (server_run evs s).1 /\
  exists t', server_alike t' (server_run evs s).2 (server_run evs' s').2.
Proof.
  revert t s s'. induction evs as [|ev evs IH]; intros t s s'; [cbn; eauto|].
  rewrite timed_cons. intros [Hle Ht] Ha. cbn zeta. rewrite filter_cons, server_run_cons.
  destruct (is_prune ev) eqn:Hp.
  - rewrite decide_False by done. destruct ev as [| |now|]; try done.
    by apply (IH now _ s' Ht), (prune_alike now t).
  - rewrite decide_True by done. rewrite server_run_cons. destruct (step_alike ev t s s' Hp Hle Ha) as [Hr Ha'].
    destruct (IH _ _ _ Ht Ha') as [Hrs Hend]. cbn. by rewrite Hr, Hrs.
Qed.

(** The server keeps its settings, and a limiter exactly when tokens are
    checked. *)
Definition server_ok (s : Server) : Prop :=
  is_some (api_limiter (sv_api s)) = is_some (app_validator (sv_app s)).

Lemma serve_limiter app clk os rq a :
  is_some (api_limiter (serve app clk os rq a).2) = is_some (api_limiter a).
Proof.
  assert (Hh : forall x, api_limiter (handle_route app (instant clk) os (rq_route rq) x).2 = api_limiter x).
  { intros x. pose proof (handle_route_limiter app (instant clk) os (rq_route rq) x None) as Hx.
    destruct (handle_route app (instant clk) os (rq_route rq) x). by destruct Hx. }
  assert (Hr : forall t claims, is_some (api_limiter (rate_limit_middleware t claims a).2) = is_some (api_limiter a)).
  { intros t claims. unfold rate_limit_middleware. destruct (api_limiter a) as [l|] eqn:El; cbn; [|by rewrite El].
    destruct claims; cbn; [|by rewrite El]. by destruct (check_key t _ l). }
  unfold serve. destruct (decide (rq_route rq = RHealth)) as [Hroute|Hroute].
  { specialize (Hh a). rewrite Hroute in Hh |- *. by rewrite Hh. }
  rewrite layered by done.
  destruct (auth_middleware _ _ _) as [claims|]; [|done]. specialize (Hr (instant clk) claims).
  destruct (rate_limit_middleware _ claims a) as [ok x]. cbn in Hr. destruct (negb ok); [done|].
  destruct (_ && _); [done|]. by rewrite Hh.
Qed.

Lemma server_step_ok ev s :
  server_ok s -> sv_app (server_step ev s).2 = sv_app s /\ server_ok (server_step ev s).2.
Proof.
  unfold server_ok. intros Hok. destruct ev as [clk os rq|clk file header|now|f]; cbn.
  - pose proof (serve_limiter (sv_app s) clk os rq (sv_api s)) as Hl.
    destruct (serve (sv_app s) clk os rq (sv_api s)). cbn in *. by rewrite Hl.
  - destruct (sv_ws s) as [we|]; [|done]. by destruct (ws_handler _ _ _ _ _ _ _ _).
  - split; [done|]. rewrite <- Hok. by destruct (api_limiter (sv_api s)).
  - by destruct (f _).
Qed.

Lemma server_run_ok evs s : server_ok s -> sv_app (server_run evs s).2 = sv_app s /\ server_ok (server_run evs s).2.
Proof.
  revert s. induction evs as [|ev evs IH]; intros s Hok; [done|]. rewrite server_run_cons.
  destruct (server_step_ok ev s Hok) as [<- Hok']. by apply IH.
Qed.

(** ** Properties *)

(** The eviction of idle keys stays invisible through the server.  Given that
    the limiter itself cannot tell, however often it runs between requests,
    upgrades and the other tasks of the kernel, every client gets
    the answer it would get without it, refusals by the rate limit included,
    and the kernel and the sockets end in the same state. *)
Theorem prune_invisible `{!GovernorLaws} t evs s :
  timed t evs ->
  let evs' := filter (fun ev => is_prune ev = false) evs in
  let a := sv_api (server_run evs s).2 in
  let a' := sv_api (server_run evs' s).2 in
  (server_run evs' s).1 = (server_run evs s).1 /\
  api_world a' = api_world a /\ api_sup a' = api_sup a /\
  sv_ws (server_run evs' s).2 = sv_ws (server_run evs s).2.
Proof.
  intros Ht. destruct (run_alike evs t s s Ht) as (Hr & t' & _ & Hws & Hw & Hs & _); [|done].
  split_and!; [done..|]. split_and!; [done..|]. destruct (api_limiter (sv_api s)); [|done].
  pose proof (alike_equiv string t). reflexivity.
Qed.

(** C24: with tokens checked, every request to the REST interface but the health
    check is metered: at any time after the start it is refused as
    unauthorised, leaving the server as it was, or it carries a valid token
    and is counted against the subject of that token, whatever the request
    claims; without a grant it is answered 429 and changes nothing else. *)
Theorem requests_metered rc metrics w p evs clk os rq jv :
  rc_validator rc = Some jv -> rq_route rq <> RHealth ->
  let s := (server_run evs (create_router_full rc metrics w p)).2 in
  let s' := (server_step (EvRequest clk os rq) s).2 in
  exists resp, (server_step (EvRequest clk os rq) s).1 = Some (ReRest resp) /\
    ((rs_status resp = 401 /\ s' = s) \/
     exists claims l, bears jv (unix_secs clk) rq claims /\ api_limiter (sv_api s) = Some l /\
       api_limiter (sv_api s') = Some (check_key (instant clk) (sub claims) l).2 /\
       ((check_key (instant clk) (sub claims) l).1 = false ->
          rs_status resp = 429 /\ api_world (sv_api s') = api_world (sv_api s) /\ api_sup (sv_api s') = api_sup (sv_api s))).
Proof.
  intros Hjv Hr s s'. unfold s'. clear s'.
  destruct (server_run_ok evs (create_router_full rc metrics w p)) as [Happ Hok].
  { unfold server_ok. cbn. by destruct (rc_validator rc). }
  fold s in Happ, Hok. unfold server_ok in Hok. rewrite Happ in Hok. cbn in Happ, Hok. rewrite Hjv in Happ, Hok.
  cbn in Hok. destruct (api_limiter (sv_api s)) as [l|] eqn:Hl; [|done].
  cbn. destruct (serve (sv_app s) clk os rq (sv_api s)) as [resp a'] eqn:Hserve. exists resp. split; [done|]. cbn.
  unfold serve in Hserve. rewrite layered in Hserve by done.
  destruct (auth_middleware (sv_app s) (unix_secs clk) (rq_authorization rq)) as [claims|st] eqn:Hauth.
  2: { injection Hserve as <- <-. left. split; [|by destruct s]. unfold auth_middleware in Hauth. cbn. by split_cases_in Hauth. }
  apply auth_middleware_ok in Hauth. rewrite Happ in Hauth. cbn in Hauth. destruct Hauth as (c & -> & Hb).
  right. exists c, l. split_and!; [done..| |].
  all: unfold rate_limit_middleware in Hserve; rewrite Hl in Hserve;
    destruct (check_key (instant clk) (sub c) l) as [ok l']; cbn [negb fst snd] in *.
  - destruct ok; cbn [negb] in Hserve; [|by injection Hserve as _ <-].
    destruct (_ && _); [by injection Hserve as _ <-|].
    pose proof (handle_route_limiter (sv_app s) (instant clk) os (rq_route rq) (mkApi (api_world (sv_api s)) (api_sup (sv_api s)) (Some l')) None) as Hh.
    rewrite Hserve in Hh. by destruct Hh as [_ ->].
  - intros ->. cbn [negb] in Hserve. by injection Hserve as <- <-.
Qed.

End Server.

(** ** Runs *)

(** A limiter that grants once in a hundred units of time, whoever asks. *)
Definition slow_governor : Governor := {|
  KeyedLimiter := fun _ => Z;
  limiter_keyed := fun _ _ => 0;
  check_key := fun _ t _ l => if l <=? t then (true, t + 100) else (false, l);
  retain_recent := fun _ t l => if l <=? t then t else l;
|}.

#[export] Instance slow_governor_laws : @GovernorLaws slow_governor.
Proof.
  refine {| alike := fun K t (l l' : @KeyedLimiter slow_governor K) => l = l' \/ (l <= t /\ l' <= t) |}; cbn.
  - intros K t. split; [by left|intros x y; naive_solver lia|intros x y z; naive_solver lia].
  - intros K t t' l l' Ht [->|[? ?]]; [by left|right; lia].
  - intros K t k l l' [->|[H1 H2]]; [by split; [|left]|].
    rewrite (proj2 (Z.leb_le l t) H1), (proj2 (Z.leb_le l' t) H2). by split; [|left].
  - intros K t l. destruct (Z.leb_spec l t); [right; lia|by left].
Qed.

Module ServerRuns.

#[local] Instance wire : WireCrate := toy_wire [].
#[local] Instance iter : HashIter := canonical_iter.
#[local] Instance gov : Governor := slow_governor.
#[local] Instance quota : BurstQuota := fun _ _ _ => 0.
#[local] Instance json : SerdeJson := toy_json.
#[local] Instance jwt : JwtCrate := JwtRuns.crate.
#[local] Instance store : StoreCrates := table_crates [].
#[local] Instance manifests : ManifestCrate := {| path_exists _ := false; validate_manifest _ := Err WFrameMagicMismatch |}.

Definition os : OsReply := mkOsReply (Err ("enoent", false)) true.
Definition jv : JwtValidator := with_audience JwtRuns.k0 (Some "host").
Definition rc : RouterConfig := mkRouterConfig (Some jv) None (Some 1) (Some 2) 0 (Some 0) None [] 5 4 10.
Definition w : World := mkWorld registry_new bus_new ∅ ∅ 0 0 0 None None ∅ [].
Definition server : Server := create_router_full rc EmptyString w sup_new.

Definition at_time (t : Z) : Clock := mkClock t 1050000.
Definition ask (t : Z) : ServerEvent := EvRequest (at_time t) os (mkRequest RPlugins (Some "Bearer tok")).
Definition run1 : list ServerEvent := [ask 0; EvPrune 50; ask 60; EvPrune 200; ask 210; ask 220].

(** Granted, refused, granted after the pause, refused: with and without the
    eviction. *)
Lemma prune_witness :
  (server_run [ask 0; ask 60; ask 210; ask 220] server).1 = (server_run run1 server).1 /\
  (server_run run1 server).1 =
    [ReRest (mkResponse 200 (BPlugins [])); ReRest (mkResponse 429 (BText "Too Many Requests"));
     ReRest (mkResponse 200 (BPlugins [])); ReRest (mkResponse 429 (BText "Too Many Requests"))].
Proof.
  split; [|vm_compute; reflexivity].
  apply (prune_invisible 0 run1 server). cbn. lia.
Defined.

Lemma metered_witness :
  exists resp, (server_step (ask 60) (server_run [ask 0] server).2).1 = Some (ReRest resp) /\ rs_status resp = 429.
Proof.
  destruct (requests_metered rc EmptyString w sup_new [ask 0] (at_time 60) os (mkRequest RPlugins (Some "Bearer tok")) jv)
    as (resp & Hs & Hcase); [reflexivity|done|].
  exists resp. split; [exact Hs|]. destruct Hcase as [[H401 _]|(c & l & _ & Hl & _ & Hgrant)].
  - exfalso. vm_compute in Hs. injection Hs as <-. vm_compute in H401. discriminate H401.
  - destruct Hgrant as [H429 _]; [|exact H429]. vm_compute in Hl. injection Hl as <-. vm_compute. reflexivity.
Defined.

End ServerRuns.
