(* ===== verification/Bridge.v ===== *)
(** * The bridge of a client kernel ([src/bridge/mod.rs])

    A kernel in the client role keeps one WebSocket connection to its host:
    it registers itself there as a device, enters itself in its own registry
    as a routing proxy, and relays frames both ways.  The connection itself
    belongs to [tokio-tungstenite]: what it delivers is a list of messages.
    The relay of an unroutable frame ([BridgeHandle::relay_to_host]) is in
    [Router]. *)

From S2P Require Import Prelude Wire Toy Text Channel Registry RegistryFacts Jwt DeviceStore EventStore World EventBus Router RouterFacts Sandbox Config Connection Gateway.

Open Scope Z_scope.

Definition BRIDGE_CONN_ID_BASE : Z := 2000000000.

(** In seconds. *)
Definition BRIDGE_MAX_BACKOFF : Z := 30.

Inductive BridgeError :=
| BConnect (e : string)
| BRegister (e : string)
| BWire (e : VynkorError)
| BMac
| BDisconnected
| BShutdown.

(** ** The host's address *)

Definition DEFAULT_WS_PATH : string := "/ws".

Definition ws_scheme_for (scheme : string) : option string :=
  if scheme ==? "http" then Some "ws" else if scheme ==? "https" then Some "wss" else None.

(** [str::split_once] with a string separator. *)
Fixpoint split_once_str (sep s : string) : option (string * string) :=
  match strip_prefix sep s with
  | Some rest => Some (EmptyString, rest)
  | None =>
      match s with
      | EmptyString => None
      | String a s' =>
          match split_once_str sep s' with Some (p, q) => Some (String a p, q) | None => None end
      end
  end.

Definition bad_url : BridgeError :=
  BWire (EInternal "host_url must start with ws://, wss://, http://, or https://").

Definition resolve_ws_url (host_url : string) : Result BridgeError string :=
  if starts_with "ws://" host_url || starts_with "wss://" host_url then Ok host_url
  else
    '(scheme, rest) ← ok_or bad_url (split_once_str "://" host_url);
    ws_scheme ← ok_or bad_url (ws_scheme_for scheme);
    let '(host, path) := match split_once "/"%char rest with
                         | Some (h, p) => (h, "/" +:+ p)
                         | None => (rest, DEFAULT_WS_PATH)
                         end in
    Ok (ws_scheme +:+ "://" +:+ host +:+ path).

(** ** Registration on the host *)

(** The [sec-websocket-protocol] header of the upgrade request. *)
Definition bridge_protocol (token : string) : string :=
  if is_empty token then "vynkor" else "vynkor, " +:+ token.

(** What the WebSocket delivers; the end of the list is the end of the
    stream. *)
Inductive HostMessage :=
| HBinary (b : bytes)
| HClose
| HOther
| HError (e : string).

Section Bridge.
Context `{WireCrate} `{Governor}.

(** ** The handle *)

Definition upd_bridge_conns (f : list ChanId -> list ChanId) (w : World) : World :=
  mkWorld (registry w) (event_bus w) (stores w) (chans w) (MSG_SEQ w) (ACTION_CORRELATION_SEQ w)
    (EVENT_PUBLISH_SEQ w) (ipc_limiter w) (action_limiter w) (error_counts w) (f (bridge_conns w)).

Definition register_conn (tx : ChanId) : K unit := modify (upd_bridge_conns (fun l => l ++ [tx])).
Definition unregister_conn (tx : ChanId) : K unit :=
  modify (upd_bridge_conns (filter (fun c => c <> tx))).
Definition is_connected (w : World) : bool := negb (bool_decide (bridge_conns w = [])).

Definition bridge_register (token device_id : string) (caps : list string) : Envelope :=
  env_of (PPluginRegister (mkPluginRegister device_id "1.0.0"
    (Some (mkManifest ["PERMISSION_IPC_SEND"; "PERMISSION_EVENT_PUBLISH"] [] [] [] [] []))
    token device_id EmptyString 0 EmptyString EmptyString caps EmptyString)).

(** The loop that waits for the acknowledgement: the session key, and the
    messages left. *)
Fixpoint await_ack (secret : option string) (device_id : string) (msgs : list HostMessage)
    : Result BridgeError (option bytes) * list HostMessage :=
  match msgs with
  | [] => (Err BDisconnected, [])
  | HClose :: rest => (Err BDisconnected, rest)
  | HError e :: rest => (Err (BConnect e), rest)
  | HOther :: rest => await_ack secret device_id rest
  | HBinary b :: rest =>
      match parse_frame b with
      | Err e => (Err (BWire e), rest)
      | Ok frame =>
          match decode_envelope (f_payload frame) with
          | None => (Err (BWire (EInternal "decode register ack")), rest)
          | Some env =>
              match payload env with
              | Some (PPluginRegisterAck ack) =>
                  (if negb (accepted ack) then Err (BRegister (reject_reason ack))
                   else Ok (match secret with
                            | Some s => if bool_decide (session_nonce ack = []) then None
                                        else Some (derive_session_key (string_bytes s) (session_nonce ack) device_id)
                            | None => None
                            end), rest)
              | Some (PError err) => (Err (BRegister (err_message err +:+ ": " +:+ err_details err)), rest)
              | _ => await_ack secret device_id rest
              end
          end
      end
  end.

(** ** The proxy in the local registry *)

Definition bridge_meta (device_id : string) (caps : list string) : DeviceMeta :=
  mkDeviceMeta device_id "default" OsUnspecified EmptyString EmptyString caps.

Definition bridge_manifest (caps : list string) : PluginManifest :=
  mkManifest ["PERMISSION_IPC_SEND"] [] [] caps [] [].

(** From the acknowledgement to the start of the loops. *)
Definition bridge_up (clk : Clock) (device_id : string) (caps : list string) (host_tx : ChanId)
    : K (Result BridgeError unit) :=
  res ← on_registry (register_with_device clk device_id BRIDGE_CONN_ID_BASE (bridge_manifest caps) host_tx
                       (bridge_meta device_id caps));
  match res with
  | Err e => mret (Err (BRegister (error_display e)))
  | Ok _ => _ ← register_conn host_tx; mret (Ok tt)
  end.

(** After the read loop. *)
Definition bridge_down (device_id : string) (host_tx : ChanId) : K unit :=
  _ ← modify (upd_registry (unregister device_id));
  unregister_conn host_tx.

(** ** From the host *)

Definition is_kernel_routed (frame : Frame) : bool :=
  match decode_envelope (f_payload frame) ≫= payload with
  | Some (PActionRequest _ | PActionRequestChunk _ | PActionResponse _ | PActionResponseChunk _
         | PSessionClose _ | PActionStreamAbort _ | PPing _ | PPong _ _ | PError _ | PEventPublishAck _
         | PKernelCommandAck _ | PEventAck _ | PPluginRegisterAck _) => true
  | _ => false
  end.

Definition strip_device_prefix (frame : Frame) (device_id : string) : string :=
  default "kernel" (target_as_str (f_target frame) ≫= strip_prefix (device_id +:+ ".")).

Definition retarget (target : string) (frame : Frame) : Frame :=
  mkFrame (f_magic frame) (f_flags frame) (f_length frame) (target_bytes target) (f_crc32 frame)
    (f_payload frame) (f_mac frame).

(** The frame the local router gets for one received frame. *)
Definition inbound_frame (key : option bytes) (device_id : string) (frame : Frame) : Result BridgeError Frame :=
  if match key with Some k => negb (mac_valid k frame) | None => false end then Err BMac
  else
    let frame := strip_mac frame in
    Ok (retarget (if is_kernel_routed frame then "kernel" else strip_device_prefix frame device_id) frame).

(** [read_loop]: what reaches the router, and why the loop ends.  [accepts n]
    is whether the router still takes message number [n]. *)
Fixpoint bridge_read_loop (accepts : nat -> bool) (n : nat) (key : option bytes) (device_id : string)
    (host_tx : ChanId) (cell : CellId) (msgs : list HostMessage) : list IncomingMessage * BridgeError :=
  match msgs with
  | [] => ([], BDisconnected)
  | HClose :: _ => ([], BDisconnected)
  | HError e :: _ => ([], BConnect e)
  | HOther :: rest => bridge_read_loop accepts n key device_id host_tx cell rest
  | HBinary b :: rest =>
      match parse_frame b with
      | Err e => ([], BWire e)
      | Ok frame =>
          match inbound_frame key device_id frame with
          | Err e => ([], e)
          | Ok frame =>
              if negb (accepts n) then ([], BShutdown)
              else
                let '(ms, e) := bridge_read_loop accepts (S n) key device_id host_tx cell rest in
                (mkIncoming BRIDGE_CONN_ID_BASE frame host_tx cell :: ms, e)
          end
      end
  end.

(** ** To the host *)

(** The frame written for one queued frame. *)
Definition outbound_frame (key : option bytes) (frame : Frame) : Frame :=
  let frame := if bool_decide (target_as_str (f_target frame) = Some "client") then retarget "kernel" frame else frame in
  match key with Some k => tag_frame k frame | None => frame end.

(** [write_loop]: [io b] is whether the socket takes the message. *)
Fixpoint bridge_write_loop (io : bytes -> bool) (key : option bytes) (items : list Outbound) : list bytes :=
  match items with
  | [] => []
  | OEnableMac _ _ :: rest => bridge_write_loop io key rest
  | OFrame f :: rest =>
      let b := frame_to_bytes (outbound_frame key f) in
      if io b then b :: bridge_write_loop io key rest else []
  end.

End Bridge.

(** ** Reconnection *)

(** [Bridge::run]: the pauses between the connections whose outcomes are
    given; a shutdown ends the loop. *)
Fixpoint bridge_run (backoff : Z) (outcomes : list (option BridgeError)) : list Z :=
  match outcomes with
  | [] => []
  | Some BShutdown :: _ => []
  | _ :: rest => backoff :: bridge_run (Z.min (backoff * 2) BRIDGE_MAX_BACKOFF) rest
  end.

(** ** Lemmas *)

(** The alphabet of a compact JWT. *)
Definition token_char (a : ascii) : bool :=
  is_ascii_alphanumeric a || (a ==? "-"%char) || (a ==? "_"%char) || (a ==? "."%char).

Lemma token_char_plain a : token_char a = true -> plain_byte (Z.of_N (N_of_ascii a)) /\ a <> ","%char.
Proof.
  intros Ha. split; [|by intros ->].
  assert (forall b, token_char b = true -> (N_of_ascii b <=? 0x7F)%N && negb (ws1 (Z.of_N (N_of_ascii b))) = true) as Hall.
  { intros [[] [] [] [] [] [] [] []]; vm_compute; congruence. }
  apply Hall in Ha. bools. unfold plain_byte. split; [|done].
  match goal with Hx : (_ <=? _)%N = true |- _ => apply N.leb_le in Hx end. lia.
Qed.

Lemma token_plain t : string_forallb token_char t = true ->
  Forall plain_byte (string_bytes t) /\ contains_char "," t = false.
Proof.
  induction t as [|a t IH]; simpl; [by split|]. intros [Ha Ht]%andb_true_iff.
  destruct (token_char_plain a Ha) as [Hp Hc], (IH Ht) as [Hf Hn]. split; [by constructor|].
  by rewrite Hn, bool_decide_eq_false_2.
Qed.

Section Properties.
Context `{WireCrate} `{Governor} `{HashIter}.

Lemma inbound_frame_spec key device_id frame out :
  inbound_frame key device_id frame = Ok out ->
  (forall k, key = Some k -> mac_valid k frame = true) /\
  f_payload out = f_payload frame /\ f_mac out = None /\
  f_flags out = clear_flag (f_flags frame) FLAG_MAC_PRESENT /\
  (f_target out = target_bytes "kernel" \/
   (is_kernel_routed frame = false /\ exists cap, target_as_str (f_target frame) = Some ((device_id +:+ ".") +:+ cap) /\
      f_target out = target_bytes cap)).
Proof.
  unfold inbound_frame. destruct (match key with Some _ => _ | None => _ end) eqn:Hm; [done|].
  intros [= <-]. split_and!; [|done|done|done|].
  - intros k ->. by apply negb_false_iff.
  - cbn [retarget f_target]. assert (is_kernel_routed (strip_mac frame) = is_kernel_routed frame) as -> by done.
    destruct (is_kernel_routed frame); [by left|]. unfold strip_device_prefix. cbn [strip_mac f_target].
    destruct (target_as_str (f_target frame)) as [t|]; [|by left].
    change (Some t ≫= strip_prefix (device_id +:+ ".")) with (strip_prefix (device_id +:+ ".") t).
    destruct (strip_prefix (device_id +:+ ".") t) as [cap|] eqn:Hs; [|by left].
    right. split; [done|]. exists cap. apply strip_prefix_Some in Hs as ->. done.
Qed.

(** ** Properties *)

(** A message for the local router that stems from one of the messages of
    the host. *)
Definition relayed (key : option bytes) (device_id : string) (tx : ChanId) (msgs : list HostMessage)
    (m : IncomingMessage) : Prop :=
  m_conn_id m = BRIDGE_CONN_ID_BASE /\ m_write_tx m = tx /\ f_mac (m_frame m) = None /\
  exists b f, HBinary b ∈ msgs /\ parse_frame b = Ok f /\ f_payload (m_frame m) = f_payload f /\
    (forall k, key = Some k -> mac_valid k f = true) /\
    (f_target (m_frame m) = target_bytes "kernel" \/
     (is_kernel_routed f = false /\ exists cap, target_as_str (f_target f) = Some ((device_id +:+ ".") +:+ cap) /\
        f_target (m_frame m) = target_bytes cap)).

Lemma relayed_cons key device_id tx x msgs ms :
  Forall (relayed key device_id tx msgs) ms -> Forall (relayed key device_id tx (x :: msgs)) ms.
Proof.
  intros Hms. eapply Forall_impl; [exact Hms|]. intros m (? & ? & ? & b & f & Hin & ?). split_and!; try done.
  exists b, f. split; [by apply list_elem_of_further|done].
Qed.

(** C34: what a host can make a client kernel process.  Everything the bridge
    hands to the local router comes from a received frame with the payload
    unchanged, whose tag verified when the connection has a session key,
    with the tag removed; it is addressed to the local kernel or to the bare
    capability of a frame the host addressed to this device, and always
    appears under the bridge's own connection. *)
Theorem bridge_inbound_safe accepts n key device_id tx cell msgs ms e :
  bridge_read_loop accepts n key device_id tx cell msgs = (ms, e) ->
  Forall (relayed key device_id tx msgs) ms.
Proof.
  revert n ms. induction msgs as [|m msgs IH]; intros n ms; simpl; [by intros [= <- _]|].
  destruct m as [b| | |err]; try by intros [= <- _].
  - destruct (parse_frame b) as [f|] eqn:Hp; [|by intros [= <- _]].
    destruct (inbound_frame key device_id f) as [out|] eqn:Hi; [|by intros [= <- _]].
    destruct (accepts n); cbn [negb]; [|by intros [= <- _]].
    destruct (bridge_read_loop accepts (S n) key device_id tx cell msgs) as [ms' e'] eqn:Hr.
    intros [= <- Ee]. destruct (inbound_frame_spec _ _ _ _ Hi) as (Hv & Hpl & Hmac & _ & Ht). constructor.
    + split_and!; try done. exists b, f. split_and!; try done. apply list_elem_of_here.
    + apply relayed_cons. subst e'. by apply IH with (S n).
  - intros Hr. apply relayed_cons. by apply IH with n.
Qed.

Lemma outbound_frame_spec `{!WireLaws} k frame :
  let out := outbound_frame (Some k) frame in
  mac_valid k out = true /\ f_payload out = f_payload frame /\
  f_target out = (if bool_decide (target_as_str (f_target frame) = Some "client")
                  then target_bytes "kernel" else f_target frame).
Proof.
  intros out. unfold out, outbound_frame. split; [apply tag_frame_valid|]. by case_bool_decide.
Qed.

(** A frame crosses the link intact in both directions.  Between a bridge
    and a host that share the session key, and as far as the frame codec
    reads back what it wrote: a frame the client kernel queues is accepted
    by the host's gateway and handed to its router with the same payload,
    addressed to the kernel if it was addressed to the client; and a frame
    the host queues for the device passes the bridge's check with the same
    payload. *)
Theorem bridge_link `{!WireLaws} k device_id f g d cell c cells :
  cells !! cell = Some k -> outbound_key c = Some k ->
  (let sent := outbound_frame (Some k) f in
   parse_frame (frame_to_bytes sent) = Ok sent ->
   ws_turn d cell (EvRecv (WsBinary (frame_to_bytes sent)) true) c cells = WsGo c cells (Some sent) None /\
   f_payload sent = f_payload f /\
   (target_as_str (f_target f) = Some "client" -> f_target sent = target_bytes "kernel")) /\
  (exists b, ws_turn d cell (EvItem (Some (OFrame g)) true) c cells = WsGo c cells None (Some b) /\
     (parse_frame b = Ok (tag_frame k g) ->
      exists out, inbound_frame (Some k) device_id (tag_frame k g) = Ok out /\ f_payload out = f_payload g)).
Proof.
  intros Hcell Hout. split.
  - intros sent Hp. destruct (outbound_frame_spec k f) as (Hv & Hpl & Ht). split_and!; [|done|].
    + cbn [ws_turn]. rewrite Hp, Hcell. unfold sent at 1. by rewrite Hv.
    + intros Hc. unfold sent. by rewrite Ht, bool_decide_eq_true_2.
  - exists (frame_to_bytes (tag_frame k g)). split; [cbn [ws_turn]; by rewrite Hout|]. intros _.
    unfold inbound_frame. rewrite tag_frame_valid. by eexists.
Qed.

(** The token of a bridge arrives at the gateway: whatever non-empty token
    in the alphabet of a JWT the client sends in its upgrade request, other
    than the protocol name itself, is the one the host extracts. *)
Theorem bridge_token_roundtrip t :
  string_forallb token_char t = true -> t <> EmptyString -> t <> "vynkor" ->
  extract_ws_token (Some (bridge_protocol t)) = t.
Proof.
  intros Ht Hne Hv. destruct (token_plain t Ht) as [Hp Hc].
  unfold bridge_protocol. unfold is_empty. rewrite bool_decide_eq_false_2 by done.
  unfold extract_ws_token. change ("vynkor, " +:+ t) with ("vynkor" +:+ String "," (String " " t)).
  rewrite split_char_app by done. rewrite split_char_none by (simpl; by rewrite Hc).
  cbn [map]. rewrite trim_space_plain by done. change (trim "vynkor") with "vynkor".
  rewrite filter_cons_False by by intros []. rewrite filter_cons_True by done. done.
Qed.

(** An indexed provider is registered. *)
Lemma indexed_registered r a q : registry_ok r -> action_index r !! a = Some q -> is_Some (by_plugin_id r !! q).
Proof.
  intros Hr Ha. pose proof (rok_index _ Hr a) as Hi. unfold indexed, slot_repr in Hi. rewrite Ha in Hi.
  destruct (ambiguous_actions r !! a); [done|].
  assert (q ∈ declarers a (by_plugin_id r)) as (e & He & _)%elem_of_declarers by (rewrite Hi; set_solver).
  by rewrite He.
Qed.

Lemma unregister_gone pid r : by_plugin_id (unregister pid r) !! pid = None.
Proof.
  destruct (by_plugin_id r !! pid) as [e|] eqn:Hg.
  - destruct (unregister_fields pid e r Hg) as [-> _]. apply lookup_delete_eq.
  - unfold unregister. by rewrite Hg.
Qed.

Lemma bridge_up_run clk device_id caps tx w :
  let '(res, r') := register_with_device clk device_id BRIDGE_CONN_ID_BASE (bridge_manifest caps) tx
                      (bridge_meta device_id caps) (registry w) in
  eval (bridge_up clk device_id caps tx) w = match res with Ok _ => Ok tt | Err e => Err (BRegister (error_display e)) end /\
  registry (exec (bridge_up clk device_id caps tx) w) = r' /\
  bridge_conns (exec (bridge_up clk device_id caps tx) w) =
    bridge_conns w ++ match res with Ok _ => [tx] | Err _ => [] end.
Proof.
  unfold bridge_up. rewrite eval_bind, exec_bind. rewrite exec_on_registry, eval_on_registry.
  destruct (register_with_device _ _ _ _ _ _ _) as [[u|e] r']; simpl; [done|].
  by rewrite app_nil_r.
Qed.

(** The proxy of the host in the client's registry.  When it comes up the
    device is registered under the bridge's connection with the configured
    capabilities as its only targets, the relay is on, and no action finds
    another provider than before, so a request from the host never loops
    back; when it goes down, whatever happened in between, the device and
    its channel are gone. *)
Theorem bridge_proxy clk device_id caps tx w :
  registry_reachable (registry w) ->
  eval (bridge_up clk device_id caps tx) w = Ok tt ->
  let w1 := exec (bridge_up clk device_id caps tx) w in
  (exists e, get_by_conn_id BRIDGE_CONN_ID_BASE (registry w1) = Some e /\ plugin_id e = device_id /\
     ipc_targets (manifest e) = caps /\ actions (manifest e) = []) /\
  is_connected w1 = true /\
  (forall a, find_action_provider a (registry w1) = find_action_provider a (registry w)) /\
  (forall w2, let w3 := exec (bridge_down device_id tx) w2 in
     get device_id (registry w3) = None /\ tx ∉ bridge_conns w3).
Proof.
  intros Hr%reachable_ok Hup w1. pose proof (bridge_up_run clk device_id caps tx w) as Hrun.
  destruct (register_with_device _ _ _ _ _ _ _) as [res r'] eqn:Hreg. destruct Hrun as (He & Er & Ec).
  rewrite Hup in He. destruct res as [[]|]; [|done]. fold w1 in Er, Ec.
  destruct (register_with_device_add _ _ _ _ _ _ _ _ Hreg) as (_ & Hcid & Hpid & e & -> & E1 & E2 & E3 & _).
  destruct (add_entry_fields clk e (bridge_meta device_id caps) caps (registry w)) as (F1 & F2 & _).
  rewrite Er. split_and!.
  - exists e. unfold get_by_conn_id, get. cbn [bridge_meta meta_capabilities]. rewrite F2, E2, lookup_insert_eq.
    cbn [mbind option_bind]. rewrite F1, E1, lookup_insert_eq, E3. done.
  - unfold is_connected. rewrite Ec. by destruct (bridge_conns w).
  - intros a. unfold find_action_provider, add_entry. rewrite E3. cbn [bridge_manifest actions index_actions foldl].
    simpl. destruct (ambiguous_actions (registry w) !! a); [done|].
    destruct (action_index (registry w) !! a) as [q|] eqn:Ha; [|done].
    destruct (decide (q = plugin_id e)) as [->|]; [|by rewrite lookup_insert_ne].
    destruct (indexed_registered _ _ _ Hr Ha) as [x Hx]. by rewrite E1, Hpid in Hx.
  - intros w2 w3. unfold w3, bridge_down. rewrite exec_bind. unfold unregister_conn, modify, exec. simpl. split.
    + apply unregister_gone.
    + rewrite list_elem_of_filter. tauto.
Qed.

(** The pauses of a bridge double from one second up to thirty and never
    start over, whatever the outcome of the connections in between; only a
    shutdown ends the attempts. *)
Theorem bridge_backoff_never_resets outcomes :
  Some BShutdown ∉ outcomes ->
  bridge_run 1 outcomes = map (fun i => Z.min (2 ^ Z.of_nat i) BRIDGE_MAX_BACKOFF) (seq 0 (length outcomes)).
Proof.
  intros Hno. assert (forall n, bridge_run (Z.min (2 ^ Z.of_nat n) BRIDGE_MAX_BACKOFF) outcomes =
    map (fun i => Z.min (2 ^ Z.of_nat i) BRIDGE_MAX_BACKOFF) (seq n (length outcomes))) as Hg; [|apply (Hg 0%nat)].
  induction outcomes as [|o outcomes IH]; intros n; [done|].
  assert (Z.min (Z.min (2 ^ Z.of_nat n) BRIDGE_MAX_BACKOFF * 2) BRIDGE_MAX_BACKOFF =
          Z.min (2 ^ Z.of_nat (S n)) BRIDGE_MAX_BACKOFF) as Hstep.
  { rewrite Nat2Z.inj_succ, Z.pow_succ_r by lia. unfold BRIDGE_MAX_BACKOFF. lia. }
  cbn [length seq map]. rewrite <- IH by set_solver. rewrite <- Hstep.
  destruct o as [[]|]; try done. set_solver.
Qed.

(** The address a bridge dials always has a WebSocket scheme. *)
Theorem resolve_ws_url_scheme host_url url :
  resolve_ws_url host_url = Ok url -> starts_with "ws://" url = true \/ starts_with "wss://" url = true.
Proof.
  unfold resolve_ws_url. destruct (starts_with "ws://" host_url) eqn:E1; [intros [= <-]; by left|].
  destruct (starts_with "wss://" host_url) eqn:E2; [intros [= <-]; by right|]. simpl.
  destruct (split_once_str "://" host_url) as [[scheme rest]|]; [|done]. simpl. unfold ws_scheme_for.
  case_bool_decide; [|case_bool_decide; [|done]]; simpl;
    (destruct (split_once "/"%char rest) as [[h p]|]; intros [= <-]); [left|left|right|right]; reflexivity.
Qed.

End Properties.

Example url_default_path : resolve_ws_url "http://h:8080" = Ok "ws://h:8080/ws".
Proof. reflexivity. Qed.
Example url_own_path : resolve_ws_url "https://h/custom" = Ok "wss://h/custom".
Proof. reflexivity. Qed.
Example url_other_scheme : resolve_ws_url "ftp://h" = Err bad_url.
Proof. reflexivity. Qed.

(** ** Runs *)
Module BridgeRuns.

(** The frame a client kernel's reply becomes on the wire. *)
Definition key : bytes := [1; 2; 3].
Definition reply : Frame := mkFrame 0x5652 0 1 (target_bytes "client") 7 [7] None.
Definition on_wire : Frame := mkFrame 0x5652 1 1 (target_bytes "kernel") 7 [7] (Some [61]).
Definition read (b : bytes) : Result WireError Frame :=
  if b ==? frame_to_bytes on_wire then Ok on_wire else Err WFrameMagicMismatch.

#[local] Instance wire : WireCrate := toy_wire_with read [].
#[local] Instance laws : WireLaws := toy_laws_with read [].
#[local] Instance iter : HashIter := canonical_iter.
#[local] Instance gov : Governor := open_governor.

Lemma bridge_link_witness :
  let c := mkWsConn 0 (Some key) true in
  ws_turn None 5 (EvRecv (WsBinary (frame_to_bytes on_wire)) true) c {[5 := key]} = WsGo c {[5 := key]} (Some on_wire) None.
Proof.
  intros c. assert (outbound_frame (Some key) reply = on_wire) as Ho by (vm_compute; reflexivity).
  destruct (bridge_link key "phone" reply reply None 5 c {[5 := key]}) as [Hl _]; [reflexivity|reflexivity|].
  cbv zeta in Hl. rewrite Ho in Hl. destruct Hl as [-> _]; [vm_compute; reflexivity|done].
Defined.

Lemma bridge_inbound_witness :
  exists ms e, bridge_read_loop (fun _ => true) 0 (Some key) "phone" 9 5 [HOther; HBinary (frame_to_bytes on_wire)] = (ms, e) /\
    length ms = 1%nat /\ Forall (relayed (Some key) "phone" 9 [HOther; HBinary (frame_to_bytes on_wire)]) ms.
Proof.
  destruct (bridge_read_loop (fun _ => true) 0 (Some key) "phone" 9 5 [HOther; HBinary (frame_to_bytes on_wire)])
    as [ms e] eqn:E.
  exists ms, e. split; [done|]. split.
  - vm_compute in E. injection E as <- _. reflexivity.
  - by apply (bridge_inbound_safe (fun _ => true) 0 (Some key) "phone" 9 5 _ ms e).
Defined.

Lemma bridge_token_witness : extract_ws_token (Some (bridge_protocol "eyJh.eyJz.c2ln")) = "eyJh.eyJz.c2ln".
Proof. apply (bridge_token_roundtrip "eyJh.eyJz.c2ln"); [reflexivity|done|done]. Defined.

Definition w : World := mkWorld registry_new bus_new ∅ ∅ 0 0 0 None None ∅ [].

Lemma bridge_proxy_witness : is_connected (exec (bridge_up (mkClock 0 0) "phone" ["tts"] 9) w) = true.
Proof.
  apply (bridge_proxy (mkClock 0 0) "phone" ["tts"] 9 w); [constructor|vm_compute; reflexivity].
Defined.

Lemma bridge_backoff_witness :
  bridge_run 1 (replicate 7 None) = [1; 2; 4; 8; 16; 30; 30].
Proof.
  rewrite (bridge_backoff_never_resets (replicate 7 None)); [vm_compute; reflexivity|].
  intros Hin. by apply elem_of_replicate in Hin as [? _].
Defined.

End BridgeRuns.
