(* ===== verification/Calendar.v ===== *)
(** * Calendar

    The dependency-free UTC formatting of the device listings, written twice
    in the program: [format_ts] of [cli/devices.rs] and [format_ts] of
    [cli/device.rs]. Both turn a number of days since 1970-01-01 into a civil
    date by Hinnant's division formulas; here they are compared with the
    Gregorian calendar itself, day by day. *)

From S2P Require Import Prelude.

Open Scope Z_scope.

Record Civil := MkCivil { c_year : Z; c_month : Z; c_day : Z }.

(** ** The code

    [i64] division of the source is applied to non-negative operands only
    ([doe] is a [rem_euclid]), where it is [Z.div]. *)

(** The date part of [format_ts] of [cli/devices.rs]. *)
Definition civil_from_days (days : Z) : Civil :=
  let z := days + 719468 in
  let era := z / 146097 in
  let doe := z mod 146097 in
  let yoe := (doe - doe / 1460 + doe / 36524 - doe / 146096) / 365 in
  let y := yoe + era * 400 in
  let doy := doe - (365 * yoe + yoe / 4 - yoe / 100) in
  let mp := (5 * doy + 2) / 153 in
  let d := doy - (153 * mp + 2) / 5 + 1 in
  let m := if mp <? 10 then mp + 3 else mp - 9 in
  let y := if m <=? 2 then y + 1 else y in
  MkCivil y m d.

(** The date part of [format_ts] of [cli/device.rs]. *)
Definition civil_from_days' (days : Z) : Civil :=
  let z := days + 719468 in
  let era := z / 146097 in
  let doe := z mod 146097 in
  let yoe := (doe - doe / 1460 + doe / 36524 - doe / 146096) / 365 in
  let y := yoe + era * 400 in
  let doy := doe - (365 * yoe + yoe / 4 - yoe / 100 + yoe / 146096) in
  let mp := (5 * doy + 2) / 153 in
  let d := doy - (153 * mp + 2) / 5 + 1 in
  let m := if mp <? 10 then mp + 3 else mp - 9 in
  let y := if m <=? 2 then y + 1 else y in
  MkCivil y m d.

(** [{:0w}] of a non-negative integer. *)
Fixpoint zeros (n : nat) : string :=
  match n with O => EmptyString | S n => String "0"%char (zeros n) end.

Definition pad (w : nat) (n : Z) : string :=
  zeros (w - String.length (show n)) +:+ show n.

Definition render (c : Civil) (hh mm ss : Z) : string :=
  pad 4 (c_year c) +:+ "-" +:+ pad 2 (c_month c) +:+ "-" +:+ pad 2 (c_day c) +:+ " " +:+
  pad 2 hh +:+ ":" +:+ pad 2 mm +:+ ":" +:+ pad 2 ss.

(** [cli/devices.rs]: [format_ts] *)
Definition format_ts (epoch_secs : Z) : string :=
  let days := epoch_secs / 86400 in
  let secs_of_day := epoch_secs mod 86400 in
  render (civil_from_days days) (secs_of_day / 3600) (secs_of_day mod 3600 / 60)
         (secs_of_day mod 60).

(** [cli/device.rs]: [format_ts] *)
Definition device_format_ts (epoch_secs : Z) : string :=
  let days := epoch_secs / 86400 in
  let secs_of_day := epoch_secs mod 86400 in
  render (civil_from_days' days) (secs_of_day / 3600) (secs_of_day mod 3600 / 60)
         (secs_of_day mod 3600 mod 60).

(** ** The reference: the Gregorian calendar, one day after the other *)

Definition is_leap (y : Z) : bool :=
  (y mod 4 =? 0) && (negb (y mod 100 =? 0) || (y mod 400 =? 0)).

Definition days_in_month (y m : Z) : Z :=
  if m =? 2 then if is_leap y then 29 else 28
  else if (m =? 4) || (m =? 6) || (m =? 9) || (m =? 11) then 30 else 31.

Definition next_date (c : Civil) : Civil :=
  let '(MkCivil y m d) := c in
  if d <? days_in_month y m then MkCivil y m (d + 1)
  else if m <? 12 then MkCivil y (m + 1) 1
  else MkCivil (y + 1) 1 1.

Definition epoch_date : Civil := MkCivil 1970 1 1.

(** The date [n] days after the epoch. *)
Definition date_after (n : nat) : Civil := Nat.iter n next_date epoch_date.

Definition valid_date (c : Civil) : Prop :=
  1 <= c_month c <= 12 /\ 1 <= c_day c <= days_in_month (c_year c) (c_month c).

(** ** The division formulas *)

Section Formulas.

Definition yoe_of (doe : Z) : Z := (doe - doe / 1460 + doe / 36524 - doe / 146096) / 365.
Definition year_start (y : Z) : Z := 365 * y + y / 4 - y / 100.
Definition month_of (doy : Z) : Z := (5 * doy + 2) / 153.
Definition month_start (mp : Z) : Z := (153 * mp + 2) / 5.

Ltac divs := Z.div_mod_to_equations; lia.

(** [yoe_of] picks the year of the era, counted from 1 March, that holds the
    day. *)
Lemma yoe_bounds doe : 0 <= doe < 146097 -> 0 <= yoe_of doe < 400.
Proof. unfold yoe_of. intros. divs. Qed.

Lemma yoe_lower doe : 0 <= doe < 146097 -> year_start (yoe_of doe) <= doe.
Proof. unfold yoe_of, year_start. intros. divs. Qed.

Lemma yoe_upper doe : 0 <= doe < 146096 -> doe < year_start (yoe_of doe + 1).
Proof. unfold yoe_of, year_start. intros. divs. Qed.

Lemma year_start_succ y :
  year_start (y + 1) = year_start y + 365 + (if (y + 1) mod 4 =? 0 then
    (if (y + 1) mod 100 =? 0 then 0 else 1) else 0).
Proof.
  unfold year_start. destruct (Z.eqb_spec ((y + 1) mod 4) 0), (Z.eqb_spec ((y + 1) mod 100) 0); divs.
Qed.

Lemma yoe_unique doe y :
  0 <= doe < 146097 -> 0 <= y < 400 -> year_start y <= doe < year_start (y + 1) -> yoe_of doe = y.
Proof. unfold yoe_of, year_start. intros. divs. Qed.

(** The next day is in the same year of the era or starts the next one; the
    last day of the era is the leap day of its last year. *)
Lemma yoe_step doe :
  0 <= doe < 146096 ->
  (doe + 1 < year_start (yoe_of doe + 1) + Z.b2z (yoe_of doe =? 399) /\ yoe_of (doe + 1) = yoe_of doe) \/
  (doe + 1 = year_start (yoe_of doe + 1) /\ yoe_of (doe + 1) = yoe_of doe + 1 /\ yoe_of doe < 399).
Proof.
  intros Hd. pose proof (yoe_bounds doe). pose proof (yoe_lower doe). pose proof (yoe_upper doe).
  destruct (Z.eq_dec doe 146095) as [->|Hlast]; [by left|].
  destruct (Z.eq_dec (doe + 1) (year_start (yoe_of doe + 1))) as [He|Hne].
  - right. assert (yoe_of doe < 399).
    { assert (yoe_of doe <> 399); [|lia]. intros Hy. rewrite Hy in He. change (year_start (399 + 1)) with 146096 in He. lia. }
    split_and!; [done| |done]. apply yoe_unique; [lia..|].
    pose proof (year_start_succ (yoe_of doe + 1)). repeat case_match; lia.
  - left. split; [destruct (_ =? _); cbn; lia|]. apply yoe_unique; lia.
Qed.

Lemma doy_bound doe : 0 <= doe < 146097 -> 0 <= doe - year_start (yoe_of doe) <= 365.
Proof.
  intros Hd. pose proof (yoe_lower doe). pose proof (yoe_upper doe).
  pose proof (year_start_succ (yoe_of doe)).
  destruct (Z.eq_dec doe 146096) as [->|]; [by cbv; split|]. repeat case_match; lia.
Qed.

(** [month_of] picks the month, counted from March. *)
Lemma month_bounds doy : 0 <= doy <= 365 -> 0 <= month_of doy <= 11.
Proof. unfold month_of. intros. divs. Qed.

Lemma month_lower doy : 0 <= doy -> month_start (month_of doy) <= doy < month_start (month_of doy + 1).
Proof. unfold month_of, month_start. intros. divs. Qed.

Lemma month_last doy : 364 <= doy <= 365 -> month_of doy = 11.
Proof. unfold month_of. intros. divs. Qed.

Lemma month_step doy :
  0 <= doy ->
  (doy + 1 < month_start (month_of doy + 1) /\ month_of (doy + 1) = month_of doy) \/
  (doy + 1 = month_start (month_of doy + 1) /\ month_of (doy + 1) = month_of doy + 1).
Proof. unfold month_of, month_start. intros. divs. Qed.

(** A date given by its year and month counted from March. *)
Definition from_march (y mp d : Z) : Civil :=
  MkCivil (if mp <? 10 then y else y + 1) (if mp <? 10 then mp + 3 else mp - 9) d.

Definition era_date (era doe : Z) : Civil :=
  let yoe := yoe_of doe in
  let doy := doe - year_start yoe in
  from_march (yoe + era * 400) (month_of doy) (doy - month_start (month_of doy) + 1).

Lemma civil_era_date days :
  civil_from_days days = era_date ((days + 719468) / 146097) ((days + 719468) mod 146097).
Proof.
  set (doe := (days + 719468) mod 146097).
  assert (Hdoe : 0 <= doe < 146097) by (apply Z.mod_pos_bound; lia).
  pose proof (yoe_lower doe Hdoe) as Hlo.
  unfold civil_from_days, era_date, from_march. fold doe. cbv zeta.
  fold (yoe_of doe). fold (year_start (yoe_of doe)).
  fold (month_of (doe - year_start (yoe_of doe))). set (mp := month_of _).
  assert (0 <= mp) by (unfold mp, month_of; divs). fold (month_start mp).
  destruct (Z.ltb_spec mp 10).
  - by destruct (Z.leb_spec (mp + 3) 2); [lia|].
  - destruct (Z.leb_spec (mp - 9) 2); [done|].
    assert (mp <= 11); [|lia]. pose proof (doy_bound doe Hdoe).
    apply month_bounds. lia.
Qed.

Definition march_len (mp : Z) : Z := month_start (mp + 1) - month_start mp.

Lemma march_len_spec y mp :
  0 <= mp <= 10 ->
  days_in_month (c_year (from_march y mp 1)) (c_month (from_march y mp 1)) = march_len mp.
Proof.
  intros Hm. assert (Hc : mp = 0 \/ mp = 1 \/ mp = 2 \/ mp = 3 \/ mp = 4 \/ mp = 5 \/ mp = 6 \/
    mp = 7 \/ mp = 8 \/ mp = 9 \/ mp = 10) by lia.
  destruct_or! Hc; subst; reflexivity.
Qed.

Lemma next_same_month y mp d :
  d < days_in_month (c_year (from_march y mp 1)) (c_month (from_march y mp 1)) ->
  next_date (from_march y mp d) = from_march y mp (d + 1).
Proof. unfold from_march. cbn. intros Hd. by destruct (Z.ltb_spec d (days_in_month
  (if mp <? 10 then y else y + 1) (if mp <? 10 then mp + 3 else mp - 9))); [|lia]. Qed.

Lemma next_month y mp d :
  0 <= mp <= 10 -> d = march_len mp -> next_date (from_march y mp d) = from_march y (mp + 1) 1.
Proof.
  intros Hm ->. pose proof (march_len_spec y mp Hm) as Hl. unfold from_march in *. cbn in *.
  destruct (Z.ltb_spec (march_len mp)
    (days_in_month (if mp <? 10 then y else y + 1) (if mp <? 10 then mp + 3 else mp - 9))); [lia|].
  destruct (Z.ltb_spec mp 10), (Z.ltb_spec (mp + 1) 10); try lia.
  - destruct (Z.ltb_spec (mp + 3) 12); [|lia]. f_equal; lia.
  - assert (mp = 9) as -> by lia. done.
  - assert (mp = 10) as -> by lia. done.
Qed.

(** February, the last month of a year that starts in March. *)
Lemma feb_len era y :
  0 <= y < 400 ->
  days_in_month (y + era * 400 + 1) 2 =
  year_start (y + 1) - year_start y - month_start 11 + Z.b2z (y =? 399).
Proof.
  intros Hy. rewrite year_start_succ. change (month_start 11) with 337.
  unfold days_in_month, is_leap. cbn [Z.eqb Pos.eqb].
  replace ((y + era * 400 + 1) mod 4) with ((y + 1) mod 4) by divs.
  replace ((y + era * 400 + 1) mod 100) with ((y + 1) mod 100) by divs.
  replace ((y + era * 400 + 1) mod 400) with ((y + 1) mod 400) by divs.
  destruct (Z.eqb_spec ((y + 1) mod 4) 0), (Z.eqb_spec ((y + 1) mod 100) 0),
    (Z.eqb_spec ((y + 1) mod 400) 0), (Z.eqb_spec y 399); cbn [andb orb negb Z.b2z]; divs.
Qed.

Lemma next_year y d :
  d = days_in_month (y + 1) 2 -> next_date (from_march y 11 d) = from_march (y + 1) 0 1.
Proof. intros ->. unfold from_march, next_date. cbn [Z.ltb Z.compare Pos.compare Pos.compare_cont].
  change (11 - 9) with 2. rewrite Z.ltb_irrefl. done. Qed.

End Formulas.

(** ** The formulas step like the calendar *)

Lemma era_date_step era doe :
  0 <= doe < 146096 -> era_date era (doe + 1) = next_date (era_date era doe).
Proof.
  intros Hd. unfold era_date. cbv zeta. set (y := yoe_of doe).
  set (doy := doe - year_start y).
  assert (Hdoy : 0 <= doy <= 365) by (apply doy_bound; lia).
  pose proof (month_bounds doy Hdoy) as Hmb. pose proof (month_lower doy (proj1 Hdoy)) as Hml.
  assert (Hy : 0 <= y < 400) by (apply yoe_bounds; lia).
  destruct (yoe_step doe Hd) as [[Hlt ->]|(He & -> & Hy')]; fold y.
  - replace (doe + 1 - year_start y) with (doy + 1) by lia.
    destruct (month_step doy (proj1 Hdoy)) as [[Hm ->]|[Hm Hm']].
    + rewrite next_same_month; [f_equal; lia|].
      destruct (Z.le_gt_cases (month_of doy) 10).
      * rewrite march_len_spec by lia. unfold march_len. lia.
      * assert (Hm11 : month_of doy = 11) by lia. rewrite Hm11 in *. cbn. change (11 - 9) with 2.
        rewrite feb_len by done. fold y in Hlt. lia.
    + assert (Hle : month_of doy <= 10).
      { assert (month_of doy <> 11); [|lia]. intros Hm11. rewrite Hm11 in *.
        change (month_start (11 + 1)) with 367 in Hm. lia. }
      rewrite Hm', next_month; [f_equal; lia|lia|]. unfold march_len. lia.
  - fold y in He. replace (doe + 1 - year_start (y + 1)) with 0 by lia.
    assert (Hm11 : month_of doy = 11) 
      by (apply month_last; pose proof (year_start_succ y); repeat case_match; lia).
    rewrite Hm11. symmetry. rewrite next_year; [f_equal; lia|].
    rewrite feb_len by done. destruct (Z.eqb_spec y 399); cbn; lia.
Qed.

Lemma civil_step days : civil_from_days (days + 1) = next_date (civil_from_days days).
Proof.
  rewrite !civil_era_date. set (z := days + 719468). replace (days + 1 + 719468) with (z + 1) by lia.
  pose proof (Z.mod_pos_bound z 146097 ltac:(lia)) as Hb. pose proof (Z.div_mod z 146097 ltac:(lia)) as Hz.
  set (q := z / 146097) in *. set (r := z mod 146097) in *.
  destruct (Z.eq_dec r 146096) as [Hr|Hr].
  - replace ((z + 1) / 146097) with (q + 1) by (apply (Z.div_unique _ _ _ 0); lia).
    replace ((z + 1) mod 146097) with 0 by (apply (Z.mod_unique _ _ (q + 1)); lia).
    rewrite Hr. unfold era_date. change (yoe_of 146096) with 399. change (yoe_of 0) with 0.
    cbv zeta. symmetry. etrans; [apply next_year|].
    + rewrite (feb_len q 399) by lia. reflexivity.
    + by replace (399 + q * 400 + 1) with (0 + (q + 1) * 400) by lia.
  - replace ((z + 1) / 146097) with q by (apply (Z.div_unique _ _ _ (r + 1)); lia).
    replace ((z + 1) mod 146097) with (r + 1) by (apply (Z.mod_unique _ _ q); lia).
    apply era_date_step. lia.
Qed.

Lemma civil_date_after n : civil_from_days (Z.of_nat n) = date_after n.
Proof.
  induction n as [|n IH]; [reflexivity|].
  rewrite Nat2Z.inj_succ, <- Z.add_1_r, civil_step, IH. done.
Qed.

Lemma civil_from_days_agree days : civil_from_days' days = civil_from_days days.
Proof.
  unfold civil_from_days', civil_from_days. cbv zeta. set (doe := (days + 719468) mod 146097).
  fold (yoe_of doe).
  assert (Hy : 0 <= yoe_of doe < 400) by (apply yoe_bounds, Z.mod_pos_bound; lia).
  rewrite (Z.div_small (yoe_of doe) 146096) by lia. by rewrite Z.add_0_r.
Qed.

Lemma next_date_valid c : valid_date c -> valid_date (next_date c).
Proof.
  destruct c as [y m d]. unfold valid_date, next_date. cbn [c_year c_month c_day]. intros [Hm Hd].
  assert (Hpos : forall y m, 1 <= days_in_month y m).
  { intros. unfold days_in_month. repeat case_match; lia. }
  destruct (Z.ltb_spec d (days_in_month y m)); [cbn; lia|].
  destruct (Z.ltb_spec m 12); cbn [c_year c_month c_day]; split; try lia; split; try lia; apply Hpos.
Qed.

Lemma date_after_valid n : valid_date (date_after n).
Proof. induction n as [|n IH]; [by cbv|]. by apply next_date_valid. Qed.

(** ** The text *)

Lemma string_length_app (s t : string) :
  String.length (s +:+ t) = (String.length s + String.length t)%nat.
Proof. induction s as [|c s IH]; [done|]. change (S (String.length (s +:+ t)) = S (String.length s + String.length t))%nat. by rewrite IH. Qed.

Lemma zeros_length n : String.length (zeros n) = n.
Proof. induction n; cbn; congruence. Qed.

(** A number below [10 ^ k] has at most [k] digits. *)
Lemma pretty_N_go_length (k : nat) (x : N) (s : string) :
  (x < 10 ^ N.of_nat k)%N -> (String.length (pretty_N_go x s) <= k + String.length s)%nat.
Proof.
  revert x s. induction k as [|k IH]; intros x s Hx.
  - assert (x = 0%N) as -> by (cbn in Hx; lia). rewrite pretty_N_go_0. lia.
  - destruct (N.eq_0_gt_0_cases x) as [->|Hpos]; [rewrite pretty_N_go_0; lia|].
    rewrite pretty_N_go_step by done. etrans; [apply IH|cbn; lia].
    rewrite Nat2N.inj_succ, N.pow_succ_r' in Hx. apply N.Div0.div_lt_upper_bound. lia.
Qed.

Lemma show_length (k : nat) n :
  (0 < k)%nat -> 0 <= n < 10 ^ Z.of_nat k -> (String.length (show n) <= k)%nat.
Proof.
  intros Hk Hn. unfold show, pretty, pretty_Z. destruct n as [|p|p]; [cbn; lia| |lia].
  unfold pretty, pretty_positive, pretty, pretty_N. case_decide; [done|].
  etrans; [apply (pretty_N_go_length k)|cbn; lia].
  apply N2Z.inj_lt. rewrite N2Z.inj_pow, nat_N_Z. cbn. lia.
Qed.

Lemma pad_length (w : nat) n :
  (0 < w)%nat -> 0 <= n < 10 ^ Z.of_nat w -> String.length (pad w n) = w.
Proof.
  intros Hw Hn. unfold pad. rewrite string_length_app, zeros_length.
  pose proof (show_length w n Hw Hn). lia.
Qed.

Lemma pad2_length n : 0 <= n < 100 -> String.length (pad 2 n) = 2%nat.
Proof. intros. apply pad_length; lia. Qed.

Lemma pad4_length n : 0 <= n < 10000 -> String.length (pad 4 n) = 4%nat.
Proof. intros. apply pad_length; lia. Qed.

Lemma civil_year_bounds days :
  0 <= days < 2932897 -> 0 <= c_year (civil_from_days days) < 10000.
Proof.
  intros Hd. rewrite civil_era_date. set (z := days + 719468).
  pose proof (Z.mod_pos_bound z 146097 ltac:(lia)) as Hb. pose proof (Z.div_mod z 146097 ltac:(lia)) as Hz.
  set (q := z / 146097) in *. set (r := z mod 146097) in *.
  pose proof (yoe_bounds r Hb) as Hy. pose proof (yoe_lower r Hb) as Hlo.
  unfold era_date, from_march. cbn [c_year]. set (y := yoe_of r) in *.
  destruct (Z.ltb_spec (month_of (r - year_start y)) 10) as [|Hm]; [lia|].
  assert (Hyq : y + q * 400 <> 9999); [|lia]. intros Heq.
  assert (y = 399) as Hy9 by lia. rewrite Hy9 in *. change (year_start 399) with 145731 in *.
  unfold month_of in Hm. Z.div_mod_to_equations. lia.
Qed.

Lemma civil_valid days : 0 <= days -> valid_date (civil_from_days days).
Proof.
  intros Hd. rewrite <- (Z2Nat.id days) by done. rewrite civil_date_after. apply date_after_valid.
Qed.

(** C38: for every [u64] number of seconds both copies of [format_ts] print
    the same text, and it is the Gregorian date reached by counting that many
    whole days from 1970-01-01 with the leap-year rule, followed by the time
    of day; the [i64] sum in the code never overflows. *)
Theorem format_ts_gregorian (secs : Z) (Hs : 0 <= secs <= u64_max) :
  format_ts secs =
    render (date_after (Z.to_nat (secs / 86400)))
           (secs / 3600 mod 24) (secs / 60 mod 60) (secs mod 60) /\
  device_format_ts secs = format_ts secs /\
  valid_date (date_after (Z.to_nat (secs / 86400))) /\
  secs / 86400 + 719468 < 2 ^ 63.
Proof.
  assert (Hd : 0 <= secs / 86400) by (Z.div_mod_to_equations; lia).
  assert (Hss : secs mod 86400 mod 60 = secs mod 60) by (Z.div_mod_to_equations; lia).
  split_and!.
  - unfold format_ts. cbv zeta. rewrite <- civil_date_after, Z2Nat.id, Hss by done.
    f_equal; Z.div_mod_to_equations; lia.
  - unfold device_format_ts, format_ts. cbv zeta. rewrite civil_from_days_agree. f_equal.
    Z.div_mod_to_equations. lia.
  - apply date_after_valid.
  - unfold u64_max in Hs. Z.div_mod_to_equations. lia.
Qed.

Lemma format_ts_gregorian_witness :
  format_ts 1709164799 = "2024-02-28 23:59:59" /\ format_ts 1709164800 = "2024-02-29 00:00:00" /\
  device_format_ts 1709164800 = format_ts 1709164800.
Proof.
  split; [by vm_compute|]. split; [by vm_compute|].
  apply (format_ts_gregorian 1709164800). unfold u64_max. lia.
Defined.

(** Up to the end of the year 9999 the printed timestamp has the fixed
    width of nineteen characters the tables rely on. *)
Theorem format_ts_width (secs : Z) (Hs : 0 <= secs < 253402300800) :
  String.length (format_ts secs) = 19%nat.
Proof.
  assert (Hd : 0 <= secs / 86400 < 2932897) by (Z.div_mod_to_equations; lia).
  pose proof (civil_year_bounds _ Hd) as Hy.
  pose proof (civil_valid _ (proj1 Hd)) as [Hm Hdd].
  assert (Hub : forall y m, days_in_month y m <= 31).
  { intros. unfold days_in_month. repeat case_match; lia. }
  specialize (Hub (c_year (civil_from_days (secs / 86400))) (c_month (civil_from_days (secs / 86400)))).
  unfold format_ts, render. cbv zeta. rewrite !string_length_app, pad4_length by done.
  rewrite !pad2_length by (Z.div_mod_to_equations; lia). done.
Qed.

Lemma format_ts_width_witness : String.length (format_ts 253402300799) = 19%nat.
Proof. apply format_ts_width. lia. Defined.
