(* ===== verification/Table.v ===== *)
(** * Tables on the terminal

    The six-column tables of [vyn devices] ([cli/devices.rs]) and
    [vyn device list] ([cli/device.rs]): column widths in bytes, cells padded
    by [{:<w$}], and the [\x1f]-joined text the second one goes through. *)

From S2P Require Import Prelude Text Sandbox Calendar.

Open Scope Z_scope.

Definition NL : ascii := "010"%char.
Definition CR : ascii := "013"%char.
Definition US : ascii := "031"%char.

(** [s.chars().count()]: the bytes that do not continue a character. *)
Definition char_count (s : string) : nat :=
  length (filter (fun b => cont b = false) (string_bytes s)).

Fixpoint spaces (n : nat) : string :=
  match n with O => EmptyString | S n => String " "%char (spaces n) end.

(** [{:<w$}] *)
Definition pad_right (w : nat) (s : string) : string := s +:+ spaces (w - char_count s).

(** [widths[i] = widths[i].max(cell.len())] over the cells of a row. *)
Fixpoint widen (widths : list nat) (cells : list string) : list nat :=
  match widths, cells with
  | w :: widths, c :: cells => Nat.max w (String.length c) :: widen widths cells
  | _, _ => widths
  end.

Definition table_widths (headers : list string) (rows : list (list string)) : list nat :=
  fold_left widen rows (map String.length headers).

(** ["{:<w0$}  {:<w1$}  {:<w2$}  {:<w3$}  {:<w4$}  {}"]; [None] when a cell
    is missing, where the index panics. *)
Definition format_row (ws : list nat) (cells : list string) : option string :=
  match ws, cells with
  | w0 :: w1 :: w2 :: w3 :: w4 :: _, c0 :: c1 :: c2 :: c3 :: c4 :: c5 :: _ =>
      Some (pad_right w0 c0 +:+ "  " +:+ pad_right w1 c1 +:+ "  " +:+ pad_right w2 c2 +:+ "  " +:+
            pad_right w3 c3 +:+ "  " +:+ pad_right w4 c4 +:+ "  " +:+ c5)
  | _, _ => None
  end.

(** [cells.join(sep)] *)
Fixpoint join_with (sep : string) (l : list string) : string :=
  match l with
  | [] => EmptyString
  | [s] => s
  | s :: l => s +:+ sep +:+ join_with sep l
  end.

(** [str::lines]: the pieces between newlines, without an empty last one and
    without a trailing carriage return. *)
Fixpoint strip_cr (s : string) : string :=
  match s with
  | EmptyString => EmptyString
  | String a EmptyString => if a ==? CR then EmptyString else s
  | String a s' => String a (strip_cr s')
  end.

(** A line that ended in a newline loses one carriage return. *)
Definition str_lines (s : string) : list string :=
  let pieces := split_char NL s in
  let closed := map strip_cr (take (length pieces - 1) pieces) in
  match last pieces with
  | Some EmptyString | None => closed
  | Some l => closed ++ [l]
  end.

(** ** Lemmas *)

Lemma str_app_assoc (s t u : string) : (s +:+ t) +:+ u = s +:+ (t +:+ u).
Proof. induction s as [|a s IH]; [done|]. change (String a ((s +:+ t) +:+ u) = String a (s +:+ (t +:+ u))). by rewrite IH. Qed.

Lemma strip_cr_app s t : t <> EmptyString -> strip_cr (s +:+ t) = s +:+ strip_cr t.
Proof.
  intros Ht. induction s as [|a s IH]; [done|].
  change (String a s +:+ t) with (String a (s +:+ t)). change (String a s +:+ strip_cr t) with (String a (s +:+ strip_cr t)).
  rewrite <- IH. simpl. destruct (s +:+ t) eqn:E; [|done]. by destruct s, t.
Qed.

Lemma strip_cr_no_char c s : contains_char c s = false -> contains_char c (strip_cr s) = false.
Proof.
  induction s as [|a s IH]; [done|]. cbn [contains_char]. intros [Ha Hs]%orb_false_elim.
  destruct s as [|b s]; cbn [strip_cr].
  - destruct (a ==? CR); [done|]. cbn [contains_char]. by rewrite Ha.
  - transitivity (bool_decide (a = c) || contains_char c (strip_cr (String b s))); [done|].
    by rewrite Ha, (IH Hs).
Qed.

Lemma split_char_nonempty c s : split_char c s <> [].
Proof. destruct s; simpl; [done|]. case_decide; [done|]. by destruct (split_char c s). Qed.

Lemma str_lines_cons l s :
  contains_char NL l = false -> str_lines (l +:+ String NL s) = strip_cr l :: str_lines s.
Proof.
  intros Hl. unfold str_lines. rewrite split_char_app by done. cbn [length].
  pose proof (split_char_nonempty NL s) as Hne.
  destruct (split_char NL s) as [|p ps]; [done|].
  replace (S (length (p :: ps)) - 1)%nat with (S (length ps)) by (cbn; lia).
  replace (length (p :: ps) - 1)%nat with (length ps) by (cbn; lia).
  cbn [take map]. rewrite last_cons_cons. by destruct (last (p :: ps)) as [[|]|].
Qed.

(** Lines that hold no newline and end in no carriage return survive being
    written one after the other and read back. *)
Lemma str_lines_concat ls :
  Forall (fun l => contains_char NL l = false /\ strip_cr l = l) ls ->
  str_lines (foldr (fun l acc => l +:+ String NL acc) EmptyString ls) = ls.
Proof. induction 1 as [|l ls [Hl Hcr] _ IH]; [done|]. cbn [foldr]. by rewrite str_lines_cons, IH, Hcr. Qed.

Lemma split_join_with c cells :
  cells <> [] -> Forall (fun s => contains_char c s = false) cells ->
  split_char c (join_with (String c EmptyString) cells) = cells.
Proof.
  intros Hne. induction cells as [|s [|t cells] IH]; [done|..]; intros [Hs Hc]%Forall_cons.
  - by apply split_char_none.
  - change (join_with (String c EmptyString) (s :: t :: cells))
      with (s +:+ String c (join_with (String c EmptyString) (t :: cells))).
    rewrite split_char_app by done. by rewrite IH.
Qed.

Lemma join_with_no_char c sep cells :
  contains_char c sep = false -> Forall (fun s => contains_char c s = false) cells ->
  contains_char c (join_with sep cells) = false.
Proof.
  intros Hsep. induction cells as [|s [|t cells] IH]; [done|..]; intros [Hs Hc]%Forall_cons; [done|].
  change (join_with sep (s :: t :: cells)) with (s +:+ sep +:+ join_with sep (t :: cells)).
  by rewrite !contains_char_app, Hs, Hsep, IH.
Qed.

Lemma format_row_six ws cells :
  length ws = 6%nat -> length cells = 6%nat -> is_Some (format_row ws cells).
Proof.
  intros Hw Hc. destruct ws as [|w0 [|w1 [|w2 [|w3 [|w4 ws]]]]]; simplify_eq/=.
  destruct cells as [|c0 [|c1 [|c2 [|c3 [|c4 [|c5 cells]]]]]]; simplify_eq/=. eauto.
Qed.

Lemma widen_length ws cells : length (widen ws cells) = length ws.
Proof. revert cells. induction ws as [|w ws IH]; intros [|c cells]; simpl; auto. Qed.

Lemma table_widths_length headers rows : length (table_widths headers rows) = length headers.
Proof.
  transitivity (length (map String.length headers)); [|apply length_map].
  unfold table_widths. generalize (map String.length headers). induction rows as [|r rows IH]; intros ws; [done|].
  simpl. by rewrite IH, widen_length.
Qed.

(** The digits and punctuation of a timestamp. *)
Definition is_control (a : ascii) : Prop := (N_of_ascii a < 32)%N.

Lemma pretty_N_go_no_control c x s :
  is_control c -> contains_char c s = false -> contains_char c (pretty_N_go x s) = false.
Proof.
  intros Hc. revert s. induction (N.lt_wf_0 x) as [x _ IH]. intros s Hs.
  destruct (N.eq_0_gt_0_cases x) as [->|Hpos]; [by rewrite pretty_N_go_0|].
  rewrite pretty_N_go_step by done. apply IH; [by apply N.div_lt|]. cbn [contains_char].
  rewrite Hs, orb_false_r. apply bool_decide_eq_false. intros E.
  unfold is_control in Hc. rewrite <- E in Hc. unfold pretty_N_char in Hc.
  by repeat case_match; vm_compute in Hc.
Qed.

Lemma show_no_control c n : is_control c -> contains_char c (show n) = false.
Proof.
  intros Hc. assert (forall a, (32 <= N_of_ascii a)%N -> bool_decide (a = c) = false) as Ha.
  { intros a Hle. apply bool_decide_eq_false. intros ->. unfold is_control in Hc. lia. }
  assert (forall p, contains_char c (pretty (N.pos p)) = false) as Hp.
  { intros p. unfold pretty, pretty_N. case_decide; [done|]. by apply pretty_N_go_no_control. }
  unfold show, pretty, pretty_Z. destruct n as [|p|p].
  - cbn. rewrite Ha; [done|]. by vm_compute.
  - apply Hp.
  - rewrite contains_char_app. rewrite (Hp p : contains_char c (pretty p) = false). cbn.
    rewrite Ha; [done|]. by vm_compute.
Qed.

Lemma zeros_no_control c n : is_control c -> contains_char c (zeros n) = false.
Proof.
  intros Hc. induction n as [|n IH]; [done|]. cbn. rewrite IH, orb_false_r.
  apply bool_decide_eq_false. intros <-. by vm_compute in Hc.
Qed.

Lemma timestamp_no_control c secs : is_control c -> contains_char c (device_format_ts secs) = false.
Proof.
  intros Hc. assert (forall w n, contains_char c (pad w n) = false) as Hp.
  { intros w n. unfold pad. by rewrite contains_char_app, zeros_no_control, show_no_control. }
  assert (forall a, (32 <= N_of_ascii a)%N -> contains_char c (String a EmptyString) = false) as Ha.
  { intros a Hle. cbn. rewrite orb_false_r. apply bool_decide_eq_false. intros ->. unfold is_control in Hc. lia. }
  unfold device_format_ts, render. cbv zeta. rewrite !contains_char_app, !Hp, !Ha by by vm_compute. done.
Qed.
