(* ===== verification/Pairing.v ===== *)
(** * Pairing and device credentials on the command line

    [vyn device connect | list | revoke | remove] ([src/cli/device.rs]) and
    [vyn token mint] ([src/cli/token.rs]).  A command acts on the credential
    file the running kernel re-reads, on an SVG file and on the terminal:
    that is the state [PairWorld].  Clocks, random bytes, the network and
    I/O faults are the record [PairEnv]; the [url], [serde_json], [flate2],
    [base64] and [qrcode] crates are classes. *)

From S2P Require Import Prelude Wire Text Calendar Table Channel Registry Jwt DeviceStore World Commands Router Sandbox Config Connection Gateway.

Open Scope Z_scope.

(** ** Data *)

Record PairPayload := mkPayload {
  pp_v : Z;
  pp_name : string;
  pp_host_url : string;
  pp_device_id : string;
  pp_jwt_token : string;
  pp_device_secret : string;
  pp_cert_pem : option string;
}.

Record ConnectOpts := mkConnectOpts {
  opt_device : option string;
  opt_name : option string;
  opt_host : option string;
  opt_permissions : option string;
  opt_ipc_targets : option string;
  opt_ttl_seconds : Z;
  opt_aud : option string;
  opt_qr_out : option string;
}.

Inductive DeviceCmd :=
| CConnect (opts : ConnectOpts)
| CList (offline : bool)
| CRevoke (device_id : string) (undo : bool)
| CRemove (device_id : string).

(** What a command leaves behind. *)
Record PairWorld := mkPairWorld {
  pw_store : StoreFile;
  pw_svg : list (string * string);   (** path and image *)
  pw_out : list string;              (** printed lines *)
}.

Definition upd_store (f : StoreFile) (w : PairWorld) : PairWorld := mkPairWorld f (pw_svg w) (pw_out w).
Definition print (l : list string) (w : PairWorld) : PairWorld := mkPairWorld (pw_store w) (pw_svg w) (pw_out w ++ l).
Definition write_file (p s : string) (w : PairWorld) : PairWorld :=
  mkPairWorld (pw_store w) (pw_svg w ++ [(p, s)]) (pw_out w).

(** What one run of a command meets. *)
Record PairEnv := mkPairEnv {
  pe_random_id : Z;                  (** the [u32] of [random_device_id] *)
  pe_lan_ip : option (string * bool); (** the egress address, and whether it is a loopback *)
  pe_issue_now : Z;                  (** the clock in the store, in seconds *)
  pe_secret_bytes : bytes;
  pe_seal_nonce : bytes;
  pe_write_fault : option WriteFault;
  pe_mint_now : Z;                   (** the clock in the token *)
  pe_jti : bytes;
  pe_private_dir : option string;
  pe_cert_file : string -> option (Result string string); (** [None]: no such file *)
  pe_svg_fault : option string;
}.

Class UrlCrate := {
  Url : Set;
  url_parse : string -> Result string Url;
  url_port : Url -> option Z;
  url_path : Url -> string;
  url_host_str : Url -> option string;
  url_set_port : option Z -> Url -> Url;
  url_set_path : string -> Url -> Url;
  url_set_scheme : string -> Url -> option Url;
  url_to_string : Url -> string;
}.

Class PairCrates := {
  payload_to_json : PairPayload -> Result string string;
  zlib_best : bytes -> Result string bytes;
  b64url_encode : bytes -> string;
  qr_unicode : bytes -> Result string string;
  qr_svg : bytes -> Result string string;
}.

(** ** Helpers *)

(** [parse_csv], the same text in [device.rs] and [token.rs]. *)
Definition parse_csv (s : string) : list string :=
  filter (fun p => p <> EmptyString) (map trim (split_char ","%char s)).

(** [format!("dev-{:06x}", n & 0xFF_FFFF)] *)
Definition random_device_id (n : Z) : string :=
  let n := Z.land n 0xFFFFFF in
  "dev-" +:+ hex_encode [n / 65536; n / 256 mod 256; n mod 256].

Definition QR_CAPS : list nat :=
  [17; 32; 53; 78; 106; 134; 154; 192; 230; 271; 321; 367; 425; 458; 520; 586; 644; 718; 792;
   858; 929; 1003; 1091; 1171; 1273; 1367; 1465; 1528; 1628; 1732; 1840; 1952; 2068; 2188;
   2303; 2431; 2563; 2699; 2809; 2953]%nat.

(** [iter().position(..)] *)
Fixpoint position {A} (f : A -> bool) (l : list A) : option nat :=
  match l with
  | [] => None
  | x :: l => if f x then Some O else S <$> position f l
  end.

Definition qr_version (link : string) : nat :=
  let n := String.length link in
  match position (fun cap => n <=? cap)%nat QR_CAPS with
  | Some i => (i + 1)%nat
  | None => 41
  end.

(** [str::contains("://")] *)
Fixpoint contains_str (p s : string) : bool :=
  starts_with p s || match s with EmptyString => false | String _ s' => contains_str p s' end.

Definition DEFAULT_WS_PATH : string := "/ws".

Definition default_perms : list string := ["PERMISSION_IPC_SEND"; "PERMISSION_EVENT_PUBLISH"].

Definition map_err {A} (r : Result VynkorError A) : Result string A :=
  match r with Ok a => Ok a | Err e => Err (error_display e) end.

Section Url.
Context `{UrlCrate}.

(** The host text the URL is built from: [--host], else the LAN address. *)
Definition advertise_host (cfg : Config) (lan : option (string * bool)) (host_override : option string)
    : Result string string :=
  match host_override with
  | Some h => Ok (trim h)
  | None =>
      match lan with
      | None => Err "could not auto-detect a LAN address — pass --host (e.g. --host 100.64.0.2 or --host myhost.tailnet)"
      | Some (ip, true) =>
          Err ("detected loopback " +:+ ip +:+ " — a phone scanning this QR would reach itself. Pass --host with a LAN IP or Tailscale name.")
      | Some (ip, false) => Ok (ip +:+ ":" +:+ show (port cfg))
      end
  end.

Definition ws_scheme (cfg : Config) : string := if tls cfg then "wss" else "ws".

(** The port and the path a parsed [--host] gets. *)
Definition complete_url (cfg : Config) (gave_bare_host : bool) (url : Url) : Url :=
  let url := if negb (is_some (url_port url)) && gave_bare_host
             then url_set_port (Some (port cfg)) url else url in
  if is_empty (url_path url) || (url_path url ==? "/") then url_set_path DEFAULT_WS_PATH url else url.

Definition loopback_warning (url : Url) : list string :=
  let host_only := default EmptyString (url_host_str url) in
  if (host_only ==? "localhost") || (host_only ==? "127.0.0.1") || (host_only ==? "::1")
  then ["⚠️  host '" +:+ host_only +:+ "' is loopback — the phone cannot reach your host there. Use a LAN IP or Tailscale name (same Wi-Fi/LAN only works while both are on it)."]
  else [].

(** The URL and the lines of the loopback warning. *)
Definition resolve_advertise_url (cfg : Config) (lan : option (string * bool)) (host_override : option string)
    : Result string (string * list string) :=
  match advertise_host cfg lan host_override with
  | Err e => Err e
  | Ok host =>
      let gave_bare_host := negb (contains_str "://" host) in
      let with_scheme := if gave_bare_host then ws_scheme cfg +:+ "://" +:+ host else host in
      match url_parse with_scheme with
      | Err e => Err ("bad --host '" +:+ host +:+ "': " +:+ e)
      | Ok url =>
          match url_set_scheme (ws_scheme cfg) (complete_url cfg gave_bare_host url) with
          | None => Err ("bad --host '" +:+ host +:+ "'")
          | Some url => Ok (url_to_string url, loopback_warning url)
          end
      end
  end.

End Url.

(** The [live] map of a reachable kernel: last contact in milliseconds, and
    whether the device is online. *)
Abbreviation LiveDevices := (gmap string (Z * bool)).

Section Commands.
Context `{UrlCrate} `{PairCrates} `{JwtCrate} `{StoreCrates} `{ConfigCrates}.

(** ** [vyn token mint] *)

Definition claim_perms (o : option string) : list string :=
  match o with Some s => parse_csv s | None => default_perms end.

Definition claim_targets (o : option string) : list string :=
  match o with Some s => parse_csv s | None => [] end.

Definition claim_audience (o : option string) (cfg : Config) : string :=
  default "vynkor" (match o with Some a => Some a | None => jwt_audience cfg end).

(** [handle] of [token.rs]: a configuration that does not load is the
    default one, [dflt]. *)
Definition token_mint (dflt : Config) (env : PairEnv) (device : string) (perms targets : option string)
    (ttl : Z) (aud : option string) (config_path : string) (w : PairWorld) : Result string unit * PairWorld :=
  let cfg := match load_config config_path with Ok c => c | Err _ => dflt end in
  match jwt_secret cfg with
  | None => (Err ("no jwt_secret configured in '" +:+ config_path +:+ "' — set jwt_secret to mint tokens"), w)
  | Some secret =>
      match mint_device_token (pe_mint_now env) (pe_jti env) (string_bytes secret) device
              (claim_perms perms) (claim_targets targets) ttl (claim_audience aud cfg) with
      | Err e => (Err (error_display e), w)
      | Ok token => (Ok tt, print [token] w)
      end
  end.

(** ** [vyn device connect] *)

(** The certificate the phone pins: [std::fs::read_to_string] of the served
    one, when TLS is on and the file exists. *)
Definition pinned_cert (env : PairEnv) (cfg : Config) : Result string (option string) :=
  if tls cfg then
    match effective_tls_cert_path (pe_private_dir env) cfg with
    | Some p => match pe_cert_file env p with
                | Some (Ok pem) => Ok (Some pem)
                | Some (Err e) => Err e
                | None => Ok None
                end
    | None => Ok None
    end
  else Ok None.

(** JSON, deflate, base64url. *)
Definition pair_link (p : PairPayload) : Result string string :=
  match payload_to_json p with
  | Err e => Err e
  | Ok json => match zlib_best (string_bytes json) with
               | Err e => Err e
               | Ok z => Ok ("vynkor://pair?z=1&d=" +:+ b64url_encode z)
               end
  end.

(** The terminal output and the SVG file, after the link is built. *)
Definition show_link (env : PairEnv) (opts : ConnectOpts) (device_id link : string) (w : PairWorld)
    : Result string string * PairWorld :=
  let w := print ["Scan with the vynkor Android app (or open the link):"; ""] w in
  match qr_unicode (string_bytes link) with
  | Err e => (Err e, w)
  | Ok image =>
      let w := print [image; ""; link; "";
        "paired device '" +:+ device_id +:+ "' — link " +:+ show (Z.of_nat (String.length link)) +:+
          " chars (QR v" +:+ show (Z.of_nat (qr_version link)) +:+ ")";
        "credential expires in " +:+ show (opt_ttl_seconds opts) +:+ "s; revoke anytime: vyn device revoke " +:+ device_id] w in
      match opt_qr_out opts with
      | None => (Ok link, w)
      | Some path =>
          match qr_svg (string_bytes link), pe_svg_fault env with
          | Err e, _ => (Err e, w)
          | Ok _, Some e => (Err e, w)
          | Ok svg, None => (Ok link, print ["QR written to " +:+ path] (write_file path svg w))
          end
      end
  end.

Definition device_connect (env : PairEnv) (opts : ConnectOpts) (config_path : string) (w : PairWorld)
    : Result string string * PairWorld :=
  match load_config config_path with
  | Err e => (Err e, w)
  | Ok cfg =>
  match jwt_secret cfg with
  | None => (Err ("no jwt_secret configured in '" +:+ config_path +:+ "' — set jwt_secret to pair devices"), w)
  | Some secret =>
  let device_id := default (random_device_id (pe_random_id env)) (opt_device opts) in
  let name := default device_id (opt_name opts) in
  match resolve_advertise_url cfg (pe_lan_ip env) (opt_host opts) with
  | Err e => (Err e, w)
  | Ok (host_url, warnings) =>
  let w := print warnings w in
  match issue (derive_key secret) (pe_issue_now env) (pe_secret_bytes env) (pe_seal_nonce env)
          (pe_write_fault env) device_id name (opt_ttl_seconds opts) (pw_store w) with
  | (Err e, f) => (Err (error_display e), upd_store f w)
  | (Ok device_secret, f) =>
  let w := upd_store f w in
  match mint_device_token (pe_mint_now env) (pe_jti env) (string_bytes secret) device_id
          (claim_perms (opt_permissions opts)) (claim_targets (opt_ipc_targets opts))
          (opt_ttl_seconds opts) (claim_audience (opt_aud opts) cfg) with
  | Err e => (Err (error_display e), w)
  | Ok jwt_token =>
  match pinned_cert env cfg with
  | Err e => (Err e, w)
  | Ok cert_pem =>
  match pair_link (mkPayload 2 name host_url device_id jwt_token device_secret cert_pem) with
  | Err e => (Err e, w)
  | Ok link => show_link env opts device_id link w
  end end end end end end end.

(** ** [vyn device list] *)

Definition open_store (cfg : Config) : Result string bytes :=
  match jwt_secret cfg with
  | None => Err "no jwt_secret configured in config — set jwt_secret to manage device credentials"
  | Some secret => Ok (derive_key secret)
  end.

Definition LIST_HEADERS : list string := ["DEVICE_ID"; "NAME"; "CREATED"; "EXPIRES"; "LAST_SEEN"; "STATE"].

Definition status_text (s : DeviceStatus) : string :=
  match s with Active => "active" | Revoked => "REVOKED" | Expired => "expired" end.

Definition list_cells (now : Z) (live : option LiveDevices) (row : DeviceRecord) : list string :=
  [row_device_id row; row_name row; device_format_ts (created_at row); device_format_ts (expires_at row);
   match live ≫= lookup (row_device_id row) with
   | Some (last_seen_ms, _) => device_format_ts (last_seen_ms / 1000)
   | None => "-"
   end;
   status_text (status row now)].

(** The text the rows are collected in. *)
Definition list_text (rows : list (list string)) : string :=
  foldr (fun cells acc => join_with (String US EmptyString) cells +:+ String NL acc) EmptyString rows.

(** The printed lines, the clock read once per row; [None] when the reading back runs past a short line. *)
Definition list_lines (now : nat -> Z) (live : option LiveDevices) (rows : list DeviceRecord) : option (list string) :=
  let cells := imap (fun i => list_cells (now i) live) rows in
  let ws := table_widths LIST_HEADERS cells in
  header ← format_row ws LIST_HEADERS;
  body ← mapM (fun line => format_row ws (split_char US line)) (str_lines (list_text cells));
  Some (header :: body).

(** [live] is the answer of [fetch_live_devices], asked for unless
    [--offline] is given. *)
Definition device_list (now : nat -> Z) (live : Config -> option LiveDevices) (offline : bool) (config_path : string)
    (w : PairWorld) : Outcome (Result string unit * PairWorld) :=
  match load_config config_path with
  | Err e => Returns (Err e, w)
  | Ok cfg =>
  match open_store cfg with
  | Err e => Returns (Err e, w)
  | Ok key =>
  match list_rows key (pw_store w) with
  | Err e => Returns (Err (error_display e), w)
  | Ok [] => Returns (Ok tt, print ["No paired devices. Pair one with `vyn device connect`."] w)
  | Ok rows =>
      match list_lines now (if offline then None else live cfg) rows with
      | None => Panics
      | Some lines => Returns (Ok tt, print lines w)
      end
  end end end.

(** ** [vyn device revoke] and [vyn device remove] *)

Definition device_revoke (env : PairEnv) (did : string) (undo : bool) (config_path : string) (w : PairWorld)
    : Result string unit * PairWorld :=
  match load_config config_path with
  | Err e => (Err e, w)
  | Ok cfg =>
  match open_store cfg with
  | Err e => (Err e, w)
  | Ok key =>
  if undo then
    match set_revoked key (pe_write_fault env) did false (pw_store w) with
    | (Err e, f) => (Err (error_display e), upd_store f w)
    | (Ok true, f) => (Ok tt, print ["device '" +:+ did +:+ "' un-revoked"] (upd_store f w))
    | (Ok false, f) => (Ok tt, print ["no such device '" +:+ did +:+ "'"] (upd_store f w))
    end
  else
    match set_revoked key (pe_write_fault env) did true (pw_store w) with
    | (Err e, f) => (Err (error_display e), upd_store f w)
    | (Ok true, f) =>
        (Ok tt, print ["device '" +:+ did +:+ "' revoked — future connections will be rejected"] (upd_store f w))
    | (Ok false, f) => (Err ("no paired device '" +:+ did +:+ "' (see: vyn device list)"), upd_store f w)
    end
  end end.

Definition device_remove (env : PairEnv) (did : string) (config_path : string) (w : PairWorld)
    : Result string unit * PairWorld :=
  match load_config config_path with
  | Err e => (Err e, w)
  | Ok cfg =>
  match open_store cfg with
  | Err e => (Err e, w)
  | Ok key =>
  match remove key (pe_write_fault env) did (pw_store w) with
  | (Err e, f) => (Err (error_display e), upd_store f w)
  | (Ok true, f) => (Ok tt, print ["device '" +:+ did +:+ "' removed — it must pair again to connect"] (upd_store f w))
  | (Ok false, f) => (Ok tt, print ["no paired device '" +:+ did +:+ "'"] (upd_store f w))
  end end end.

(** [handle] *)
Definition device_handle (env : PairEnv) (now : nat -> Z) (live : Config -> option LiveDevices) (cmd : DeviceCmd)
    (config_path : string) (w : PairWorld) : Outcome (Result string unit * PairWorld) :=
  match cmd with
  | CConnect opts =>
      match device_connect env opts config_path w with
      | (Err e, w) => Returns (Err e, w)
      | (Ok _, w) => Returns (Ok tt, w)
      end
  | CList offline => device_list now live offline config_path w
  | CRevoke did undo => Returns (device_revoke env did undo config_path w)
  | CRemove did => Returns (device_remove env did config_path w)
  end.

End Commands.
