(* ===== verification/PairingProps.v ===== *)
(** * Properties of the pairing commands

    What [vyn device connect] hands to the phone is what the gateway and the
    router of the running kernel accept, until the credential expires or is
    revoked; what the commands do to the credential store on every branch;
    and what the printed tables show. *)

From S2P Require Import Prelude Wire Toy Text Calendar Table Channel Registry Jwt DeviceStore World Commands Router Sandbox Config Connection Gateway Pairing.

Open Scope Z_scope.

Section Pairing.
Context `{UrlCrate} `{PairCrates} `{JwtCrate} `{StoreCrates} `{ConfigCrates}.

(** The id a run pairs. *)
Definition paired_id (env : PairEnv) (opts : ConnectOpts) : string :=
  default (random_device_id (pe_random_id env)) (opt_device opts).

Lemma show_link_inv env opts did link w r w' :
  show_link env opts did link w = (r, w') ->
  pw_store w' = pw_store w /\ (forall l, r = Ok l -> l = link /\ link ∈ pw_out w').
Proof.
  unfold show_link. intros Hs.
  destruct (qr_unicode (string_bytes link)) as [image|]; [|by injection Hs as <- <-].
  destruct (opt_qr_out opts) as [path|];
    [destruct (qr_svg (string_bytes link)), (pe_svg_fault env)|]; injection Hs as <- <-; (split; [done|]);
    intros l; try done; intros [= <-]; (split; [done|]); simpl; set_solver.
Qed.

Lemma show_link_err env opts did link w e w' :
  show_link env opts did link w = (Err e, w') -> pw_store w' = pw_store w /\ pw_svg w' = pw_svg w.
Proof.
  unfold show_link. intros Hs. destruct (qr_unicode (string_bytes link)); [|by injection Hs as _ <-].
  destruct (opt_qr_out opts) as [path|]; [|done].
  by destruct (qr_svg (string_bytes link)), (pe_svg_fault env); simplify_eq.
Qed.

Lemma issue_failed key now rnd nonce fault did name ttl file e file' :
  issue key now rnd nonce fault did name ttl file = (Err e, file') -> file' = file.
Proof.
  unfold issue. destruct (read_all key file); [|by intros [= _ <-]].
  destruct (seal _ _ _); [|by intros [= _ <-]].
  destruct (write_all _ _ _) as [[[]|] file2] eqn:Hw; intros [= _ <-]. by eapply write_all_err.
Qed.

(** A successful [connect], step by step. *)
Lemma connect_ok env opts path w link w' :
  device_connect env opts path w = (Ok link, w') ->
  exists cfg secret host_url warnings dev_secret file' token cert,
    load_config path = Ok cfg /\ jwt_secret cfg = Some secret /\
    resolve_advertise_url cfg (pe_lan_ip env) (opt_host opts) = Ok (host_url, warnings) /\
    issue (derive_key secret) (pe_issue_now env) (pe_secret_bytes env) (pe_seal_nonce env)
      (pe_write_fault env) (paired_id env opts) (default (paired_id env opts) (opt_name opts))
      (opt_ttl_seconds opts) (pw_store w) = (Ok dev_secret, file') /\
    mint_device_token (pe_mint_now env) (pe_jti env) (string_bytes secret) (paired_id env opts)
      (claim_perms (opt_permissions opts)) (claim_targets (opt_ipc_targets opts))
      (opt_ttl_seconds opts) (claim_audience (opt_aud opts) cfg) = Ok token /\
    pinned_cert env cfg = Ok cert /\
    pair_link (mkPayload 2 (default (paired_id env opts) (opt_name opts)) host_url (paired_id env opts)
                 token dev_secret cert) = Ok link /\
    pw_store w' = file' /\ link ∈ pw_out w'.
Proof.
  unfold device_connect. cbv zeta. fold (paired_id env opts). intros Hc.
  destruct (load_config path) as [cfg|]; [|done]. destruct (jwt_secret cfg) as [secret|] eqn:Hsec; [|done].
  destruct (resolve_advertise_url _ _ _) as [[host_url warnings]|] eqn:Hurl; [|done].
  destruct (issue _ _ _ _ _ _ _ _ _) as [[dev_secret|] file'] eqn:Hi; [|done].
  destruct (mint_device_token _ _ _ _ _ _ _ _) as [token|] eqn:Hm; [|done].
  destruct (pinned_cert env cfg) as [cert|] eqn:Hp; [|done].
  destruct (pair_link _) as [l|] eqn:Hl; [|done].
  apply show_link_inv in Hc as [Hw Hlink]. destruct (Hlink link eq_refl) as [-> Hout].
  exists cfg, secret, host_url, warnings, dev_secret, file', token, cert. split_and!; (done || exact Hi || exact Hw).
Qed.

(** What the router answers when a paired device registers. *)
Lemma check_device_active ctx env key reg secret :
  device_store ctx = Some key -> is_some (mac_secret ctx) = true -> reg_device_id reg <> EmptyString ->
  active_secret key (unix_secs (clk env)) (reg_device_id reg) (device_file env) = Returns (Ok (Some secret)) ->
  check_device ctx env reg = Ok (Some (string_bytes secret)).
Proof.
  intros Hs Hm Hid Ha. unfold check_device, is_empty.
  rewrite bool_decide_eq_false_2, Hm, Hs, Ha by done. done.
Qed.

Lemma check_device_refused ctx env key reg e :
  device_store ctx = Some key -> is_some (mac_secret ctx) = true -> reg_device_id reg <> EmptyString ->
  active_secret key (unix_secs (clk env)) (reg_device_id reg) (device_file env) = Returns (Err e) ->
  check_device ctx env reg = Err (error_display e).
Proof.
  intros Hs Hm Hid Ha. unfold check_device, is_empty.
  rewrite bool_decide_eq_false_2, Hm, Hs, Ha by done. done.
Qed.

(** A kernel that runs on this configuration: the gateway's validator and
    the router's context. *)
Definition runs_with (cfg : Config) (secret : string) (ctx : Ctx) (jv : JwtValidator) : Prop :=
  jv = with_audience (string_bytes secret) (jwt_audience cfg) /\
  device_store ctx = Some (derive_key secret) /\ is_some (mac_secret ctx) = true.

(** C30: a paired phone gets in.  When [vyn device connect] succeeds, the
    printed link encodes a payload whose secret is the freshly drawn one (not
    the master secret), and until the credential expires a kernel that runs on
    the same configuration and reads the same store upgrades the WebSocket
    request that carries the payload's token and accepts the registration of
    the payload's device id with exactly the payload's secret. *)
Theorem pairing_admits `{!JwtLaws} `{!StoreLaws} env opts path w link w' :
  device_connect env opts path w = (Ok link, w') ->
  trim (paired_id env opts) = paired_id env opts ->
  length (pe_seal_nonce env) = NONCE_LEN -> Forall is_byte (pe_secret_bytes env) -> pe_jti env <> [] ->
  0 <= pe_issue_now env + opt_ttl_seconds opts < 2 ^ 64 -> 0 <= pe_mint_now env + opt_ttl_seconds opts < 2 ^ 64 ->
  exists cfg secret payload,
    load_config path = Ok cfg /\ jwt_secret cfg = Some secret /\ pair_link payload = Ok link /\
    link ∈ pw_out w' /\ pp_device_id payload = paired_id env opts /\
    pp_device_secret payload = hex_encode (pe_secret_bytes env) /\
    forall ctx jv now, runs_with cfg secret ctx jv ->
      (opt_aud opts = None \/ opt_aud opts = jwt_audience cfg) ->
      now < pe_issue_now env + opt_ttl_seconds opts -> now <= pe_mint_now env + opt_ttl_seconds opts ->
      (forall header, extract_ws_token header = pp_jwt_token payload ->
         ws_authorise (Some jv) (device_store ctx) now (pw_store w') header = true) /\
      (forall env' reg, unix_secs (clk env') = now -> device_file env' = pw_store w' ->
         reg_device_id reg = pp_device_id payload ->
         check_device ctx env' reg = Ok (Some (string_bytes (pp_device_secret payload)))).
Proof.
  intros Hc Htrim Hn Hb Hj Ho1 Ho2.
  destruct (connect_ok _ _ _ _ _ _ Hc) as (cfg & secret & url & warn & ds & f & tok & cert & Hl & Hs & _ & Hi & Hm & _ & Hlink & Hw & Hout).
  set (p := mkPayload 2 _ url (paired_id env opts) tok ds cert) in Hlink.
  pose proof (issue_active_roundtrip _ _ _ _ _ _ _ _ _ _ _ (pe_issue_now env) Hi Hn Hb Ho1) as [Hds _].
  exists cfg, secret, p. split_and!; try done. intros ctx jv now (-> & Hst & Hmac) Haud Hnow Hnow'.
  pose proof (issue_active_roundtrip _ _ _ _ _ _ _ _ _ _ _ now Hi Hn Hb Ho1) as (_ & Hact & _).
  specialize (Hact Hnow). rewrite Hw, Hst.
  destruct (mint_validate_roundtrip _ _ _ _ _ _ _ _ (jwt_audience cfg) now _ Hm Hj Ho2 Hnow')
    as (Hv & Hne & _).
  { unfold claim_audience. destruct (jwt_audience cfg) as [a|]; [|by left]. right.
    destruct Haud as [->| ->]; done. }
  rewrite Htrim in *. split.
  - intros header Hh. unfold ws_authorise. rewrite Hh. cbn [pp_jwt_token p]. rewrite Hv. cbn [sub]. by rewrite Hact.
  - intros env' reg Ht Hf Hid. eapply check_device_active; [done..| |]; rewrite Hid; [done|].
    rewrite Ht, Hf. exact Hact.
Qed.

(** The store [f] is [w]'s with the credential of this run issued. *)
Definition issued (env : PairEnv) (opts : ConnectOpts) (path : string) (w : PairWorld) (f : StoreFile) : Prop :=
  exists cfg secret ds, load_config path = Ok cfg /\ jwt_secret cfg = Some secret /\
    issue (derive_key secret) (pe_issue_now env) (pe_secret_bytes env) (pe_seal_nonce env)
      (pe_write_fault env) (paired_id env opts) (default (paired_id env opts) (opt_name opts))
      (opt_ttl_seconds opts) (pw_store w) = (Ok ds, f).

(** What a failed [connect] leaves behind: no image file, and the
    credential file as it was, unless the credential had been issued and a
    later step (token, certificate, encoding, code) failed. *)
Theorem connect_failure env opts path w e w' :
  device_connect env opts path w = (Err e, w') ->
  pw_svg w' = pw_svg w /\ (pw_store w' = pw_store w \/ issued env opts path w (pw_store w')).
Proof.
  unfold device_connect. cbv zeta. fold (paired_id env opts). intros Hc.
  destruct (load_config path) as [cfg|] eqn:Hl; [|injection Hc as _ <-; by split; [|left]].
  destruct (jwt_secret cfg) as [secret|] eqn:Hsec; [|injection Hc as _ <-; by split; [|left]].
  destruct (resolve_advertise_url _ _ _) as [[host_url warnings]|]; [|injection Hc as _ <-; by split; [|left]].
  destruct (issue _ _ _ _ _ _ _ _ _) as [[ds|] file'] eqn:Hi.
  2: { injection Hc as _ <-. split; [done|]. left. by apply issue_failed in Hi. }
  assert (Hgoal : forall w2, pw_store w2 = file' -> pw_svg w2 = pw_svg w ->
    pw_svg w2 = pw_svg w /\ (pw_store w2 = pw_store w \/ issued env opts path w (pw_store w2))).
  { intros w2 <- Hsvg. split; [done|]. right. by exists cfg, secret, ds. }
  destruct (mint_device_token _ _ _ _ _ _ _ _) as [token|]; [|injection Hc as _ <-; by apply Hgoal].
  destruct (pinned_cert env cfg) as [cert|]; [|injection Hc as _ <-; by apply Hgoal].
  destruct (pair_link _) as [l|]; [|injection Hc as _ <-; by apply Hgoal].
  apply show_link_err in Hc as [Hst Hsvg]. by apply Hgoal.
Qed.

(** The half-paired device.  With a lifetime of zero, a blank id or a
    master secret below 32 bytes a [connect] that reaches the store writes
    the credential row and then fails: the phone gets no link, and with a
    lifetime of zero a device that was active before is now refused. *)
Theorem connect_half_paired `{!StoreLaws} env opts path w cfg secret url ds file' :
  load_config path = Ok cfg -> jwt_secret cfg = Some secret ->
  resolve_advertise_url cfg (pe_lan_ip env) (opt_host opts) = Ok url ->
  issue (derive_key secret) (pe_issue_now env) (pe_secret_bytes env) (pe_seal_nonce env)
    (pe_write_fault env) (paired_id env opts) (default (paired_id env opts) (opt_name opts))
    (opt_ttl_seconds opts) (pw_store w) = (Ok ds, file') ->
  (String.length secret < 32)%nat \/ trim (paired_id env opts) = EmptyString \/ opt_ttl_seconds opts = 0 ->
  length (pe_seal_nonce env) = NONCE_LEN -> Forall is_byte (pe_secret_bytes env) ->
  0 <= pe_issue_now env < 2 ^ 64 ->
  exists e w', device_connect env opts path w = (Err e, w') /\ pw_store w' = file' /\
    (opt_ttl_seconds opts = 0 -> forall now, pe_issue_now env <= now ->
       exists e', active_secret (derive_key secret) now (paired_id env opts) file' = Returns (Err e')).
Proof.
  intros Hl Hs Hu Hi Hbad Hn Hb Hnow. unfold device_connect. cbv zeta. rewrite Hl, Hs, Hu.
  destruct url as [url warnings]. fold (paired_id env opts).
  change (pw_store (print warnings w)) with (pw_store w). rewrite Hi.
  assert (exists e, mint_device_token (pe_mint_now env) (pe_jti env) (string_bytes secret) (paired_id env opts)
      (claim_perms (opt_permissions opts)) (claim_targets (opt_ipc_targets opts))
      (opt_ttl_seconds opts) (claim_audience (opt_aud opts) cfg) = Err e) as [e He].
  { unfold mint_device_token. rewrite length_string_bytes. unfold MIN_JWT_SECRET_BYTES.
    destruct (Nat.ltb_spec (String.length secret) 32); [eauto|].
    destruct Hbad as [Hbad|[Hbad|Hbad]]; [lia|rewrite Hbad; cbn; eauto|].
    destruct (is_empty _); [eauto|]. rewrite Hbad. cbn. eauto. }
  rewrite He. eexists _, _. split_and!; [done..|]. intros H0' now Hle.
  pose proof (issue_active_roundtrip _ _ _ _ _ _ _ _ _ _ _ now Hi Hn Hb) as (_ & _ & Hexp & _); [lia|].
  rewrite Hexp by lia. eauto.
Qed.

(** ** Revocation and removal *)

Lemma device_revoke_ok env did undo path w w' :
  device_revoke env did undo path w = (Ok tt, w') ->
  exists cfg secret r, load_config path = Ok cfg /\ jwt_secret cfg = Some secret /\
    set_revoked (derive_key secret) (pe_write_fault env) did (negb undo) (pw_store w) = (Ok r, pw_store w') /\
    (undo = false -> r = true).
Proof.
  unfold device_revoke, open_store. intros Hr. destruct (load_config path) as [cfg|]; [|done].
  destruct (jwt_secret cfg) as [secret|] eqn:Hs; [|done]. exists cfg, secret.
  destruct undo; cbn [negb]; destruct (set_revoked _ _ _ _ _) as [[[]|] f]; simplify_eq; eexists; split_and!; done.
Qed.

(** The gateway refuses a token whose device the store refuses. *)
Lemma ws_authorise_refused jv key now file header claims e :
  validate jv now (extract_ws_token header) = Ok claims ->
  active_secret key now (sub claims) file = Returns (Err e) ->
  ws_authorise (Some jv) (Some key) now file header = false.
Proof. intros Hv Ha. unfold ws_authorise. by rewrite Hv, Ha. Qed.

(** C31: revocation reaches the running kernel.  After a successful
    [vyn device revoke] no token of that device passes the WebSocket upgrade
    and no registration of it is accepted, at any time; every other device
    is admitted or refused as before. *)
Theorem revoke_effective `{!StoreLaws} env did path w w' :
  device_revoke env did false path w = (Ok tt, w') ->
  exists cfg secret, load_config path = Ok cfg /\ jwt_secret cfg = Some secret /\
    forall ctx jv now, runs_with cfg secret ctx jv ->
      (forall header claims, validate jv now (extract_ws_token header) = Ok claims -> sub claims = did ->
         ws_authorise (Some jv) (device_store ctx) now (pw_store w') header = false) /\
      (forall env' reg, unix_secs (clk env') = now -> device_file env' = pw_store w' ->
         reg_device_id reg = did -> did <> EmptyString -> is_err (check_device ctx env' reg) = true) /\
      (forall d, d <> did -> active_secret (derive_key secret) now d (pw_store w') =
                             active_secret (derive_key secret) now d (pw_store w)).
Proof.
  intros Hr. destruct (device_revoke_ok _ _ _ _ _ _ Hr) as (cfg & secret & r & Hl & Hs & Hset & Ht).
  rewrite (Ht eq_refl) in Hset. exists cfg, secret. split_and!; [done..|].
  intros ctx jv now (-> & Hst & Hmac). rewrite Hst.
  pose proof (set_revoked_blocks _ _ _ _ _ _ _ now Hset) as [Hb Ho]. split_and!.
  - intros header claims Hv <-. eapply ws_authorise_refused; [done|]. by apply Hb.
  - intros env' reg Ht' Hf Hid Hne. rewrite <- Hid in *.
    erewrite check_device_refused; [done..|]. rewrite Ht', Hf. by apply Hb.
  - exact Ho.
Qed.

(** [vyn device revoke --undo] gives back what a revocation took: a device
    that was active is active again with the secret it had, without pairing
    again. *)
Theorem revoke_undo_roundtrip `{!StoreLaws} env env' did path w w1 w2 cfg secret now s :
  load_config path = Ok cfg -> jwt_secret cfg = Some secret ->
  active_secret (derive_key secret) now did (pw_store w) = Returns (Ok (Some s)) ->
  device_revoke env did false path w = (Ok tt, w1) -> device_revoke env' did true path w1 = (Ok tt, w2) ->
  active_secret (derive_key secret) now did (pw_store w2) = Returns (Ok (Some s)).
Proof.
  intros Hl Hs Ha Hr1 Hr2.
  destruct (device_revoke_ok _ _ _ _ _ _ Hr1) as (cfg1 & s1 & r1 & Hl1 & Hs1 & Hset1 & Ht1).
  destruct (device_revoke_ok _ _ _ _ _ _ Hr2) as (cfg2 & s2 & r2 & Hl2 & Hs2 & Hset2 & _).
  assert (cfg1 = cfg) as -> by congruence. assert (cfg2 = cfg) as -> by congruence.
  assert (s1 = secret) as -> by congruence. assert (s2 = secret) as -> by congruence.
  rewrite (Ht1 eq_refl) in Hset1. cbn [negb] in *.
  assert (r2 = true) as ->.
  { destruct r2; [done|]. destruct (set_revoked_rows _ _ _ _ _ _ Hset1) as (rows & row & _ & Hrow & Hrd).
    unfold set_revoked in Hset2. rewrite Hrd in Hset2.
    pose proof (existsb_decide (fun r => row_device_id r = did) (map (revoke_row did true) rows)) as [_ Hx].
    cbv beta in Hx. rewrite Hx in Hset2; [by split_cases_in Hset2|].
    apply find_row_elem in Hrow as [Hin Hid]. exists (revoke_row did true row).
    rewrite revoke_row_id. split; [|done]. by apply list_elem_of_In, in_map, list_elem_of_In. }
  by eapply set_revoked_undo.
Qed.

(** Removal.  After a successful [vyn device remove] a registration of the
    device is refused as unknown, while a token it still holds passes the
    WebSocket upgrade until the token expires; the other devices are
    untouched. *)
Theorem remove_effective `{!StoreLaws} env did path w w' cfg secret ctx jv now :
  device_remove env did path w = (Ok tt, w') -> load_config path = Ok cfg -> jwt_secret cfg = Some secret ->
  runs_with cfg secret ctx jv -> pw_store w' <> pw_store w ->
  (forall header claims, validate jv now (extract_ws_token header) = Ok claims -> sub claims = did ->
     ws_authorise (Some jv) (device_store ctx) now (pw_store w') header = true) /\
  (forall env' reg, unix_secs (clk env') = now -> device_file env' = pw_store w' -> reg_device_id reg = did ->
     did <> EmptyString -> check_device ctx env' reg = Err "unknown device — pair it first") /\
  (forall d, d <> did -> active_secret (derive_key secret) now d (pw_store w') =
                         active_secret (derive_key secret) now d (pw_store w)).
Proof.
  unfold device_remove, open_store. intros Hr Hl Hs (-> & Hst & Hmac) Hne. rewrite Hl, Hs in Hr.
  destruct (remove _ _ _ _) as [res f] eqn:Hrem.
  pose proof (remove_forgets _ _ _ _ _ _ now Hrem) as Hf. rewrite Hst.
  destruct res as [[]|]; simplify_eq. destruct Hf as [Ha Ho].
  split_and!; [| |exact Ho].
  - intros header claims Hv Hsub. unfold ws_authorise. rewrite Hv, Hsub. cbn [upd_store print pw_store]. by rewrite Ha.
  - intros env' reg Ht Hfile <- Hd. unfold check_device, is_empty.
    rewrite bool_decide_eq_false_2, Hmac, Hst, Ht, Hfile by done. cbn [upd_store print pw_store]. by rewrite Ha.
Qed.

(** An id with surrounding blanks.  The token is minted for the trimmed
    id, the credential row is stored under the id as given: when the two
    differ and the trimmed id has no row, revoking the paired id does not stop
    its token at the WebSocket upgrade. *)
Theorem untrimmed_id_escapes_revoke `{!JwtLaws} `{!StoreLaws} env env1 opts path w link w1 w2 cfg secret ctx jv now :
  device_connect env opts path w = (Ok link, w1) ->
  device_revoke env1 (paired_id env opts) false path w1 = (Ok tt, w2) ->
  trim (paired_id env opts) <> paired_id env opts ->
  load_config path = Ok cfg -> jwt_secret cfg = Some secret -> runs_with cfg secret ctx jv ->
  active_secret (derive_key secret) now (trim (paired_id env opts)) (pw_store w) = Returns (Ok None) ->
  length (pe_seal_nonce env) = NONCE_LEN -> Forall is_byte (pe_secret_bytes env) -> pe_jti env <> [] ->
  0 <= pe_issue_now env + opt_ttl_seconds opts < 2 ^ 64 -> 0 <= pe_mint_now env + opt_ttl_seconds opts < 2 ^ 64 ->
  opt_aud opts = None -> now <= pe_mint_now env + opt_ttl_seconds opts ->
  exists token, forall header, extract_ws_token header = token ->
    ws_authorise (Some jv) (device_store ctx) now (pw_store w2) header = true.
Proof.
  intros Hc Hr Hne Hl Hs (-> & Hst & _) Hnone Hn Hb Hj Ho1 Ho2 Ha Hnow.
  destruct (connect_ok _ _ _ _ _ _ Hc) as (cfg1 & s1 & url & warn & ds & f & tok & cert & Hl1 & Hs1 & _ & Hi & Hm & _ & _ & Hw & _).
  assert (cfg1 = cfg) as -> by congruence. assert (s1 = secret) as -> by congruence.
  destruct (device_revoke_ok _ _ _ _ _ _ Hr) as (cfg2 & s2 & r2 & Hl2 & Hs2 & Hset & Ht).
  assert (cfg2 = cfg) as -> by congruence. assert (s2 = secret) as -> by congruence.
  rewrite (Ht eq_refl) in Hset.
  pose proof (issue_active_roundtrip _ _ _ _ _ _ _ _ _ _ _ now Hi Hn Hb Ho1) as (_ & _ & _ & Hio).
  pose proof (set_revoked_blocks _ _ _ _ _ _ _ now Hset) as [_ Hro].
  destruct (mint_validate_roundtrip _ _ _ _ _ _ _ _ (jwt_audience cfg) now _ Hm Hj Ho2 Hnow) as [Hv _].
  { unfold claim_audience. rewrite Ha. destruct (jwt_audience cfg); [by right|by left]. }
  exists tok. intros header Hh. rewrite Hst. unfold ws_authorise. rewrite Hh, Hv. cbn [sub].
  rewrite Hro, Hw, Hio, Hnone by done. done.
Qed.

(** ** The table *)

Definition clean (s : string) : Prop := contains_char NL s = false /\ contains_char US s = false.

Lemma list_cells_clean now live row :
  clean (row_device_id row) -> clean (row_name row) -> Forall clean (list_cells now live row).
Proof.
  intros Hi Hn. assert (forall t, clean (device_format_ts t)) as Ht
    by (intros t; split; by apply timestamp_no_control).
  repeat constructor; try apply Hi; try apply Hn; try apply Ht.
  - destruct (live ≫= _) as [[ms b]|]; [apply Ht|done].
  - destruct (live ≫= _) as [[ms b]|]; [apply Ht|done].
  - by destruct (status row now).
  - by destruct (status row now).
Qed.

(** The line of a row ends in its state, not in a carriage return. *)
Lemma list_line_no_cr now live row :
  strip_cr (join_with (String US EmptyString) (list_cells now live row)) =
  join_with (String US EmptyString) (list_cells now live row).
Proof.
  unfold list_cells. cbn [join_with]. rewrite <- !str_app_assoc.
  destruct (status row now); cbn [status_text]; by rewrite strip_cr_app.
Qed.

Lemma format_lines ws cells :
  length ws = 6%nat -> Forall (fun c => Forall clean c /\ length c = 6%nat) cells ->
  exists lines, mapM (fun line => format_row ws (split_char US line))
      (map (join_with (String US EmptyString)) cells) = Some lines /\
    Forall2 (fun c l => format_row ws c = Some l) cells lines.
Proof.
  intros Hws. induction 1 as [|c cells [Hc Hl] _ (lines & Hm & Hf)]; [by exists []|].
  destruct (format_row_six ws c Hws Hl) as [l Hl']. exists (l :: lines). split; [|by constructor].
  cbn [map mapM].
  rewrite split_join_with; [by rewrite Hl'; cbn; rewrite Hm|by intros ->|].
  eapply Forall_impl; [exact Hc|by intros ? []].
Qed.

(** [vyn device list] prints one line per stored row, with the row's own
    cells in its six columns, and does not panic, when no id and no name
    holds a newline or a unit separator. *)
Theorem list_prints_rows now live rows :
  Forall (fun r => clean (row_device_id r) /\ clean (row_name r)) rows ->
  exists header lines ws, list_lines now live rows = Some (header :: lines) /\ length lines = length rows /\
    forall i row, rows !! i = Some row -> lines !! i = format_row ws (list_cells (now i) live row).
Proof.
  intros Hrows. unfold list_lines. set (cells := imap _ rows). set (ws := table_widths LIST_HEADERS cells).
  assert (Hws : length ws = 6%nat) by apply table_widths_length.
  destruct (format_row_six ws LIST_HEADERS) as [header ->]; [done..|].
  assert (Hcells : Forall (fun c => Forall clean c /\ strip_cr (join_with (String US EmptyString) c) =
                     join_with (String US EmptyString) c /\ length c = 6%nat) cells).
  { apply Forall_lookup. intros i c Hc. unfold cells in Hc. rewrite list_lookup_imap in Hc.
    destruct (rows !! i) as [row|] eqn:Hrow; simplify_eq/=.
    destruct (proj1 (Forall_lookup _ _) Hrows i row Hrow) as [Hi Hn].
    split_and!; [by apply list_cells_clean|apply list_line_no_cr|done]. }
  assert (Hlines : str_lines (list_text cells) = map (join_with (String US EmptyString)) cells).
  { unfold list_text. rewrite <- (str_lines_concat (map _ cells)).
    - f_equal. clear. by induction cells as [|c cells IH]; simpl; [|rewrite IH].
    - apply Forall_map. eapply Forall_impl; [exact Hcells|]. intros c (Hc & Hcr & _). split; [|done].
      apply join_with_no_char; [done|]. eapply Forall_impl; [exact Hc|]. by intros ? []. }
  rewrite Hlines. clear Hlines.
  destruct (format_lines ws cells Hws) as (lines & Hm & Hf).
  { eapply Forall_impl; [exact Hcells|]. by intros c (? & _ & ?). }
  rewrite Hm. exists header, lines, ws. split_and!; [done| |].
  - rewrite <- (Forall2_length _ _ _ Hf). unfold cells. by rewrite length_imap.
  - intros i row Hrow. assert (cells !! i = Some (list_cells (now i) live row)) as Hci.
    { unfold cells. by rewrite list_lookup_imap, Hrow. }
    destruct (Forall2_lookup_l _ _ _ _ _ Hf Hci) as (l & Hl & ->). done.
Qed.

(** A name with a newline makes [vyn device list] panic: the second half of
    its row has no six cells. *)
Theorem list_newline_panics now live did a b created expires rev enc :
  clean did -> clean a -> clean b ->
  list_lines now live [mkDevice did (a +:+ String NL b) created expires rev enc] = None.
Proof.
  intros [Hd1 Hd2] [Ha1 Ha2] _. unfold list_lines. set (cells := imap _ _). set (ws := table_widths _ _).
  destruct (format_row ws LIST_HEADERS) as [header|]; [|done]. cbn [mbind option_bind].
  assert (exists rest, list_text cells = (did +:+ String US a) +:+ String NL rest) as [rest ->].
  { unfold list_text, cells. cbn [imap foldr list_cells row_device_id row_name join_with].
    eexists. rewrite !str_app_assoc. reflexivity. }
  rewrite str_lines_cons by by rewrite contains_char_app, Hd1.
  cbn [mapM]. enough (format_row ws (split_char US (strip_cr (did +:+ String US a))) = None) as -> by done.
  rewrite strip_cr_app by done.
  assert (strip_cr (String US a) = String US (strip_cr a)) as -> by by destruct a.
  rewrite split_char_app, split_char_none by (done || by apply strip_cr_no_char).
  by destruct ws as [|w0 [|w1 [|w2 [|w3 [|w4 ws]]]]].
Qed.

End Pairing.

(** ** The advertised URL *)

(** Documented behaviour of the [url] crate: the setters change the component
    they name, and a port that is the default of the scheme is not kept. *)
Class UrlLaws `{UrlCrate} := {
  url_scheme : Url -> string;
  set_scheme_scheme : forall s u u', url_set_scheme s u = Some u' -> url_scheme u' = s;
  set_scheme_path : forall s u u', url_set_scheme s u = Some u' -> url_path u' = url_path u;
  set_scheme_host : forall s u u', url_set_scheme s u = Some u' -> url_host_str u' = url_host_str u;
  set_path_path : forall p u, url_path (url_set_path p u) = p;
  set_path_host : forall p u, url_host_str (url_set_path p u) = url_host_str u;
  set_port_path : forall p u, url_path (url_set_port p u) = url_path u;
  set_port_host : forall p u, url_host_str (url_set_port p u) = url_host_str u;
}.

Lemma complete_url_path `{UrlLaws} cfg b u :
  url_path (complete_url cfg b u) <> EmptyString /\ url_path (complete_url cfg b u) <> "/".
Proof.
  unfold complete_url, is_empty. set (u1 := if _ && b then _ else u).
  destruct (_ || _) eqn:Hc; [by rewrite set_path_path|]. apply orb_false_elim in Hc as [Hc1 Hc2]. by bools.
Qed.

(** The URL the phone dials.  It has the scheme of the kernel's TLS mode
    and a path that is not the bare root, it names the host that was parsed,
    and without [--host] a loopback address is never advertised. *)
Theorem advertise_url_shape `{UrlLaws} cfg lan host_override s warn :
  resolve_advertise_url cfg lan host_override = Ok (s, warn) ->
  (host_override = None -> exists ip, lan = Some (ip, false)) /\
  exists host u0 u, advertise_host cfg lan host_override = Ok host /\
    url_parse (if contains_str "://" host then host else ws_scheme cfg +:+ "://" +:+ host) = Ok u0 /\
    s = url_to_string u /\ url_scheme u = (if tls cfg then "wss" else "ws") /\
    url_path u <> EmptyString /\ url_path u <> "/" /\ url_host_str u = url_host_str u0.
Proof.
  unfold resolve_advertise_url. destruct (advertise_host cfg lan host_override) as [host|] eqn:Hh; [|done]. cbv zeta.
  rewrite if_negb. destruct (url_parse _) as [u0|] eqn:Hp; [|done].
  destruct (url_set_scheme _ _) as [u|] eqn:Hs; [|done]. intros [= <- <-]. split.
  { intros ->. unfold advertise_host in Hh. destruct lan as [[ip []]|]; [done|eauto|done]. }
  exists host, u0, u. split_and!; try done.
  - by rewrite (set_scheme_scheme _ _ _ Hs).
  - rewrite (set_scheme_path _ _ _ Hs). apply (complete_url_path cfg _ u0).
  - rewrite (set_scheme_path _ _ _ Hs). apply (complete_url_path cfg _ u0).
  - rewrite (set_scheme_host _ _ _ Hs). unfold complete_url.
    repeat case_match; rewrite ?set_path_host, ?set_port_host; done.
Qed.

(** An explicit port is lost.  A bare [--host] with the default port of the
    scheme, such as [myhost:443] under TLS, parses to a URL without a port,
    and the configured port is advertised in its place. *)
Theorem explicit_default_port_lost `{UrlCrate} cfg lan h u :
  contains_str "://" (trim h) = false -> url_parse (ws_scheme cfg +:+ "://" +:+ trim h) = Ok u ->
  url_port u = None -> url_path (url_set_port (Some (port cfg)) u) = "/" ->
  resolve_advertise_url cfg lan (Some h) =
  match url_set_scheme (ws_scheme cfg) (url_set_path DEFAULT_WS_PATH (url_set_port (Some (port cfg)) u)) with
  | Some u' => Ok (url_to_string u', loopback_warning u')
  | None => Err ("bad --host '" +:+ trim h +:+ "'")
  end.
Proof.
  intros Hb Hp Hport Hpath. unfold resolve_advertise_url, advertise_host. cbv zeta. rewrite Hb. cbn [negb].
  rewrite Hp. unfold complete_url. rewrite Hport. cbn [is_some negb andb]. by rewrite Hpath.
Qed.

(** ** Small helpers *)

Lemma position_Some {A} (f : A -> bool) l i :
  position f l = Some i -> (exists x, l !! i = Some x /\ f x = true) /\
  forall j x, (j < i)%nat -> l !! j = Some x -> f x = false.
Proof.
  revert i. induction l as [|y l IH]; intros i; cbn; [done|]. destruct (f y) eqn:Hy.
  - intros [= <-]. split; [by exists y|]. intros; lia.
  - destruct (position f l) as [k|] eqn:Hk; [|done]. intros [= <-].
    destruct (IH k eq_refl) as [Hx Hbefore]. split; [done|]. intros [|j] x Hj; cbn; [by intros [= <-]|].
    intros Hl. eapply Hbefore; [|done]. lia.
Qed.

Lemma position_None {A} (f : A -> bool) l : position f l = None <-> forallb (fun x => negb (f x)) l = true.
Proof.
  induction l as [|y l IH]; cbn; [done|]. destruct (f y); cbn; [done|]. rewrite <- IH. by destruct (position f l).
Qed.

(** The printed version is the smallest whose capacity holds the link, and 41
    exactly when none does. *)
Lemma qr_version_smallest link v :
  qr_version link = v ->
  (v = 41%nat /\ (2953 < String.length link)%nat) \/
  ((1 <= v <= 40)%nat /\ exists cap, QR_CAPS !! (v - 1)%nat = Some cap /\ (String.length link <= cap)%nat /\
     forall j c, (j < v - 1)%nat -> QR_CAPS !! j = Some c -> (c < String.length link)%nat).
Proof.
  intros <-. unfold qr_version. cbv zeta.
  destruct (position _ QR_CAPS) as [i|] eqn:Hp.
  - right. apply position_Some in Hp as [(cap & Hc & Hle) Hb]. pose proof (lookup_lt_Some _ _ _ Hc) as Hlt.
    cbn in Hlt. replace (i + 1 - 1)%nat with i by lia. split; [lia|]. exists cap.
    apply Nat.leb_le in Hle. split_and!; [done..|]. intros j c Hj Hl. specialize (Hb j c Hj Hl). apply Nat.leb_gt in Hb. lia.
  - left. split; [done|]. apply position_None in Hp. rewrite forallb_forall in Hp.
    specialize (Hp 2953%nat). rewrite negb_true_iff, Nat.leb_gt in Hp. apply Hp, list_elem_of_In, (list_elem_of_lookup_2 _ 39). reflexivity.
Qed.

(** ** A paired phone *)
Module PairingRuns.

Definition master : string := "0123456789abcdef0123456789abcdef".
Definition nonce : bytes := replicate 12 9.
Definition rnd : bytes := replicate 32 171.
Definition sealed : bytes := nonce ++ (string_bytes (hex_encode rnd) ++ [77]).
Definition row (did : string) (expires : Z) (b : bool) : DeviceRecord := mkDevice did did 1000 expires b sealed.

Definition tables : list (string * list DeviceRecord) :=
  [("[one]", [row "phone" 4600 false]); ("[revoked]", [row "phone" 4600 true]); ("[]", []);
   ("[zero]", [row "phone" 1000 false]); ("[blank]", [row " phone" 4600 false]);
   ("[blank revoked]", [row " phone" 4600 true])].

Definition claims : PluginClaims := mkClaims "phone" default_perms [] 4600 1000 (Some "vynkor") (Some "0a").

(** A parser that knows two addresses. *)
Record ToyUrl := mkToyUrl { tu_scheme : string; tu_host : string; tu_port : option Z; tu_path : string }.
Definition default_port (scheme : string) : Z := if scheme ==? "wss" then 443 else 80.

#[local] Instance url : UrlCrate := {|
  Url := ToyUrl;
  url_parse s :=
    if s ==? "ws://myhost" then Ok (mkToyUrl "ws" "myhost" None "/")
    else if s ==? "wss://myhost:443" then Ok (mkToyUrl "wss" "myhost" None "/")
    else Err "empty host";
  url_port := tu_port;
  url_path := tu_path;
  url_host_str u := Some (tu_host u);
  url_set_port p u :=
    mkToyUrl (tu_scheme u) (tu_host u) (if p ==? Some (default_port (tu_scheme u)) then None else p) (tu_path u);
  url_set_path p u := mkToyUrl (tu_scheme u) (tu_host u) (tu_port u) p;
  url_set_scheme s u := Some (mkToyUrl s (tu_host u) (tu_port u) (tu_path u));
  url_to_string u :=
    tu_scheme u +:+ "://" +:+ tu_host u +:+
    match tu_port u with Some p => ":" +:+ show p | None => EmptyString end +:+ tu_path u;
|}.

#[local] Instance url_laws : UrlLaws.
Proof. refine {| url_scheme := tu_scheme |}; by intros; simplify_eq/=. Defined.

#[local] Instance pair_crates : PairCrates := {|
  payload_to_json p := Ok (pp_device_id p +:+ " " +:+ pp_device_secret p);
  zlib_best b := Ok b;
  b64url_encode := hex_encode;
  qr_unicode _ := Ok "#";
  qr_svg _ := Ok "<svg/>";
|}.

#[local] Instance jwt : JwtCrate := one_token claims (string_bytes master).
#[local] Instance jwt_laws : JwtLaws := one_token_laws claims (string_bytes master).
#[local] Instance store : StoreCrates := table_crates tables.
#[local] Instance store_laws : StoreLaws := table_crates_laws tables eq_refl.

#[local] Instance files : ConfigCrates := {|
  read_to_string p := Ok p;
  list_dir _ := None;
  yaml_config _ := Ok (set_auth (Some master) false ConfigRuns.base);
  yaml_plugin _ := Err "no plugin";
|}.

Definition cfg : Config :=
  clamp_invalid_numerics (with_source "/etc/vyn/config.yaml" "/etc/vyn/plugins.d" (set_auth (Some master) false ConfigRuns.base)).

Definition env : PairEnv :=
  mkPairEnv 7 None 1000 rnd nonce None 1000 [10] None (fun _ => None) None.
Definition opts (did : string) (ttl : Z) : ConnectOpts :=
  mkConnectOpts (Some did) None (Some "myhost") None None ttl None None.
Definition path : string := "/etc/vyn/config.yaml".
Definition w0 (f : StoreFile) : PairWorld := mkPairWorld f [] [].

Definition link : string := "vynkor://pair?z=1&d=" +:+ hex_encode (string_bytes ("phone " +:+ hex_encode rnd)).
Definition paired : PairWorld := Eval vm_compute in (device_connect env (opts "phone" 3600) path (w0 FAbsent)).2.

Definition ctx : Ctx :=
  mkCtx None 0 None None (Some [1]) None None 30000 3 16 None (Some (derive_key master)) false
    (mkConfigIo (fun _ => Err "unreadable") (fun _ => false)).
Definition jv : JwtValidator := with_audience (string_bytes master) None.

Definition register_phone : PluginRegister :=
  mkPluginRegister "phone" EmptyString None "tok" "phone" EmptyString 0 EmptyString EmptyString [] EmptyString.

Lemma running : runs_with cfg master ctx jv.
Proof. by split_and!. Defined.

Lemma bytes_ok : Forall is_byte rnd.
Proof. repeat constructor; vm_compute; congruence. Defined.

Definition at_time (now : Z) (f : StoreFile) : Env := mkEnv (mkClock 0 (now * 1000)) [] true f.

Lemma loaded c : load_config path = Ok c -> c = cfg.
Proof. intros Hl. vm_compute in Hl. injection Hl as <-. reflexivity. Defined.

Lemma pairing_admits_witness :
  pw_store paired = FText "[one]" /\
  ws_authorise (Some jv) (device_store ctx) 4599 (pw_store paired) (Some "vynkor, tok") = true /\
  check_device ctx (at_time 4599 (pw_store paired)) register_phone = Ok (Some (string_bytes (hex_encode rnd))).
Proof.
  split; [reflexivity|]. split; [vm_compute; reflexivity|].
  destruct (pairing_admits env (opts "phone" 3600) path (w0 FAbsent) link paired) as
    (cfg' & secret & p & Hl%loaded & Hs & _ & _ & Hid & Hsec & Hk);
    [vm_compute; reflexivity|vm_compute; reflexivity|reflexivity|exact bytes_ok|done|cbn; lia|cbn; lia|].
  subst cfg'. assert (secret = master) as -> by (injection Hs as <-; reflexivity).
  change (hex_encode rnd) with (hex_encode (pe_secret_bytes env)). rewrite <- Hsec. apply (Hk ctx jv 4599 running); [by left|cbn; lia|cbn; lia|reflexivity..|].
  rewrite Hid. reflexivity.
Defined.

Lemma connect_failure_witness :
  let r := device_connect env (opts "phone" 0) path (w0 (FText "[one]")) in
  r.1 = Err "auth error: ttl_secs must be > 0" /\ pw_store r.2 = FText "[zero]" /\ pw_svg r.2 = [].
Proof.
  cbv zeta. split; [vm_compute; reflexivity|]. split; [vm_compute; reflexivity|].
  apply (connect_failure env (opts "phone" 0) path (w0 (FText "[one]")) "auth error: ttl_secs must be > 0").
  vm_compute; reflexivity.
Defined.

Lemma connect_half_paired_witness :
  active_secret (derive_key master) 2000 "phone" (FText "[one]") = Returns (Ok (Some (hex_encode rnd))) /\
  exists e w', device_connect env (opts "phone" 0) path (w0 (FText "[one]")) = (Err e, w') /\
    exists e', active_secret (derive_key master) 2000 "phone" (pw_store w') = Returns (Err e').
Proof.
  split; [vm_compute; reflexivity|].
  destruct (connect_half_paired env (opts "phone" 0) path (w0 (FText "[one]")) cfg master
    ("ws://myhost:8000/ws", []) (hex_encode rnd) (FText "[zero]")) as (e & w' & Hc & Hw & Hexp);
    [vm_compute; reflexivity..|by right; right|reflexivity|exact bytes_ok|cbn; lia|].
  exists e, w'. split; [exact Hc|]. rewrite Hw. apply (Hexp eq_refl 2000). cbn; lia.
Defined.

Definition revoked_world : PairWorld := Eval vm_compute in (device_revoke env "phone" false path paired).2.
Definition restored_world : PairWorld := Eval vm_compute in (device_revoke env "phone" true path revoked_world).2.

Lemma revoke_effective_witness :
  is_err (check_device ctx (at_time 1500 (pw_store revoked_world)) register_phone) = true.
Proof.
  destruct (revoke_effective env "phone" path paired revoked_world) as (cfg' & secret & Hl%loaded & Hs & Hk);
    [vm_compute; reflexivity|].
  subst cfg'. assert (secret = master) as -> by (injection Hs as <-; reflexivity).
  by apply (Hk ctx jv 1500 running).
Defined.

Lemma revoke_undo_witness :
  active_secret (derive_key master) 1500 "phone" (pw_store restored_world) = Returns (Ok (Some (hex_encode rnd))).
Proof.
  apply (revoke_undo_roundtrip env env "phone" path paired revoked_world restored_world cfg master);
    vm_compute; reflexivity.
Defined.

Definition removed_world : PairWorld := Eval vm_compute in (device_remove env "phone" path paired).2.

Lemma remove_effective_witness :
  check_device ctx (at_time 1500 (pw_store removed_world)) register_phone = Err "unknown device — pair it first".
Proof.
  by apply (remove_effective env "phone" path paired removed_world cfg master ctx jv 1500); try done;
    try exact running; vm_compute.
Defined.

Definition blank_paired : PairWorld := Eval vm_compute in (device_connect env (opts " phone" 3600) path (w0 FAbsent)).2.
Definition blank_revoked : PairWorld := Eval vm_compute in (device_revoke env " phone" false path blank_paired).2.

Lemma untrimmed_id_witness :
  pw_store blank_revoked = FText "[blank revoked]" /\
  exists token, forall header, extract_ws_token header = token ->
    ws_authorise (Some jv) (device_store ctx) 1500 (pw_store blank_revoked) header = true.
Proof.
  split; [reflexivity|].
  apply (untrimmed_id_escapes_revoke env env (opts " phone" 3600) path (w0 FAbsent)
    ("vynkor://pair?z=1&d=" +:+ hex_encode (string_bytes (" phone " +:+ hex_encode rnd)))
    blank_paired blank_revoked cfg master ctx jv 1500);
    [vm_compute; reflexivity..| |vm_compute; reflexivity|vm_compute; reflexivity|exact running|
     vm_compute; reflexivity|reflexivity|exact bytes_ok|done|cbn; lia|cbn; lia|done|cbn; lia].
  by vm_compute.
Defined.

Lemma list_prints_rows_witness :
  exists header lines ws,
    list_lines (fun _ => 2000) None [row "phone" 4600 false] = Some (header :: lines) /\
    lines !! 0%nat = format_row ws ["phone"; "phone"; "1970-01-01 00:16:40"; "1970-01-01 01:16:40"; "-"; "active"].
Proof.
  destruct (list_prints_rows (fun _ => 2000) None [row "phone" 4600 false]) as (h & lines & ws & Hl & _ & Hi).
  - by repeat constructor.
  - exists h, lines, ws. split; [exact Hl|]. by apply (Hi 0%nat (row "phone" 4600 false)).
Defined.

Lemma list_newline_witness :
  list_lines (fun _ => 2000) None [mkDevice "phone" ("my" +:+ String NL "phone") 1000 4600 false sealed] = None.
Proof. by apply list_newline_panics. Defined.

Lemma advertise_url_witness :
  resolve_advertise_url cfg None (Some "myhost") = Ok ("ws://myhost:8000/ws", []) /\
  exists u, "ws://myhost:8000/ws" = url_to_string u /\ url_scheme u = "ws" /\ url_path u <> "/".
Proof.
  split; [vm_compute; reflexivity|].
  destruct (advertise_url_shape cfg None (Some "myhost") "ws://myhost:8000/ws" []) as
    (_ & h & u0 & u & _ & _ & Hu & Hs & _ & Hp & _); [vm_compute; reflexivity|].
  exists u. by split_and!.
Defined.

(** [--host myhost:443] under TLS with the configured port 8000. *)
Lemma explicit_port_witness :
  resolve_advertise_url (set_auth None true cfg) None (Some "myhost:443") = Ok ("wss://myhost:8000/ws", []).
Proof.
  rewrite (@explicit_default_port_lost url (set_auth None true cfg) None "myhost:443"
             (mkToyUrl "wss" "myhost" None "/")); vm_compute; reflexivity.
Defined.

End PairingRuns.
