(* ===== verification/Client.v ===== *)
(** * The command line as a client of the kernel

    [vyn plugin ...] ([src/cli/plugin.rs]), [vyn devices]
    ([src/cli/devices.rs]) and the live column of [vyn device list]
    ([fetch_live_devices] of [src/cli/device.rs]).  A command sends at most
    one HTTP request; the peer that answers is a parameter with a state of
    its own, instantiated below with the REST interface of [Api]. *)

From S2P Require Import Prelude Wire Text Calendar Table Channel Registry Permissions Jwt DeviceStore EventStore World EventBus Commands Router Sandbox Config TopoSort Supervisor Loader Kernel Connection Gateway Api Pairing.

Open Scope Z_scope.

(** ** Data *)

Inductive PluginCmd :=
| PcList (refresh installed : bool)
| PcSearch (query : string) (refresh : bool)
| PcStart (id : string)
| PcStop (id : string)
| PcRestart (id : string)
| PcLogs (id : string) (lines : Z)
| PcInstall (target : string) (refresh : bool)
| PcRemove (target : string)
| PcDisable (id : string)
| PcEnable (id : string).

Inductive Method := GET | POST.

(** A request as it leaves the client: the certificate a TLS connection is
    pinned to, and the value of [bearer_auth]. *)
Record HttpRequest := mkHttp {
  hr_method : Method;
  hr_url : string;
  hr_pin : option string;
  hr_bearer : option string;
}.

(** [DeviceView] of [cli/devices.rs]. *)
Record DeviceView := mkView {
  v_device_id : string;
  v_os : string;
  v_arch : string;
  v_capabilities : list string;
  v_last_seen : Z;
  v_state : string;
}.

(** One element of the array [fetch_live_devices] reads, its fields as
    [get(..)?.as_str()?] and [get(..)?.as_u64()] find them. *)
Record LiveValue := mkLiveValue {
  lv_device_id : option string;
  lv_last_seen : option (option Z);
  lv_state : option string;
}.

Class ClientCrates := {
  status_display : Z -> string;
  cert_of_pem : string -> Result string string;
  log_array : string -> option (list string);
  device_views : string -> Result string (list DeviceView);
  live_values : string -> option (list LiveValue);
}.

(** The outcome of running [vynm]. *)
Inductive VynmStatus := VynmExit (success : bool) (shown : string) | VynmNotFound | VynmError (e : string).

Section Client.
Context `{ClientCrates}.

(** The kernel at the other end: its answer is a status and a body, or no
    answer at all. *)
Context {K : Type} (peer : HttpRequest -> K -> option (Z * string) * K).

(** [StatusCode::is_success] *)
Definition is_success (status : Z) : bool := (200 <=? status) && (status <=? 299).

Definition base_url (port : Z) (tls : bool) : string :=
  (if tls then "https" else "http") +:+ "://127.0.0.1:" +:+ show port.

(** The certificate to pin, [None] for a plain client. *)
Definition build_client (read : string -> option string) (tls : bool) (cert_path : option string)
    : Result string (option string) :=
  if negb tls then Ok None
  else match cert_path with
       | None => Err "tls enabled but no certificate path known for this config"
       | Some p =>
           match read p with
           | None => Err ("cannot read TLS certificate at " +:+ p +:+ " — start the kernel once so it generates one")
           | Some pem => match cert_of_pem pem with Ok c => Ok (Some c) | Err e => Err e end
           end
       end.

Definition api_call (m : Method) (pin : option string) (base path : string) (token : option string) (k : K)
    : Result string string * K :=
  match peer (mkHttp m (base +:+ path) pin token) k with
  | (None, k) => (Err "kernel not running — start it with `vyn start`", k)
  | (Some (status, body), k) =>
      if negb (is_success status) then (Err ("API error: HTTP " +:+ status_display status), k) else (Ok body, k)
  end.

Definition api_get := api_call GET.

Definition api_post (pin : option string) (base path : string) (token : option string) (k : K)
    : Result string unit * K :=
  match api_call POST pin base path token k with
  | (Ok _, k) => (Ok tt, k)
  | (Err e, k) => (Err e, k)
  end.

(** One line per element, an unparsable body verbatim. *)
Definition render_log_lines (body : string) : string :=
  match log_array body with
  | Some lines => foldr (fun l acc => l +:+ String NL acc) EmptyString lines
  | None => body
  end.

(** The lines printed and the result, given what running [vynm] gives. *)
Definition exec_vynm (vynm : list string -> VynmStatus) (args : list string) : list string * Result string unit :=
  let cmdline := join_with " " args in
  (["note: 'vyn plugin …' moved to vynm — running: vynm " +:+ cmdline],
   match vynm args with
   | VynmExit true _ => Ok tt
   | VynmExit false shown => Err ("vynm exited with " +:+ shown)
   | VynmNotFound => Err ("'marketplace' commands moved to vynm — install it first (cargo install vynkor-manager), or run manually: vynm " +:+ cmdline)
   | VynmError e => Err e
   end).

(** [handle] of [plugin.rs]: the printed text, the result and the peer. *)
Definition plugin_handle (read : string -> option string) (vynm : list string -> VynmStatus) (cmd : PluginCmd)
    (port : Z) (token : option string) (tls : bool) (cert_path : option string) (config_path : string) (k : K)
    : list string * Result string unit * K :=
  let base := base_url port tls in
  match build_client read tls cert_path with
  | Err e => ([], Err e, k)
  | Ok pin =>
      let post verb id done :=
        match api_post pin base ("/plugins/" +:+ id +:+ "/" +:+ verb) token k with
        | (Ok _, k) => (["Plugin '" +:+ id +:+ "' " +:+ done +:+ "."], Ok tt, k)
        | (Err e, k) => ([], Err e, k)
        end in
      let shim args := (exec_vynm vynm args, k) in
      match cmd with
      | PcStart id => post "start" id "started"
      | PcStop id => post "stop" id "stopped"
      | PcRestart id => post "restart" id "restarted"
      | PcLogs id lines =>
          match api_get pin base ("/plugins/" +:+ id +:+ "/logs?lines=" +:+ show lines) token k with
          | (Ok body, k) => ([render_log_lines body], Ok tt, k)
          | (Err e, k) => ([], Err e, k)
          end
      | PcList _ _ => shim ["list"; "--config"; config_path]
      | PcSearch query _ => shim ["search"; query; "--config"; config_path]
      | PcInstall target _ => shim ["install"; target; "--config"; config_path]
      | PcRemove target => shim ["remove"; target; "--config"; config_path]
      | PcDisable id => shim ["disable"; id; "--config"; config_path]
      | PcEnable id => shim ["enable"; id; "--config"; config_path]
      end
  end.

(** ** [vyn devices] *)

Definition device_row (d : DeviceView) : list string :=
  [v_device_id d; v_os d; v_arch d; v_state d; format_ts (v_last_seen d / 1000); join_with ", " (v_capabilities d)].

Definition DEVICES_HEADERS : list string := ["DEVICE_ID"; "OS"; "ARCH"; "STATE"; "LAST_SEEN"; "CAPABILITIES"].

Definition print_table (devices : list DeviceView) : option (list string) :=
  if bool_decide (devices = []) then Some ["No devices seen. Plugins that declare a device_id appear here."]
  else
    let rows := map device_row devices in
    let ws := table_widths DEVICES_HEADERS rows in
    mapM (format_row ws) (DEVICES_HEADERS :: rows).

Definition devices_handle (read : string -> option string) (port : Z) (tls : bool) (cert_path token : option string)
    (k : K) : Outcome (Result string (list string) * K) :=
  match build_client read tls cert_path with
  | Err e => Returns (Err e, k)
  | Ok pin =>
      match api_get pin (base_url port tls) "/devices" token k with
      | (Err e, k) => Returns (Err e, k)
      | (Ok body, k) =>
          match device_views body with
          | Err e => Returns (Err e, k)
          | Ok devices => match print_table devices with
                          | Some lines => Returns (Ok lines, k)
                          | None => Panics
                          end
          end
      end
  end.

(** ** The live column of [vyn device list] *)

Definition live_entry (v : LiveValue) : option (string * (Z * bool)) :=
  match lv_device_id v, lv_last_seen v, lv_state v with
  | Some id, Some seen, Some st => Some (id, (default 0 seen, st ==? "online"))
  | _, _, _ => None
  end.

(** [collect] into a [HashMap]: a later entry replaces an earlier one. *)
Definition fetch_live_devices (read : string -> option string) (private_dir : option string) (cfg : Config) (k : K)
    : option LiveDevices * K :=
  let base := base_url (port cfg) (tls cfg) in
  match build_client read (tls cfg) (effective_tls_cert_path private_dir cfg) with
  | Err _ => (None, k)
  | Ok pin =>
      match api_get pin base "/devices" None k with
      | (Err _, k) => (None, k)
      | (Ok body, k) =>
          ((fun vs => list_to_map (rev (omap live_entry vs))) <$> live_values body, k)
      end
  end.

End Client.

(** ** Properties *)

(** The commands that talk to the kernel, and the path they ask for. *)
Definition cmd_path (cmd : PluginCmd) : option (Method * string) :=
  match cmd with
  | PcStart id => Some (POST, "/plugins/" +:+ id +:+ "/" +:+ "start")
  | PcStop id => Some (POST, "/plugins/" +:+ id +:+ "/" +:+ "stop")
  | PcRestart id => Some (POST, "/plugins/" +:+ id +:+ "/" +:+ "restart")
  | PcLogs id lines => Some (GET, "/plugins/" +:+ id +:+ "/logs?lines=" +:+ show lines)
  | _ => None
  end.

Section ClientFacts.
Context `{ClientCrates} {K : Type} (peer : HttpRequest -> K -> option (Z * string) * K).

(** The one request of a command, and how its answer becomes the result. *)
Definition answered (rq : HttpRequest) (k : K) (ok : bool) (k' : K) : Prop :=
  exists ans, peer rq k = (ans, k') /\
    ok = match ans with Some (status, _) => is_success status | None => false end.

Lemma api_call_answered m pin base path token k r k' :
  api_call peer m pin base path token k = (r, k') ->
  answered (mkHttp m (base +:+ path) pin token) k (is_ok r) k'.
Proof.
  unfold api_call, answered. destruct (peer _ k) as [[[status body]|] k1]; [|intros [= <- <-]; by eexists].
  destruct (is_success status) eqn:Hs; cbn [negb]; intros [= <- <-]; (eexists; split; [done|]); cbn; by rewrite Hs.
Qed.

(** What [vyn plugin] does over HTTP.  A start, stop, restart or logs
    command sends exactly one request, to the configured port on the loopback
    interface with the token it was given, over TLS pinned to the kernel's
    certificate exactly when TLS is on, and succeeds exactly when the kernel
    answers with a success status; every other command, and a command without
    a usable certificate, sends none; a moved command runs [vynm] with the
    same configuration file. *)
Theorem plugin_command_requests read vynm cmd port token tls cert_path config_path k out r k' :
  plugin_handle peer read vynm cmd port token tls cert_path config_path k = (out, r, k') ->
  match build_client read tls cert_path, cmd_path cmd with
  | Err e, _ => r = Err e /\ k' = k
  | Ok pin, Some (m, path) =>
      is_some pin = tls /\ answered (mkHttp m (base_url port tls +:+ path) pin token) k (is_ok r) k'
  | Ok _, None => k' = k /\ exists args, r = (exec_vynm vynm args).2 /\
      exists front, args = front ++ ["--config"; config_path]
  end.
Proof.
  unfold plugin_handle. destruct (build_client read tls cert_path) as [pin|e] eqn:Hb; [|by intros [= _ <- <-]].
  assert (Hpin : is_some pin = tls).
  { unfold build_client in Hb. destruct tls; cbn [negb] in Hb; [|by injection Hb as <-].
    by split_cases_in Hb. }
  assert (Hpost : forall path (msg : list string) x, match api_post peer pin (base_url port tls) path token k with
      | (Ok _, k) => (msg, Ok tt, k) | (Err e, k) => ([], Err e, k) end = x ->
      answered (mkHttp POST (base_url port tls +:+ path) pin token) k (is_ok x.1.2) x.2).
  { intros path msg x <-. unfold api_post.
    destruct (api_call peer POST _ _ _ _ _) as [[b|e] k1] eqn:Hc; by apply api_call_answered in Hc. }
  assert (Hshim : forall args, (exec_vynm vynm args, k) = (out, r, k') -> k' = k /\ r = (exec_vynm vynm args).2).
  { intros args Hx. split; [by apply (f_equal snd) in Hx|]. by apply (f_equal (fun x => x.1.2)) in Hx. }
  destruct cmd; cbn [cmd_path]; cbv zeta.
  3-5: intros Hx; split; [done|]; by apply (Hpost _ _ (_, _, _) Hx).
  3: { unfold api_get. destruct (api_call peer GET _ _ _ _ _) as [[b|e] k1] eqn:Hc; intros [= _ <- <-];
       (split; [done|]); by apply api_call_answered in Hc. }
  1: intros Hx; apply Hshim in Hx as [-> Hr]; split; [done|]; eexists; split; [exact Hr|]; by exists ["list"].
  all: intros Hx; apply Hshim in Hx as [-> Hr]; split; [done|]; eexists; split; [exact Hr|]; by eexists [_; _].
Qed.

(** [vyn devices] shows the kernel's devices: with a success answer it
    prints a header and one line per device of the answer, in order, and it
    never panics. *)
Theorem devices_table_total devices :
  exists lines, print_table devices = Some lines /\
    (devices <> [] -> exists ws, map Some lines = map (format_row ws) (DEVICES_HEADERS :: map device_row devices)).
Proof.
  unfold print_table. case_bool_decide as Hd; [by eexists|]. cbv zeta.
  set (ws := table_widths _ _).
  assert (Hall : forall rows, Forall (fun c => length c = 6%nat) rows ->
    exists lines, mapM (format_row ws) rows = Some lines /\ map Some lines = map (format_row ws) rows).
  { induction 1 as [|c rows Hc _ (lines & Hm & He)]; [by exists []|].
    destruct (format_row_six ws c) as [l Hl]; [apply table_widths_length|done|].
    exists (l :: lines). cbn. rewrite Hl. cbn. rewrite Hm. split; [done|]. cbn. by rewrite He. }
  destruct (Hall (DEVICES_HEADERS :: map device_row devices)) as (lines & Hm & He).
  { constructor; [done|]. apply Forall_map, Forall_true. by intros. }
  exists lines. split; [done|]. intros _. by exists ws.
Qed.

End ClientFacts.

(** ** Against a kernel *)

Section Served.
Context `{HashIter} `{WireCrate} `{Governor} `{SerdeJson} `{JwtCrate} `{ManifestCrate} `{ClientCrates}.

(** The kernel's HTTP server: [route_of] is the routing of [axum], an
    unknown path answers 404; [body_text] is the body on the wire. *)
Context (route_of : Method -> string -> option Route) (body_text : Body -> string).

Definition kernel_peer (app : AppState) (clk : Clock) (os : OsReply) (rq : HttpRequest) (a : Api)
    : option (Z * string) * Api :=
  match route_of (hr_method rq) (hr_url rq) with
  | None => (Some (404, EmptyString), a)
  | Some r =>
      let '(resp, a) := serve app clk os (mkRequest r ((fun t => "Bearer " +:+ t) <$> hr_bearer rq)) a in
      (Some (rs_status resp, body_text (rs_body resp)), a)
  end.

(** A request without a token gets no success from a secured kernel, and
    leaves it alone. *)
Lemma tokenless_refused app clk os jv rq a :
  app_validator app = Some jv -> hr_bearer rq = None -> route_of (hr_method rq) (hr_url rq) <> Some RHealth ->
  exists status body, kernel_peer app clk os rq a = (Some (status, body), a) /\ is_success status = false.
Proof.
  intros Hjv Hb Hr. unfold kernel_peer. destruct (route_of _ _) as [r|]; [|by eexists _, _].
  destruct (serve _ _ _ _ _) as [resp a'] eqn:Hs. rewrite Hb in Hs.
  assert (r <> RHealth) as Hne by congruence.
  apply serve_inv in Hs as
    [(st & Ha & -> & ->)|(claims & a1 & Ha & _)]; [| |done]; unfold auth_middleware in Ha; rewrite Hjv in Ha; [|done].
  injection Ha as <-. by eexists _, _.
Qed.

(** The plugin commands respect the kernel's access control.  Whatever
    [vyn plugin] is run with, the state of a secured kernel changes only if
    the token it was given validates and carries the administrator
    permission, and a command that reports success was served: with no token
    it fails. *)
Theorem plugin_command_authorised app clk os jv read vynm cmd port token tls cert_path config_path a out r a' :
  app_validator app = Some jv ->
  (forall m path, cmd_path cmd = Some (m, path) -> route_of m (base_url port tls +:+ path) <> Some RHealth) ->
  plugin_handle (kernel_peer app clk os) read vynm cmd port token tls cert_path config_path a = (out, r, a') ->
  ((api_world a' = api_world a /\ api_sup a' = api_sup a) \/
   exists t claims, token = Some t /\ validate jv (unix_secs clk) t = Ok claims /\
     perm_as_str_name PermissionKernelAdmin ∈ claim_permissions claims) /\
  (token = None -> is_some (cmd_path cmd) = true -> is_err r = true /\ a' = a).
Proof.
  intros Hjv Hroute Hh. apply plugin_command_requests in Hh.
  destruct (build_client read tls cert_path) as [pin|e]; [|destruct Hh as [-> ->]; by split; [left|]].
  destruct (cmd_path cmd) as [[m path]|]; [|destruct Hh as [-> _]; by split; [left|]].
  destruct Hh as (_ & ans & Hp & Hok). split.
  - unfold kernel_peer in Hp. destruct (route_of _ _) as [rt|] eqn:Hrt; [|injection Hp as _ <-; by left].
    destruct (serve _ _ _ _ _) as [resp a2] eqn:Hs. injection Hp as _ <-.
    assert (rt <> RHealth) as Hne by (intros ->; by apply (Hroute m path)).
    apply serve_inv in Hs as [(st & _ & _ & ->)|(claims & a1 & Ha & Hw & Hsup & Hcase)]; [by left| |done].
    destruct Hcase as [[_ ->]|[(_ & _ & _ & ->)|[Hk Hh]]]; [by left..|].
    destruct (is_lifecycle rt) eqn:Hl.
    + right. pose proof (auth_middleware_ok _ _ _ _ Ha) as Hc. rewrite Hjv in Hc.
      destruct Hc as (c & -> & t & Hauth & Hv). cbn [rq_authorization hr_bearer] in Hauth.
      destruct token as [t'|]; [|done]. exists t', c.
      assert (t' = t) as -> by (injection Hauth as Hauth; exact Hauth). split_and!; [done..|]. by apply admin_listed, Hk.
    + left. pose proof (handle_route_reads app (instant clk) os rt a1 Hl) as Hread. cbn in Hh.
      rewrite Hh in Hread. cbn in Hread. by subst a2.
  - intros -> _. destruct (tokenless_refused app clk os jv (mkHttp m (base_url port tls +:+ path) pin None) a)
      as (status & body & Hp' & Hf); [done..|by apply Hroute|].
    rewrite Hp' in Hp. injection Hp as <- <-. rewrite Hf in Hok. split; [|done].
    unfold is_err. by rewrite Hok.
Qed.

(** The live column stays empty.  [vyn device list] only runs with a
    [jwt_secret], the kernel of such a configuration asks every request for a
    token, and the live lookup sends none: it never gets an answer it can
    use, whatever devices are connected. *)
Theorem live_column_empty app clk os jv read private_dir cfg a :
  app_validator app = Some jv -> route_of GET (base_url (port cfg) (tls cfg) +:+ "/devices") <> Some RHealth ->
  fetch_live_devices (kernel_peer app clk os) read private_dir cfg a = (None, a).
Proof.
  intros Hjv Hr. unfold fetch_live_devices. destruct (build_client _ _ _) as [pin|]; [|done].
  unfold api_get, api_call.
  destruct (tokenless_refused app clk os jv (mkHttp GET (base_url (port cfg) (tls cfg) +:+ "/devices") pin None) a)
    as (status & body & -> & Hf); [done..|]. by rewrite Hf.
Qed.

End Served.

(** ** A secured kernel and its command line *)
Module ClientRuns.

#[local] Instance iter : HashIter := canonical_iter.
#[local] Instance wire : WireCrate := Toy.toy_wire [].
#[local] Instance manifests : ManifestCrate := ApiRuns.manifests.
#[local] Instance gov : Governor := open_governor.
#[local] Instance json : SerdeJson := toy_json.
#[local] Instance jwt : JwtCrate := JwtRuns.crate.
#[local] Instance crates : ClientCrates := {|
  status_display s := show s;
  cert_of_pem p := Ok p;
  log_array _ := None;
  device_views _ := Ok [];
  live_values _ := Some [];
|}.

(** The routes the runs ask for. *)
Definition route_of (m : Method) (url : string) : option Route :=
  if url ==? "http://127.0.0.1:8080/plugins/tts/stop" then Some (RStop "tts")
  else if url ==? "http://127.0.0.1:8080/devices" then Some RDevices
  else if url ==? "http://127.0.0.1:8080/health" then Some RHealth else None.

Definition body_text (b : Body) : string := EmptyString.

Definition app : AppState := mkApp (Some (with_audience JwtRuns.k0 (Some "host"))) 0 [] EmptyString.
Definition clk : Clock := mkClock 0 1050000.
Definition vynm (args : list string) : VynmStatus := VynmNotFound.
Definition peer := kernel_peer route_of body_text app clk ApiRuns.os.

Definition stop_tts (token : option string) :=
  plugin_handle peer (fun _ => None) vynm (PcStop "tts") 8080 token false None "/etc/vyn/config.yaml" ApiRuns.api.

Lemma plugin_requests_witness :
  stop_tts (Some "tok") = ([], Err "API error: HTTP 403", ApiRuns.api) /\
  answered peer (mkHttp POST "http://127.0.0.1:8080/plugins/tts/stop" None (Some "tok")) ApiRuns.api false ApiRuns.api.
Proof.
  split; [vm_compute; reflexivity|].
  apply (plugin_command_requests peer (fun _ => None) vynm (PcStop "tts") 8080 (Some "tok") false None
           "/etc/vyn/config.yaml" ApiRuns.api [] (Err "API error: HTTP 403") ApiRuns.api).
  vm_compute; reflexivity.
Defined.

Lemma plugin_authorised_witness :
  stop_tts None = ([], Err "API error: HTTP 401", ApiRuns.api) /\ (stop_tts None).2 = ApiRuns.api.
Proof.
  assert (stop_tts None = ([], Err "API error: HTTP 401", ApiRuns.api)) as Hs by (vm_compute; reflexivity).
  split; [exact Hs|]. rewrite Hs.
  apply (plugin_command_authorised route_of body_text app clk ApiRuns.os (with_audience JwtRuns.k0 (Some "host"))
           (fun _ => None) vynm (PcStop "tts") 8080 None false None "/etc/vyn/config.yaml" ApiRuns.api []
           (Err "API error: HTTP 401") ApiRuns.api); [reflexivity| |exact Hs|reflexivity|reflexivity].
  intros m p [= <- <-]. by vm_compute.
Defined.

Definition local_cfg : Config := set_port 8080 (set_auth (Some "s") false ConfigRuns.base).

Lemma live_column_witness :
  fetch_live_devices peer (fun _ => None) None local_cfg ApiRuns.api = (None, ApiRuns.api).
Proof.
  apply (live_column_empty route_of body_text app clk ApiRuns.os (with_audience JwtRuns.k0 (Some "host")));
    [reflexivity|by vm_compute].
Defined.

(** The same question with a token is answered. *)
Example devices_with_token :
  devices_handle peer (fun _ => None) 8080 false None (Some "tok") ApiRuns.api =
  Returns (Ok ["No devices seen. Plugins that declare a device_id appear here."], ApiRuns.api).
Proof. vm_compute. reflexivity. Qed.

End ClientRuns.
