(* ===== verification/Daemon.v ===== *)
(** * Starting, stopping and restarting the kernel ([src/main.rs])

    The flags of [vyn start] and how they change the loaded configuration;
    the argument vector the background launcher hands to its child; the PID
    file and the probes of [vyn stop], [restart] and [status].  The protocol
    around the PID file lock is in [PidLock]. *)

From S2P Require Import Prelude Wire Text Calendar Table Sandbox Supervisor Config.

Open Scope Z_scope.

(** ** Flags and configuration *)

(** The options of [Commands::Start]. *)
Record StartFlags := mkStart {
  st_foreground : bool;
  st_port : option Z;
  st_config : string;
  st_debug : bool;
  st_role : option string;
  st_bridge_url : option string;
  st_bridge_token : option string;
  st_bridge_secret : option string;
  st_bridge_mirror : list string;
}.

(** [BridgeConfig::default()] *)
Definition bridge_default : BridgeConfig := mkBridgeConfig EmptyString None None [].

Definition ensure_auth_configured (cfg : Config) : Result string unit :=
  if negb (is_some (jwt_secret cfg)) && negb (allow_no_auth cfg)
  then Err "refusing to start without authentication — set `jwt_secret` in config, or set `allow_no_auth: true` to run without auth (insecure)"
  else Ok tt.

Definition override_role (explicit_role : option string) (r : Role) : Role :=
  match explicit_role with
  | Some s => if s ==? "client" then Client else if s ==? "host" then Host else r
  | None => r
  end.

Definition override_bridge (url token secret : option string) (mirrored : list string) (b : BridgeConfig) : BridgeConfig :=
  mkBridgeConfig
    (match url with Some u => u | None => host_url b end)
    (match token with Some t => Some t | None => bridge_token b end)
    (match secret with Some s => Some s | None => bridge_secret b end)
    (if bool_decide (mirrored = []) then mirror b else mirrored).

Definition apply_role_overrides (cfg : Config) (role_flag url token secret : option string) (mirrored : list string)
    : Config :=
  let cfg := set_role (override_role role_flag (role cfg)) cfg in
  let has_bridge_flag := is_some url || is_some token || is_some secret || negb (bool_decide (mirrored = [])) in
  let cfg := if has_bridge_flag && negb (is_some role_flag) then set_role Client cfg else cfg in
  if negb has_bridge_flag then cfg
  else set_bridge (Some (override_bridge url token secret mirrored (default bridge_default (bridge cfg)))) cfg.

(** [configured] is a hash set, listed in its own order. *)
Fixpoint check_mirror `{HashIter} (configured : gset string) (mirrored : list string) : Result string unit :=
  match mirrored with
  | [] => Ok tt
  | cap :: rest =>
      if cap ∈? configured then check_mirror configured rest
      else Err ("bridge mirror '" +:+ cap +:+ "' is not a configured plugin (plugins: ["
                +:+ join_with ", " (set_iter configured) +:+ "])")
  end.

Definition validate_bridge_config `{HashIter} (cfg : Config) : Result string unit :=
  match role cfg with
  | Host => Ok tt
  | Client =>
      match bridge cfg with
      | None => Err "role: client requires a `bridge:` block in config or --bridge-url"
      | Some b =>
          if negb (existsb (fun p => starts_with p (host_url b)) ["ws://"; "wss://"; "http://"; "https://"])
          then Err ("invalid bridge host_url '" +:+ host_url b +:+ "': expected http(s):// or ws(s)://")
          else if bool_decide (mirror b = [])
          then Err "role: client requires at least one mirrored plugin (`bridge.mirror` or --bridge-mirror)"
          else check_mirror (list_to_set (map def_id (plugins cfg))) (mirror b)
      end
  end.

(** The configuration of a [vyn start] before any check: [loaded] is what
    [load_config] gave, [dflt] is [Config::default()]. *)
Definition start_config (dflt : Config) (loaded : Result string Config) (f : StartFlags) : Config :=
  let cfg := match loaded with Ok c => c | Err _ => dflt end in
  let cfg := match st_port f with Some p => set_port p cfg | None => cfg end in
  let cfg := if st_debug f then set_log_level "debug" cfg else cfg in
  apply_role_overrides cfg (st_role f) (st_bridge_url f) (st_bridge_token f) (st_bridge_secret f) (st_bridge_mirror f).

(** With the two checks: the configuration the kernel would run on. *)
Definition start_checked `{HashIter} (dflt : Config) (loaded : Result string Config) (f : StartFlags) : Result string Config :=
  let cfg := start_config dflt loaded f in
  match validate_bridge_config cfg with
  | Err e => Err e
  | Ok _ => match ensure_auth_configured cfg with Err e => Err e | Ok _ => Ok cfg end
  end.

(** ** The background child *)

(** The arguments [daemonize_and_run] gives the child. *)
Definition child_argv (cfg : Config) (config_path : string) (debug : bool) : list string :=
  ["start"; "--foreground"; "--config"; config_path; "--port"; show (port cfg)] ++
  (match role cfg with
   | Client =>
       ["--role"; "client"] ++
       match bridge cfg with
       | Some b =>
           ["--bridge-url"; host_url b] ++
           (match bridge_token b with Some t => ["--bridge-token"; t] | None => [] end) ++
           (match bridge_secret b with Some s => ["--bridge-secret"; s] | None => [] end) ++
           concat (map (fun m => ["--bridge-mirror"; m]) (mirror b))
       | None => []
       end
   | Host => []
   end) ++
  (if debug then ["--debug"] else []).

(** The flags those arguments stand for. *)
Definition child_flags (cfg : Config) (config_path : string) (debug : bool) : StartFlags :=
  let client := match role cfg with Client => true | Host => false end in
  let b := if client then bridge cfg else None in
  mkStart true (Some (port cfg)) config_path debug (if client then Some "client" else None)
    (host_url <$> b) (b ≫= bridge_token) (b ≫= bridge_secret) (match b with Some b => mirror b | None => [] end).

(** ** The PID file and the process table *)

Inductive Sig := SIGTERM | SIGKILL.

(** The answer of [kill]: delivered, no such process, or another error (no
    permission). *)
Inductive KillResult := KOk | KEsrch | KOther (e : string).

(** What the commands see: the text of the PID file when it can be read, the
    process table by process id with the answer to a signal, and the signals
    sent so far. *)
Record Os := mkOs {
  pid_text : option string;
  procs : gmap Z KillResult;
  sent : list (Z * Sig);
}.

Definition kill_result (pid : Z) (o : Os) : KillResult := default KEsrch (procs o !! pid).
Definition set_pid_text (t : option string) (o : Os) : Os := mkOs t (procs o) (sent o).

(** [i32::from_str] *)
Definition parse_i32 (s : string) : option Z :=
  let digits d := if is_empty d then None else digits_value u32_max 0 d in
  match s with
  | EmptyString => None
  | String a d =>
      if a ==? "-"%char then
        match digits d with Some v => if v <=? 2 ^ 31 then Some (- v) else None | None => None end
      else
        match digits (if a ==? "+"%char then d else s) with
        | Some v => if v <=? 2 ^ 31 - 1 then Some v else None
        | None => None
        end
  end.

Definition read_pid (o : Os) : option Z := pid_text o ≫= fun t => parse_i32 (trim t).

Definition write_pid (pid : Z) (o : Os) : Os := set_pid_text (Some (show pid)) o.

Definition is_running (o : Os) : bool * Os :=
  match read_pid o with
  | None => (false, o)
  | Some pid =>
      match kill_result pid o with
      | KOk => (true, o)
      | KEsrch => (false, set_pid_text None o)
      | KOther _ => (false, o)
      end
  end.

Section Stop.

(** What the rest of the system does: the effect of a delivered signal, and
    of the [i]-th pause. *)
Context (deliver : Z -> Sig -> Os -> Os) (pause : nat -> Os -> Os).

Definition send (pid : Z) (s : Sig) (o : Os) : Result string unit * Os :=
  match kill_result pid o with
  | KOk => (Ok tt, deliver pid s (mkOs (pid_text o) (procs o) (sent o ++ [(pid, s)])))
  | KEsrch => (Err "ESRCH: No such process", o)
  | KOther e => (Err e, o)
  end.

(** [for _ in 0..n { if !is_running(..)? { break; } sleep(500ms) }] *)
Fixpoint poll (n i : nat) (o : Os) : Os :=
  match n with
  | O => o
  | S n =>
      let '(running, o) := is_running o in
      if running then poll n (S i) (pause i o) else o
  end.

Definition stop_kernel (o : Os) : Result string unit * Os :=
  let '(running, o) := is_running o in
  if negb running then (Ok tt, o)
  else match read_pid o with
       | None => (Err "unreadable pid file", o)
       | Some pid =>
           match send pid SIGTERM o with
           | (Err e, o) => (Err e, o)
           | (Ok _, o) =>
               let o := poll 10 0 o in
               let '(running, o) := is_running o in
               let '(r, o) := if running then send pid SIGKILL o else (Ok tt, o) in
               match r with
               | Err e => (Err e, o)
               | Ok _ => (Ok tt, set_pid_text None o)
               end
           end
       end.

(** [wait_pid_gone]: the [i]-th look at the clock, in milliseconds, is
    [elapsed i]; [None] when [fuel] looks were not enough. *)
Fixpoint wait_pid_gone (fuel : nat) (elapsed : nat -> Z) (pid timeout : Z) (i : nat) (o : Os) : option bool * Os :=
  match fuel with
  | O => (None, o)
  | S fuel =>
      match kill_result pid o with
      | KEsrch => (Some true, o)
      | _ => if timeout <=? elapsed i then (Some false, o)
             else wait_pid_gone fuel elapsed pid timeout (S i) (pause (10 + i) o)
      end
  end.

(** [Commands::Restart] after the configuration is loaded and checked: [Ok]
    means the new kernel is launched, on the state returned. *)
Definition restart_kernel (fuel : nat) (elapsed : nat -> Z) (o : Os) : option (Result string unit) * Os :=
  let old_pid := read_pid o in
  match stop_kernel o with
  | (Err e, o) => (Some (Err e), o)
  | (Ok _, o) =>
      match old_pid with
      | None => (Some (Ok tt), o)
      | Some pid =>
          match wait_pid_gone fuel elapsed pid 5000 0 o with
          | (None, o) => (None, o)
          | (Some true, o) => (Some (Ok tt), o)
          | (Some false, o) =>
              (Some (Err ("restart aborted: kernel (PID " +:+ show pid +:+
                 ") still alive after stop — refusing to start a second instance")), o)
          end
      end
  end.

(** ** The readiness handshake *)

Inductive ReadyRead := RChunk (s : string) | REof | RWouldBlock | RFailed (e : string).

(** The loop that collects the line; [None] when the reads run out. *)
Fixpoint ready_line (reads : list ReadyRead) (line : string) : option (Result string string) :=
  match reads with
  | [] => None
  | RChunk s :: reads =>
      let line := line +:+ s in
      if contains_char NL line then Some (Ok line) else ready_line reads line
  | REof :: _ => Some (Err "kernel child exited before signaling readiness")
  | RWouldBlock :: _ => Some (Err "kernel child did not signal readiness within 10s")
  | RFailed e :: _ => Some (Err ("readiness pipe error: " +:+ e))
  end.

(** What the launcher does with the line: [pid] is the child's id. *)
Definition publish_child (pid : Z) (line : Result string string) (o : Os) : Result string unit * Os :=
  match line with
  | Ok line =>
      match parse_i32 (trim line) with
      | None => (Err ("corrupt readiness line from kernel child: " +:+ debug_str line), o)
      | Some child_pid =>
          if negb (child_pid =? pid)
          then (Err ("readiness pid " +:+ show child_pid +:+ " does not match child pid " +:+ show pid), o)
          else (Ok tt, write_pid pid o)
      end
  | Err e => (Err ("kernel failed to start in background: " +:+ e), set_pid_text None (send pid SIGKILL o).2)
  end.

(** The bytes the child writes once it holds the lock. *)
Definition ready_text (pid : Z) : string := show pid +:+ String NL EmptyString.

End Stop.

(** ** [vyn logs] and the log level *)

(** The printed lines; [content] is [None] when there is no file. *)
Definition show_logs (content : option string) (lines : nat) : list string :=
  match content with
  | None => ["no log file found."]
  | Some c =>
      let all_lines := str_lines c in
      drop (if (lines <? length all_lines)%nat then length all_lines - lines else 0)%nat all_lines
  end.

(** [utils/logging.rs] *)
Definition is_log_level_token (tok : string) : bool :=
  (to_ascii_lowercase tok ∈? ["trace"; "debug"; "info"; "warn"; "error"; "off"])
  || (tok ∈? ["1"; "2"; "3"; "4"; "5"]) || contains_char "="%char tok.

Definition sanitize_log_level (level : string) : string :=
  let trimmed := trim level in
  if negb (is_empty trimmed) && forallb is_log_level_token (split_char ","%char trimmed) then trimmed else "info".

(** ** Properties: configuration *)

(** The checks of [vyn start] as one statement. *)
Definition runnable (cfg : Config) : Prop :=
  (is_Some (jwt_secret cfg) \/ allow_no_auth cfg = true) /\
  (role cfg = Client -> exists b, bridge cfg = Some b /\ mirror b <> [] /\
     (exists p, p ∈ ["ws://"; "wss://"; "http://"; "https://"] /\ starts_with p (host_url b) = true) /\
     Forall (fun cap => cap ∈ map def_id (plugins cfg)) (mirror b)).

Lemma check_mirror_Ok `{HashIter} configured l :
  check_mirror (list_to_set configured) l = Ok tt <-> Forall (fun cap => cap ∈ configured) l.
Proof.
  induction l as [|cap l IH]; cbn; [by split|]. rewrite Forall_cons, <- IH.
  case_bool_decide as Hin; rewrite elem_of_list_to_set in Hin; naive_solver.
Qed.

(** The gate of [vyn start] is exact: it lets a configuration through
    exactly when authentication is configured or explicitly waived and, for a
    client kernel, the bridge names a host by an accepted scheme and mirrors
    at least one plugin, all of them configured. *)
Theorem start_gate_exact `{HashIter} dflt loaded f cfg :
  start_checked dflt loaded f = Ok cfg <-> cfg = start_config dflt loaded f /\ runnable cfg.
Proof.
  unfold start_checked. cbv zeta. set (c := start_config dflt loaded f).
  assert (Hauth : ensure_auth_configured c = Ok tt <-> is_Some (jwt_secret c) \/ allow_no_auth c = true).
  { unfold ensure_auth_configured. destruct (jwt_secret c), (allow_no_auth c); cbn; naive_solver. }
  assert (Hb : validate_bridge_config c = Ok tt <-> (role c = Client -> exists b, bridge c = Some b /\ mirror b <> [] /\
     (exists p, p ∈ ["ws://"; "wss://"; "http://"; "https://"] /\ starts_with p (host_url b) = true) /\
     Forall (fun cap => cap ∈ map def_id (plugins c)) (mirror b))).
  { unfold validate_bridge_config. destruct (role c); [by split|]. destruct (bridge c) as [b|]; [|naive_solver].
    pose proof (existsb_exists (fun p => starts_with p (host_url b)) ["ws://"; "wss://"; "http://"; "https://"]) as Hx.
    setoid_rewrite <- list_elem_of_In in Hx.
    destruct (existsb _ _); cbn [negb].
    - case_bool_decide; [naive_solver|]. rewrite check_mirror_Ok. naive_solver.
    - split; [done|]. intros Hc. destruct (Hc eq_refl) as (b' & [= <-] & _ & Hp & _). by apply Hx in Hp. }
  unfold runnable.
  split.
  - destruct (validate_bridge_config c) as [[]|]; [|done]. destruct (ensure_auth_configured c) as [[]|]; [|done].
    intros [= <-]. split; [done|]. split; [by apply Hauth|by apply Hb].
  - intros [-> [Ha Hc]]. apply Hauth in Ha. apply Hb in Hc. by rewrite Hc, Ha.
Qed.

(** *** The background child runs on its parent's configuration *)

(** The long form of a set of flags. *)
Definition opt_arg (name : string) (o : option string) : list string :=
  match o with Some v => [name; v] | None => [] end.

Definition render_start (f : StartFlags) : list string :=
  ["start"] ++ (if st_foreground f then ["--foreground"] else []) ++ ["--config"; st_config f] ++
  opt_arg "--port" (show <$> st_port f) ++ opt_arg "--role" (st_role f) ++ opt_arg "--bridge-url" (st_bridge_url f) ++
  opt_arg "--bridge-token" (st_bridge_token f) ++ opt_arg "--bridge-secret" (st_bridge_secret f) ++
  concat (map (fun m => ["--bridge-mirror"; m]) (st_bridge_mirror f)) ++ (if st_debug f then ["--debug"] else []).

(** A value the argument parser takes as the value of the option before it:
    one that does not look like an option itself. *)
Definition plain_value (v : string) : Prop := starts_with "-" v = false.

Definition plain_flags (f : StartFlags) : Prop :=
  plain_value (st_config f) /\ (forall p, st_port f = Some p -> 0 <= p <= u16_max) /\
  (forall r, st_role f = Some r -> r = "client" \/ r = "host") /\
  (forall v, v ∈ option_list (st_bridge_url f) ++ option_list (st_bridge_token f) ++
               option_list (st_bridge_secret f) ++ st_bridge_mirror f -> plain_value v).

Class Clap := { parse_start : list string -> option StartFlags }.

(** Documented behaviour of [clap] on the options of [Commands::Start]: the
    long form of plain flags parses to them, and a value that starts with a
    hyphen is not taken as a value. *)
Class ClapLaws `{Clap} := {
  parse_render : forall f, plain_flags f -> parse_start (render_start f) = Some f;
  parse_hyphen : forall pre name v post,
    name ∈ ["--bridge-url"; "--bridge-token"; "--bridge-secret"; "--bridge-mirror"] ->
    starts_with "-" v = true -> parse_start (pre ++ [name; v] ++ post) = None;
}.

Lemma child_argv_render cfg path debug : child_argv cfg path debug = render_start (child_flags cfg path debug).
Proof.
  unfold child_argv, render_start, child_flags. destruct (role cfg); cbn; [done|].
  destruct (bridge cfg) as [b|]; cbn; [|done]. destruct (bridge_token b), (bridge_secret b); cbn; by rewrite ?app_assoc.
Qed.

Lemma set_bridge_id c : set_bridge (bridge c) c = c.
Proof. by destruct c. Qed.
Lemma set_role_id c : set_role (role c) c = c.
Proof. by destruct c. Qed.
Lemma set_port_id c : set_port (port c) c = c.
Proof. by destruct c. Qed.

Definition has_flags (u t s : option string) (m : list string) : bool :=
  is_some u || is_some t || is_some s || negb (bool_decide (m = [])).

Definition new_role (r u t s : option string) (m : list string) (c : Config) : Role :=
  if has_flags u t s m && negb (is_some r) then Client else override_role r (role c).
Definition new_bridge (u t s : option string) (m : list string) (c : Config) : option BridgeConfig :=
  if has_flags u t s m then Some (override_bridge u t s m (default bridge_default (bridge c))) else bridge c.

(** The overrides touch the role and the bridge only. *)
Lemma apply_role_overrides_form c r u t s m :
  apply_role_overrides c r u t s m = set_bridge (new_bridge u t s m c) (set_role (new_role r u t s m c) c).
Proof.
  unfold apply_role_overrides, new_role, new_bridge. fold (has_flags u t s m). cbv zeta.
  by destruct c, (has_flags u t s m), r.
Qed.

Definition base_config (dflt : Config) (loaded : Result string Config) : Config :=
  match loaded with Ok c => c | Err _ => dflt end.

(** The port and the log level a child sets are its parent's. *)
Definition base_with (f : StartFlags) (c : Config) : Config :=
  let c := match st_port f with Some p => set_port p c | None => c end in
  if st_debug f then set_log_level "debug" c else c.

Lemma start_config_form dflt loaded f :
  start_config dflt loaded f =
  let c := base_with f (base_config dflt loaded) in
  set_bridge (new_bridge (st_bridge_url f) (st_bridge_token f) (st_bridge_secret f) (st_bridge_mirror f) c)
    (set_role (new_role (st_role f) (st_bridge_url f) (st_bridge_token f) (st_bridge_secret f) (st_bridge_mirror f) c) c).
Proof. unfold start_config. cbv zeta. apply apply_role_overrides_form. Qed.

Lemma base_with_child f c r b path :
  let cfg := set_bridge b (set_role r (base_with f c)) in
  base_with (child_flags cfg path (st_debug f)) c = base_with f c.
Proof. unfold base_with, child_flags. destruct c, (st_port f), (st_debug f); done. Qed.

(** Overriding a bridge with its own settings changes nothing. *)
Lemma new_bridge_again u t s m c b :
  new_bridge u t s m c = Some b ->
  override_bridge (Some (host_url b)) (bridge_token b) (bridge_secret b) (mirror b)
    (default bridge_default (bridge c)) = b.
Proof.
  unfold new_bridge. intros Hb. destruct (has_flags u t s m).
  - injection Hb as <-. set (b0 := default bridge_default (bridge c)). destruct b0 as [hu tk sc mi].
    unfold override_bridge. cbn. destruct t, s, tk, sc; cbn; f_equal; by repeat case_bool_decide.
  - rewrite Hb. cbn. destruct b as [hu [tk|] [sc|] mi]; unfold override_bridge; cbn; f_equal; by case_bool_decide.
Qed.

Lemma child_start_config dflt loaded f path :
  let cfg := start_config dflt loaded f in
  let base := base_config dflt loaded in
  start_config dflt loaded (child_flags cfg path (st_debug f)) =
    match role cfg with
    | Client => cfg
    | Host => set_bridge (bridge base) (set_role (role base) cfg)
    end.
Proof.
  cbv zeta. rewrite (start_config_form dflt loaded f). cbv zeta.
  set (c := base_with f (base_config dflt loaded)).
  destruct (new_bridge _ _ _ _ c) as [b|] eqn:Hb; set (r := new_role _ _ _ _ _ c);
    pose proof (base_with_child f (base_config dflt loaded) r (new_bridge (st_bridge_url f) (st_bridge_token f)
      (st_bridge_secret f) (st_bridge_mirror f) c) path) as Hbw; cbv zeta in Hbw; fold c in Hbw; rewrite Hb in Hbw;
    rewrite start_config_form; cbv zeta; rewrite Hbw.
  - destruct r; cbn [child_flags role set_role set_bridge].
    + by destruct (base_config dflt loaded) eqn:E, (st_port f) eqn:Ep, (st_debug f) eqn:Ed; subst c; unfold base_with; rewrite ?Ep, ?Ed.
    + unfold child_flags. cbn -[override_bridge]. unfold new_bridge, new_role, has_flags. cbn -[override_bridge].
      by rewrite (new_bridge_again _ _ _ _ _ _ Hb).
  - destruct r; cbn [child_flags role set_role set_bridge].
    + by destruct (base_config dflt loaded) eqn:E, (st_port f) eqn:Ep, (st_debug f) eqn:Ed; subst c; unfold base_with; rewrite ?Ep, ?Ed.
    + unfold child_flags. cbn. unfold new_bridge, new_role, has_flags. cbn.
      unfold new_bridge in Hb. destruct (has_flags _ _ _ _); [done|]. by rewrite Hb.
Qed.

(** The background kernel runs on the configuration its launcher checked.
    The launcher's argument vector parses, in the child, to flags that give
    back the launcher's configuration when it is a client; when it is a host,
    they give it back except for the role and the bridge, which are those of
    the configuration file. *)
Theorem daemon_child_config `{ClapLaws} dflt loaded f :
  let cfg := start_config dflt loaded f in
  let base := base_config dflt loaded in
  plain_flags (child_flags cfg (st_config f) (st_debug f)) ->
  exists f', parse_start (child_argv cfg (st_config f) (st_debug f)) = Some f' /\
    st_foreground f' = true /\ st_config f' = st_config f /\
    start_config dflt loaded f' =
      match role cfg with
      | Client => cfg
      | Host => set_bridge (bridge base) (set_role (role base) cfg)
      end.
Proof.
  cbv zeta. intros Hplain. eexists. split; [rewrite child_argv_render; by apply parse_render|].
  split_and!; [done..|]. apply child_start_config.
Qed.

(** An explicit [--role host] does not reach the background kernel: on a
    configuration file that says [client] the launcher checks a host and the
    child it starts is a client. *)
Theorem explicit_host_lost `{ClapLaws} dflt loaded f :
  st_role f = Some "host" -> role (base_config dflt loaded) = Client ->
  plain_flags (child_flags (start_config dflt loaded f) (st_config f) (st_debug f)) ->
  role (start_config dflt loaded f) = Host /\
  exists f', parse_start (child_argv (start_config dflt loaded f) (st_config f) (st_debug f)) = Some f' /\
    role (start_config dflt loaded f') = Client.
Proof.
  intros Hr Hbase Hplain.
  assert (Hhost : role (start_config dflt loaded f) = Host).
  { rewrite start_config_form. cbv zeta. unfold new_role. rewrite Hr. cbn. by rewrite andb_false_r. }
  split; [done|]. eexists. split; [rewrite child_argv_render; by apply parse_render|].
  rewrite child_start_config, Hhost. exact Hbase.
Qed.

(** ** Properties: processes *)

Lemma parse_i32_show n : 0 <= n <= 2 ^ 31 - 1 -> parse_i32 (show n) = Some n.
Proof.
  intros Hn. destruct (show_head n) as (a & s & Hs & Ha); [lia|]. unfold parse_i32. rewrite Hs.
  assert (a <> "-"%char /\ a <> "+"%char) as [H1' H2'] 
    by (split; intros ->; [change (N_of_ascii "-") with 45%N in Ha|change (N_of_ascii "+") with 43%N in Ha]; lia).
  rewrite !bool_decide_eq_false_2 by done. rewrite <- Hs.
  unfold is_empty. rewrite bool_decide_eq_false_2 by (rewrite Hs; done).
  rewrite digits_value_show by (unfold u32_max; lia). by destruct (Z.leb_spec n (2 ^ 31 - 1)); [|lia].
Qed.

(** The PID file round trip: what the launcher or the kernel writes for a
    process id, [stop], [restart] and [status] read back. *)
Theorem pid_file_roundtrip pid o : 0 <= pid <= 2 ^ 31 - 1 -> read_pid (write_pid pid o) = Some pid.
Proof.
  intros Hp. unfold read_pid, write_pid. cbn. rewrite trim_plain by (apply show_plain; lia). by apply parse_i32_show.
Qed.

Lemma prefix_no_nl p q t :
  p +:+ q = t +:+ String NL EmptyString -> q <> EmptyString -> contains_char NL t = false ->
  contains_char NL p = false.
Proof.
  revert t. induction p as [|a p IH]; intros t Heq Hq Ht; [done|]. destruct t as [|b t].
  - exfalso. change (String a (p +:+ q) = String NL EmptyString) in Heq. injection Heq as _ Hnil.
    apply (f_equal String.length) in Hnil. rewrite string_length_app in Hnil. apply Hq. destruct q; [done|]. cbn in Hnil. lia.
  - change (String a (p +:+ q) = String b (t +:+ String NL EmptyString)) in Heq. injection Heq as -> Heq.
    cbn [contains_char] in *. apply orb_false_elim in Ht as [Hb Ht]. by rewrite Hb, (IH t).
Qed.

(** The readiness line arrives whole, however the pipe cuts it. *)
Lemma ready_line_chunks chunks rest line pid :
  Forall (fun s => s <> EmptyString) chunks -> chunks <> [] ->
  line +:+ foldr String.append EmptyString chunks = ready_text pid ->
  ready_line (map RChunk chunks ++ rest) line = Some (Ok (ready_text pid)).
Proof.
  intros Hne. revert line. induction Hne as [|s chunks Hs Hcs IH]; intros line Hn Htext; [done|].
  cbn [map app ready_line]. cbv zeta. destruct chunks as [|s' chunks].
  - cbn [foldr] in Htext. assert (Hl : line +:+ s = ready_text pid).
    { rewrite <- Htext. f_equal. clear. induction s as [|a s IHs]; [done|]. change (String a s = String a (s +:+ EmptyString)). by rewrite <- IHs. }
    rewrite Hl. unfold ready_text. by rewrite contains_char_app, orb_true_r.
  - cbn [foldr] in Htext. rewrite <- str_app_assoc in Htext. rewrite (prefix_no_nl _ _ _ Htext).
    + by apply IH.
    + apply Forall_cons in Hcs as [Hs' _]. by destruct s'.
    + by apply show_no_control.
Qed.

(** The readiness handshake.  When the child writes its line after taking
    the lock, the launcher, however the pipe delivers it, reports success and
    the PID file holds the child's id; when the child dies, stays silent or
    the pipe fails, the launcher kills the child, leaves no PID file and
    reports the failure. *)
Theorem ready_handshake deliver pid chunks rest o :
  0 <= pid <= 2 ^ 31 - 1 ->
  (Forall (fun s => s <> EmptyString) chunks -> foldr String.append EmptyString chunks = ready_text pid ->
   exists line, ready_line (map RChunk chunks ++ rest) EmptyString = Some (Ok line) /\
     publish_child deliver pid (Ok line) o = (Ok tt, write_pid pid o)) /\
  (forall e, pid_text (publish_child deliver pid (Err e) o).2 = None /\
     is_err (publish_child deliver pid (Err e) o).1 = true /\
     (kill_result pid o = KOk -> (forall q s x, sent (deliver q s x) = sent x) ->
      sent (publish_child deliver pid (Err e) o).2 = sent o ++ [(pid, SIGKILL)])).
Proof.
  intros Hp. split.
  - intros Hne Htext. exists (ready_text pid). split.
    + apply ready_line_chunks; [done| |done]. intros ->. cbn in Htext. unfold ready_text in Htext. by destruct (show pid).
    + unfold publish_child, ready_text. rewrite trim_newline_plain by (apply show_plain; lia).
      rewrite parse_i32_show by done. by rewrite Z.eqb_refl.
  - intros e. split_and!; [done..|]. intros Hk Hd. unfold publish_child, send. rewrite Hk. cbn. by rewrite Hd.
Qed.

Section StopFacts.
Context (deliver : Z -> Sig -> Os -> Os) (pause : nat -> Os -> Os).

(** The rest of the system sends no signal in the command's name. *)
Hypothesis deliver_sent : forall p s o, sent (deliver p s o) = sent o.
Hypothesis pause_sent : forall i o, sent (pause i o) = sent o.

(** The state after [j] pauses that follow the [i]-th. *)
Fixpoint paused (i j : nat) (o : Os) : Os :=
  match j with O => o | S j => paused (S i) j (pause i o) end.

Lemma is_running_true o : (is_running o).1 = true -> (is_running o).2 = o.
Proof. unfold is_running. repeat case_match; done. Qed.

Lemma is_running_sent o : sent (is_running o).2 = sent o.
Proof. unfold is_running. repeat case_match; done. Qed.

Lemma is_running_stopped o : (is_running o).1 = false -> (is_running (is_running o).2).1 = false.
Proof.
  unfold is_running at 2 3. destruct (read_pid o) as [pid|] eqn:Hp; [|intros _; cbn; unfold is_running; by rewrite Hp].
  destruct (kill_result pid o) eqn:Hk; [done|done|]. intros _. cbn. unfold is_running. by rewrite Hp, Hk.
Qed.

Lemma poll_sent n i o : sent (poll pause n i o) = sent o.
Proof using pause_sent.
  revert i o. induction n as [|n IH]; intros i o; [done|]. cbn.
  pose proof (is_running_sent o) as Hs. pose proof (is_running_true o) as Ht.
  destruct (is_running o) as [[] o1]; [|done]. cbn in Ht. by rewrite IH, pause_sent, (Ht eq_refl).
Qed.

(** A kernel that still runs after the loop ran at every look. *)
Lemma poll_running n i o :
  (is_running (poll pause n i o)).1 = true ->
  forall j, (j <= n)%nat -> (is_running (paused i j o)).1 = true.
Proof.
  revert i o. induction n as [|n IH]; intros i o Hr j Hj.
  { by assert (j = 0%nat) as -> by lia. }
  cbn [poll] in Hr. pose proof (is_running_true o) as Ht. pose proof (is_running_stopped o) as Hst.
  destruct (is_running o) as [b o1] eqn:E. destruct b.
  - cbn in Ht. rewrite (Ht eq_refl) in *. destruct j as [|j]; [change (paused i 0 o) with o; by rewrite E|]. apply (IH (S i)); [done|lia].
  - specialize (Hst eq_refl). cbn [snd] in Hst. congruence.
Qed.

Lemma wait_decides elapsed (Hclock : forall i, 50 * Z.of_nat i <= elapsed i) fuel pid i o :
  (i <= 100)%nat ->
  match wait_pid_gone pause fuel elapsed pid 5000 i o with
  | (Some true, o') => kill_result pid o' = KEsrch
  | (Some false, _) => True
  | (None, _) => (fuel + i <= 100)%nat
  end.
Proof.
  revert i o. induction fuel as [|fuel IH]; intros i o Hi; cbn -[Nat.add]; [lia|].
  destruct (kill_result pid o) eqn:Hk; [|done|]; destruct (Z.leb_spec 5000 (elapsed i)); try done.
  all: specialize (IH (S i) (pause (10 + i) o)); specialize (Hclock i);
    destruct (wait_pid_gone _ _ _ _ _ _ _) as [[[]|] o2]; [apply IH; lia|done|].
  all: assert (fuel + S i <= 100)%nat; [apply IH|]; lia.
Qed.

(** What [vyn stop] does.  Without a readable PID file, or with one whose
    process it may not signal, it does nothing; a stale file is removed; a
    running kernel gets exactly one SIGTERM, and one SIGKILL only if it was
    still running at each of the eleven looks over ten pauses; nothing but the
    process of the PID file is ever signalled, and success leaves no PID
    file. *)
Theorem stop_kernel_spec o r o' :
  stop_kernel deliver pause o = (r, o') ->
  match read_pid o with
  | None => r = Ok tt /\ o' = o
  | Some pid =>
      match kill_result pid o with
      | KOther _ => r = Ok tt /\ o' = o
      | KEsrch => r = Ok tt /\ o' = set_pid_text None o
      | KOk =>
          let o1 := deliver pid SIGTERM (mkOs (pid_text o) (procs o) (sent o ++ [(pid, SIGTERM)])) in
          (r = Ok tt -> pid_text o' = None) /\
          (sent o' = sent o ++ [(pid, SIGTERM)] \/
           (sent o' = sent o ++ [(pid, SIGTERM); (pid, SIGKILL)] /\
            forall j, (j <= 10)%nat -> (is_running (paused 0 j o1)).1 = true))
      end
  end.
Proof using deliver_sent pause_sent.
  unfold stop_kernel. unfold is_running at 1. destruct (read_pid o) as [pid|] eqn:Hp; [|by intros [= <- <-]].
  destruct (kill_result pid o) eqn:Hk; [|by intros [= <- <-]..]. cbn [negb]. rewrite Hp.
  unfold send at 1. rewrite Hk. set (o1 := deliver pid SIGTERM _). cbv zeta.
  assert (Hs1 : sent o1 = sent o ++ [(pid, SIGTERM)]) by apply deliver_sent.
  pose proof (poll_running 10 0 o1) as Hpr. pose proof (poll_sent 10 0 o1) as Hps.
  set (o2 := poll pause 10 0 o1) in *. clearbody o2. pose proof (is_running_sent o2) as Hs2. pose proof (is_running_true o2) as Ht2.
  destruct (is_running o2) as [[] o3]; cbn [fst snd] in *.
  - rewrite (Ht2 eq_refl). unfold send. destruct (kill_result pid o2); cbv beta iota zeta;
      intros Hx; injection Hx as <- <-; (split; [done|]).
    + right. split; [|by apply Hpr]. cbn. rewrite deliver_sent. cbn. by rewrite Hps, Hs1, <- app_assoc.
    + left. by rewrite Hps.
    + left. by rewrite Hps.
  - intros [= <- <-]. split; [done|]. left. cbn. by rewrite Hs2, Hps.
Qed.

(** [vyn restart] never launches a second kernel next to a living one: it
    goes on to the launch only when the process of the PID file is gone, and
    with a clock that advances 50 ms per pause it decides within 101 looks. *)
Theorem restart_exclusive elapsed fuel o :
  (forall i, 50 * Z.of_nat i <= elapsed i) -> (101 <= fuel)%nat ->
  match restart_kernel deliver pause fuel elapsed o with
  | (None, _) => False
  | (Some (Ok _), o') => forall pid, read_pid o = Some pid -> kill_result pid o' = KEsrch
  | (Some (Err _), _) => True
  end.
Proof.
  intros Hclock Hfuel. unfold restart_kernel.
  destruct (stop_kernel deliver pause o) as [[[]|] o1]; [|done].
  destruct (read_pid o) as [pid|]; [|done].
  pose proof (wait_decides elapsed Hclock fuel pid 0 o1 ltac:(lia)) as Hw.
  destruct (wait_pid_gone pause fuel elapsed pid 5000 0 o1) as [[[]|] o2]; [|done|lia].
  intros pid' [= <-]. exact Hw.
Qed.

End StopFacts.

(** [vyn logs] prints the last lines of the file, in order. *)
Lemma show_logs_suffix c n :
  exists before, str_lines c = before ++ show_logs (Some c) n /\
    length (show_logs (Some c) n) = Nat.min n (length (str_lines c)).
Proof.
  unfold show_logs. cbv zeta. set (l := str_lines c). set (k := if (n <? length l)%nat then _ else _).
  exists (take k l). rewrite take_drop, length_drop. split; [done|]. unfold k.
  destruct (Nat.ltb_spec n (length l)); lia.
Qed.

(** The level that reaches the filter names levels or explicit directives
    only. *)
Lemma sanitize_log_level_valid level :
  forallb is_log_level_token (split_char ","%char (sanitize_log_level level)) = true.
Proof.
  unfold sanitize_log_level. cbv zeta. destruct (negb _ && _) eqn:Hc; [by apply andb_prop in Hc as [_ Hc]|done].
Qed.

(** ** Runs *)
Module DaemonRuns.

(** A parser of the options of [vyn start]. *)
Fixpoint go (l : list string) (f : StartFlags) : option StartFlags :=
  let '(mkStart fg p c d r u t s m) := f in
  match l with
  | [] => Some f
  | n :: l1 =>
      if n ==? "--foreground" then go l1 (mkStart true p c d r u t s m)
      else if n ==? "--debug" then go l1 (mkStart fg p c true r u t s m)
      else match l1 with
           | [] => None
           | v :: l2 =>
               if starts_with "-" v then None
               else if n ==? "--config" then go l2 (mkStart fg p v d r u t s m)
               else if n ==? "--port" then
                 match digits_value u32_max 0 v with
                 | Some q => if q <=? u16_max then go l2 (mkStart fg (Some q) c d r u t s m) else None
                 | None => None
                 end
               else if n ==? "--role" then
                 if (v ==? "client") || (v ==? "host") then go l2 (mkStart fg p c d (Some v) u t s m) else None
               else if n ==? "--bridge-url" then go l2 (mkStart fg p c d r (Some v) t s m)
               else if n ==? "--bridge-token" then go l2 (mkStart fg p c d r u (Some v) s m)
               else if n ==? "--bridge-secret" then go l2 (mkStart fg p c d r u t (Some v) m)
               else if n ==? "--bridge-mirror" then go l2 (mkStart fg p c d r u t s (m ++ [v]))
               else None
           end
  end.

Definition no_flags : StartFlags := mkStart false None "config.yaml" false None None None None [].

#[local] Instance clap : Clap := {|
  parse_start l := match l with n :: l => if n ==? "start" then go l no_flags else None | [] => None end |}.

Lemma go_hyphen name v post pre f :
  name ∈ ["--bridge-url"; "--bridge-token"; "--bridge-secret"; "--bridge-mirror"] ->
  starts_with "-" v = true -> go (pre ++ [name; v] ++ post) f = None.
Proof.
  intros Hname Hv. remember (length pre) as k eqn:Hk. revert pre f Hk.
  induction k as [k IH] using lt_wf_ind. intros pre [fg p c d r u t s m] Hk.
  destruct pre as [|n pre]; cbn [app go].
  { set_unfold in Hname. rewrite Hv. by destruct_or! Hname; subst. }
  assert (Hrec : forall pre' f', (length pre' < k)%nat -> go (pre' ++ [name; v] ++ post) f' = None)
    by (intros pre' f' Hlt; by eapply IH).
  cbn in Hk. destruct (n ==? "--foreground"); [apply Hrec; lia|].
  destruct (n ==? "--debug"); [apply Hrec; lia|].
  destruct pre as [|v' pre]; cbn [app].
  { set_unfold in Hname. by destruct_or! Hname; subst. }
  cbn in Hk. assert (Hr : forall f', go (pre ++ [name; v] ++ post) f' = None) by (intros f'; apply Hrec; lia).
  cbn [app] in Hr. rewrite !Hr. by repeat case_match.
Qed.

Lemma go_mirrors l rest fg p c d r u t s m :
  Forall plain_value l ->
  go (concat (map (fun x => ["--bridge-mirror"; x]) l) ++ rest) (mkStart fg p c d r u t s m) =
  go rest (mkStart fg p c d r u t s (m ++ l)).
Proof.
  intros Hl. revert m. induction Hl as [|x l Hx Hl IH]; intros m; [by rewrite app_nil_r|].
  transitivity (go (concat (map (fun x => ["--bridge-mirror"; x]) l) ++ rest) (mkStart fg p c d r u t s (m ++ [x]))).
  - cbn [map concat app go]. by rewrite Hx.
  - by rewrite IH, <- app_assoc.
Qed.

Lemma show_port_plain p : 0 <= p -> starts_with "-" (show p) = false.
Proof.
  intros Hp. destruct (show_head p Hp) as (a & s & -> & Ha). unfold starts_with. cbn.
  rewrite decide_False; [done|]. intros E. assert (a = "-"%char) as -> by congruence.
  change (N_of_ascii "-") with 45%N in Ha. lia.
Qed.

(** Each optional argument sets its field. *)
Lemma go_port o rest fg p c d r u t s m :
  (forall v, o = Some v -> 0 <= v <= u16_max) -> p = None ->
  go (opt_arg "--port" (show <$> o) ++ rest) (mkStart fg p c d r u t s m) = go rest (mkStart fg o c d r u t s m).
Proof.
  intros Ho ->. destruct o as [v|]; [|done]. specialize (Ho v eq_refl). unfold u16_max in Ho.
  cbn [fmap option_fmap option_map opt_arg app go].
  rewrite show_port_plain, digits_value_show by (unfold u32_max; lia).
  unfold u16_max. by destruct (Z.leb_spec v (2 ^ 16 - 1)); [|lia].
Qed.

Lemma go_role o rest fg p c d u t s m :
  (forall v, o = Some v -> v = "client" \/ v = "host") ->
  go (opt_arg "--role" o ++ rest) (mkStart fg p c d None u t s m) = go rest (mkStart fg p c d o u t s m).
Proof. intros Ho. destruct o as [v|]; [|done]. by destruct (Ho v eq_refl) as [-> | ->]. Qed.

Lemma go_url o rest fg p c d r t s m :
  (forall v, o = Some v -> plain_value v) ->
  go (opt_arg "--bridge-url" o ++ rest) (mkStart fg p c d r None t s m) = go rest (mkStart fg p c d r o t s m).
Proof. intros Ho. destruct o as [v|]; [|done]. cbn [opt_arg app go]. by rewrite (Ho v eq_refl). Qed.

Lemma go_token o rest fg p c d r u s m :
  (forall v, o = Some v -> plain_value v) ->
  go (opt_arg "--bridge-token" o ++ rest) (mkStart fg p c d r u None s m) = go rest (mkStart fg p c d r u o s m).
Proof. intros Ho. destruct o as [v|]; [|done]. cbn [opt_arg app go]. by rewrite (Ho v eq_refl). Qed.

Lemma go_secret o rest fg p c d r u t m :
  (forall v, o = Some v -> plain_value v) ->
  go (opt_arg "--bridge-secret" o ++ rest) (mkStart fg p c d r u t None m) = go rest (mkStart fg p c d r u t o m).
Proof. intros Ho. destruct o as [v|]; [|done]. cbn [opt_arg app go]. by rewrite (Ho v eq_refl). Qed.

Lemma go_render f :
  plain_flags f -> go (drop 1 (render_start f)) no_flags = Some f.
Proof.
  destruct f as [fg p c d r u t s m]. intros (Hc & Hp & Hr & Hv). cbn in Hc, Hp, Hr, Hv.
  unfold render_start. cbn [st_foreground st_port st_config st_debug st_role st_bridge_url st_bridge_token
    st_bridge_secret st_bridge_mirror app drop].
  transitivity (go (opt_arg "--port" (show <$> p) ++ opt_arg "--role" r ++ opt_arg "--bridge-url" u ++
    opt_arg "--bridge-token" t ++ opt_arg "--bridge-secret" s ++
    concat (map (fun m => ["--bridge-mirror"; m]) m) ++ (if d then ["--debug"] else []))
    (mkStart fg None c false None None None None [])).
  { set (rest := opt_arg "--port" _ ++ _).
    transitivity (go ("--config" :: c :: rest) (mkStart fg None "config.yaml" false None None None None []));
      [by destruct fg|]. cbn [go]. by rewrite Hc. }
  assert (Hu : forall v, u = Some v -> plain_value v) by (intros v ->; apply Hv; set_solver).
  assert (Ht : forall v, t = Some v -> plain_value v) by (intros v ->; apply Hv; set_solver).
  assert (Hs : forall v, s = Some v -> plain_value v) by (intros v ->; apply Hv; set_solver).
  assert (Hm : Forall plain_value m) by (apply Forall_forall; intros; apply Hv; set_solver).
  rewrite go_port, go_role, go_url, go_token, go_secret, go_mirrors by done. by destruct d.
Qed.

#[local] Instance clap_laws : ClapLaws.
Proof.
  split.
  - intros f Hf. by apply go_render in Hf.
  - intros pre name v post Hn Hv. cbn [parse_start clap]. destruct pre as [|n pre].
    + cbn [app]. set_unfold in Hn. by destruct_or! Hn; subst.
    + cbn [app]. case_bool_decide; [|done]. by apply go_hyphen.
Qed.

(** A file that says [client], its bridge and two mirrored plugins. *)
Definition file_bridge : BridgeConfig := mkBridgeConfig "https://host" (Some "tok") (Some "secret") ["a"; "b"].
Definition file : Config := set_role Client (set_bridge (Some file_bridge) (set_auth (Some "s") true ConfigRuns.loaded)).

Definition start_flags (r : option string) : StartFlags :=
  mkStart false (Some 9000) "config.yaml" true r None (Some "tok2") None [].

Lemma flags_plain r :
  r = Some "host" \/ r = Some "client" ->
  plain_flags (child_flags (start_config ConfigRuns.base (Ok file) (start_flags r)) "config.yaml" true).
Proof.
  intros [-> | ->]; (split_and!; [done|cbn; intros p [= <-]; unfold u16_max; lia|cbn; naive_solver|]);
    intros v Hv; cbn in Hv; set_unfold in Hv; by destruct_or? Hv; subst.
Qed.

#[local] Instance iter : HashIter := canonical_iter.

Lemma start_gate_witness :
  start_checked ConfigRuns.base (Ok file) (start_flags (Some "client")) =
    Ok (start_config ConfigRuns.base (Ok file) (start_flags (Some "client"))).
Proof. apply start_gate_exact. split; [done|]. split; [left; by eexists|]. intros _.
  eexists. split; [reflexivity|]. split; [done|]. split; [exists "https://"; by split; [set_solver|]|].
  repeat constructor; set_solver. Defined.

Lemma daemon_child_witness :
  exists f', parse_start (child_argv (start_config ConfigRuns.base (Ok file) (start_flags (Some "client"))) "config.yaml" true) = Some f' /\
    start_config ConfigRuns.base (Ok file) f' = start_config ConfigRuns.base (Ok file) (start_flags (Some "client")).
Proof.
  destruct (daemon_child_config ConfigRuns.base (Ok file) (start_flags (Some "client"))) as (f' & Hp & _ & _ & Hc).
  - apply flags_plain. by right.
  - exists f'. split; [exact Hp|exact Hc].
Defined.

Lemma explicit_host_witness :
  role (start_config ConfigRuns.base (Ok file) (start_flags (Some "host"))) = Host /\
  exists f', parse_start (child_argv (start_config ConfigRuns.base (Ok file) (start_flags (Some "host"))) "config.yaml" true) = Some f' /\
    role (start_config ConfigRuns.base (Ok file) f') = Client.
Proof.
  apply (explicit_host_lost ConfigRuns.base (Ok file) (start_flags (Some "host"))); [done|done|].
  apply flags_plain. by left.
Defined.

(** A kernel that ignores the first signal and leaves at the second. *)
Definition os0 : Os := mkOs (Some "4711") {[4711 := KOk]} [].
Definition deliver (p : Z) (s : Sig) (o : Os) : Os :=
  match s with SIGTERM => o | SIGKILL => mkOs (pid_text o) (delete p (procs o)) (sent o) end.
Definition pause (i : nat) (o : Os) : Os := o.

Lemma pid_file_witness : read_pid (write_pid 4711 os0) = Some 4711.
Proof. apply pid_file_roundtrip. lia. Defined.

Lemma ready_handshake_witness :
  exists line, ready_line [RChunk "47"; RChunk ("11" +:+ String NL EmptyString); REof] EmptyString = Some (Ok line) /\
    publish_child deliver 4711 (Ok line) os0 = (Ok tt, write_pid 4711 os0).
Proof.
  apply (ready_handshake deliver 4711 ["47"; "11" +:+ String NL EmptyString] [REof] os0); [lia|by repeat constructor|].
  vm_compute; reflexivity.
Defined.

Lemma stop_kernel_witness :
  (stop_kernel deliver pause os0).1 = Ok tt /\ sent (stop_kernel deliver pause os0).2 = [(4711, SIGTERM); (4711, SIGKILL)] /\
  pid_text (stop_kernel deliver pause os0).2 = None.
Proof.
  split; [vm_compute; reflexivity|]. split; [vm_compute; reflexivity|].
  destruct (stop_kernel deliver pause os0) as [r o'] eqn:E.
  pose proof (stop_kernel_spec deliver pause ltac:(by intros ? [] ?) ltac:(done) os0 r o' E) as Hs.
  assert (r = Ok tt) as -> by (vm_compute in E; by injection E). by apply Hs.
Defined.

Lemma restart_exclusive_witness :
  match restart_kernel deliver pause 101 (fun i => 50 * Z.of_nat i) os0 with
  | (Some (Ok _), o') => kill_result 4711 o' = KEsrch
  | _ => False
  end.
Proof.
  pose proof (restart_exclusive deliver pause (fun i => 50 * Z.of_nat i) 101 os0 ltac:(lia) ltac:(lia)) as Hr.
  destruct (restart_kernel deliver pause 101 (fun i => 50 * Z.of_nat i) os0) as [[[[]|]|] o'] eqn:E;
    [by apply Hr|vm_compute in E; done|done].
Defined.

End DaemonRuns.
