(* ===== verification/PidLock.v ===== *)
(** * The PID file as a lock ([run_foreground] and [is_running] of [src/main.rs])

    A starting kernel opens the PID file, takes an exclusive [flock] on the
    open file, writes its process id to the path, and removes the path when
    it stops; other commands remove a path whose process is gone.  A lock
    belongs to the opened file (the inode), the commands work on the path:
    the model keeps the two apart and interleaves the steps of any number of
    processes. *)

From S2P Require Import Prelude Wire.

Open Scope Z_scope.

Abbreviation Inode := Z.
Abbreviation Pid := Z.

(** Where a [vyn start --foreground] stands. *)
Inductive Phase :=
| Opened (i : Inode)
| Locked (i : Inode)
| Running (i : Inode)
| Stopping (i : Inode).              (** the kernel has stopped, the file is removed *)

#[export] Instance Phase_eq_dec : EqDecision Phase.
Proof. solve_decision. Defined.

Definition phase_inode (ph : Phase) : Inode := match ph with Opened i | Locked i | Running i | Stopping i => i end.
(** Starting or serving. *)
Definition active (ph : Phase) : bool := match ph with Stopping _ => false | _ => true end.
Definition serving (ph : Phase) : bool := match ph with Locked _ | Running _ => true | _ => false end.
Definition holds_lock (ph : Phase) : bool := match ph with Opened _ => false | _ => true end.

(** What other commands still have to do to the PID path. *)
Record Cmds := mkCmds {
  launch_failed : gset Pid;          (** background children whose launcher is about to clean up *)
  launch_ready : gset Pid;           (** background children whose launcher is about to write their id *)
  stop_cmds : gset Pid;              (** kernels a [vyn stop] has signalled and waits for *)
}.

Record Sys := mkSys {
  path : option Inode;               (** what the PID path names *)
  content : gmap Inode Pid;          (** the process id written in a file *)
  kernels : gmap Pid Phase;          (** the living kernel processes *)
  next_inode : Inode;
  cmds : Cmds;
}.

(** Some process holds the lock of the file. *)
Definition locked (s : Sys) (i : Inode) : Prop := exists p ph, kernels s !! p = Some ph /\ holds_lock ph = true /\ phase_inode ph = i.

Definition with_kernel (p : Pid) (ph : option Phase) (s : Sys) : Sys :=
  mkSys (path s) (content s) (match ph with Some ph => <[p := ph]> (kernels s) | None => delete p (kernels s) end) (next_inode s)
    (cmds s).

(** [OpenOptions::new().write(true).create(true).truncate(false).open(..)] *)
Definition open_pid_file (p : Pid) (s : Sys) : Sys :=
  match path s with
  | Some i => with_kernel p (Some (Opened i)) s
  | None =>
      with_kernel p (Some (Opened (next_inode s)))
        (mkSys (Some (next_inode s)) (content s) (kernels s) (next_inode s + 1) (cmds s))
  end.

(** [fs::write(&cfg.pid_file, pid)]: to the path, creating it if need be. *)
Definition write_pid_file (p : Pid) (s : Sys) : Sys :=
  match path s with
  | Some i => mkSys (Some i) (<[i := p]> (content s)) (kernels s) (next_inode s) (cmds s)
  | None => mkSys (Some (next_inode s)) (<[next_inode s := p]> (content s)) (kernels s) (next_inode s + 1) (cmds s)
  end.

(** [fs::remove_file(pid_file)] *)
Definition unlink (s : Sys) : Sys := mkSys None (content s) (kernels s) (next_inode s) (cmds s).

Definition on_cmds (f : Cmds -> Cmds) (s : Sys) : Sys :=
  mkSys (path s) (content s) (kernels s) (next_inode s) (f (cmds s)).

(** The launcher of a background child learns that it ended without its
    readiness line, and goes on to remove the file. *)
Definition note_failed (background : bool) (p : Pid) : Sys -> Sys :=
  on_cmds (fun c => mkCmds (if background then {[p]} ∪ launch_failed c else launch_failed c) (launch_ready c) (stop_cmds c)).
Definition failed_done (p : Pid) : Sys -> Sys :=
  on_cmds (fun c => mkCmds (launch_failed c ∖ {[p]}) (launch_ready c) (stop_cmds c)).

(** It gets the readiness line, and goes on to write the id. *)
Definition note_ready (background : bool) (p : Pid) : Sys -> Sys :=
  on_cmds (fun c => mkCmds (launch_failed c) (if background then {[p]} ∪ launch_ready c else launch_ready c) (stop_cmds c)).
Definition ready_done (p : Pid) : Sys -> Sys :=
  on_cmds (fun c => mkCmds (launch_failed c) (launch_ready c ∖ {[p]}) (stop_cmds c)).

(** [stop_kernel] has signalled the process, and ends by removing the file. *)
Definition note_stop (p : Pid) : Sys -> Sys :=
  on_cmds (fun c => mkCmds (launch_failed c) (launch_ready c) ({[p]} ∪ stop_cmds c)).
Definition stop_done (p : Pid) : Sys -> Sys :=
  on_cmds (fun c => mkCmds (launch_failed c) (launch_ready c) (stop_cmds c ∖ {[p]})).

Inductive step : Sys -> Sys -> Prop :=
| step_open p s :
    kernels s !! p = None -> step s (open_pid_file p s)
| step_lock p i s :
    kernels s !! p = Some (Opened i) -> ~ locked s i -> step s (with_kernel p (Some (Locked i)) s)
| step_lock_refused p i background s :
    kernels s !! p = Some (Opened i) -> locked s i -> step s (note_failed background p (with_kernel p None s))
| step_launch_cleanup p s :
    (** the error branch of [daemonize_and_run] *)
    p ∈ launch_failed (cmds s) -> step s (unlink (failed_done p s))
| step_write p i background s :
    kernels s !! p = Some (Locked i) -> step s (note_ready background p (with_kernel p (Some (Running i)) (write_pid_file p s)))
| step_launch_write p s :
    (** the success branch of [daemonize_and_run]: [write_pid], at any later time *)
    p ∈ launch_ready (cmds s) -> step s (write_pid_file p (ready_done p s))
| step_stop i p s :
    (** [stop_kernel] reads the file and signals the process *)
    path s = Some i -> content s !! i = Some p -> is_Some (kernels s !! p) -> step s (note_stop p s)
| step_stop_remove p s :
    (** and removes the path in the end, whatever it names by then *)
    p ∈ stop_cmds (cmds s) -> step s (unlink (stop_done p s))
| step_remove p i s :
    (** [kernel::Kernel::run] returned: the path goes while the lock is held *)
    kernels s !! p = Some (Running i) -> step s (with_kernel p (Some (Stopping i)) (unlink s))
| step_exit p ph s :
    (** the process is gone, its lock with it *)
    kernels s !! p = Some ph -> step s (with_kernel p None s)
| step_stale i q s :
    (** [is_running] of another command: the process of the file is gone *)
    path s = Some i -> content s !! i = Some q -> kernels s !! q = None -> step s (unlink s).

(** A step that does not remove the PID file from under a kernel that is
    starting or serving. *)
Definition careful (s s' : Sys) : Prop :=
  step s s' /\
  (path s' = None -> path s = None \/ forall q ph, kernels s' !! q = Some ph -> active ph = false).

Definition sys_new : Sys := mkSys None ∅ ∅ 0 (mkCmds ∅ ∅ ∅).

(** ** Exclusion *)

(** Every starting or serving kernel has the file open that the path names,
    and one at most serves. *)
Definition lock_inv (s : Sys) : Prop :=
  (forall p ph, kernels s !! p = Some ph -> active ph = true -> path s = Some (phase_inode ph)) /\
  (forall p q ph ph', kernels s !! p = Some ph -> kernels s !! q = Some ph' ->
     serving ph = true -> serving ph' = true -> p = q).

Lemma serving_active ph : serving ph = true -> active ph = true.
Proof. by destruct ph. Qed.

Lemma lock_inv_delete s p : lock_inv s -> lock_inv (with_kernel p None s).
Proof.
  intros [Hi Hl]. split; cbn.
  - intros q ph [_ Hq]%lookup_delete_Some. by eapply Hi.
  - intros q r ph ph' [_ Hq]%lookup_delete_Some [_ Hr]%lookup_delete_Some. by eapply Hl.
Qed.

(** Updating one process: an active one points at the path, and it serves only
    when no other does. *)
Lemma lock_inv_insert s p ph :
  lock_inv s -> (active ph = true -> path s = Some (phase_inode ph)) ->
  (serving ph = true -> forall q ph', kernels s !! q = Some ph' -> q <> p -> serving ph' = false) ->
  lock_inv (with_kernel p (Some ph) s).
Proof.
  intros [Hi Hl] Hp Hlock. split; cbn.
  - intros q ph' [[<- <-]|[_ Hq]]%lookup_insert_Some; [done|by eapply Hi].
  - intros q r ph1 ph2 [[<- <-]|[Hn1 Hq]]%lookup_insert_Some [[<- <-]|[Hn2 Hr]]%lookup_insert_Some Hs1 Hs2.
    + done.
    + by rewrite (Hlock Hs1 r ph2) in Hs2.
    + by rewrite (Hlock Hs2 q ph1) in Hs1.
    + by eapply Hl.
Qed.

Lemma lock_inv_path s path' content' n cmds' :
  lock_inv s ->
  (path' = path s \/ forall q ph, kernels s !! q = Some ph -> active ph = false) ->
  lock_inv (mkSys path' content' (kernels s) n cmds').
Proof.
  intros [Hi Hl] [->|Hno]; split; try exact Hl; [exact Hi|].
  cbn. intros p ph Hp Ha. by rewrite (Hno p ph Hp) in Ha.
Qed.

(** What the commands still have to do is no part of it. *)
Lemma lock_inv_cmds f s : lock_inv s -> lock_inv (on_cmds f s).
Proof. done. Qed.

(** No active kernel when the path is free. *)
Lemma lock_inv_free s : lock_inv s -> path s = None -> forall q ph, kernels s !! q = Some ph -> active ph = false.
Proof.
  intros [Hi _] Hp q ph Hq. destruct (active ph) eqn:Ha; [|done]. by rewrite (Hi q ph Hq Ha) in Hp.
Qed.

(** The process that takes the lock is the only one to serve. *)
Lemma lock_alone s p i q ph :
  lock_inv s -> kernels s !! p = Some (Opened i) -> ~ locked s i -> kernels s !! q = Some ph -> serving ph = false.
Proof.
  intros [Hi _] Hp Hn Hq. destruct (serving ph) eqn:Hs; [|done]. exfalso. apply Hn.
  exists q, ph. split_and!; [done|by destruct ph|].
  pose proof (Hi p _ Hp eq_refl) as Hpath. pose proof (Hi q _ Hq (serving_active _ Hs)) as Hpath'. cbn in Hpath. congruence.
Qed.

Lemma lock_inv_write p s : lock_inv s -> lock_inv (write_pid_file p s).
Proof.
  intros Hinv. unfold write_pid_file. destruct (path s) as [i|] eqn:Hp; (apply lock_inv_path; [done|]); [by left|].
  right. by apply lock_inv_free.
Qed.

(** A file removed with care. *)
Lemma lock_inv_unlink s :
  lock_inv s -> (path s = None \/ forall q ph, kernels s !! q = Some ph -> active ph = false) -> lock_inv (unlink s).
Proof. intros Hinv [Hn|Hno]; apply lock_inv_path; auto. Qed.

Lemma careful_preserves s s' : careful s s' -> lock_inv s -> lock_inv s'.
Proof.
  intros [Hstep Hcare] Hinv.
  destruct Hstep as [p s Hn|p i s Hp Hfree|p i bg s Hp Hlk|p s Hf|p i bg s Hp|p s Hr|i p s Hpath Hc Hk|p s Hst|p i s Hp|p ph s Hp|i q s Hpath Hc Hq].
  - unfold open_pid_file. destruct (path s) as [i|] eqn:Hpath.
    + apply lock_inv_insert; [done..|]. by cbn.
    + apply lock_inv_insert; [|by cbn..]. apply lock_inv_path; [done|]. right. by apply lock_inv_free.
  - apply lock_inv_insert; [done| |].
    + intros _. by apply (proj1 Hinv p (Opened i)).
    + intros _ q ph Hq _. by eapply lock_alone.
  - by apply lock_inv_cmds, lock_inv_delete.
  - by apply lock_inv_unlink; [apply lock_inv_cmds|apply Hcare].
  - pose proof (proj1 Hinv p _ Hp eq_refl) as Hpath. cbn in Hpath. apply lock_inv_cmds, lock_inv_insert.
    + by apply lock_inv_write.
    + intros _. unfold write_pid_file. by rewrite Hpath.
    + intros _ q ph Hq Hne. destruct (serving ph) eqn:Hs; [|done]. exfalso. apply Hne.
      apply (proj2 Hinv q p ph (Locked i)); [|done..]. revert Hq. unfold write_pid_file. by rewrite Hpath.
  - by apply lock_inv_write, lock_inv_cmds.
  - by apply lock_inv_cmds.
  - by apply lock_inv_unlink; [apply lock_inv_cmds|apply Hcare].
  - pose proof (proj1 Hinv p _ Hp eq_refl) as Hpath. cbn in Hpath, Hcare.
    destruct (Hcare eq_refl) as [Hnone|Hno]; [congruence|]. split; cbn.
    + intros q ph Hq Ha. by rewrite (Hno q ph Hq) in Ha.
    + intros q r ph ph' Hq Hr Hs1%serving_active. by rewrite (Hno q ph Hq) in Hs1.
  - by apply lock_inv_delete.
  - by apply lock_inv_unlink; [|apply Hcare].
Qed.

(** C37: the PID file admits one kernel.  In every interleaving of starting,
    stopping and crashing kernels and of the commands that clean up behind
    them, as long as the file is not removed from under a kernel that is
    starting or serving, at most one kernel is past the lock. *)
Theorem pid_lock_exclusive s p q ph ph' :
  rtc careful sys_new s -> kernels s !! p = Some ph -> kernels s !! q = Some ph' ->
  serving ph = true -> serving ph' = true -> p = q.
Proof.
  intros Hr. assert (Hinv : lock_inv s).
  { assert (H0' : lock_inv sys_new) by (split; cbn; intros *; by rewrite lookup_empty).
    revert H0'. induction Hr as [s|s s1 s2 Hstep _ IH]; [done|]. intros Hs. by eapply IH, careful_preserves. }
  apply (proj2 Hinv p q ph ph').
Qed.

(** ** A run that is not careful *)
Module PidLockRuns.

Lemma not_locked s i :
  forallb (fun x => negb (holds_lock x.2) || negb (phase_inode x.2 =? i)) (map_to_list (kernels s)) = true -> ~ locked s i.
Proof.
  rewrite forallb_forall. intros Hall (p & ph & Hp & Hh & Hi).
  specialize (Hall (p, ph)). rewrite <- list_elem_of_In, elem_of_map_to_list in Hall.
  specialize (Hall Hp). cbn in Hall. rewrite Hh, Hi, Z.eqb_refl in Hall. done.
Qed.

(** The first kernel dies and leaves its file. *)
Definition s1 : Sys := open_pid_file 1 sys_new.
Definition s2 : Sys := with_kernel 1 (Some (Locked 0)) s1.
Definition s3 : Sys := note_ready false 1 (with_kernel 1 (Some (Running 0)) (write_pid_file 1 s2)).
Definition s4 : Sys := with_kernel 1 None s3.
(** The second opens it and takes the lock; before it writes its id, a
    [vyn status] finds the id of the first and removes the file. *)
Definition s5 : Sys := open_pid_file 2 s4.
Definition s6 : Sys := with_kernel 2 (Some (Locked 0)) s5.
Definition s7 : Sys := unlink s6.
Definition s8 : Sys := note_ready false 2 (with_kernel 2 (Some (Running 0)) (write_pid_file 2 s7)).
(** The third opens the new file. *)
Definition s9 : Sys := open_pid_file 3 s8.
Definition s10 : Sys := with_kernel 3 (Some (Locked 1)) s9.
Definition s11 : Sys := note_ready false 3 (with_kernel 3 (Some (Running 1)) (write_pid_file 3 s10)).

Lemma to_s6 : rtc careful sys_new s6.
Proof.
  apply (rtc_l _ _ s1); [split; [by apply step_open|done]|].
  apply (rtc_l _ _ s2); [split; [by apply step_lock; [|apply not_locked; vm_compute]|done]|].
  apply (rtc_l _ _ s3); [split; [by apply (step_write 1 0 false s2)|done]|].
  apply (rtc_l _ _ s4); [split; [by apply (step_exit 1 (Running 0) s3)|done]|].
  apply (rtc_l _ _ s5); [split; [by apply step_open|done]|].
  apply rtc_once. split; [by apply step_lock; [|apply not_locked; vm_compute]|done].
Defined.

Lemma pid_lock_witness :
  kernels s6 !! 2 = Some (Locked 0) /\ (forall q ph, kernels s6 !! q = Some ph -> serving ph = true -> q = 2).
Proof. split; [reflexivity|]. intros q ph Hq Hs. by apply (pid_lock_exclusive s6 q 2 ph (Locked 0) to_s6). Defined.

End PidLockRuns.

(** The clean-up of a stale PID file defeats the lock: there is a run of
    the program, with one dead kernel, one [vyn status] and two starts, that
    ends with two kernels serving. *)
Theorem stale_cleanup_defeats_lock :
  exists s i j, rtc step sys_new s /\ kernels s !! 2 = Some (Running i) /\ kernels s !! 3 = Some (Running j).
Proof.
  exists PidLockRuns.s11, 0, 1. split; [|by vm_compute].
  transitivity PidLockRuns.s6.
  { eapply rtc_subrel; [|exact PidLockRuns.to_s6]. by intros ? ? []. }
  apply (rtc_l _ _ PidLockRuns.s7); [by apply (step_stale 0 1)|].
  apply (rtc_l _ _ PidLockRuns.s8); [by apply (step_write 2 0 false)|].
  apply (rtc_l _ _ PidLockRuns.s9); [by apply step_open|].
  apply (rtc_l _ _ PidLockRuns.s10); [by apply step_lock; [|apply PidLockRuns.not_locked; vm_compute]|].
  apply rtc_once. by apply (step_write 3 1 false).
Qed.

(** ** A second start *)
Module LaunchRuns.

(** The first kernel serves; a second background start is refused the lock. *)
Definition s3 : Sys := PidLockRuns.s3.
Definition t4 : Sys := open_pid_file 2 s3.
Definition t5 : Sys := note_failed true 2 (with_kernel 2 None t4).
(** Its launcher removes the file of the first; a third start finds none. *)
Definition t6 : Sys := unlink (failed_done 2 t5).
Definition t7 : Sys := open_pid_file 3 t6.
Definition t8 : Sys := with_kernel 3 (Some (Locked 1)) t7.
Definition t9 : Sys := note_ready false 3 (with_kernel 3 (Some (Running 1)) (write_pid_file 3 t8)).

End LaunchRuns.

(** The clean-up of a failed start defeats the lock: a background start
    that is refused because a kernel is running makes its launcher remove that
    kernel's PID file, and the next start runs a second kernel beside it. *)
Theorem failed_launch_defeats_lock :
  exists s i j, rtc step sys_new s /\ kernels s !! 1 = Some (Running i) /\ kernels s !! 3 = Some (Running j).
Proof.
  exists LaunchRuns.t9, 0, 1. split; [|by vm_compute].
  apply (rtc_l _ _ PidLockRuns.s1); [by apply step_open|].
  apply (rtc_l _ _ PidLockRuns.s2); [by apply step_lock; [|apply PidLockRuns.not_locked; vm_compute]|].
  apply (rtc_l _ _ PidLockRuns.s3); [by apply (step_write 1 0 false)|].
  apply (rtc_l _ _ LaunchRuns.t4); [by apply step_open|].
  apply (rtc_l _ _ LaunchRuns.t5); [apply (step_lock_refused 2 0 true); [done|by exists 1, (Running 0)]|].
  apply (rtc_l _ _ LaunchRuns.t6); [apply step_launch_cleanup; by vm_compute|].
  apply (rtc_l _ _ LaunchRuns.t7); [by apply step_open|].
  apply (rtc_l _ _ LaunchRuns.t8); [by apply step_lock; [|apply PidLockRuns.not_locked; vm_compute]|].
  apply rtc_once. by apply (step_write 3 1 false).
Qed.

(** ** A stop that ends late *)
Module StopRuns.

(** A [vyn stop] signals the first kernel, which removes its file and exits;
    a second one starts. *)
Definition u4 : Sys := note_stop 1 PidLockRuns.s3.
Definition u5 : Sys := with_kernel 1 (Some (Stopping 0)) (unlink u4).
Definition u6 : Sys := with_kernel 1 None u5.
Definition u7 : Sys := open_pid_file 2 u6.
Definition u8 : Sys := with_kernel 2 (Some (Locked 1)) u7.
Definition u9 : Sys := note_ready false 2 (with_kernel 2 (Some (Running 1)) (write_pid_file 2 u8)).
(** The stop ends, and removes the file of the second; a third start finds
    none. *)
Definition u10 : Sys := unlink (stop_done 1 u9).
Definition u11 : Sys := open_pid_file 3 u10.
Definition u12 : Sys := with_kernel 3 (Some (Locked 2)) u11.
Definition u13 : Sys := note_ready false 3 (with_kernel 3 (Some (Running 2)) (write_pid_file 3 u12)).

End StopRuns.

(** The end of a stop defeats the lock: the stop removes the PID path
    whatever it names by then; when the next kernel has started meanwhile, its
    file goes, and the start after it runs a kernel beside it. *)
Theorem late_stop_defeats_lock :
  exists s i j, rtc step sys_new s /\ kernels s !! 2 = Some (Running i) /\ kernels s !! 3 = Some (Running j).
Proof.
  exists StopRuns.u13, 1, 2. split; [|by vm_compute].
  apply (rtc_l _ _ PidLockRuns.s1); [by apply step_open|].
  apply (rtc_l _ _ PidLockRuns.s2); [by apply step_lock; [|apply PidLockRuns.not_locked; vm_compute]|].
  apply (rtc_l _ _ PidLockRuns.s3); [by apply (step_write 1 0 false)|].
  apply (rtc_l _ _ StopRuns.u4); [by apply (step_stop 0 1); [..|eexists]|].
  apply (rtc_l _ _ StopRuns.u5); [by apply (step_remove 1 0)|].
  apply (rtc_l _ _ StopRuns.u6); [by apply (step_exit 1 (Stopping 0))|].
  apply (rtc_l _ _ StopRuns.u7); [by apply step_open|].
  apply (rtc_l _ _ StopRuns.u8); [by apply step_lock; [|apply PidLockRuns.not_locked; vm_compute]|].
  apply (rtc_l _ _ StopRuns.u9); [by apply (step_write 2 1 false)|].
  apply (rtc_l _ _ StopRuns.u10); [apply step_stop_remove; by vm_compute|].
  apply (rtc_l _ _ StopRuns.u11); [by apply step_open|].
  apply (rtc_l _ _ StopRuns.u12); [by apply step_lock; [|apply PidLockRuns.not_locked; vm_compute]|].
  apply rtc_once. by apply (step_write 3 2 false).
Qed.
