(* ===== verification/Main.v ===== *)
(** * The commands of [vyn] ([run_kernel] of [src/main.rs])

    The dispatch of the daemon commands over the parts of [Daemon], and of
    the client commands over [Client].  A launch is what the operating system
    makes of the background child; the state is that of [Daemon]. *)

From S2P Require Import Prelude Wire Text Table Sandbox Config DeviceStore Client Daemon.

Open Scope Z_scope.

(** The child of a background start: why it could not be created, or its
    process id and what the readiness pipe delivers. *)
Inductive Launch := LaunchError (e : string) | Launched (pid : Z) (reads : list ReadyRead).

(** The printed lines of a command, or its error; [None] when the given looks
    at a clock or a pipe run out. *)
Abbreviation Said := (option (Result string (list string))).

Section Commands.
Context `{ConfigCrates, HashIter}.
Context (deliver : Z -> Sig -> Os -> Os) (pause : nat -> Os -> Os).

Definition said_ok (r : Result string unit) : Result string (list string) :=
  match r with Ok _ => Ok [] | Err e => Err e end.

Definition add_proc (pid : Z) (o : Os) : Os := mkOs (pid_text o) (<[pid := KOk]> (procs o)) (sent o).

Definition daemonize_and_run (l : Launch) (o : Os) : Said * Os :=
  match l with
  | LaunchError e => (Some (Err e), o)
  | Launched pid reads =>
      let o := add_proc pid o in
      match ready_line reads EmptyString with
      | None => (None, o)
      | Some line => let '(r, o) := publish_child deliver pid line o in (Some (said_ok r), o)
      end
  end.

(** [Commands::Start]; [foreground] is [run_foreground] and [dflt] is
    [Config::default()]. *)
Definition start_cmd (dflt : Config) (foreground : Config -> Os -> Said * Os) (f : StartFlags) (l : Launch) (o : Os)
    : Said * Os :=
  match start_checked dflt (load_config (st_config f)) f with
  | Err e => (Some (Err e), o)
  | Ok cfg =>
      if st_foreground f then foreground cfg o
      else
        let '(running, o) := is_running o in
        if running then
          match read_pid o with
          | Some _ => (Some (Ok []), o)
          | None => (Some (Err "unreadable pid file"), o)
          end
        else daemonize_and_run l o
  end.

(** [Commands::Stop] *)
Definition stop_cmd (config : string) (o : Os) : Said * Os :=
  match load_config config with
  | Err e => (Some (Err e), o)
  | Ok _ => let '(r, o) := stop_kernel deliver pause o in (Some (said_ok r), o)
  end.

(** [Commands::Restart] *)
Definition restart_cmd (fuel : nat) (elapsed : nat -> Z) (config : string) (l : Launch) (o : Os) : Said * Os :=
  match load_config config with
  | Err e => (Some (Err e), o)
  | Ok cfg =>
      match ensure_auth_configured cfg with
      | Err e => (Some (Err e), o)
      | Ok _ =>
          match restart_kernel deliver pause fuel elapsed o with
          | (None, o) => (None, o)
          | (Some (Err e), o) => (Some (Err e), o)
          | (Some (Ok _), o) => daemonize_and_run l o
          end
      end
  end.

(** [Commands::Status] *)
Definition status_cmd (config : string) (o : Os) : Said * Os :=
  match load_config config with
  | Err e => (Some (Err e), o)
  | Ok _ =>
      let '(running, o) := is_running o in
      if running then
        match read_pid o with
        | Some pid => (Some (Ok ["vynkor is running (PID: " +:+ show pid +:+ ")"]), o)
        | None => (Some (Err "unreadable pid file"), o)
        end
      else (Some (Ok ["vynkor is not running"]), o)
  end.

(** [Commands::Logs]; [log_text] reads the configured log file. *)
Definition logs_cmd (log_text : Config -> option string) (lines : nat) (config : string) : Result string (list string) :=
  match load_config config with
  | Err e => Err e
  | Ok cfg => Ok (show_logs (log_text cfg) lines)
  end.

(** [token.or_else(|| std::env::var("VYN_JWT_TOKEN").ok())] *)
Definition cli_token (flag : option string) (vars : ProcEnv) : option string :=
  match flag with Some t => Some t | None => vars !! "VYN_JWT_TOKEN" end.

(** [Commands::Plugin] *)
Definition plugin_cmd `{ClientCrates} {K} (peer : HttpRequest -> K -> option (Z * string) * K) (vars : ProcEnv)
    (private_dir : option string) (read : string -> option string) (vynm : list string -> VynmStatus) (cmd : PluginCmd)
    (config : string) (token : option string) (k : K) : list string * Result string unit * K :=
  match load_config config with
  | Err e => ([], Err e, k)
  | Ok cfg => plugin_handle peer read vynm cmd (port cfg) (cli_token token vars) (tls cfg)
                (effective_tls_cert_path private_dir cfg) config k
  end.

(** [Commands::Devices] *)
Definition devices_cmd `{ClientCrates} {K} (peer : HttpRequest -> K -> option (Z * string) * K) (vars : ProcEnv)
    (private_dir : option string) (read : string -> option string) (config : string) (token : option string) (k : K)
    : Outcome (Result string (list string) * K) :=
  match load_config config with
  | Err e => Returns (Err e, k)
  | Ok cfg => devices_handle peer read (port cfg) (tls cfg) (effective_tls_cert_path private_dir cfg)
                (cli_token token vars) k
  end.

(** [complete_slugs] of [cli/complete.rs]: the lines printed. *)
Definition complete_slugs (vynm : list string -> VynmStatus) : list string :=
  match vynm ["__complete-slugs"] with
  | VynmExit true _ => []
  | _ => ["'__complete-slugs' moved to vynm — use 'vynm search <prefix>'; native shell completion ships with vynm's polish package"]
  end.

(** ** Properties *)

Lemma ready_pid pid o :
  0 <= pid <= 2 ^ 31 - 1 -> kill_result pid o = KOk -> is_running (write_pid pid o) = (true, write_pid pid o).
Proof.
  intros Hp Hk. unfold is_running. rewrite pid_file_roundtrip by done.
  change (kill_result pid (write_pid pid o)) with (kill_result pid o). by rewrite Hk.
Qed.

(** The launch of a child that becomes ready. *)
Lemma daemonize_ready pid chunks rest o :
  0 <= pid <= 2 ^ 31 - 1 -> Forall (fun s => s <> EmptyString) chunks ->
  foldr String.append EmptyString chunks = ready_text pid ->
  daemonize_and_run (Launched pid (map RChunk chunks ++ rest)) o = (Some (Ok []), write_pid pid (add_proc pid o)).
Proof.
  intros Hp Hc Ht. unfold daemonize_and_run.
  destruct (proj1 (ready_handshake deliver pid chunks rest (add_proc pid o) Hp) Hc Ht) as (line & -> & ->). done.
Qed.

(** A background start, its status and a second start.  When no kernel
    runs and the configuration passes the checks, a child that takes the lock
    and writes its readiness line, however the pipe delivers it, makes the
    command succeed; then [vyn status] names that child, and another start,
    whatever its own child would have done, launches nothing and changes
    nothing. *)
Theorem start_then_status dflt fg f f' cfg cfg' pid chunks rest l' o :
  start_checked dflt (load_config (st_config f)) f = Ok cfg -> st_foreground f = false ->
  start_checked dflt (load_config (st_config f')) f' = Ok cfg' -> st_foreground f' = false ->
  is_ok (load_config (st_config f)) = true ->
  (is_running o).1 = false -> 0 <= pid <= 2 ^ 31 - 1 ->
  Forall (fun s => s <> EmptyString) chunks -> foldr String.append EmptyString chunks = ready_text pid ->
  exists o', start_cmd dflt fg f (Launched pid (map RChunk chunks ++ rest)) o = (Some (Ok []), o') /\
    status_cmd (st_config f) o' = (Some (Ok ["vynkor is running (PID: " +:+ show pid +:+ ")"]), o') /\
    start_cmd dflt fg f' l' o' = (Some (Ok []), o').
Proof.
  intros Hs Hfg Hs' Hfg' Hload Hrun Hp Hc Ht. set (o1 := add_proc pid (is_running o).2).
  assert (kill_result pid o1 = KOk) as Hk by (unfold kill_result, o1, add_proc; cbn; by rewrite lookup_insert_eq).
  exists (write_pid pid o1). split_and!.
  - unfold start_cmd. rewrite Hs, Hfg. destruct (is_running o) as [b o2]. cbn in Hrun. subst b.
    by rewrite daemonize_ready.
  - unfold status_cmd. destruct (load_config (st_config f)); [|done]. by rewrite ready_pid, pid_file_roundtrip.
  - unfold start_cmd. by rewrite Hs', Hfg', ready_pid, pid_file_roundtrip.
Qed.

(** A command that is refused before it acts sends no signal, launches
    nothing and leaves the PID file alone. *)
Lemma refused_start_inert dflt fg f l o e :
  start_checked dflt (load_config (st_config f)) f = Err e -> start_cmd dflt fg f l o = (Some (Err e), o).
Proof. unfold start_cmd. by intros ->. Qed.

End Commands.

(** ** A start on the host *)
Module MainRuns.

Definition flags : StartFlags := mkStart false None "/etc/vyn/config.yaml" false None None None None [].

Definition empty_os : Os := mkOs None ∅ [].

#[local] Instance crates : ConfigCrates := {|
  read_to_string p := Ok p;
  list_dir d := None;
  yaml_config _ := Ok (set_auth (Some "secret") false ConfigRuns.base);
  yaml_plugin t := Err "no plugin";
|}.

#[local] Instance iter : HashIter := canonical_iter.

Definition loaded : Config := match load_config "/etc/vyn/config.yaml" with Ok c => c | Err _ => ConfigRuns.base end.

Lemma start_status_witness :
  exists o', start_cmd DaemonRuns.deliver ConfigRuns.base (fun _ o => (None, o)) flags
      (Launched 4711 [RChunk "47"; RChunk ("11" +:+ String NL EmptyString); REof]) empty_os = (Some (Ok []), o') /\
    status_cmd "/etc/vyn/config.yaml" o' = (Some (Ok ["vynkor is running (PID: 4711)"]), o') /\
    start_cmd DaemonRuns.deliver ConfigRuns.base (fun _ o => (None, o)) flags (LaunchError "no memory") o' = (Some (Ok []), o').
Proof.
  apply (start_then_status DaemonRuns.deliver ConfigRuns.base (fun _ o => (None, o)) flags flags loaded loaded
           4711 ["47"; "11" +:+ String NL EmptyString] [REof] (LaunchError "no memory") empty_os);
    [by vm_compute|done|by vm_compute|done|by vm_compute|done|lia|by repeat constructor|by vm_compute].
Defined.

End MainRuns.
