(* ===== verification/Shim.v ===== *)
(** * The sandbox shim ([src/plugins/shim.rs], [src/plugins/seccomp.rs])

    [vyn __shim] sets up namespaces, forks the plugin, restricts it before it
    executes, waits for its readiness byte, reports its process id, and then
    forwards signals and reaps it.  Every system call can fail: the outcomes
    are the record [ShimEnv], and a run is the trace of what happened. *)

From S2P Require Import Prelude Wire Text Sandbox.

Open Scope Z_scope.

(** ** Setup and admission *)

Inductive SetupStep :=
| SSocketpair | SSigaction (sig : Z) | SBlock | SPdeathsig | SUnshare
| SSetgroups | SUidMap | SGidMap | SRprivate.

(** The steps of the plugin's [pre_exec]. *)
Inductive ChildStep :=
| CPdeathsig | CUnmask | CMountProc | CDup2
| CLandlock (r : FsRestriction)
| CSeccomp
| CReady.

Definition SIGHUP : Z := 1.
Definition SIGINT : Z := 2.
Definition SIGKILL_NO : Z := 9.
Definition SIGTERM_NO : Z := 15.

Definition setup_steps : list SetupStep :=
  [SSocketpair; SSigaction SIGTERM_NO; SSigaction SIGINT; SSigaction SIGHUP; SBlock; SPdeathsig; SUnshare;
   SSetgroups; SUidMap; SGidMap; SRprivate].

Definition child_steps (restriction : option FsRestriction) : list ChildStep :=
  [CPdeathsig; CUnmask; CMountProc; CDup2] ++
  (match restriction with Some r => [CLandlock r] | None => [] end) ++ [CSeccomp; CReady].

(** The outcome of the wait for the readiness byte: the descriptor became
    readable and gave these bytes or an error, or the wait ended otherwise. *)
Inductive ReadyWait := Readable (r : Result string bytes) | NotReadable.

Record ShimEnv := mkShimEnv {
  sh_vars : ProcEnv;
  sh_setup : SetupStep -> option string;      (** the error of a step *)
  sh_child : ChildStep -> option string;
  sh_exec : option string;                    (** the error of fork or exec *)
  sh_unblock : option string;
  sh_ready : ReadyWait;
  sh_pid : Z;
}.

Inductive ShimEvent :=
| EvSetup (s : SetupStep)
| EvFork
| EvChild (c : ChildStep)
| EvExec                     (** the plugin's own code starts *)
| EvKill                     (** SIGKILL to the plugin *)
| EvPidLine (pid : Z).       (** the handshake with the supervisor *)

(** The steps done, and the error that ended them. *)
Fixpoint run_steps {A} (f : A -> option string) (l : list A) : list A * option string :=
  match l with
  | [] => ([], None)
  | a :: l =>
      match f a with
      | Some e => ([], Some e)
      | None => let '(d, r) := run_steps f l in (a :: d, r)
      end
  end.

(** [run] up to the process id line. *)
Definition shim_admit (e : ShimEnv) : Result string Z * list ShimEvent :=
  let '(d1, err1) := run_steps (sh_setup e) setup_steps in
  match err1 with
  | Some err => (Err err, map EvSetup d1)
  | None =>
      let restriction := from_env (sh_vars e) in
      let '(d2, err2) := run_steps (sh_child e) (child_steps restriction) in
      let ev := map EvSetup d1 ++ [EvFork] ++ map EvChild d2 in
      match err2, sh_exec e with
      | Some err, _ => (Err ("spawn plugin: " +:+ err), ev)
      | None, Some err => (Err ("spawn plugin: " +:+ err), ev)
      | None, None =>
          let ev := ev ++ [EvExec] in
          match sh_unblock e with
          | Some err => (Err err, ev)
          | None =>
              match sh_ready e with
              | Readable (Ok [b]) =>
                  if b =? 82 then (Ok (sh_pid e), ev ++ [EvPidLine (sh_pid e)])
                  else (Err "plugin did not signal readiness", ev ++ [EvKill])
              | Readable (Ok _) => (Err "plugin did not signal readiness", ev ++ [EvKill])
              | Readable (Err err) => (Err ("read readiness: " +:+ err), ev)
              | NotReadable => (Err "plugin did not signal readiness within 10s", ev ++ [EvKill])
              end
          end
      end
  end.

(** ** Signals *)

(** What [forward_signal] does: forward to the plugin and note it, or die of
    the signal. *)
Inductive SignalAction := Forwarded (pid sig : Z) | DefaultAndRaise (sig : Z).

Definition forward_signal (child_pid sig : Z) : SignalAction :=
  if 0 <? child_pid then Forwarded child_pid sig else DefaultAndRaise sig.

(** ** Reaping *)

Inductive WaitObs := WExited (code : Z) | WSignaled (sig : Z) | WAlive | WEintr | WError (e : string).

(** One round of the loop: what [waitpid] says, whether a signal was
    forwarded, and the two looks at the clock. *)
Record Round := mkRound {
  rd_wait : WaitObs;
  rd_forwarded : bool;
  rd_now_arm : Z;
  rd_now_check : Z;
}.

Record ReapState := mkReap { kill_deadline : option Z; sigkill_sent : bool }.

Inductive ReapTurn :=
| ReapDone (r : Result string Z)
| ReapAgain (st : ReapState) (kill : bool).

Definition reap_turn (grace : Z) (st : ReapState) (rd : Round) : ReapTurn :=
  match rd_wait rd with
  | WExited code => ReapDone (Ok code)
  | WSignaled sig => ReapDone (Ok (128 + sig))
  | WError e => ReapDone (Err e)
  | WEintr => ReapAgain st false
  | WAlive =>
      let deadline := match kill_deadline st with
                      | Some d => Some d
                      | None => if rd_forwarded rd then Some (rd_now_arm rd + grace) else None
                      end in
      let due := match deadline with Some d => d <=? rd_now_check rd | None => false end in
      if due && negb (sigkill_sent st) then ReapAgain (mkReap deadline true) true
      else ReapAgain (mkReap deadline (sigkill_sent st)) false
  end.

(** The loop over a sequence of rounds: whether each sent SIGKILL, and the
    result if the loop ended. *)
Fixpoint reap (grace : Z) (st : ReapState) (rounds : list Round) : list bool * option (Result string Z) :=
  match rounds with
  | [] => ([], None)
  | rd :: rounds =>
      match reap_turn grace st rd with
      | ReapDone r => ([], Some r)
      | ReapAgain st k => let '(ks, r) := reap grace st rounds in (k :: ks, r)
      end
  end.

Definition reap_new : ReapState := mkReap None false.

(** [VYN_SHIM_GRACE_SECS] *)
Definition shim_grace_secs (vars : ProcEnv) : Z :=
  match vars !! "VYN_SHIM_GRACE_SECS" with
  | Some s => default 5 (parse_u64 s)
  | None => 5
  end.

(** ** The system call filter *)

Definition denied : list string :=
  ["ptrace"; "bpf"; "keyctl"; "add_key"; "request_key"; "reboot"; "kexec_load"; "kexec_file_load"; "init_module";
   "finit_module"; "delete_module"; "mount"; "umount2"; "pivot_root"; "chroot"; "setns"; "open_tree"; "move_mount";
   "fsopen"; "fsconfig"; "fspick"; "mount_setattr"; "open_by_handle_at"; "name_to_handle_at"; "process_vm_readv";
   "process_vm_writev"; "perf_event_open"; "userfaultfd"; "io_uring_setup"; "io_uring_enter"; "io_uring_register";
   "kcmp"; "swapon"; "swapoff"; "acct"; "syslog"; "sethostname"; "setdomainname"; "modify_ldt"; "quotactl";
   "lookup_dcookie"; "vhangup"; "fanotify_init"].

Inductive SeccompAction := Allow | KillProcess.

(** The filter [apply] installs: no argument rules, so the number decides. *)
Definition filter_action (syscall : string) : SeccompAction :=
  if syscall ∈? denied then KillProcess else Allow.

(** ** Properties: admission *)

Lemma run_steps_all {A} (f : A -> option string) l d : run_steps f l = (d, None) -> d = l.
Proof.
  revert d. induction l as [|a l IH]; intros d; cbn; [by intros [= <-]|].
  destruct (f a); [done|]. destruct (run_steps f l) as [d' [e|]]; intros [= <-]. by rewrite (IH d').
Qed.

(** Preparation, as opposed to the plugin's start and what follows it. *)
Definition prep (x : ShimEvent) : bool :=
  match x with EvSetup _ | EvFork | EvChild _ => true | _ => false end.

Lemma prep_steps d1 d2 : Forall (fun x => prep x = true) (map EvSetup d1 ++ [EvFork] ++ map EvChild d2).
Proof. rewrite !Forall_app, !Forall_map. split_and!; [by apply Forall_true|by constructor|by apply Forall_true]. Qed.

Lemma prep_setup d1 : Forall (fun x => prep x = true) (map EvSetup d1).
Proof. rewrite Forall_map. by apply Forall_true. Qed.

Lemma prep_notin x l : Forall (fun x => prep x = true) l -> prep x = false -> x ∉ l.
Proof. rewrite Forall_forall. intros Hall Hx Hin. by rewrite (Hall x Hin) in Hx. Qed.

(** The preparation of a plugin with this environment, complete. *)
Definition admitted (e : ShimEnv) : list ShimEvent :=
  map EvSetup setup_steps ++ [EvFork] ++ map EvChild (child_steps (from_env (sh_vars e))).

(** A run ends in its preparation, or completes it and starts the plugin. *)
Lemma shim_admit_shape e r ev :
  shim_admit e = (r, ev) ->
  (is_err r = true /\ Forall (fun x => prep x = true) ev) \/
  exists rest, ev = admitted e ++ EvExec :: rest /\
    ((r = Ok (sh_pid e) /\ rest = [EvPidLine (sh_pid e)] /\ sh_ready e = Readable (Ok [82])) \/
     (is_err r = true /\ (rest = [] \/ rest = [EvKill]))).
Proof.
  unfold shim_admit. destruct (run_steps (sh_setup e) setup_steps) as [d1 [err|]] eqn:E1.
  { intros Hr. apply pair_equal_spec in Hr as [<- <-]. left. split; [done|apply prep_setup]. }
  apply run_steps_all in E1 as ->. destruct (run_steps (sh_child e) _) as [d2 [err|]] eqn:E2; cbv zeta.
  { intros Hr. apply pair_equal_spec in Hr as [<- <-]. left. split; [done|apply prep_steps]. }
  apply run_steps_all in E2 as ->. fold (admitted e). destruct (sh_exec e).
  { intros Hr. apply pair_equal_spec in Hr as [<- <-]. left. split; [done|apply prep_steps]. }
  intros Hr. right. destruct (sh_unblock e).
  { apply pair_equal_spec in Hr as [<- <-]. exists []. split; [done|]. right. by split; [|left]. }
  destruct (sh_ready e) as [[x|err]|]; [destruct x as [|z [|z' zs]]; [|destruct (z =? 82) eqn:Hz; [apply Z.eqb_eq in Hz; subst z|]|]| |];
    apply pair_equal_spec in Hr as [<- <-]; rewrite <- ?app_assoc; eexists; (split; [reflexivity|]);
    first [by left|right; split; [done|]; by left|right; split; [done|]; by right].
Qed.

Lemma run_steps_ok {A} (f : A -> option string) l d : run_steps f l = (d, None) -> forall a, a ∈ l -> f a = None.
Proof.
  revert d. induction l as [|x l IH]; intros d; cbn; [by intros _ a ?%elem_of_nil|].
  destruct (f x) eqn:Hf; [done|]. destruct (run_steps f l) as [d' [e|]] eqn:E; intros [= <-] a [->|Hin]%elem_of_cons; [done|].
  by apply (IH d').
Qed.

(** A plugin that started failed no step of its preparation. *)
Lemma shim_exec_steps e r ev :
  shim_admit e = (r, ev) -> EvExec ∈ ev -> forall c, c ∈ child_steps (from_env (sh_vars e)) -> sh_child e c = None.
Proof.
  unfold shim_admit. destruct (run_steps (sh_setup e) setup_steps) as [d1 [err|]].
  { intros [_ <-]%pair_equal_spec Hx. by apply (prep_notin EvExec) in Hx; [|apply prep_setup|]. }
  destruct (run_steps (sh_child e) _) as [d2 [err|]] eqn:E2; cbv zeta.
  - intros [_ <-]%pair_equal_spec Hx. by apply (prep_notin EvExec) in Hx; [|apply prep_steps|].
  - intros _ _. by apply (run_steps_ok _ _ _ E2).
Qed.

(** What has happened has succeeded. *)
Definition succeeded (e : ShimEnv) (x : ShimEvent) : Prop :=
  match x with
  | EvSetup s => sh_setup e s = None
  | EvChild c => sh_child e c = None
  | EvExec => sh_exec e = None
  | _ => True
  end.

Lemma run_steps_done {A} (f : A -> option string) l : Forall (fun a => f a = None) (run_steps f l).1.
Proof.
  induction l as [|a l IH]; cbn; [done|]. destruct (f a) eqn:Hf; [done|]. destruct (run_steps f l). by constructor.
Qed.

Lemma shim_admit_succeeded e : Forall (succeeded e) (shim_admit e).2.
Proof.
  unfold shim_admit. pose proof (run_steps_done (sh_setup e) setup_steps) as H1.
  pose proof (run_steps_done (sh_child e) (child_steps (from_env (sh_vars e)))) as H2.
  destruct (run_steps (sh_setup e) setup_steps) as [d1 [err|]]; [by apply Forall_map|].
  destruct (run_steps (sh_child e) _) as [d2 err2]. cbv zeta. cbn [fst] in *.
  assert (Hprep : Forall (succeeded e) (map EvSetup d1 ++ [EvFork] ++ map EvChild d2)).
  { rewrite !Forall_app, !Forall_map. split_and!; [done|by repeat constructor|done]. }
  destruct err2; [done|]. destruct (sh_exec e) eqn:Hx; [done|].
  assert (Hexec : Forall (succeeded e) ((map EvSetup d1 ++ [EvFork] ++ map EvChild d2) ++ [EvExec])).
  { apply Forall_app. split; [done|]. by repeat constructor. }
  assert (Hmore : forall x, prep x = false -> x <> EvExec ->
    Forall (succeeded e) (((map EvSetup d1 ++ [EvFork] ++ map EvChild d2) ++ [EvExec]) ++ [x])).
  { intros x Hp Hne. apply Forall_app. split; [done|]. constructor; [by destruct x|done]. }
  destruct (sh_unblock e); [done|].
  destruct (sh_ready e) as [[[|z [|]]|]|]; cbn [snd]; [..|by apply Hmore]; try done; try by apply Hmore.
  destruct (z =? 82); by apply Hmore.
Qed.

(** The preparation a start must have behind it, in its order. *)
Definition confinement (vars : ProcEnv) : list ShimEvent :=
  [EvSetup SPdeathsig; EvSetup SUnshare; EvSetup SSetgroups; EvSetup SUidMap; EvSetup SGidMap; EvSetup SRprivate;
   EvFork; EvChild CPdeathsig; EvChild CMountProc] ++
  match from_env vars with Some r => [EvChild (CLandlock r)] | None => [] end ++ [EvChild CSeccomp; EvChild CReady].

Lemma confinement_admitted e : confinement (sh_vars e) `sublist_of` admitted e.
Proof.
  unfold confinement, admitted, setup_steps, child_steps. destruct (from_env (sh_vars e)); cbn;
    repeat first [apply sublist_skip|apply sublist_cons|apply sublist_nil].
Qed.

(** C27: fail-closed admission.  When the plugin's own code starts, the
    following lie behind it in this order, each of them a success: the shim's
    death signal, the new namespaces with the mappings of users and groups,
    the private mounts, the fork, the plugin's death signal, its own [/proc],
    the ruleset of exactly the restriction in the environment if there is
    one, and the system call filter; so where one of them fails the plugin
    never starts.  A process id is reported exactly when the shim succeeds,
    and then the plugin started so, sent its readiness byte and was not
    killed. *)
Theorem shim_fail_closed e r ev :
  shim_admit e = (r, ev) ->
  (EvExec ∈ ev -> exists before rest, ev = before ++ EvExec :: rest /\ (EvExec ∉ before) /\
     confinement (sh_vars e) `sublist_of` before) /\
  (forall s, EvSetup s ∈ ev -> sh_setup e s = None) /\
  (forall c, EvChild c ∈ ev -> sh_child e c = None) /\
  (forall pid, EvPidLine pid ∈ ev <-> r = Ok pid) /\
  (forall pid, r = Ok pid -> EvExec ∈ ev /\ (EvKill ∉ ev) /\ sh_ready e = Readable (Ok [82])).
Proof.
  intros Hr. pose proof (prep_steps setup_steps (child_steps (from_env (sh_vars e)))) as Hpre. fold (admitted e) in Hpre.
  pose proof (shim_admit_succeeded e) as Hdone. rewrite Hr, Forall_forall in Hdone. cbn [snd] in Hdone.
  assert (Hsteps : (forall s, EvSetup s ∈ ev -> sh_setup e s = None) /\ (forall c, EvChild c ∈ ev -> sh_child e c = None)).
  { split; intros x Hx; exact (Hdone _ Hx). }
  destruct (shim_admit_shape e r ev Hr) as [[He Hp]|(rest & -> & Hcase)].
  - split_and!; [intros Hin; by apply (prep_notin EvExec) in Hp|apply Hsteps..| |by intros pid ->].
    intros pid. split; [intros Hin; by apply (prep_notin (EvPidLine pid)) in Hp|by intros ->].
  - split_and!; [|apply Hsteps..| |].
    + intros _. exists (admitted e), rest. split_and!; [done|by apply prep_notin|apply confinement_admitted].
    + intros pid. rewrite elem_of_app, elem_of_cons. destruct Hcase as [(-> & -> & _)|[He Hrest]].
      * rewrite list_elem_of_singleton. split; [|intros [= <-]; tauto].
        intros [Hin|[?|[= ->]]]; [|done|done]. by apply (prep_notin (EvPidLine pid)) in Hpre.
      * split; [|by intros ->]. intros [Hin|[?|Hin]]; [by apply (prep_notin (EvPidLine pid)) in Hpre|done|].
        destruct Hrest as [-> | ->]; set_solver.
    + intros pid ->. destruct Hcase as [(_ & -> & Hrd)|[? _]]; [|done]. split_and!; [set_solver| |done].
      rewrite elem_of_app, elem_of_cons, list_elem_of_singleton.
      intros [Hin|[?|?]]; [|done|done]. by apply (prep_notin EvKill) in Hpre.
Qed.

(** The configured ceiling is enforced.  A sandboxed plugin whose
    configuration limits its file access, spawned with the environment the
    supervisor builds, never executes without the Landlock ruleset of exactly
    that configuration and the system call filter installed first. *)
Theorem shim_enforces_config e r ev inherited sock data cfg :
  shim_admit e = (r, ev) -> sh_vars e = spawn_env inherited sock data cfg ->
  sandbox cfg = true -> max_fs_access cfg <> FsFull ->
  Forall plain_path (readonly_paths cfg) -> Forall plain_path (writable_paths cfg ++ option_list data) ->
  (forall n, n ∈ fs_names -> n ∉ (env_pairs (cfg_env cfg)).*1) ->
  EvExec ∈ ev ->
  exists before after rest, ev = before ++ [EvChild (CLandlock
      (mkRestriction (max_fs_access cfg) (readonly_paths cfg) (writable_paths cfg ++ option_list data)));
      EvChild CSeccomp] ++ after ++ EvExec :: rest /\ (EvExec ∉ before ++ after).
Proof.
  intros Hr Hv Hsb Hm Hro Hrw Hn Hx.
  pose proof (restriction_roundtrip inherited sock data cfg Hsb Hm Hro Hrw Hn) as Henv. rewrite <- Hv in Henv.
  destruct (shim_admit_shape e r ev Hr) as [[_ Hp]|(rest & -> & _)]; [by apply (prep_notin EvExec) in Hp|].
  unfold admitted, child_steps. rewrite Henv.
  exists (map EvSetup setup_steps ++ [EvFork; EvChild CPdeathsig; EvChild CUnmask; EvChild CMountProc; EvChild CDup2]),
    [EvChild CReady], rest.
  split; [reflexivity|]. apply prep_notin; [|done]. repeat constructor.
Qed.

(** ** Properties: reaping *)

(** The loop ends exactly when [waitpid] reports the plugin's end or an error. *)
Definition wait_result (w : WaitObs) : option (Result string Z) :=
  match w with
  | WExited code => Some (Ok code)
  | WSignaled sig => Some (Ok (128 + sig))
  | WError e => Some (Err e)
  | WAlive | WEintr => None
  end.

Lemma reap_turn_result grace st rd :
  match reap_turn grace st rd with
  | ReapDone r => wait_result (rd_wait rd) = Some r
  | ReapAgain _ _ => wait_result (rd_wait rd) = None
  end.
Proof. unfold reap_turn. destruct (rd_wait rd); cbn; [done..| |done|done]. by destruct (_ && _). Qed.

Lemma reap_result grace st rounds ks r :
  reap grace st rounds = (ks, Some r) ->
  exists rd, rounds !! length ks = Some rd /\ wait_result (rd_wait rd) = Some r.
Proof.
  revert st ks. induction rounds as [|rd rounds IH]; intros st ks; cbn; [done|].
  pose proof (reap_turn_result grace st rd) as Hw. destruct (reap_turn grace st rd) as [r'|st' k].
  - intros [= <- <-]. by exists rd.
  - destruct (reap grace st' rounds) as [ks' r'] eqn:E. intros [= <- ->]. exact (IH st' ks' E).
Qed.

(** The deadline in force after a round. *)
Definition armed (grace : Z) (st : ReapState) (rd : Round) : option Z :=
  match kill_deadline st with
  | Some d => Some d
  | None => if rd_forwarded rd then Some (rd_now_arm rd + grace) else None
  end.

(** One more round, as equations on its observation. *)
Lemma reap_turn_again grace st rd st' k :
  reap_turn grace st rd = ReapAgain st' k ->
  (rd_wait rd = WEintr /\ st' = st /\ k = false) \/
  (rd_wait rd = WAlive /\ kill_deadline st' = armed grace st rd /\ sigkill_sent st' = sigkill_sent st || k /\
   (k = true <-> sigkill_sent st = false /\ exists d, armed grace st rd = Some d /\ d <= rd_now_check rd)).
Proof.
  unfold reap_turn. destruct (rd_wait rd); try done; [|by intros [= <- <-]; left].
  fold (armed grace st rd). intros Hr. right.
  destruct (armed grace st rd) as [d|] eqn:Ha; [destruct (Z.leb_spec d (rd_now_check rd))|];
    destruct (sigkill_sent st) eqn:Hs; cbn in Hr; injection Hr as <- <-; cbn; rewrite ?Hs; split_and!; try done;
    (split; [intros Ht; first [done|split; [done|by eexists]]
            |intros [Hf (d' & Hd' & ?)]; first [done|injection Hd' as <-; first [done|lia]]]).
Qed.

(** After SIGKILL was sent none is sent again. *)
Lemma reap_sent grace st rounds ks r :
  reap grace st rounds = (ks, r) -> sigkill_sent st = true -> forall k, ks !! k <> Some true.
Proof.
  revert st ks. induction rounds as [|rd rounds IH]; intros st ks; cbn; [by intros [= <- _] _ []|].
  destruct (reap_turn grace st rd) as [r'|st' k] eqn:Et; [by intros [= <- _] _ []|].
  destruct (reap grace st' rounds) as [ks' r'] eqn:E. intros [= <- ->] Hs [|i]; cbn.
  - destruct (reap_turn_again _ _ _ _ _ Et) as [(_ & _ & ->)|(_ & _ & _ & Hk)]; [done|].
    intros [= Hk1]. apply Hk in Hk1 as [Hf _]. by rewrite Hs in Hf.
  - apply (IH st' ks' E). destruct (reap_turn_again _ _ _ _ _ Et) as [(_ & -> & _)|(_ & _ & -> & _)]; [done|by rewrite Hs].
Qed.

(** Where a deadline in force comes from. *)
Lemma armed_origin grace st rd d :
  armed grace st rd = Some d ->
  kill_deadline st = Some d \/ (rd_forwarded rd = true /\ d = rd_now_arm rd + grace).
Proof. unfold armed. destruct (kill_deadline st); [tauto|]. destruct (rd_forwarded rd); [|done]. intros [= <-]. by right. Qed.

(** A round that justifies SIGKILL in round [k]: the plugin was alive, a
    signal had been forwarded, and the grace period passed since. *)
Definition grace_passed (grace : Z) (rounds : list Round) (k : nat) (rdk : Round) : Prop :=
  exists j rdj, (j <= k)%nat /\ rounds !! j = Some rdj /\ rd_wait rdj = WAlive /\ rd_forwarded rdj = true /\
    rd_now_arm rdj + grace <= rd_now_check rdk.

Lemma reap_kill grace st rounds ks r k :
  reap grace st rounds = (ks, r) -> ks !! k = Some true ->
  (forall k', ks !! k' = Some true -> k' = k) /\
  exists rdk, rounds !! k = Some rdk /\ rd_wait rdk = WAlive /\
    ((exists d, kill_deadline st = Some d /\ d <= rd_now_check rdk) \/ grace_passed grace rounds k rdk).
Proof.
  revert st ks k. induction rounds as [|rd rounds IH]; intros st ks k; cbn; [by intros [= <- _]; destruct k|].
  destruct (reap_turn grace st rd) as [r'|st' b] eqn:Et; [by intros [= <- _]; destruct k|].
  destruct (reap grace st' rounds) as [ks' r'] eqn:E. intros [= <- ->] Hk.
  destruct (reap_turn_again _ _ _ _ _ Et) as [(_ & -> & ->)|(Hw & Hd & Hs & Hb)].
  - destruct k as [|k]; [done|]. destruct (IH st ks' k E Hk) as [Hu (rdk & Hrd & Ha & Hg)]. split.
    { intros [|k'] Hk'; [done|]. by rewrite (Hu k' Hk'). }
    exists rdk. split_and!; [done..|]. destruct Hg as [?|(j & rdj & ? & ?)]; [by left|].
    right. exists (S j), rdj. split; [lia|done].
  - destruct k as [|k].
    + injection Hk as ->. destruct (proj1 Hb eq_refl) as [Hs0 (d & Ha & Hle)]. rewrite Hs0 in Hs. split.
      { intros [|k'] Hk'; [done|]. by apply (reap_sent _ _ _ _ _ E Hs) in Hk'. }
      exists rd. split_and!; [done..|]. destruct (armed_origin _ _ _ _ Ha) as [Hd0|[Hf ->]]; [left; by exists d|].
      right. by exists 0%nat, rd.
    + destruct (IH st' ks' k E Hk) as [Hu (rdk & Hrd & Ha & Hg)]. split.
      { intros [|k'] Hk'; [|by rewrite (Hu k' Hk')]. injection Hk' as ->. destruct (proj1 Hb eq_refl) as [Hs0 _].
        rewrite Hs0 in Hs. by apply (reap_sent _ _ _ _ _ E Hs) in Hk. }
      exists rdk. split_and!; [done..|]. destruct Hg as [(d & Hd' & Hle)|(j & rdj & ? & ?)].
      * rewrite Hd in Hd'. destruct (armed_origin _ _ _ _ Hd') as [Hd0|[Hf ->]]; [left; by exists d|].
        right. exists 0%nat, rd. split_and!; [lia|done..].
      * right. exists (S j), rdj. split; [lia|done].
Qed.

(** Escalation is justified and happens once.  SIGKILL is sent in at most
    one round, the plugin still alive in it, a signal forwarded to it, and at
    least the grace period after the loop first noticed; and the shim ends
    with the plugin's own status: its exit code, or 128 plus its signal. *)
Theorem reap_escalates_once grace rounds ks r :
  reap grace reap_new rounds = (ks, r) ->
  (forall k, ks !! k = Some true ->
    (forall k', ks !! k' = Some true -> k' = k) /\
    exists rdk, rounds !! k = Some rdk /\ rd_wait rdk = WAlive /\ grace_passed grace rounds k rdk) /\
  (forall res, r = Some res ->
    exists rd, rounds !! length ks = Some rd /\ wait_result (rd_wait rd) = Some res).
Proof.
  intros Hr. split; [|intros res ->; by apply (reap_result grace reap_new rounds ks)].
  intros k Hk. destruct (reap_kill _ _ _ _ _ _ Hr Hk) as [Hu (rdk & ? & ? & [(d & ? & _)|?])]; [done|].
  split; [done|]. by exists rdk.
Qed.

(** The timer will be armed by round [k], for a time not after [B]. *)
Definition will_arm (grace B : Z) (st : ReapState) (rounds : list Round) (k : nat) : Prop :=
  (exists d, kill_deadline st = Some d /\ d <= B) \/
  (kill_deadline st = None /\ exists j rdj, (j <= k)%nat /\ rounds !! j = Some rdj /\ rd_wait rdj = WAlive /\ rd_forwarded rdj = true /\
    forall i rd, (i <= j)%nat -> rounds !! i = Some rd -> rd_now_arm rd + grace <= B).

(** A round before [k] keeps the timer's promise. *)
Lemma will_arm_next grace B st rd rounds k st' b :
  will_arm grace B st (rd :: rounds) (S k) -> reap_turn grace st rd = ReapAgain st' b ->
  will_arm grace B st' rounds k.
Proof.
  intros Hwill Et. destruct (reap_turn_again _ _ _ _ _ Et) as [(He & -> & _)|(Ha & Hd & _ & _)].
  - destruct Hwill as [Hd|(Hn & [|j] & rdj & Hj & Hrd & Ha & Hf & Hb)]; [by left| |].
    { injection Hrd as ->. congruence. }
    right. split; [done|]. exists j, rdj. split_and!; [lia|done..|]. intros i rd' Hi. by apply (Hb (S i)); lia.
  - unfold will_arm. rewrite !Hd. unfold armed.
    destruct Hwill as [(d & -> & Hle)|(-> & j & rdj & Hj & Hrd & Hja & Hf & Hb)]; [left; by exists d|].
    destruct (rd_forwarded rd) eqn:Hfw.
    { left. eexists; split; [done|]. apply (Hb 0%nat rd); [lia|done]. }
    destruct j as [|j]; [injection Hrd as ->; congruence|]. right. split; [done|].
    exists j, rdj. split_and!; [lia|done..|]. intros i rd' Hi. by apply (Hb (S i)); lia.
Qed.

Lemma reap_due grace st rounds ks r k rdk :
  reap grace st rounds = (ks, r) -> rounds !! k = Some rdk -> rd_wait rdk = WAlive ->
  (forall i rd, (i <= k)%nat -> rounds !! i = Some rd -> wait_result (rd_wait rd) = None) ->
  sigkill_sent st = false -> will_arm grace (rd_now_check rdk) st rounds k ->
  exists i, (i <= k)%nat /\ ks !! i = Some true.
Proof.
  revert st ks k. induction rounds as [|rd rounds IH]; intros st ks k; cbn; [done|].
  intros Hr Hk Hal Hgo Hs Hwill. pose proof (reap_turn_result grace st rd) as Hw.
  destruct (reap_turn grace st rd) as [r'|st' b] eqn:Et; [by rewrite (Hgo 0%nat rd) in Hw; [|lia|]|].
  destruct (reap grace st' rounds) as [ks' r'] eqn:E. injection Hr as <- ->. destruct b; [by exists 0%nat; split; [lia|]|].
  destruct k as [|k].
  - injection Hk as ->. destruct (reap_turn_again _ _ _ _ _ Et) as [(He & _)|(_ & _ & _ & Hb)]; [congruence|].
    assert (false = true); [|done]. apply Hb. split; [done|]. unfold armed.
    destruct Hwill as [(d & -> & Hle)|(-> & j & rdj & Hj & Hrd & _ & Hf & Hb')]; [by exists d|].
    replace j with 0%nat in * by lia. injection Hrd as ->. rewrite Hf. eexists; split; [done|]. by apply (Hb' 0%nat).
  - destruct (IH st' ks' k E Hk Hal) as (i & Hi & Hki); [| |by eapply will_arm_next|exists (S i); split; [lia|done]].
    + intros i rd' Hi. apply (Hgo (S i)). lia.
    + destruct (reap_turn_again _ _ _ _ _ Et) as [(_ & -> & _)|(_ & _ & -> & _)]; [done|by rewrite Hs].
Qed.

(** A plugin that ignores its signal is killed.  Once the loop has seen a
    forwarded signal, and a round in which the plugin is still running comes
    at least the grace period later on a clock that never runs backwards, that
    round or an earlier one has sent SIGKILL. *)
Theorem reap_escalates grace rounds ks r j k rdj rdk :
  reap grace reap_new rounds = (ks, r) ->
  rounds !! j = Some rdj -> rd_wait rdj = WAlive -> rd_forwarded rdj = true ->
  (j <= k)%nat -> rounds !! k = Some rdk -> rd_wait rdk = WAlive ->
  (forall i rd, (i <= k)%nat -> rounds !! i = Some rd -> wait_result (rd_wait rd) = None) ->
  (forall i i' rd rd', (i <= i')%nat -> rounds !! i = Some rd -> rounds !! i' = Some rd' -> rd_now_arm rd <= rd_now_arm rd') ->
  rd_now_arm rdj + grace <= rd_now_check rdk ->
  exists i, (i <= k)%nat /\ ks !! i = Some true.
Proof.
  intros Hr Hj Haj Hf Hjk Hk Hak Hgo Hmono Hle. apply (reap_due _ _ _ _ _ _ _ Hr Hk Hak Hgo); [done|].
  right. split; [done|]. exists j, rdj. split_and!; [done..|]. intros i rd Hi Hrd.
  pose proof (Hmono i j rd rdj Hi Hrd Hj). lia.
Qed.

(** The configured grace period is the shim's.  Through the environment
    the supervisor builds, the shim of a sandboxed plugin waits exactly the
    configured seconds before it escalates; a plugin configured with none,
    under a kernel that has no such variable itself, gets five. *)
Theorem shim_grace_roundtrip inherited sock data cfg :
  sandbox cfg = true -> 0 <= grace_seconds cfg <= u64_max -> inherited !! "VYN_SHIM_GRACE_SECS" = None ->
  ("VYN_SHIM_GRACE_SECS" ∉ (env_pairs (cfg_env cfg)).*1) ->
  shim_grace_secs (spawn_env inherited sock data cfg) = (if 0 <? grace_seconds cfg then grace_seconds cfg else 5).
Proof.
  intros Hsb Hg Hin Hn. unfold shim_grace_secs, spawn_env, spawn_vars, shim_vars. rewrite Hsb.
  set (fsv := if max_fs_access cfg <>? FsFull then _ else _). set (dd := match data with Some _ => _ | None => _ end).
  assert ("VYN_SHIM_GRACE_SECS" ∉ (fsv ++ [("VYN_SOCKET_PATH", sock)] ++ dd ++ env_pairs (cfg_env cfg)).*1) as Hrest.
  { rewrite !fmap_app, !elem_of_app. unfold fsv, dd. destruct (_ <>? _), data; set_solver. }
  destruct (0 <? grace_seconds cfg) eqn:Hpos; cbn [app]; rewrite <- ?app_assoc.
  - pose proof (foldl_set_env_last [] _ inherited _ (show (grace_seconds cfg)) Hrest) as Hl. cbn [app] in Hl.
    rewrite Hl. cbn. by rewrite parse_u64_show.
  - by rewrite foldl_set_env_notin, Hin.
Qed.

(** ** Concrete runs *)
Module ShimRuns.

(** Nothing fails, and the plugin announces itself. *)
Definition fine (vars : ProcEnv) : ShimEnv :=
  mkShimEnv vars (fun _ => None) (fun _ => None) None None (Readable (Ok [82])) 4711.

(** The same, on a kernel that refuses the ruleset. *)
Definition no_landlock (vars : ProcEnv) : ShimEnv :=
  mkShimEnv vars (fun _ => None) (fun c => match c with CLandlock _ => Some "Landlock not enforced" | _ => None end)
    None None (Readable (Ok [82])) 4711.

Definition vars : ProcEnv :=
  spawn_env ∅ "/run/vyn.sock" (Some "/data/plugins/notes") SandboxRuns.cfg.

Lemma shim_fail_closed_witness :
  (EvExec ∉ (shim_admit (no_landlock vars)).2) /\
  (EvPidLine 4711 ∈ (shim_admit (fine vars)).2 <-> (shim_admit (fine vars)).1 = Ok 4711) /\
  (shim_admit (fine vars)).1 = Ok 4711.
Proof.
  destruct (shim_fail_closed (fine vars) (shim_admit (fine vars)).1 (shim_admit (fine vars)).2) as (_ & _ & _ & Hpid & _);
    [apply surjective_pairing|].
  split_and!; [|apply Hpid|by vm_compute].
  intros Hx. destruct (shim_fail_closed (no_landlock vars) (shim_admit (no_landlock vars)).1 (shim_admit (no_landlock vars)).2)
    as (Hb & _ & Hc & _); [apply surjective_pairing|]. destruct (Hb Hx) as (before & rest & Hev & _ & Hsub).
  destruct (from_env (sh_vars (no_landlock vars))) as [fr|] eqn:Hfr; [|vm_compute in Hfr; discriminate Hfr].
  assert (EvChild (CLandlock fr) ∈ (shim_admit (no_landlock vars)).2) as Hin; [|discriminate (Hc _ Hin)].
  rewrite Hev. apply elem_of_app. left. eapply elem_of_submseteq; [|by apply sublist_submseteq].
  unfold confinement. rewrite Hfr. set_solver.
Defined.

Lemma shim_enforces_witness :
  exists before after rest, (shim_admit (fine vars)).2 = before ++ [EvChild (CLandlock
      (mkRestriction FsReadOnly ["/usr/share/dict"] ["/tmp/notes"; "/data/plugins/notes"]));
      EvChild CSeccomp] ++ after ++ EvExec :: rest /\ (EvExec ∉ before ++ after).
Proof.
  apply (shim_enforces_config (fine vars) (shim_admit (fine vars)).1 (shim_admit (fine vars)).2 ∅ "/run/vyn.sock"
           (Some "/data/plugins/notes") SandboxRuns.cfg).
  - apply surjective_pairing.
  - reflexivity.
  - reflexivity.
  - done.
  - repeat constructor; done.
  - repeat constructor; done.
  - exact SandboxRuns.cfg_names.
  - vm_compute. repeat first [by left|right].
Defined.

(** A plugin that ignores its signal, polled every two seconds. *)
Definition stubborn : list Round :=
  [mkRound WAlive false 0 0; mkRound WAlive true 2 2; mkRound WEintr true 3 3; mkRound WAlive true 4 4;
   mkRound WAlive true 6 6; mkRound WAlive true 8 8; mkRound (WSignaled SIGKILL_NO) true 10 10].

Lemma reap_once_witness :
  reap 5 reap_new stubborn = ([false; false; false; false; false; true], Some (Ok 137)) /\
  exists rdk, stubborn !! 5%nat = Some rdk /\ rd_wait rdk = WAlive /\ grace_passed 5 stubborn 5 rdk.
Proof.
  split; [by vm_compute|].
  destruct (reap_escalates_once 5 stubborn [false; false; false; false; false; true] (Some (Ok 137)) eq_refl) as [Hk _].
  by apply (Hk 5%nat).
Defined.

Lemma reap_escalates_witness : exists i, (i <= 5)%nat /\ (reap 5 reap_new stubborn).1 !! i = Some true.
Proof.
  apply (reap_escalates 5 stubborn (reap 5 reap_new stubborn).1 (reap 5 reap_new stubborn).2 1 5
           (mkRound WAlive true 2 2) (mkRound WAlive true 8 8)); try done; [lia| |].
  - intros i rd Hi Hrd. destruct i as [|[|[|[|[|[|i]]]]]]; try lia; by injection Hrd as <-.
  - intros i i' rd rd' Hi Hrd Hrd'.
    destruct i as [|[|[|[|[|[|[|i]]]]]]]; try done; injection Hrd as <-;
      destruct i' as [|[|[|[|[|[|[|i']]]]]]]; try done; try lia; injection Hrd' as <-; cbn; lia.
Defined.

Lemma shim_grace_witness :
  shim_grace_secs (spawn_env ∅ "/run/vyn.sock" None SandboxRuns.cfg) = 5.
Proof.
  apply (shim_grace_roundtrip ∅ "/run/vyn.sock" None SandboxRuns.cfg); [done|split; by vm_compute|done|].
  change ((env_pairs (cfg_env SandboxRuns.cfg)).*1) with ["LANG"]. set_solver.
Defined.

End ShimRuns.
