(* ===== verification/Cgroup.v ===== *)
(** * Process limits of a plugin ([src/plugins/runner.rs])

    The per-plugin cgroup scope prepared before a spawn, and what the child
    does to itself before it executes: namespaces, the join of that scope and
    the address space limit.  The operating system is a parameter: an answer
    to each call, which may depend on everything asked before.  A run is the
    history of calls with their answers. *)

From S2P Require Import Prelude Wire Text Sandbox Table.

Open Scope Z_scope.

Inductive Namespace := NewUser | NewNet.

Inductive SysOp :=
| OpIsFile (p : string)
| OpRead (p : string)
| OpMkdir (p : string)              (** [create_dir_all] *)
| OpWrite (p s : string)
| OpRmdir (p : string)
| OpUnshare (n : Namespace)
| OpRlimitAs (bytes : Z).           (** soft and hard limit *)

Abbreviation Ans := (Result string string).
Abbreviation Hist := (list (SysOp * Ans)).
Abbreviation Sys := (list (SysOp * Result string string) -> SysOp -> Result string string).

(** [str::split_whitespace], on the encoded characters. *)
Definition flush (cur : bytes) : list string :=
  match cur with [] => [] | _ => [bytes_string (rev cur)] end.

Fixpoint ws_words (cur b : bytes) : list string :=
  match b with
  | [] => flush cur
  | x :: r =>
      if ws1 x then flush cur ++ ws_words [] r
      else match r with
           | [] => ws_words (x :: cur) r
           | y :: r2 =>
               if ws2 x y then flush cur ++ ws_words [] r2
               else match r2 with
                    | [] => ws_words (x :: cur) r
                    | z :: r3 => if ws3 x y z then flush cur ++ ws_words [] r3 else ws_words (x :: cur) r
                    end
           end
  end.

Definition split_whitespace (s : string) : list string := ws_words [] (string_bytes s).

Definition nl (s : string) : string := s +:+ String NL EmptyString.

(** ** Finding the delegated cgroup *)

(** The [Normal] components of a path. *)
Definition normal_parts (p : string) : list string :=
  filter (fun c => c <> EmptyString /\ c <> "." /\ c <> "..") (split_char "/" p).

Fixpoint ancestors_from (acc : string) (parts : list string) : list string :=
  match parts with
  | [] => []
  | c :: parts => let acc := path_join acc c in acc :: ancestors_from acc parts
  end.

Definition ancestor_paths (self_path : string) : list string :=
  "/" :: ancestors_from "/" (normal_parts self_path).

Fixpoint find_map {A B} (f : A -> option B) (l : list A) : option B :=
  match l with
  | [] => None
  | a :: l => match f a with Some b => Some b | None => find_map f l end
  end.

Definition cgroup_of (contents : string) : option string := find_map parse_cgroup_v2_line (str_lines contents).

Definition CGROUP_MOUNT : string := "/sys/fs/cgroup".
Definition VYN_CGROUP_DIR : string := "vyn".
Definition SUBTREE_CONTROL : string := "cgroup.subtree_control".

(** [mount.join(ancestor.strip_prefix("/").unwrap_or(&ancestor))] *)
Definition cgroup_dir (ancestor : string) : string :=
  path_join CGROUP_MOUNT (default ancestor (strip_prefix "/" ancestor)).

Definition container (dir : string) : string := path_join dir VYN_CGROUP_DIR.
Definition scope_dir (plugin_id dir : string) : string := path_join (container dir) (sanitize_plugin_id plugin_id).

Definition lists_pids (ctl : string) : bool := "pids" ∈? split_whitespace ctl.

Section Calls.
Context (sys : Sys).

Abbreviation IO := (State (list (SysOp * Result string string))).

Definition call (o : SysOp) : IO Ans := fun h => (sys h o, h ++ [(o, sys h o)]).

Definition cgroup_relative_path : IO (option string) :=
  r ← call (OpRead "/proc/self/cgroup");
  mret (match r with Ok contents => cgroup_of contents | Err _ => None end).

Definition has_pids_controller (dir : string) : IO bool :=
  r ← call (OpRead (path_join dir SUBTREE_CONTROL));
  mret (match r with Ok ctl => lists_pids ctl | Err _ => false end).

Definition enable_pids_controller (dir : string) : IO Ans :=
  r ← call (OpRead (path_join dir SUBTREE_CONTROL));
  match r with
  | Err e => mret (Err e)
  | Ok ctl => if lists_pids ctl then mret (Ok EmptyString)
              else call (OpWrite (path_join dir SUBTREE_CONTROL) (nl "+pids"))
  end.

(** The end of a round: the scope and its limit. *)
Definition make_scope (plugin_id : string) (max_procs : Z) (dir : string) : IO (option string) :=
  scoped ← call (OpMkdir (scope_dir plugin_id dir));
  if is_err scoped then mret None
  else
    limited ← call (OpWrite (path_join (scope_dir plugin_id dir) "pids.max") (nl (show max_procs)));
    if is_ok limited then mret (Some (scope_dir plugin_id dir))
    else _ ← call (OpRmdir (scope_dir plugin_id dir)); mret None.

(** One round of the probing loop: [Some] returns, [None] continues. *)
Definition probe (plugin_id : string) (max_procs : Z) (dir : string) : IO (option string) :=
  live ← has_pids_controller dir;
  if negb live then mret None
  else
    made ← call (OpMkdir (container dir));
    if is_err made then mret None
    else
      enabled ← enable_pids_controller (container dir);
      if is_err enabled then mret None
      else
        make_scope plugin_id max_procs dir.

Fixpoint probe_all (plugin_id : string) (max_procs : Z) (dirs : list string) : IO (option string) :=
  match dirs with
  | [] => mret None
  | dir :: dirs =>
      r ← probe plugin_id max_procs dir;
      match r with Some s => mret (Some s) | None => probe_all plugin_id max_procs dirs end
  end.

Definition prepare_pids_cgroup (plugin_id : string) (max_procs : Z) : IO (option string) :=
  v2 ← call (OpIsFile (path_join CGROUP_MOUNT "cgroup.controllers"));
  if is_err v2 then mret None
  else
    self ← cgroup_relative_path;
    match self with
    | None => mret None
    | Some self => probe_all plugin_id max_procs (map cgroup_dir (ancestor_paths self))
    end.

(** Removal of a scope: every error is only reported. *)
Definition cleanup_pids_cgroup (path : string) : IO unit := _ ← call (OpRmdir path); mret tt.

(** ** The child, before it executes *)

Definition join_pids_cgroup (pid : Z) (path : string) : IO Ans :=
  call (OpWrite (path_join path "cgroup.procs") (nl (show pid))).

(** Address space in bytes, in the wrapping arithmetic of a release build. *)
Definition vmem_bytes (max_vmem_mb : Z) : Z := (max_vmem_mb * 1024 * 1024) mod 2 ^ 64.

Definition unit_of (r : Ans) : Result string unit := match r with Ok _ => Ok tt | Err e => Err e end.

Definition apply_resource_limits (pid max_procs max_vmem_mb : Z) (pids_cgroup : option string)
    : IO (Result string unit) :=
  _ ← match pids_cgroup with Some path => r ← join_pids_cgroup pid path; mret (is_ok r) | None => mret false end;
  if max_vmem_mb =? 0 then mret (Ok tt)
  else r ← call (OpRlimitAs (vmem_bytes max_vmem_mb)); mret (unit_of r).

(** The calls of a list in order, up to the first error. *)
Fixpoint call_all (ops : list SysOp) : IO (Result string unit) :=
  match ops with
  | [] => mret (Ok tt)
  | o :: ops => r ← call o; match r with Ok _ => call_all ops | Err e => mret (Err e) end
  end.

Definition userns_ops (uid gid : Z) : list SysOp :=
  [OpUnshare NewUser; OpWrite "/proc/self/setgroups" (nl "deny");
   OpWrite "/proc/self/uid_map" (nl ("0 " +:+ show uid +:+ " 1"));
   OpWrite "/proc/self/gid_map" (nl ("0 " +:+ show gid +:+ " 1"))].

Definition namespace_ops (uid gid : Z) : list SysOp :=
  (if uid =? 0 then [] else userns_ops uid gid) ++ [OpUnshare NewNet].

Definition sandbox_pre_exec (uid gid pid max_procs max_vmem_mb : Z) (pids_cgroup : option string)
    : IO (Result string unit) :=
  r ← call_all (namespace_ops uid gid);
  match r with
  | Err e => mret (Err e)
  | Ok _ => apply_resource_limits pid max_procs max_vmem_mb pids_cgroup
  end.

(** The hook the supervisor installs; [skip] is [VYN_DEBUG_SKIP_RLIMITS]. *)
Definition spawn_pre_exec (skip : bool) (uid gid pid max_procs max_vmem_mb : Z) (sandboxed : bool)
    (pids_cgroup : option string) : IO (Result string unit) :=
  if skip then mret (Ok tt)
  else if sandboxed then sandbox_pre_exec uid gid pid max_procs max_vmem_mb pids_cgroup
  else apply_resource_limits pid max_procs max_vmem_mb pids_cgroup.

Definition DEFAULT_MAX_PROCS : Z := 1024.
Definition DEFAULT_MAX_VMEM_MB : Z := 2048.

(** What a spawn does for isolation: the scope in the supervisor, the hook in
    the child; [child_ids] are its user, group and process ids. *)
Definition debug_on (vars : ProcEnv) (name : string) : bool :=
  match vars !! name with Some v => v ==? "1" | None => false end.

Definition spawn_isolate (vars : ProcEnv) (cfg : PluginConfig) (uid gid pid : Z)
    : IO (option string * Result string unit) :=
  let mp := default DEFAULT_MAX_PROCS (max_procs cfg) in
  let mv := default DEFAULT_MAX_VMEM_MB (max_vmem_mb cfg) in
  cg ← (if debug_on vars "VYN_DEBUG_SKIP_CGROUP" then mret None
        else prepare_pids_cgroup (cfg_plugin_id cfg) mp);
  r ← spawn_pre_exec (debug_on vars "VYN_DEBUG_SKIP_RLIMITS") uid gid pid mp mv (sandbox cfg) cg;
  mret (cg, r).

End Calls.

(** ** Reasoning about runs

    [adds m h Q]: run after [h], [m] only adds calls to the history, and [Q]
    holds of its result and of the calls it added. *)

Definition adds {A} (m : State Hist A) (h : Hist) (Q : A -> Hist -> Prop) : Prop :=
  exists l, exec m h = h ++ l /\ Q (eval m h) l.

Lemma adds_mono {A} (m : State Hist A) h (Q Q' : A -> Hist -> Prop) :
  adds m h Q -> (forall a l, Q a l -> Q' a l) -> adds m h Q'.
Proof. intros (l & He & HQ) HQQ. exists l. split; [done|by apply HQQ]. Qed.

Lemma adds_ret {A} (a : A) h (Q : A -> Hist -> Prop) : Q a [] -> adds (mret a) h Q.
Proof. intros HQ. exists []. rewrite app_nil_r. by split. Qed.

Lemma adds_call sys o h (Q : Ans -> Hist -> Prop) :
  (forall a, sys h o = a -> Q a [(o, a)]) -> adds (call sys o) h Q.
Proof. intros HQ. exists [(o, sys h o)]. split; [done|by apply HQ]. Qed.

Lemma adds_bind {A B} (m : State Hist A) (f : A -> State Hist B) h (Q : B -> Hist -> Prop) :
  adds m h (fun a l => adds (f a) (h ++ l) (fun b l' => Q b (l ++ l'))) -> adds (m ≫= f) h Q.
Proof.
  intros (l & He & l' & He' & HQ). exists (l ++ l'). rewrite exec_bind, eval_bind, He, app_assoc. by split.
Qed.

Lemma adds_call_bind {B} sys o (f : Ans -> State Hist B) h (Q : B -> Hist -> Prop) :
  (forall a, sys h o = a -> adds (f a) (h ++ [(o, a)]) (fun b l' => Q b ((o, a) :: l'))) ->
  adds (call sys o ≫= f) h Q.
Proof. intros HQ. apply adds_bind, adds_call. exact HQ. Qed.

Lemma adds_run {A} (m : State Hist A) h (Q : A -> Hist -> Prop) r h' :
  adds m h Q -> m h = (r, h') -> exists l, h' = h ++ l /\ Q r l.
Proof. intros (l & He & HQ) Hm. unfold exec, eval in *. rewrite Hm in *. by exists l. Qed.

(** ** The scope *)

(** Calls that change the file system, with the path they change. *)
Definition changes (o : SysOp) : option string :=
  match o with
  | OpMkdir p | OpWrite p _ | OpRmdir p => Some p
  | OpIsFile _ | OpRead _ | OpUnshare _ | OpRlimitAs _ => None
  end.

(** The four paths a probe of [dir] may change. *)
Definition scope_paths (plugin_id dir : string) : list string :=
  [container dir; path_join (container dir) SUBTREE_CONTROL; scope_dir plugin_id dir;
   path_join (scope_dir plugin_id dir) "pids.max"].

Definition confined (plugin_id : string) (dirs : list string) (l : Hist) : Prop :=
  forall o a p, (o, a) ∈ l -> changes o = Some p -> exists dir, dir ∈ dirs /\ p ∈ scope_paths plugin_id dir.

(** The limit of [max_procs] was written somewhere. *)
Definition limit_written (max_procs : Z) (l : Hist) : Prop :=
  exists p a, (OpWrite p (nl (show max_procs)), Ok a) ∈ l.

(** Children of [c] have the pids controller. *)
Definition controller_live (c : string) (l : Hist) : Prop :=
  (exists ctl, (OpRead (path_join c SUBTREE_CONTROL), Ok ctl) ∈ l /\ lists_pids ctl = true) \/
  (exists a, (OpWrite (path_join c SUBTREE_CONTROL) (nl "+pids"), Ok a) ∈ l).

(** The calls that set up a scope of [dir]: the controller is live in its
    container, the scope exists and its limit is written, last. *)
Definition scope_ready (plugin_id : string) (max_procs : Z) (dir : string) (l : Hist) : Prop :=
  exists l0 a b, l = l0 ++ [(OpMkdir (scope_dir plugin_id dir), Ok a);
      (OpWrite (path_join (scope_dir plugin_id dir) "pids.max") (nl (show max_procs)), Ok b)] /\
    controller_live (container dir) l0.

Lemma scope_ready_app plugin_id max_procs dir l1 l2 :
  scope_ready plugin_id max_procs dir l2 -> scope_ready plugin_id max_procs dir (l1 ++ l2).
Proof.
  intros (l0 & a & b & -> & Hc). exists (l1 ++ l0), a, b. rewrite <- app_assoc. split; [done|].
  destruct Hc as [(ctl & Hin & ?)|(x & Hin)]; [left; exists ctl|right; exists x]; rewrite elem_of_app; tauto.
Qed.

Lemma confined_app plugin_id dirs l1 l2 :
  confined plugin_id dirs l1 -> confined plugin_id dirs l2 -> confined plugin_id dirs (l1 ++ l2).
Proof. intros H1 H2 o a p [Hin|Hin]%elem_of_app; [by apply (H1 o a)|by apply (H2 o a)]. Qed.

Lemma confined_mono plugin_id dirs dirs' l :
  dirs ⊆ dirs' -> confined plugin_id dirs l -> confined plugin_id dirs' l.
Proof. intros Hs Hc o a p Hin Hp. destruct (Hc o a p Hin Hp) as (dir & ? & ?). exists dir. set_solver. Qed.

Lemma confined_Forall plugin_id dir l :
  Forall (fun e => match changes e.1 with Some p => p ∈ scope_paths plugin_id dir | None => True end) l ->
  confined plugin_id [dir] l.
Proof.
  rewrite Forall_forall. intros Hl o a p Hin Hp. specialize (Hl (o, a) Hin). cbn in Hl. rewrite Hp in Hl.
  exists dir. split; [left|done].
Qed.

(** The text [+pids] is no number. *)
Lemma plus_pids_not_limit n : 0 <= n -> nl "+pids" <> nl (show n).
Proof.
  intros Hn Heq. destruct (show_head n Hn) as (a & s & Hs & Ha). rewrite Hs in Heq. injection Heq as Hpa _.
  rewrite <- Hpa in Ha. change (N_of_ascii "+") with 43%N in Ha. lia.
Qed.

Lemma limit_not_written max_procs l :
  Forall (fun e => forall p a, e <> (OpWrite p (nl (show max_procs)), Ok a)) l -> ~ limit_written max_procs l.
Proof. rewrite Forall_forall. intros Hl (p & a & Hin). by apply (Hl _ Hin p a). Qed.

(** What one probe promises. *)
Definition probed (plugin_id : string) (max_procs : Z) (dirs : list string) (r : option string) (l : Hist) : Prop :=
  confined plugin_id dirs l /\
  match r with
  | Some s => exists dir, dir ∈ dirs /\ s = scope_dir plugin_id dir /\ scope_ready plugin_id max_procs dir l
  | None => ~ limit_written max_procs l
  end.

(** Calls that change only what they may and write no limit. *)
Definition quiet (plugin_id : string) (max_procs : Z) (dir : string) (e : SysOp * Ans) : Prop :=
  match changes e.1 with Some p => p ∈ scope_paths plugin_id dir | None => True end /\
  forall p a, e <> (OpWrite p (nl (show max_procs)), Ok a).

Lemma quiet_probed plugin_id max_procs dir l :
  Forall (quiet plugin_id max_procs dir) l -> probed plugin_id max_procs [dir] None l.
Proof.
  intros Hl. split; [apply confined_Forall|apply limit_not_written]; (eapply Forall_impl; [exact Hl|]); by intros e [? ?].
Qed.

Lemma quiet_confined plugin_id max_procs dir l :
  Forall (quiet plugin_id max_procs dir) l -> confined plugin_id [dir] l.
Proof. intros Hl. by apply quiet_probed in Hl as [? _]. Qed.

(** A call that is not a successful write of the limit. *)
Ltac quiet_call :=
  split; [cbn; unfold scope_paths; set_solver|intros ? ? [=]; subst; first [done|by eapply plus_pids_not_limit]].

Lemma enable_spec sys plugin_id max_procs dir h :
  0 <= max_procs ->
  adds (enable_pids_controller sys (container dir)) h (fun r l =>
    Forall (quiet plugin_id max_procs dir) l /\ (is_ok r = true -> controller_live (container dir) l)).
Proof.
  intros Hmp. unfold enable_pids_controller. apply adds_call_bind. intros [ctl|e] _.
  2: { apply adds_ret. split; [|done]. constructor; [quiet_call|constructor]. }
  destruct (lists_pids ctl) eqn:Hl.
  - apply adds_ret. split; [constructor; [quiet_call|constructor]|]. intros _. left. exists ctl. split; [left|done].
  - apply adds_call. intros a _. split; [repeat (constructor; [quiet_call|]); constructor|].
    destruct a as [x|]; [|done]. intros _. right. exists x. right; left.
Qed.

Lemma make_scope_spec sys plugin_id max_procs dir h :
  0 <= max_procs ->
  adds (make_scope sys plugin_id max_procs dir) h (fun r l =>
    match r with
    | None => Forall (quiet plugin_id max_procs dir) l
    | Some s => s = scope_dir plugin_id dir /\ exists a b, l = [(OpMkdir (scope_dir plugin_id dir), Ok a);
        (OpWrite (path_join (scope_dir plugin_id dir) "pids.max") (nl (show max_procs)), Ok b)]
    end).
Proof.
  intros Hmp. apply adds_call_bind. intros [a|e] _; cbn [is_err is_ok negb].
  2: { apply adds_ret. constructor; [quiet_call|constructor]. }
  apply adds_call_bind. intros [b|e] _; cbn [is_ok].
  - apply adds_ret. split; [done|]. by exists a, b.
  - apply adds_call_bind. intros c _. apply adds_ret. repeat (constructor; [quiet_call|]). constructor.
Qed.

Lemma probe_spec sys plugin_id max_procs dir h :
  0 <= max_procs -> adds (probe sys plugin_id max_procs dir) h (probed plugin_id max_procs [dir]).
Proof.
  intros Hmp. unfold probe, has_pids_controller. apply adds_bind, adds_call_bind. intros c1 _. apply adds_ret. cbn [app].
  destruct (match c1 with Ok ctl => lists_pids ctl | Err _ => false end); cbn [negb].
  2: { apply adds_ret, quiet_probed. constructor; [quiet_call|constructor]. }
  apply adds_call_bind. intros [c2|c2] _; cbn [is_err is_ok negb].
  2: { apply adds_ret, quiet_probed. repeat (constructor; [quiet_call|]). constructor. }
  apply adds_bind. eapply adds_mono; [by apply (enable_spec sys plugin_id max_procs)|]. intros r l [Hq Hlive].
  set (l0 := [(OpRead (path_join dir SUBTREE_CONTROL), c1)] ++ (OpMkdir (container dir), Ok c2) :: l).
  assert (Forall (quiet plugin_id max_procs dir) l0) as Hq0 by (repeat (constructor; [quiet_call|]); done).
  destruct r as [r|]; cbn [is_err is_ok negb].
  2: { apply adds_ret. rewrite app_nil_r. by apply quiet_probed. }
  eapply adds_mono; [by apply make_scope_spec|].
  intros [s|] l' Hs; cbn [app].
  - destruct Hs as (-> & a & b & ->). split.
    + apply (confined_app _ _ l0); [by eapply quiet_confined|]. apply confined_Forall. cbn. unfold scope_paths.
      repeat constructor; set_solver.
    + exists dir. split_and!; [left|done|]. apply (scope_ready_app _ _ _ [_; _]). exists l, a, b. auto.
  - change (probed plugin_id max_procs [dir] None (l0 ++ l')). apply quiet_probed. by apply Forall_app.
Qed.

Lemma limit_written_app max_procs l1 l2 :
  limit_written max_procs (l1 ++ l2) -> limit_written max_procs l1 \/ limit_written max_procs l2.
Proof. intros (p & a & [Hin|Hin]%elem_of_app); [left|right]; by exists p, a. Qed.

Lemma probe_all_spec sys plugin_id max_procs dirs h :
  0 <= max_procs -> adds (probe_all sys plugin_id max_procs dirs) h (probed plugin_id max_procs dirs).
Proof.
  intros Hmp. revert h. induction dirs as [|dir dirs IH]; intros h; cbn [probe_all].
  { apply adds_ret. split; [by intros o a p ?%elem_of_nil|]. by intros (p & a & ?%elem_of_nil). }
  apply adds_bind. eapply adds_mono; [by apply probe_spec|]. intros [s|] l [Hc Hr].
  - apply adds_ret. rewrite app_nil_r. split; [eapply confined_mono; [|exact Hc]; set_solver|].
    destruct Hr as (d & Hd & ? & ?). exists d. split; [set_solver|done].
  - eapply adds_mono; [apply IH|]. intros r l' [Hc' Hr']. split.
    { apply confined_app; [eapply confined_mono; [|exact Hc]|eapply confined_mono; [|exact Hc']]; set_solver. }
    destruct r as [s|]; [|by intros [?|?]%limit_written_app].
    destruct Hr' as (d & Hd & ? & ?). exists d. split_and!; [by right|done|by apply scope_ready_app].
Qed.

(** *** Paths *)

Lemma str_app_nil_r (s : string) : s +:+ EmptyString = s.
Proof. induction s as [|a s IH]; [done|]. change (String a (s +:+ EmptyString) = String a s). by rewrite IH. Qed.

Lemma ends_with_slash_app s a t : ends_with_slash (s +:+ String a t) = ends_with_slash (String a t).
Proof.
  induction s as [|b s IH]; [done|]. change (String b s +:+ String a t) with (String b (s +:+ String a t)).
  cbn [ends_with_slash]. destruct (s +:+ String a t) eqn:E; [by destruct s|]. exact IH.
Qed.

(** Joining a relative name below a path that does not end in a slash. *)
Lemma path_join_below s a t n :
  starts_with "/" n = false -> ends_with_slash (String a t) = false ->
  path_join (s +:+ String a t) n = (s +:+ String a t) +:+ "/" +:+ n.
Proof.
  intros Hn Ht. unfold path_join. rewrite Hn, ends_with_slash_app, Ht, orb_false_r.
  unfold is_empty. rewrite bool_decide_eq_false_2; [done|]. by destruct s.
Qed.

Lemma container_end dir : exists base, container dir = base +:+ "vyn".
Proof. unfold container, path_join, VYN_CGROUP_DIR. cbn. destruct (_ || _); [by exists dir|]. exists (dir +:+ "/"). by rewrite str_app_assoc. Qed.

Lemma starts_with_slash n : contains_char "/" n = false -> starts_with "/" n = false.
Proof. destruct n as [|a n]; [done|]. cbn. unfold starts_with. cbn. intros [Ha _]%orb_false_elim. by rewrite bool_decide_eq_false in Ha; rewrite decide_False. Qed.

Lemma no_slash_end n : contains_char "/" n = false -> ends_with_slash n = false.
Proof.
  induction n as [|a n IH]; [done|]. cbn [contains_char]. intros [Ha Hn]%orb_false_elim. cbn [ends_with_slash].
  destruct n; [exact Ha|by apply IH].
Qed.

(** The scope is one fresh component below the container, whatever the plugin
    is called. *)
Lemma scope_dir_below plugin_id dir :
  scope_dir plugin_id dir = container dir +:+ "/" +:+ sanitize_plugin_id plugin_id.
Proof.
  destruct (container_end dir) as [base Hb]. unfold scope_dir. rewrite Hb. apply path_join_below; [|done].
  apply starts_with_slash. by destruct (sanitize_plugin_id_safe plugin_id) as (_ & _ & _ & _ & Hs & _).
Qed.

Lemma scope_file_below plugin_id dir :
  path_join (scope_dir plugin_id dir) "pids.max" = scope_dir plugin_id dir +:+ "/pids.max".
Proof.
  destruct (sanitize_plugin_id_safe plugin_id) as (Hne & _ & _ & _ & Hs & _). rewrite scope_dir_below.
  destruct (sanitize_plugin_id plugin_id) as [|a n]; [done|]. rewrite <- (str_app_assoc _ "/").
  apply path_join_below; [done|by apply no_slash_end].
Qed.

(** Everything below [container] a probe may change. *)
Definition scope_suffixes (plugin_id : string) : list string :=
  let name := sanitize_plugin_id plugin_id in
  [EmptyString; "/cgroup.subtree_control"; "/" +:+ name; "/" +:+ name +:+ "/pids.max"].

Lemma scope_paths_below plugin_id dir p :
  p ∈ scope_paths plugin_id dir -> exists rest, rest ∈ scope_suffixes plugin_id /\ p = container dir +:+ rest.
Proof.
  unfold scope_paths. rewrite scope_file_below, scope_dir_below. destruct (container_end dir) as [base Hb].
  replace (path_join (container dir) SUBTREE_CONTROL) with (container dir +:+ "/cgroup.subtree_control").
  2: { rewrite Hb. symmetry. by apply path_join_below. }
  intros Hp. repeat (apply elem_of_cons in Hp as [->|Hp]); [..|by apply elem_of_nil in Hp].
  - exists EmptyString. split; [left|]. by rewrite str_app_nil_r.
  - eexists; split; [right; left|done].
  - eexists; split; [right; right; left|done].
  - eexists; split; [right; right; right; left|]. by rewrite !str_app_assoc.
Qed.

(** Calls that change nothing, before a probe and alone. *)
Lemma probed_reads plugin_id max_procs dirs r l0 l :
  Forall (fun e => changes e.1 = None) l0 -> probed plugin_id max_procs dirs r l -> probed plugin_id max_procs dirs r (l0 ++ l).
Proof.
  rewrite Forall_forall. intros Hl0 [Hc Hr]. split.
  - apply confined_app; [|done]. intros o a p Hin Hp. specialize (Hl0 _ Hin). cbn in Hl0. congruence.
  - destruct r as [s|].
    + destruct Hr as (dir & ? & ? & ?). exists dir. split_and!; [done..|by apply scope_ready_app].
    + intros [(p & a & Hin)|?]%limit_written_app; [by specialize (Hl0 _ Hin)|done].
Qed.

Lemma nothing_probed plugin_id max_procs dirs l :
  Forall (fun e => changes e.1 = None) l -> probed plugin_id max_procs dirs None l.
Proof.
  intros Hl. rewrite <- (app_nil_r l). apply probed_reads; [done|]. split; [by intros o a p ?%elem_of_nil|].
  by intros (p & a & ?%elem_of_nil).
Qed.

(** The per-plugin process limit.  Preparing the scope of a plugin
    changes nothing outside the [vyn] directory of an ancestor of the
    kernel's own cgroup, and there only that directory, its controllers, and
    one component named after the plugin, which never escapes it.  When a
    scope is returned, it is such a component, the pids controller is live in
    its parent and the plugin's limit is in its [pids.max]; when none is
    returned, no limit was left written anywhere. *)
Theorem pids_scope_spec sys plugin_id max_procs h r h' :
  0 <= max_procs -> prepare_pids_cgroup sys plugin_id max_procs h = (r, h') ->
  exists l dirs, h' = h ++ l /\
    (dirs = [] \/ exists text self, (OpRead "/proc/self/cgroup", Ok text) ∈ l /\ cgroup_of text = Some self /\
       dirs = map cgroup_dir (ancestor_paths self)) /\
    (forall o a p, (o, a) ∈ l -> changes o = Some p ->
       exists dir rest, dir ∈ dirs /\ rest ∈ scope_suffixes plugin_id /\ p = container dir +:+ rest) /\
    match r with
    | Some s => exists dir, dir ∈ dirs /\ s = container dir +:+ "/" +:+ sanitize_plugin_id plugin_id /\
                  scope_ready plugin_id max_procs dir l
    | None => ~ limit_written max_procs l
    end.
Proof.
  intros Hmp Hr. set (known := fun (dirs : list string) (l : Hist) => dirs = [] \/ exists text self,
    (OpRead "/proc/self/cgroup", Ok text) ∈ l /\ cgroup_of text = Some self /\ dirs = map cgroup_dir (ancestor_paths self)).
  assert (adds (prepare_pids_cgroup sys plugin_id max_procs) h (fun r l =>
            exists dirs, known dirs l /\ probed plugin_id max_procs dirs r l)) as Ha.
  { unfold prepare_pids_cgroup, cgroup_relative_path. apply adds_call_bind. intros [v|v] _; cbn [is_err is_ok negb].
    2: { apply adds_ret. exists []. split; [by left|]. apply nothing_probed; by repeat constructor. }
    apply adds_bind, adds_call_bind. intros a _. apply adds_ret. destruct a as [text|e].
    2: { apply adds_ret. exists []. split; [by left|]. apply nothing_probed; by repeat constructor. }
    destruct (cgroup_of text) as [self|] eqn:Hself; [|apply adds_ret; exists []; split; [by left|apply nothing_probed; by repeat constructor]].
    eapply adds_mono; [by apply probe_all_spec|]. intros r' l [Hc Hp]. exists (map cgroup_dir (ancestor_paths self)). split.
    - right. exists text, self. split_and!; [right; left|done..].
    - apply (probed_reads _ _ _ _ [_; _]); [by repeat constructor|done]. }
  destruct (adds_run _ _ _ _ _ Ha Hr) as (l & -> & dirs & Hk & Hc & Hp). exists l, dirs. split_and!; [done|exact Hk| |].
  - intros o a p Hin Hch. destruct (Hc o a p Hin Hch) as (dir & Hd & Hsp).
    destruct (scope_paths_below _ _ _ Hsp) as (rest & ? & ?). by exists dir, rest.
  - destruct r as [s|]; [|done]. destruct Hp as (dir & Hd & -> & Hs). exists dir. by rewrite <- scope_dir_below.
Qed.

(** ** The child's own restrictions *)

(** [l] does the calls [ops] in order: all of them, every one but [may] fail
    answered well, or it ends at the error [e]. *)
Definition does (may : SysOp -> Prop) (ops : list SysOp) (r : Result string unit) (l : Hist) : Prop :=
  match r with
  | Ok _ => l.*1 = ops /\ (forall o e, (o, Err e) ∈ l -> may o)
  | Err e => exists l0 o rest, l = l0 ++ [(o, Err e)] /\ ops = (l0.*1) ++ o :: rest
  end.

Lemma does_app may ops1 ops2 l1 l2 r :
  does may ops1 (Ok tt) l1 -> does may ops2 r l2 -> does may (ops1 ++ ops2) r (l1 ++ l2).
Proof.
  intros [<- H1]. destruct r as [u|e].
  - intros [<- H2]. split; [by rewrite fmap_app|]. intros o e [?|?]%elem_of_app; [by apply (H1 o e)|by apply (H2 o e)].
  - intros (l0 & o & rest & -> & ->). exists (l1 ++ l0), o, rest. by rewrite fmap_app, <- !app_assoc.
Qed.

Lemma does_early may ops1 ops2 l e : does may ops1 (Err e) l -> does may (ops1 ++ ops2) (Err e) l.
Proof. intros (l0 & o & rest & -> & ->). exists l0, o, (rest ++ ops2). by rewrite <- app_assoc. Qed.

Lemma does_call may o a : does may [o] (unit_of a) [(o, a)].
Proof.
  destruct a as [x|e]; cbn; [split; [done|]; intros o' e Hin; by apply list_elem_of_singleton in Hin|by exists [], o, []].
Qed.

Lemma call_all_spec sys may ops h : adds (call_all sys ops) h (does may ops).
Proof.
  revert h. induction ops as [|o ops IH]; intros h; cbn [call_all]; [apply adds_ret; split; [done|by intros ? ? ?%elem_of_nil]|].
  apply adds_call_bind. intros a _. pose proof (does_call may o a) as Hd. destruct a as [x|e].
  - eapply adds_mono; [apply IH|]. intros r l Hr. by apply (does_app may [o] ops [(o, Ok x)] l).
  - apply adds_ret. by apply (does_early may [o] ops).
Qed.

(** The call by which the child enters its scope. *)
Definition join_ops (pid : Z) (cg : option string) : list SysOp :=
  match cg with Some path => [OpWrite (path_join path "cgroup.procs") (nl (show pid))] | None => [] end.

Definition rlimit_ops (max_vmem_mb : Z) : list SysOp :=
  if max_vmem_mb =? 0 then [] else [OpRlimitAs (vmem_bytes max_vmem_mb)].

Lemma limits_spec sys pid max_procs max_vmem_mb cg h :
  adds (apply_resource_limits sys pid max_procs max_vmem_mb cg) h
    (does (fun o => o ∈ join_ops pid cg) (join_ops pid cg ++ rlimit_ops max_vmem_mb)).
Proof.
  unfold apply_resource_limits. apply adds_bind.
  eapply (adds_mono _ _ (fun _ l => does (fun o => o ∈ join_ops pid cg) (join_ops pid cg) (Ok tt) l)).
  - destruct cg as [path|]; [|apply adds_ret; split; [done|by intros ? ? ?%elem_of_nil]].
    apply adds_call_bind. intros a _. apply adds_ret. split; [done|].
    intros o e ?%list_elem_of_singleton. simplify_eq. cbn. left.
  - intros _ l Hl. unfold rlimit_ops. destruct (max_vmem_mb =? 0).
    + apply adds_ret. apply does_app; [done|]. split; [done|by intros ? ? ?%elem_of_nil].
    + apply adds_call_bind. intros a _. apply adds_ret. apply does_app; [done|]. apply does_call.
Qed.

Lemma does_nil may : does may [] (Ok tt) [].
Proof. split; [done|by intros ? ? ?%elem_of_nil]. Qed.

(** A hook that was not switched off and succeeded: the namespaces first,
    none of their calls failed, then the scope and the limit. *)
Lemma hook_spec sys uid gid pid max_procs max_vmem_mb sandboxed cg h :
  adds (spawn_pre_exec sys false uid gid pid max_procs max_vmem_mb sandboxed cg) h (fun r l =>
    r = Ok tt -> exists l1 l2, l = l1 ++ l2 /\
      does (fun _ => False) (if sandboxed then namespace_ops uid gid else []) (Ok tt) l1 /\
      does (fun o => o ∈ join_ops pid cg) (join_ops pid cg ++ rlimit_ops max_vmem_mb) (Ok tt) l2).
Proof.
  unfold spawn_pre_exec. destruct sandboxed.
  - unfold sandbox_pre_exec. apply adds_bind.
    eapply adds_mono; [apply (call_all_spec sys (fun _ => False))|]. intros [[]|e] l Hl; [|by apply adds_ret].
    eapply adds_mono; [apply limits_spec|]. intros r l' Hr ->. by exists l, l'.
  - eapply adds_mono; [apply limits_spec|]. intros r l Hl ->. exists [], l. split_and!; [done|apply does_nil|done].
Qed.

Lemma does_ok may ops l o : does may ops (Ok tt) l -> o ∈ ops -> ~ may o -> exists a, (o, Ok a) ∈ l.
Proof.
  intros [<- Hl] ([o' [a|e]] & -> & Hin)%list_elem_of_fmap Hm; [by exists a|]. by apply Hl in Hin.
Qed.

Lemma does_tried may ops l o : does may ops (Ok tt) l -> o ∈ ops -> exists a, (o, a) ∈ l.
Proof. intros [<- _] ([o' a] & -> & Hin)%list_elem_of_fmap. by exists a. Qed.

Lemma vmem_bytes_exact mv : 0 <= mv < 2 ^ 44 -> vmem_bytes mv = mv * 2 ^ 20.
Proof. intros Hmv. unfold vmem_bytes. rewrite Z.mod_small; lia. Qed.

(** The scope a spawn prepared has its limit. *)
Lemma prepare_limits sys plugin_id max_procs h :
  0 <= max_procs ->
  adds (prepare_pids_cgroup sys plugin_id max_procs) h (fun r l => forall scope, r = Some scope ->
    exists a, (OpWrite (path_join scope "pids.max") (nl (show max_procs)), Ok a) ∈ l).
Proof.
  intros Hmp. unfold prepare_pids_cgroup, cgroup_relative_path. apply adds_call_bind.
  intros [v|v] _; cbn [is_err is_ok negb]; [|by apply adds_ret].
  apply adds_bind, adds_call_bind. intros a _. apply adds_ret. destruct a as [text|e]; [|by apply adds_ret].
  destruct (cgroup_of text); [|by apply adds_ret].
  eapply adds_mono; [by apply probe_all_spec|]. intros r l [_ Hr] scope ->.
  destruct Hr as (dir & _ & -> & l0 & a & b & -> & _). exists b. set_solver.
Qed.

(** A plugin runs isolated.  With the debugging switches off, a child
    whose preparation succeeded has entered every namespace its sandbox asks
    for, none of those calls having failed, has its address space limited to
    the configured size, and, when a scope was prepared, that scope carries
    the configured process limit and the child asked to enter it. *)
Theorem spawn_isolated sys vars cfg uid gid pid h cg h' :
  debug_on vars "VYN_DEBUG_SKIP_CGROUP" = false -> debug_on vars "VYN_DEBUG_SKIP_RLIMITS" = false ->
  0 <= default DEFAULT_MAX_PROCS (max_procs cfg) -> 0 < default DEFAULT_MAX_VMEM_MB (max_vmem_mb cfg) < 2 ^ 44 ->
  spawn_isolate sys vars cfg uid gid pid h = ((cg, Ok tt), h') ->
  exists l, h' = h ++ l /\
    (sandbox cfg = true -> forall o, o ∈ namespace_ops uid gid -> exists a, (o, Ok a) ∈ l) /\
    (exists a, (OpRlimitAs (default DEFAULT_MAX_VMEM_MB (max_vmem_mb cfg) * 2 ^ 20), Ok a) ∈ l) /\
    (forall scope, cg = Some scope ->
      (exists a, (OpWrite (path_join scope "pids.max") (nl (show (default DEFAULT_MAX_PROCS (max_procs cfg)))), Ok a) ∈ l) /\
      (exists a, (OpWrite (path_join scope "cgroup.procs") (nl (show pid)), a) ∈ l)).
Proof.
  intros Hc Hl Hmp Hmv Hr. unfold spawn_isolate in Hr. rewrite Hc, Hl in Hr. cbv zeta in Hr.
  set (mp := default DEFAULT_MAX_PROCS (max_procs cfg)) in *. set (mv := default DEFAULT_MAX_VMEM_MB (max_vmem_mb cfg)) in *.
  rewrite bind_run in Hr. destruct (prepare_limits sys (cfg_plugin_id cfg) mp h Hmp) as (l1 & He & Hlim).
  rewrite He in Hr. set (r1 := eval _ h) in *. rewrite bind_run in Hr.
  destruct (hook_spec sys uid gid pid mp mv (sandbox cfg) r1 (h ++ l1)) as (l2 & He2 & Hhook).
  rewrite He2 in Hr. apply pair_equal_spec in Hr as [Hr <-]. apply pair_equal_spec in Hr as [-> Hok].
  destruct (Hhook Hok) as (n & k & -> & Hns & Hk). exists (l1 ++ n ++ k). split_and!.
  - by rewrite <- !app_assoc.
  - intros Hsb o Ho. rewrite Hsb in Hns. destruct (does_ok _ _ _ _ Hns Ho) as [a Ha]; [tauto|]. exists a. set_solver.
  - destruct (does_ok _ _ _ (OpRlimitAs (vmem_bytes mv)) Hk) as [a Ha].
    + unfold rlimit_ops. rewrite (proj2 (Z.eqb_neq mv 0)) by lia. set_solver.
    + destruct cg; [|by intros ?%elem_of_nil]. by intros ?%list_elem_of_singleton.
    + rewrite vmem_bytes_exact in Ha by lia. exists a. set_solver.
  - intros scope ->. destruct (Hlim scope eq_refl) as [a Ha]. split; [exists a; set_solver|].
    destruct (does_tried _ _ _ (OpWrite (path_join scope "cgroup.procs") (nl (show pid))) Hk) as [b Hb]; [|exists b; set_solver].
    cbn. set_solver.
Qed.

(** The address space limit is taken modulo the machine word: a
    configured size of 2^44 MiB gives a limit of zero bytes, under which
    nothing can run. *)
Theorem vmem_limit_wraps sys pid max_procs h :
  (exec (apply_resource_limits sys pid max_procs (2 ^ 44) None) h).*1 = (h.*1) ++ [OpRlimitAs 0].
Proof. exact (fmap_app fst h [(OpRlimitAs 0, sys h (OpRlimitAs 0))]). Qed.

(** ** A desktop session *)
Module CgroupRuns.

(** A host where the mount root is not ours, and the session's delegated
    slice is; everything else the child asks for is granted. *)
Definition desktop : Sys := fun _ o =>
  match o with
  | OpRead p => if p ==? "/proc/self/cgroup" then Ok (nl "0::/user.slice/app.scope") else Ok (nl "cpu memory pids")
  | OpMkdir p => if p ==? "/sys/fs/cgroup/vyn" then Err "Permission denied" else Ok EmptyString
  | _ => Ok EmptyString
  end.

Definition scope : string := "/sys/fs/cgroup/user.slice/vyn/my_plugin".

Lemma pids_scope_witness :
  (prepare_pids_cgroup desktop "my/plugin" 64 []).1 = Some scope /\
  exists l dirs, (prepare_pids_cgroup desktop "my/plugin" 64 []).2 = [] ++ l /\
    (dirs = [] \/ exists text self, (OpRead "/proc/self/cgroup", Ok text) ∈ l /\ cgroup_of text = Some self /\
       dirs = map cgroup_dir (ancestor_paths self)) /\
    (forall o a p, (o, a) ∈ l -> changes o = Some p ->
       exists dir rest, dir ∈ dirs /\ rest ∈ scope_suffixes "my/plugin" /\ p = container dir +:+ rest) /\
    exists dir, dir ∈ dirs /\ scope = container dir +:+ "/" +:+ sanitize_plugin_id "my/plugin" /\
                  scope_ready "my/plugin" 64 dir l.
Proof.
  split; [by vm_compute|].
  apply (pids_scope_spec desktop "my/plugin" 64 [] (Some scope) (prepare_pids_cgroup desktop "my/plugin" 64 []).2);
    [lia|by vm_compute].
Defined.

Definition cfg : PluginConfig := SandboxRuns.cfg.

Lemma spawn_isolated_witness :
  exists l, (spawn_isolate desktop ∅ cfg 1000 1000 4711 []).2 = [] ++ l /\
    (sandbox cfg = true -> forall o, o ∈ namespace_ops 1000 1000 -> exists a, (o, Ok a) ∈ l) /\
    (exists a, (OpRlimitAs (2048 * 2 ^ 20), Ok a) ∈ l) /\
    (forall s, Some "/sys/fs/cgroup/user.slice/vyn/notes" = Some s ->
      (exists a, (OpWrite (path_join s "pids.max") (nl (show 1024)), Ok a) ∈ l) /\
      (exists a, (OpWrite (path_join s "cgroup.procs") (nl (show 4711)), a) ∈ l)).
Proof.
  apply (spawn_isolated desktop ∅ cfg 1000 1000 4711 [] (Some "/sys/fs/cgroup/user.slice/vyn/notes")
           (spawn_isolate desktop ∅ cfg 1000 1000 4711 []).2); [done|done|done|by split; vm_compute|by vm_compute].
Defined.

End CgroupRuns.
