(* ===== verification/Landlock.v ===== *)
(** * The filesystem restriction of a plugin ([src/plugins/fsaccess.rs])

    [apply] turns a restriction into Landlock rules and enforces them on the
    plugin.  The [landlock] crate and the file system are parameters: the
    access rights with the groups the crate defines, and the answers of every
    call.  What a ruleset in force permits is the documented rule of the
    Linux kernel: a right that is handled, and that the running kernel knows,
    is denied outside the hierarchies some rule grants it for.  The last
    section composes the rules with the shim and with the configuration the
    supervisor sends. *)

From S2P Require Import Prelude Wire Text Sandbox Table Shim.

Open Scope Z_scope.

(** ** The crate *)

Class LandlockCrate := {
  AccessFs : Type;
  AccessFs_dec :: EqDecision AccessFs;
  ReadFile : AccessFs;
  ReadDir : AccessFs;
  Execute : AccessFs;
  ResolveUnix : AccessFs;
  from_all : list AccessFs;        (** [AccessFs::from_all(ABI::V9)] *)
  from_read : list AccessFs;       (** [AccessFs::from_read(ABI::V9)] *)
  from_file : list AccessFs;       (** [AccessFs::from_file(ABI::V9)] *)
}.


(** Documented: the rights [from_read] groups only read. *)
Class LandlockLaws `{LandlockCrate} := {
  read_rights : forall a, a ∈ from_read -> a ∈ [ReadFile; ReadDir; Execute];
}.

Inductive RulesetStatus := FullyEnforced | PartiallyEnforced | NotEnforced.

#[export] Instance RulesetStatus_eq_dec : EqDecision RulesetStatus.
Proof. solve_decision. Defined.

(** ** Paths *)

(** [Path::components().count()] of a relative path: a leading [.] counts. *)
Definition component_count (p : string) : nat :=
  match split_char "/" p with
  | [] => 0
  | c :: cs => (if is_empty c then 0 else 1) + length (filter (fun d => d <> EmptyString /\ d <> ".") cs)
  end.

(** The components of a path, last first, without trailing separators. *)
Fixpoint trim_tail (relative : bool) (rev_parts : list string) : list string :=
  match rev_parts with
  | [] => []
  | [c] => if is_empty c || ((c ==? ".") && negb relative) then [] else [c]
  | c :: cs => if is_empty c || (c ==? ".") then trim_tail relative cs else c :: cs
  end.

(** [Path::parent] *)
Definition parent (p : string) : option string :=
  let absolute := starts_with "/" p in
  let parts := if absolute then drop 1 (split_char "/" p) else split_char "/" p in
  match trim_tail (negb absolute) (rev parts) with
  | [] => None
  | _ :: rest =>
      let q := join_with "/" (rev (trim_tail (negb absolute) rest)) in
      Some (if absolute then "/" +:+ q else q)
  end.

Definition default_system_read_dirs : list string := ["/usr/lib"; "/usr/lib64"; "/lib"; "/lib64"].

Section Apply.
Context `{LandlockCrate}.

Record Rule := mkRule { rule_path : string; rule_access : list AccessFs }.

(** What [restrict_self] enforces: the handled rights and the rules. *)
Record Ruleset := mkRuleset { rs_handled : list AccessFs; rs_rules : list Rule }.

(** The answers of the file system and of the kernel. *)
Record LandEnv := mkLand {
  path_exists : string -> bool;
  path_is_dir : string -> bool;
  path_fd : string -> option string;             (** the error of [PathFd::new] *)
  canonicalize : string -> Result string string;
  path_beneath : string -> string -> bool;       (** the second is in the hierarchy of the first *)
  ll_create : list AccessFs -> option string;    (** of [handle_access] and [create] *)
  ll_add : Rule -> option string;
  ll_restrict : Ruleset -> Result string RulesetStatus;
  ll_supported : AccessFs -> bool;               (** the rights the running kernel knows *)
}.

Context (env : LandEnv).

Definition resolve_binary_path (vars : ProcEnv) (binary : string) : string :=
  if starts_with "/" binary then binary
  else if (1 <? component_count binary)%nat
       then match canonicalize env binary with Ok p => p | Err _ => binary end
       else match vars !! "PATH" with
            | Some paths =>
                default binary (List.find (path_exists env) (map (fun dir => path_join dir binary) (split_char ":" paths)))
            | None => binary
            end.

Definition rule_for (path : string) (dir_access file_access : list AccessFs) : Result string (option Rule) :=
  if negb (path_exists env path) then Ok None
  else match path_fd env path with
       | Some e => Err e
       | None => Ok (Some (mkRule path (if path_is_dir env path then dir_access else file_access)))
       end.

(** [if let Some(rule) = rule_for(..)? { created = created.add_rule(rule)? }],
    on the rules so far. *)
Definition add_path (dir_access file_access : list AccessFs) (rules : Result string (list Rule)) (path : string)
    : Result string (list Rule) :=
  match rules with
  | Err e => Err e
  | Ok rules =>
      match rule_for path dir_access file_access with
      | Err e => Err e
      | Ok None => Ok rules
      | Ok (Some rule) => match ll_add env rule with Some e => Err e | None => Ok (rules ++ [rule]) end
      end
  end.

Definition access_file_read : list AccessFs := [ReadFile; Execute].

(** The paths that may be read and executed, in the order of the rules. *)
Definition binary_dirs (vars : ProcEnv) (plugin_binary : string) : list string :=
  match parent (resolve_binary_path vars plugin_binary) with
  | Some dir => if is_empty dir then [] else [dir]
  | None => []
  end.

Definition exec_paths (vars : ProcEnv) (plugin_binary : string) : list string :=
  default_system_read_dirs ++ binary_dirs vars plugin_binary ++ ["/etc/ld.so.cache"].

Definition readonly_grants (r : FsRestriction) : list string :=
  if fsr_mode r ==? FsReadOnly then fsr_readonly_paths r else [].

Definition apply (vars : ProcEnv) (r : FsRestriction) (plugin_binary : string) (socket_path : option string)
    : Result string Ruleset :=
  match ll_create env from_all with
  | Some e => Err e
  | None =>
      let rules := foldl (add_path from_read access_file_read) (Ok []) (exec_paths vars plugin_binary) in
      let rules := foldl (add_path [ResolveUnix] [ResolveUnix]) rules (option_list socket_path) in
      let rules := foldl (add_path from_read access_file_read) rules (readonly_grants r) in
      let rules := foldl (add_path from_all from_file) rules (fsr_writable_paths r) in
      match rules with
      | Err e => Err e
      | Ok rules =>
          match ll_restrict env (mkRuleset from_all rules) with
          | Err e => Err e
          | Ok NotEnforced => Err "Landlock not enforced — kernel too old or Landlock unavailable"
          | Ok _ => Ok (mkRuleset from_all rules)
          end
      end
  end.



(** ** Properties *)

(** The rules of a group of paths. *)
Definition grants (da fa : list AccessFs) (paths : list string) : list Rule :=
  map (fun p => mkRule p (if path_is_dir env p then da else fa)) (filter (fun p => path_exists env p = true) paths).

Lemma add_path_ok da fa rules p rules' :
  add_path da fa rules p = Ok rules' -> exists rs, rules = Ok rs /\ rules' = rs ++ grants da fa [p].
Proof.
  unfold add_path, rule_for, grants. destruct rules as [rs|]; [|done].
  destruct (path_exists env p) eqn:Hp; cbn [negb].
  - rewrite filter_cons_True by done. destruct (path_fd env p); [done|]. destruct (ll_add env _); [done|].
    intros [= <-]. by exists rs.
  - rewrite filter_cons_False by (by rewrite Hp). intros [= <-]. exists rs. by rewrite app_nil_r.
Qed.

Lemma grants_app da fa ps qs : grants da fa (ps ++ qs) = grants da fa ps ++ grants da fa qs.
Proof. unfold grants. by rewrite filter_app, map_app. Qed.

Lemma add_paths_ok da fa paths rules rules' :
  foldl (add_path da fa) rules paths = Ok rules' ->
  exists rs, rules = Ok rs /\ rules' = rs ++ grants da fa paths.
Proof.
  revert rules. induction paths as [|p paths IH]; intros rules; cbn [foldl].
  { intros ->. exists rules'. by rewrite app_nil_r. }
  intros (rs & Hadd & ->)%IH. apply add_path_ok in Hadd as (rs' & -> & ->). exists rs'. split; [done|].
  change (p :: paths) with ([p] ++ paths). by rewrite grants_app, app_assoc.
Qed.

(** A ruleset in force, rule for rule, and the answer of the kernel. *)
Lemma apply_rules vars r binary sock rs :
  apply vars r binary sock = Ok rs ->
  rs = mkRuleset from_all
    (grants from_read access_file_read (exec_paths vars binary)
     ++ grants [ResolveUnix] [ResolveUnix] (option_list sock)
     ++ grants from_read access_file_read (readonly_grants r)
     ++ grants from_all from_file (fsr_writable_paths r)) /\
  exists status, ll_restrict env rs = Ok status /\ status <> NotEnforced.
Proof.
  unfold apply. destruct (ll_create env from_all); [done|]. cbv zeta.
  destruct (foldl (add_path from_all from_file) _ _) as [rules|] eqn:E; [|done].
  apply add_paths_ok in E as (r3 & E & ->). apply add_paths_ok in E as (r2 & E & ->).
  apply add_paths_ok in E as (r1 & E & ->). apply add_paths_ok in E as (r0 & [= <-] & ->).
  destruct (ll_restrict env _) as [[]|] eqn:Hst; intros [= <-]; (split; [by rewrite <- !app_assoc|by eexists]).
Qed.

Lemma elem_of_grants da fa paths rule :
  rule ∈ grants da fa paths <-> rule_path rule ∈ paths /\ path_exists env (rule_path rule) = true /\
    rule_access rule = (if path_is_dir env (rule_path rule) then da else fa).
Proof.
  unfold grants. rewrite list_elem_of_fmap. split.
  - intros (p & -> & Hp). apply list_elem_of_filter in Hp as [? ?]. by cbn.
  - intros (Hin & He & Ha). exists (rule_path rule). split; [destruct rule; cbn in *; by rewrite Ha|].
    by apply list_elem_of_filter.
Qed.

Context `{!LandlockLaws}.




(** The rules, group by group: every rule is for a configured writable path,
    the system libraries, the plugin's own directory, the loader cache, the
    kernel's socket, or, in the read-only mode alone, a configured read-only
    path; and every writable path that exists has its rule. *)
Theorem landlock_rules vars r binary sock rs :
  apply vars r binary sock = Ok rs ->
  (forall rule, rule ∈ rs_rules rs -> rule_path rule ∈ fsr_writable_paths r \/
     rule_path rule ∈ exec_paths vars binary ++ option_list sock \/
     (fsr_mode r = FsReadOnly /\ rule_path rule ∈ fsr_readonly_paths r)) /\
  (forall p, p ∈ fsr_writable_paths r -> path_exists env p = true ->
     mkRule p (if path_is_dir env p then from_all else from_file) ∈ rs_rules rs).
Proof.
  intros [-> _]%apply_rules. cbn [rs_rules]. split.
  - intros rule. rewrite !elem_of_app. intros [Hin|[Hin|[Hin|Hin]]]; apply elem_of_grants in Hin as [Hin _]; [tauto..| |tauto].
    revert Hin. unfold readonly_grants. destruct (bool_decide_reflect (fsr_mode r = FsReadOnly)); [tauto|].
    by intros ?%elem_of_nil.
  - intros p Hp He. rewrite !elem_of_app. do 3 right. by apply elem_of_grants.
Qed.



End Apply.

(** ** A crate and a host *)
Module LandlockRuns.

Inductive Right := RExecute | RWriteFile | RReadFile | RReadDir | RMakeReg | RTruncate | RResolveUnix.

#[export] Instance Right_eq_dec : EqDecision Right.
Proof. solve_decision. Defined.

#[export] Instance crate : LandlockCrate := {|
  AccessFs := Right;
  ReadFile := RReadFile;
  ReadDir := RReadDir;
  Execute := RExecute;
  ResolveUnix := RResolveUnix;
  from_all := [RExecute; RWriteFile; RReadFile; RReadDir; RMakeReg; RTruncate; RResolveUnix];
  from_read := [RExecute; RReadFile; RReadDir];
  from_file := [RExecute; RWriteFile; RReadFile; RTruncate];
|}.

#[export] Instance crate_laws : LandlockLaws.
Proof. constructor. cbn. set_solver. Qed.

(** The hierarchy of a path on a file system without links. *)
Definition below (root file : string) : bool := (file ==? root) || starts_with (root +:+ "/") file.

(** A host that supports Landlock, without [/lib64]. *)
Definition host : LandEnv :=
  mkLand (fun p => negb (p ==? "/lib64")) (fun p => negb (p ==? "/etc/ld.so.cache")) (fun _ => None) (fun p => Ok p) below
    (fun _ => None) (fun _ => None) (fun _ => Ok FullyEnforced) (fun _ => true).


Definition restriction : FsRestriction := mkRestriction FsNone ["/usr/share/dict"] ["/tmp/notes"].

Lemma landlock_rules_witness :
  exists rs, apply host ∅ restriction "/opt/notes/bin" None = Ok rs /\
    map (@rule_path crate) (rs_rules rs) = ["/usr/lib"; "/usr/lib64"; "/lib"; "/opt/notes"; "/etc/ld.so.cache"; "/tmp/notes"] /\
    mkRule "/tmp/notes" from_all ∈ rs_rules rs.
Proof.
  assert (Hok : is_ok (apply host ∅ restriction "/opt/notes/bin" None) = true) by (vm_compute; reflexivity).
  destruct (apply host ∅ restriction "/opt/notes/bin" None) as [rs|] eqn:E; [|discriminate Hok].
  exists rs. split; [reflexivity|]. split; [vm_compute in E; injection E as <-; reflexivity|].
  destruct (landlock_rules host ∅ restriction "/opt/notes/bin" None rs E) as [_ Hw].
  apply (Hw "/tmp/notes"); [left|reflexivity].
Defined.



End LandlockRuns.
