(* ===== verification/Metrics.v ===== *)
(** * Resource samples of plugins

    [proc_resource_usage] of [src/plugins/metrics.rs] and the sampling round
    of [watchdog_loop] that turns its results into gauges.  Floating point
    numbers are a parameter: the program only converts, divides, multiplies
    and parses them. *)

From S2P Require Import Prelude Wire Text Table Sandbox Cgroup Supervisor.

Open Scope Z_scope.

Class Float := {
  f64 : Type;
  f64_of : Z -> f64;                  (** [as f64] *)
  f64_div : f64 -> f64 -> f64;
  f64_mul : f64 -> f64 -> f64;
  f64_parse : string -> option f64;   (** [f64::from_str] *)
}.

Section Metrics.
Context `{Float}.

(** The files of [/proc]; [None] where the read fails. *)
Variable proc : string -> option string.
(** [sysconf(CLK_TCK)], flattened. *)
Variable clk_tck : option Z.

(** CPU seconds from [/proc/<pid>/stat].  The sum of two [u64] wraps. *)
Definition cpu_seconds (stat : string) : option f64 :=
  let fields := split_whitespace stat in
  utime ← fields !! 13%nat ≫= parse_u64;
  stime ← fields !! 14%nat ≫= parse_u64;
  Some (f64_div (f64_of ((utime + stime) mod 2 ^ 64)) (f64_of (default 100 clk_tck))).

(** Resident bytes from [/proc/<pid>/status]. *)
Definition rss_bytes (status : string) : option f64 :=
  line ← find (starts_with "VmRSS:") (str_lines status);
  rss_kb ← split_whitespace line !! 1%nat ≫= f64_parse;
  Some (f64_mul rss_kb (f64_of 1024)).

Definition proc_resource_usage (pid : Z) : option (f64 * f64) :=
  stat ← proc ("/proc/" +:+ show pid +:+ "/stat");
  cpu ← cpu_seconds stat;
  status ← proc ("/proc/" +:+ show pid +:+ "/status");
  rss ← rss_bytes status;
  Some (cpu, rss).

(** The gauges of one round of the watchdog: those of a plugin whose sample
    failed keep their values. *)
Definition sample_round (supervised : list (string * ProcEntry)) (g : gmap string (f64 * f64)) : gmap string (f64 * f64) :=
  foldl (fun g kv => match proc_resource_usage (pe_pid kv.2) with Some s => <[kv.1 := s]> g | None => g end) g supervised.

(** ** The text of [stat] *)

(** [proc(5)]: the process id, the name in parentheses, then the fields from
    the state on, among which the user and system time are the twelfth and
    thirteenth. *)
Definition stat_line (pid : Z) (comm : string) (rest : list string) : string :=
  show pid +:+ " (" +:+ comm +:+ ") " +:+ join_with " " rest.

Definition word (s : string) : Prop := s <> EmptyString /\ Forall plain_byte (string_bytes s).

(** How many words the name is. *)
Definition name_words (comm : string) : nat := length (split_whitespace ("(" +:+ comm +:+ ")")).

End Metrics.

(** ** Splitting at blanks *)

Lemma ws2_blank x : ws2 x 32 = false.
Proof. unfold ws2. by rewrite andb_false_r. Qed.

Lemma ws3_blank x y : ws3 x y 32 = false.
Proof. unfold ws3. cbn. by rewrite ?andb_false_r, ?orb_false_r. Qed.

Lemma ws_words_blank a cur b : ws_words cur (a ++ 32 :: b) = ws_words cur a ++ ws_words [] b.
Proof.
  remember (length a) as n eqn:Hn. revert a cur Hn. induction (lt_wf n) as [n _ IH]. intros a cur ->.
  destruct a as [|x a]; [done|].
  assert (Hstep : forall c k, (length k < length (x :: a))%nat -> ws_words c (k ++ 32 :: b) = ws_words c k ++ ws_words [] b)
    by (intros c k Hk; by eapply IH).
  cbn [app ws_words]. destruct (ws1 x); [by rewrite Hstep, app_assoc by (cbn; lia)|].
  destruct a as [|y a]; cbn [app].
  { rewrite ws2_blank. destruct b as [|z b]; [by apply (Hstep (x :: cur) []); cbn; lia|].
    replace (ws3 x 32 z) with false by (unfold ws3; cbn; by rewrite ?andb_false_r). by apply (Hstep (x :: cur) []); cbn; lia. }
  destruct (ws2 x y); [by rewrite Hstep, app_assoc by (cbn; lia)|].
  destruct a as [|z a]; cbn [app].
  - rewrite ws3_blank. by apply (Hstep (x :: cur) [y]); cbn; lia.
  - destruct (ws3 x y z); [by rewrite Hstep, app_assoc by (cbn; lia)|].
    by apply (Hstep (x :: cur) (y :: z :: a)); cbn; lia.
Qed.

Lemma split_blank s t : split_whitespace (s +:+ " " +:+ t) = split_whitespace s ++ split_whitespace t.
Proof. unfold split_whitespace. rewrite !string_bytes_app. cbn [string_bytes app]. apply ws_words_blank. Qed.

Lemma ws_words_plain cur b : Forall plain_byte b -> ws_words cur b = flush (rev b ++ cur).
Proof.
  revert cur. induction b as [|x b IH]; intros cur Hb; [done|]. apply Forall_cons in Hb as [Hx Hb]. cbn [ws_words].
  rewrite (proj2 Hx). rewrite (IH (x :: cur) Hb). cbn [rev]. rewrite <- app_assoc. cbn [app].
  destruct b as [|y b]; [done|]. rewrite ws2_plain by done. destruct b as [|z b]; [done|]. by rewrite ws3_plain by done.
Qed.

Lemma split_word s : word s -> split_whitespace s = [s].
Proof.
  intros [Hne Hs]. unfold split_whitespace. rewrite ws_words_plain, app_nil_r by done. unfold flush.
  destruct (rev (string_bytes s)) eqn:E.
  - destruct s; [done|]. cbn in E. by apply app_nil in E as [_ ?].
  - by rewrite <- E, rev_involutive, bytes_string_bytes.
Qed.

Lemma split_join ws : Forall word ws -> split_whitespace (join_with " " ws) = ws.
Proof.
  induction ws as [|w ws IH]; intros Hw; [done|]. apply Forall_cons in Hw as [Hw Hws].
  destruct ws as [|v ws]; [by apply split_word|]. change (join_with " " (w :: v :: ws)) with (w +:+ " " +:+ join_with " " (v :: ws)).
  by rewrite split_blank, split_word, IH.
Qed.

Lemma show_word n : 0 <= n -> word (show n).
Proof. intros Hn. split; [|by apply show_plain]. destruct (show_head n Hn) as (a & s & -> & _). done. Qed.

Section Facts.
Context `{Float}.

(** The words of a [stat] line. *)
Lemma stat_words pid comm rest :
  0 <= pid -> Forall word rest ->
  split_whitespace (stat_line pid comm rest) = show pid :: split_whitespace ("(" +:+ comm +:+ ")") ++ rest.
Proof.
  intros Hp Hr. unfold stat_line.
  replace (show pid +:+ " (" +:+ comm +:+ ") " +:+ join_with " " rest)
    with (show pid +:+ " " +:+ (("(" +:+ comm +:+ ")") +:+ " " +:+ join_with " " rest))
    by (rewrite !str_app_assoc; done).
  by rewrite !split_blank, split_join, split_word by (try apply show_word; done).
Qed.

(** What the CPU gauge shows.  The times are read at fixed positions of
    the split line, so they are the user and system time exactly when the
    name of the process is one word; each further word of the name moves both
    one field to the front. *)
Theorem cpu_reads tck pid comm rest u v :
  0 <= pid -> Forall word rest -> (name_words comm <= 12)%nat ->
  rest !! (12 - name_words comm)%nat = Some (show u) -> rest !! (13 - name_words comm)%nat = Some (show v) ->
  0 <= u <= u64_max -> 0 <= v <= u64_max ->
  cpu_seconds tck (stat_line pid comm rest) = Some (f64_div (f64_of ((u + v) mod 2 ^ 64)) (f64_of (default 100 tck))).
Proof.
  intros Hp Hr Hk Hu Hv Bu Bv. unfold cpu_seconds. rewrite stat_words by done. unfold name_words in *.
  set (ws := split_whitespace ("(" +:+ comm +:+ ")")) in *.
  change ((show pid :: ws ++ rest) !! 13%nat) with ((ws ++ rest) !! 12%nat).
  change ((show pid :: ws ++ rest) !! 14%nat) with ((ws ++ rest) !! 13%nat).
  rewrite !lookup_app_r, Hu, Hv by lia. cbn. by rewrite !parse_u64_show.
Qed.

(** A failed sample leaves the gauges alone, and a round sets exactly the
    gauges of the supervised plugins whose sample succeeds. *)
Theorem sample_round_spec proc tck l g pid :
  NoDup l.*1 ->
  sample_round proc tck l g !! pid =
    match list_find (fun kv : string * ProcEntry => kv.1 = pid) l with
    | Some (_, kv) => match proc_resource_usage proc tck (pe_pid kv.2) with Some s => Some s | None => g !! pid end
    | None => g !! pid
    end.
Proof.
  unfold sample_round. revert g. induction l as [|kv l IH]; intros g Hnd; [done|]. cbn in Hnd.
  apply NoDup_cons in Hnd as [Hk Hnd]. cbn [foldl list_find]. rewrite IH by done.
  destruct (decide (kv.1 = pid)) as [<-|Hne].
  - destruct (list_find _ l) as [[i kv']|] eqn:Hf.
    { exfalso. apply list_find_Some in Hf as (Hi & Heq & _). apply Hk. rewrite <- Heq. apply list_elem_of_fmap.
      exists kv'. split; [done|]. by eapply list_elem_of_lookup_2. }
    destruct (proc_resource_usage proc tck _); [by rewrite lookup_insert_eq|done].
  - destruct (list_find _ l) as [[i kv']|]; cbn; destruct (proc_resource_usage proc tck (pe_pid kv.2)); try done;
      by rewrite lookup_insert_ne.
Qed.

End Facts.

(** ** Runs *)
Module MetricRuns.

(** Numbers as exact fractions. *)
#[local] Instance fractions : Float := {|
  f64 := Z * Z;
  f64_of n := (n, 1);
  f64_div a b := (a.1 * b.2, a.2 * b.1);
  f64_mul a b := (a.1 * b.1, a.2 * b.2);
  f64_parse s := (fun n => (n, 1)) <$> parse_u64 s |}.

(** State, parent, ..., major faults of the children 7, user time 250,
    system time 50. *)
Definition fields : list string :=
  ["S"; "1"; "1"; "1"; "0"; "0"; "0"; "0"; "0"; "0"; "7"; "250"; "50"; "0"; "0"].

Lemma fields_words : Forall word fields.
Proof. repeat constructor; done. Qed.

Lemma cpu_witness :
  cpu_seconds (Some 100) (stat_line 42 "sherpa" fields) = Some (300, 100) /\ name_words "sherpa" = 1%nat.
Proof.
  split; [|by vm_compute].
  etrans; [apply (cpu_reads (Some 100) 42 "sherpa" fields 250 50)|reflexivity]; try done; [apply fields_words|vm_compute; lia].
Defined.

(** With a blank in the name of the process, the gauge shows the faults of
    its children and its user time. *)
Theorem blank_name_misread :
  cpu_seconds (Some 100) (stat_line 42 "my plugin" fields) = Some ((7 + 250) * 1, 1 * 100).
Proof. vm_compute. reflexivity. Qed.

(** Two supervised plugins; the second one's files are gone. *)
Definition cfg (pid : string) : PluginConfig := mkConfig pid "/opt/bin" [] [] OnFailure 2 false 0 None None FsFull [] [].
Definition procs : list (string * ProcEntry) := [("tts", mkProc (cfg "tts") 0 42 None 1); ("stt", mkProc (cfg "stt") 0 43 None 2)].
Definition proc (path : string) : option string :=
  if path ==? "/proc/42/stat" then Some (stat_line 42 "tts" fields)
  else if path ==? "/proc/42/status" then Some ("Name: tts" +:+ String NL ("VmRSS:  512 kB" +:+ String NL EmptyString)) else None.

Lemma sample_witness :
  sample_round proc (Some 100) procs ∅ !! "tts" = Some ((300, 100), (512 * 1024, 1)) /\
  sample_round proc (Some 100) procs ∅ !! "stt" = None.
Proof.
  assert (NoDup procs.*1) as Hnd by (apply (bool_decide_unpack _); vm_compute; exact I).
  split; (etrans; [exact (sample_round_spec proc (Some 100) procs ∅ _ Hnd)|vm_compute; reflexivity]).
Defined.

End MetricRuns.
