(* ===== verification/Startup.v ===== *)
(** * The start of a kernel

    [EventStore::new] ([src/events/store.rs]), [UdsServer::start] up to its
    accept loop ([src/ipc/server.rs]), the tracing filter of
    [src/utils/logging.rs], the order in which [run_with_components] brings
    them up, and the signal loop of [Kernel::run]
    ([src/kernel/orchestrator/]).  The file system is the kind and mode of
    its nodes; what a system call answers is an argument. *)

From S2P Require Import Prelude Wire Toy Text EventStore Jwt Config Supervisor Loader Kernel Daemon.

Open Scope Z_scope.

(** Three octal digits of a file mode. *)
Definition oct (a b c : Z) : Z := a * 64 + b * 8 + c.

(** ** The socket *)

Inductive Kind := KSocket (listener : Z) | KRegular | KDirectory | KSymlink.

#[export] Instance Kind_eq_dec : EqDecision Kind.
Proof. solve_decision. Defined.

Record Inode := mkInode { in_kind : Kind; in_mode : Z }.

(** The process as the start sees it. *)
Record Proc := mkProcess {
  nodes : gmap string Inode;
  umask : Z;
}.

(** Which calls succeed; a bind to an existing path never does. *)
Record BindIo := mkBindIo {
  io_remove : bool;
  io_bind : Result string unit;
  io_chmod : Result string unit;
}.

Definition is_socket (n : Inode) : bool := match in_kind n with KSocket _ => true | _ => false end.

(** A stale socket is unlinked; anything else at the path is refused. *)
Definition clear_path (io : BindIo) (path : string) (fs : gmap string Inode) : Result VynkorError (gmap string Inode) :=
  match fs !! path with
  | Some n =>
      if is_socket n then Ok (if io_remove io then delete path fs else fs)
      else Err (EInternal ("refusing to bind UDS socket: " +:+ path +:+ " exists and is not a socket"))
  | None => Ok fs
  end.

(** [bind(2)] creates the socket with the bits the umask leaves of 0777. *)
Definition bind_socket (io : BindIo) (lid : Z) (path : string) (p : Proc) : Result string Proc :=
  match nodes p !! path with
  | Some _ => Err "Address already in use"
  | None =>
      match io_bind io with
      | Err e => Err e
      | Ok _ => Ok (mkProcess (<[path := mkInode (KSocket lid) (Z.land (oct 7 7 7) (Z.lnot (umask p)))]> (nodes p)) (umask p))
      end
  end.

Definition set_umask (m : Z) (p : Proc) : Proc := mkProcess (nodes p) m.

(** [UdsServer::start] until the accept loop is spawned: its result, the
    process, and the states the file system goes through. *)
Definition uds_start (io : BindIo) (lid : Z) (path : string) (p : Proc)
    : Result VynkorError unit * Proc * list (gmap string Inode) :=
  match clear_path io path (nodes p) with
  | Err e => (Err e, p, [nodes p])
  | Ok fs =>
      let old_umask := umask p in
      let p1 := mkProcess fs (oct 1 7 7) in
      match bind_socket io lid path p1 with
      | Err e => (Err (EIo e), set_umask old_umask p1, [nodes p; fs])
      | Ok p2 =>
          let p2 := set_umask old_umask p2 in
          match io_chmod io with
          | Err e => (Err (EIo e), p2, [nodes p; fs; nodes p2])
          | Ok _ =>
              let fs3 := alter (fun n => mkInode (in_kind n) (oct 6 0 0)) path (nodes p2) in
              (Ok tt, mkProcess fs3 old_umask, [nodes p; fs; nodes p2; fs3])
          end
      end
  end.

(** ** The outbox *)

(** [{:o}] *)
Fixpoint octal_digits (fuel : nat) (n : Z) (acc : string) : string :=
  match fuel with
  | O => acc
  | S fuel =>
      let acc := String (ascii_of_N (Z.to_N (48 + n mod 8))) acc in
      if n / 8 =? 0 then acc else octal_digits fuel (n / 8) acc
  end.
Definition show_octal (n : Z) : string := octal_digits 3 n EmptyString.

(** [EventStore::new].  [dir] is the mode of the data directory once it
    exists, [db] the rows SQLite finds in the file, none where it is new:
    that they are those written before is SQLite's doing and not modelled. *)
Definition event_store_new (mkdir : Result string unit) (dir : Result string Z) (data_dir : string)
    (db : Result string (option EventStore)) : Result string EventStore :=
  _ ← mkdir;
  st_mode ← dir;
  let mode := Z.land st_mode (oct 7 7 7) in
  if negb (Z.land mode (oct 0 0 2) =? 0)
  then Err ("data_dir " +:+ data_dir +:+ " is world-writable (mode " +:+ show_octal mode
            +:+ "), refusing — event store is forgeable")
  else rows ← db; Ok (default ∅ rows).

(** ** The order of the start *)

Record StartIo := mkStartIo {
  st_mkdir : Result string unit;
  st_dir : Result string Z;
  st_db : Result string (option EventStore);
  st_bind : BindIo;
  st_tls : TlsIo;
  st_parses : string -> bool;
}.

(** [run_with_components] until its tasks are spawned: an outbox that cannot
    be opened is done without, the socket is bound, then the configuration is
    checked. *)
Definition start_kernel (io : StartIo) (lid : Z) (c : Config) (p : Proc) (fs : Files)
    : Result string (option EventStore * Boot) * Proc * Files :=
  let store := match event_store_new (st_mkdir io) (st_dir io) (cfg_data_dir c) (st_db io) with
               | Ok st => Some st
               | Err _ => None
               end in
  match uds_start (st_bind io) lid (cfg_socket_path c) p with
  | (Err e, p', _) => (Err (error_display e), p', fs)
  | (Ok _, p', _) =>
      match boot (st_tls io) (st_parses io) c fs with
      | (Err e, fs') => (Err e, p', fs')
      | (Ok b, fs') => (Ok (store, b), p', fs')
      end
  end.

(** [ApiServer::run]: both TLS paths, or plain HTTP. *)
Inductive Serving := Https (cert key : string) | Http.

Definition api_serving (tls_paths : option string * option string) : Serving :=
  match tls_paths with
  | (Some cert, Some key) => Https cert key
  | _ => Http
  end.

(** ** The tracing filter *)

Section Logging.
(** [EnvFilter] and [EnvFilter::new]. *)
Context {Filter : Type} (env_filter : string -> Filter).

(** The global subscriber is installed at most once per process, by [try_init]
    or by someone else; a reload handle works while its layer is part of it. *)
Inductive Subscriber := SNone | SForeign | SOurs (filter : Filter).

Record Log := mkLog {
  subscriber : Subscriber;
  log_handle : option bool;   (** [LOG_FILTER_HANDLE]: whether its layer was installed *)
}.

(** [rust_log]: [EnvFilter::try_from_default_env], where it succeeds. *)
Definition try_init (rust_log : option Filter) (level : string) (l : Log) : bool * Log :=
  let filter := match rust_log with Some f => f | None => env_filter (sanitize_log_level level) end in
  let installs := match subscriber l with SNone => true | _ => false end in
  (installs,
   mkLog (if installs then SOurs filter else subscriber l)
         (match log_handle l with Some h => Some h | None => Some installs end)).

Definition set_filter (level : string) (l : Log) : bool * Log :=
  match log_handle l, subscriber l with
  | Some true, SOurs _ => (true, mkLog (SOurs (env_filter (sanitize_log_level level))) (log_handle l))
  | _, _ => (false, l)
  end.

(** ** Signals *)

Inductive Sig := SigInt | SigTerm | SigHup (loaded : Result string Config * option string).

(** The loop of [Kernel::run]: it ends with an interrupt or a termination, and
    reloads on a hang-up ([reload_config_on_sighup] says which level it
    sets).  [None] while it waits. *)
Fixpoint signal_loop (sigs : list Sig) (l : Log) : option (list Sig) * Log :=
  match sigs with
  | [] => (None, l)
  | SigInt :: rest | SigTerm :: rest => (Some rest, l)
  | SigHup (_, Some level) :: rest => signal_loop rest (set_filter level l).2
  | SigHup (_, None) :: rest => signal_loop rest l
  end.

End Logging.

(** ** Properties *)

Lemma clear_path_ok io path fs fs' :
  clear_path io path fs = Ok fs' ->
  (fs' = fs \/ fs' = delete path fs) /\ (forall n, fs !! path = Some n -> is_socket n = true).
Proof.
  unfold clear_path. destruct (fs !! path) as [n|]; [|by intros [= ->]; split; [left|]].
  destruct (is_socket n) eqn:Hs; [|done]. intros [= <-]. split; [destruct (io_remove io); auto|]. by intros ? [= <-].
Qed.

Lemma bind_socket_ok io lid path fs p :
  bind_socket io lid path (mkProcess fs (oct 1 7 7)) = Ok p -> nodes p = <[path := mkInode (KSocket lid) (oct 6 0 0)]> fs.
Proof. unfold bind_socket. cbn [nodes umask]. destruct (fs !! path), (io_bind io); try done. by intros [= <-]. Qed.

(** C28: the socket is private from its creation on and replaces only a socket.
    In every state the file system goes through, a socket of this listener at
    the path is readable and writable by its owner alone; no other path
    changes; a file, directory or link at the path is refused and left alone;
    success leaves this listener there; the umask is restored on every path. *)
Theorem uds_start_private io lid path p res p' trace :
  (forall m, nodes p !! path <> Some (mkInode (KSocket lid) m)) ->
  uds_start io lid path p = (res, p', trace) ->
  umask p' = umask p /\
  (forall q, q <> path -> nodes p' !! q = nodes p !! q) /\
  (forall fs m, fs ∈ trace -> fs !! path = Some (mkInode (KSocket lid) m) -> m = oct 6 0 0) /\
  (forall n, nodes p !! path = Some n -> is_socket n = false -> is_err res = true /\ nodes p' = nodes p) /\
  (res = Ok tt -> nodes p' !! path = Some (mkInode (KSocket lid) (oct 6 0 0))).
Proof.
  intros Hnew. unfold uds_start. destruct (clear_path io path (nodes p)) as [fs|e] eqn:Hc.
  2: { intros [= <- <- <-]. split_and!; try done. intros f m ->%list_elem_of_singleton Hf. by destruct (Hnew m). }
  apply clear_path_ok in Hc as [Hfs Hsock].
  assert (Hmiss : forall m, fs !! path <> Some (mkInode (KSocket lid) m)).
  { intros m. destruct Hfs as [->| ->]; [apply Hnew|by rewrite lookup_delete_eq]. }
  assert (Hother : forall q, q <> path -> fs !! q = nodes p !! q).
  { intros q Hq. destruct Hfs as [->| ->]; [done|by rewrite lookup_delete_ne]. }
  assert (Hrefuse : forall n, nodes p !! path = Some n -> is_socket n = false -> forall P : Prop, P).
  { intros n Hn Hs. specialize (Hsock n Hn). congruence. }
  destruct (bind_socket io lid path _) as [p2|e] eqn:Hb; [apply bind_socket_ok in Hb|].
  2: { intros [= <- <- <-]. split_and!; try done; [|intros n ? ?; by apply (Hrefuse n)].
       intros f m [->|[->|[]%elem_of_nil]%elem_of_cons]%elem_of_cons Hf; [by destruct (Hnew m)|by destruct (Hmiss m)]. }
  destruct (io_chmod io) as [[]|e]; intros [= <- <- <-]; cbn [nodes umask set_umask]; rewrite Hb;
    (split_and!; [done|intros q Hq; rewrite ?lookup_alter_ne, lookup_insert_ne by done; by apply Hother| |
       intros n ? ?; by apply (Hrefuse n)|by rewrite ?lookup_alter_eq, lookup_insert_eq|done..]).
  all: intros f m [->|[->|Hin]%elem_of_cons]%elem_of_cons Hf; [by destruct (Hnew m)|by destruct (Hmiss m)|];
    repeat (apply elem_of_cons in Hin as [->|Hin]; [by rewrite ?lookup_alter_eq, lookup_insert_eq in Hf; injection Hf|]);
    by apply elem_of_nil in Hin.
Qed.

(** Which outbox is opened.  Exactly when the directory can be made and
    looked at, others cannot write to it, and the database opens; its rows are
    then those of the file. *)
Theorem event_store_new_exact mkdir dir data_dir db st :
  event_store_new mkdir dir data_dir db = Ok st <->
  mkdir = Ok tt /\ exists mode, dir = Ok mode /\ Z.testbit mode 1 = false /\ exists rows, db = Ok rows /\ st = default ∅ rows.
Proof.
  assert (Hbit : forall mode, (Z.land (Z.land mode (oct 7 7 7)) (oct 0 0 2) =? 0) = negb (Z.testbit mode 1)).
  { intros mode. rewrite <- Z.land_assoc. change (Z.land (oct 7 7 7) (oct 0 0 2)) with (Z.ones 1 * 2 ^ 1).
    apply eq_true_iff_eq. rewrite Z.eqb_eq, negb_true_iff. split.
    - intros E. apply (f_equal (fun z => Z.testbit z 1)) in E. rewrite Z.land_spec, Z.bits_0 in E.
      by rewrite andb_true_r in E.
    - intros E. apply Z.bits_inj'. intros n Hn. rewrite Z.land_spec, Z.bits_0. change (Z.ones 1 * 2 ^ 1) with (2 ^ 1).
      destruct (decide (n = 1)) as [->|Hne]; [by rewrite E|]. rewrite Z.pow2_bits_false by done. apply andb_false_r. }
  unfold event_store_new. destruct mkdir as [[]|e]; [|by split; [|intros [[=] _]]].
  destruct dir as [mode|e]; [|by split; [|intros (_ & m & [=] & _)]]. cbn -[Z.land oct Z.testbit]. rewrite Hbit.
  destruct (Z.testbit mode 1) eqn:Hm; cbn [negb].
  - split; [done|]. intros (_ & m & [= <-] & Hn & _). congruence.
  - destruct db as [rows|e]; cbn -[Z.testbit]; [|by split; [|intros (_ & m & _ & _ & r & [=] & _)]]. split.
    + intros [= <-]. split; [done|]. exists mode. split_and!; [done..|]. by exists rows.
    + intros (_ & m & [= <-] & _ & r & [= <-] & ->). done.
Qed.

(** The socket is taken before the configuration is checked.  A start
    that is refused for its secret, its TLS files or its address has already
    removed the socket of a kernel that listens at the same path and left its
    own there. *)
Theorem refused_start_takes_socket io lid l0 m0 c p fs e fs' :
  nodes p !! cfg_socket_path c = Some (mkInode (KSocket l0) m0) ->
  io_remove (st_bind io) = true -> io_bind (st_bind io) = Ok tt -> io_chmod (st_bind io) = Ok tt ->
  boot (st_tls io) (st_parses io) c fs = (Err e, fs') ->
  exists p', start_kernel io lid c p fs = (Err e, p', fs') /\
    nodes p' !! cfg_socket_path c = Some (mkInode (KSocket lid) (oct 6 0 0)).
Proof.
  intros Hs Hr Hb Hc He. unfold start_kernel, uds_start, clear_path, bind_socket. rewrite Hs. cbn [is_socket in_kind].
  rewrite Hr. cbn [nodes]. rewrite lookup_delete_eq, Hb, Hc, He. eexists. split; [done|].
  cbn. by rewrite lookup_alter_eq, lookup_insert_eq.
Qed.

(** TLS is not downgraded.  A kernel that starts serves its interface over
    TLS exactly when its configuration asks for TLS; half of a certificate
    pair refuses the start instead. *)
Theorem tls_not_downgraded io lid c p fs st b p' fs' :
  start_kernel io lid c p fs = (Ok (st, b), p', fs') ->
  (tls c = true -> exists cert key, api_serving (boot_tls b) = Https cert key) /\
  (tls c = false -> api_serving (boot_tls b) = Http) /\
  (tls c = true -> is_some (tls_cert_path c) = is_some (tls_key_path c)).
Proof.
  unfold start_kernel. destruct (uds_start _ _ _ _) as [[[[]|e] p1] tr]; [|done].
  unfold boot. destruct (auth_gate c); [|done]. destruct (resolve_tls_paths _ c fs) as [[t|e] fs1] eqn:Ht; [|done].
  destruct (bind_ip _ c); [|done]. intros [= <- <- _ _]. cbn [boot_tls]. revert Ht. unfold resolve_tls_paths.
  destruct (tls c); cbn [negb]; [|by intros [= <- _]].
  destruct (tls_cert_path c), (tls_key_path c); try done.
  - intros [= <- _]. split_and!; [by eexists _, _|done..].
  - destruct (default_tls_dir _); [|done]. cbv zeta. destruct (ensure_self_signed _ _ _ _ _) as [[[]|] ?]; [|done].
    intros [= <- _]. split_and!; [by eexists _, _|done..].
Qed.

Section Log.
Context {Filter : Type} (env_filter : string -> Filter).

(** The signals left when the loop ends. *)
Fixpoint after_stop (sigs : list Sig) : option (list Sig) :=
  match sigs with
  | [] => None
  | SigHup _ :: rest => after_stop rest
  | _ :: rest => Some rest
  end.

(** The level of the last reload that had one, before the stop. *)
Fixpoint last_level (sigs : list Sig) (level : option string) : option string :=
  match sigs with
  | SigHup (_, Some l) :: rest => last_level rest (Some l)
  | SigHup (_, None) :: rest => last_level rest level
  | _ => level
  end.

Lemma last_level_from sigs l : last_level sigs (Some l) = Some (default l (last_level sigs None)).
Proof. revert l. induction sigs as [|[| |[res [k|]]] sigs IH]; intros l; cbn; [done..| |apply IH]. by rewrite IH. Qed.

(** Signals.  The kernel runs until the first interrupt or termination and
    then stops; until then each hang-up that loads a configuration sets its
    level: once tracing is installed the filter is that of the last level
    loaded, sanitised, and otherwise the one installed at the start; a
    hang-up whose configuration does not load changes nothing. *)
Theorem signal_loop_spec sigs rust_log level :
  let '(_, l0) := try_init env_filter rust_log level (mkLog SNone None) in
  let first := match rust_log with Some f => f | None => env_filter (sanitize_log_level level) end in
  (signal_loop env_filter sigs l0).1 = after_stop sigs /\
  (signal_loop env_filter sigs l0).2 =
    mkLog (SOurs (match last_level sigs None with Some k => env_filter (sanitize_log_level k) | None => first end)) (Some true).
Proof.
  unfold try_init. cbn -[sanitize_log_level]. set (f := match rust_log with Some _ => _ | None => _ end). clearbody f.
  revert f. induction sigs as [|[| |[res [k|]]] sigs IH]; intros f; cbn -[sanitize_log_level]; [done..| |apply IH].
  rewrite last_level_from. destruct (IH (env_filter (sanitize_log_level k))) as [-> ->]. split; [done|].
  by destruct (last_level sigs None).
Qed.

(** Where tracing was installed by someone else, the level cannot be set,
    and the caller is told so. *)
Lemma foreign_subscriber rust_log level k :
  let '(ok, l) := try_init env_filter rust_log level (mkLog SForeign None) in
  ok = false /\ set_filter env_filter k l = (false, l).
Proof. done. Qed.

End Log.

(** ** Runs *)
Module StartupRuns.

#[local] Instance iter : HashIter := canonical_iter.

Definition io : BindIo := mkBindIo true (Ok tt) (Ok tt).

(** A stale socket, readable by everyone, beside a file. *)
Definition p : Proc := mkProcess {["vyn.sock" := mkInode (KSocket 1) (oct 7 7 7); "notes" := mkInode KRegular (oct 6 4 4)]} (oct 0 2 2).

Definition started : Proc := (uds_start io 2 "vyn.sock" p).1.2.

Lemma uds_start_witness :
  nodes started !! "vyn.sock" = Some (mkInode (KSocket 2) (oct 6 0 0)) /\ umask started = oct 0 2 2.
Proof.
  destruct (uds_start_private io 2 "vyn.sock" p (Ok tt) started (uds_start io 2 "vyn.sock" p).2) as (Hu & _ & _ & _ & Hok);
    [intros m; by vm_compute|reflexivity|]. split; [by apply Hok|exact Hu].
Defined.

(** The certificate generator fails. *)
Definition start_io : StartIo :=
  mkStartIo (Ok tt) (Ok (oct 7 0 0)) (Ok None) io
    (mkTlsIo None (fun _ => Err "no entropy") (fun _ => Ok tt) (fun _ => Ok tt) (fun _ => Ok tt) (Some "/run/vyn")) (fun _ => false).

Lemma refused_start_witness :
  exists p' e fs', start_kernel start_io 2 KernelRuns.boot_cfg p ∅ = (Err e, p', fs') /\
    nodes p' !! "vyn.sock" = Some (mkInode (KSocket 2) (oct 6 0 0)).
Proof.
  edestruct (refused_start_takes_socket start_io 2 1 (oct 7 7 7) KernelRuns.boot_cfg p ∅) as (p' & Hs & Hn);
    [by vm_compute|done..|vm_compute; reflexivity|]. eexists p', _, _. split; [exact Hs|exact Hn].
Defined.

Definition good_io : StartIo :=
  mkStartIo (Ok tt) (Ok (oct 7 0 0)) (Ok None) io KernelRuns.tls_io (fun _ => false).

Lemma tls_witness :
  exists st b p' fs' cert key, start_kernel good_io 2 KernelRuns.boot_cfg p ∅ = (Ok (st, b), p', fs') /\
    api_serving (boot_tls b) = Https cert key.
Proof.
  assert (Hok : is_ok (start_kernel good_io 2 KernelRuns.boot_cfg p ∅).1.1 = true) by (vm_compute; reflexivity).
  destruct (start_kernel good_io 2 KernelRuns.boot_cfg p ∅) as [[[[st b]|e] p'] fs'] eqn:E; [|discriminate Hok].
  destruct (tls_not_downgraded good_io 2 KernelRuns.boot_cfg p ∅ st b p' fs' E) as ((cert & key & Hs) & _ & _); [done|].
  exists st, b, p', fs', cert, key. split; [reflexivity|exact Hs].
Defined.

End StartupRuns.
