(* ===== verification/System.v ===== *)
(** * The running kernel

    The tasks of the kernel as one transition system: connections that open,
    send and close; the router, which takes messages from one queue; the
    disconnect loop, which takes closed connections from another
    ([run_with_components] of [kernel/orchestrator/mod.rs] connects them); the prune timer, the retry
    worker, the watchdog and the REST interface.  Every step is one of the
    definitions of the components, a whole handler: the tasks are interleaved
    between handlers, not within them, and the loader's boot is one step.
    [Races], [BusRace], [StopRace], [ForwardRace] and [ActionRace] interleave
    within the handlers and show which of the invariants survive that.  On a
    client kernel the bridge is one more
    task: it registers its proxy, forwards what the host sends, and takes the
    proxy down again. *)

From S2P Require Import Prelude Wire Toy Text Channel Registry RegistryFacts Permissions Jwt DeviceStore EventStore World EventBus Commands Router RouterFacts RouterProps RouterRuns Sandbox Config Supervisor Loader Kernel Connection Gateway Api Bridge.

Open Scope Z_scope.

Create HintDb conns.

Section System.
Context `{HashIter} `{WireCrate} `{Governor} `{SerdeJson} `{JwtCrate} `{StoreCrates} `{ManifestCrate}.
Context (ctx : Ctx) (app : AppState).

Record Node := mkNode {
  nd_api : Api;                        (** the shared state and the process table *)
  inbox : list IncomingMessage;        (** the router's queue *)
  closing : list Z;                    (** the disconnect loop's queue *)
  open_conns : gset Z;
  used_conns : gset Z;                 (** every connection id given out *)
  link : option (string * ChanId);     (** the bridge's device and channel while its loops run *)
}.

Definition nd_world (n : Node) : World := api_world (nd_api n).

Definition on_world (f : World -> World) (n : Node) : Node :=
  mkNode (mkApi (f (nd_world n)) (api_sup (nd_api n)) (api_limiter (nd_api n)))
    (inbox n) (closing n) (open_conns n) (used_conns n) (link n).

Definition on_sup (f : Supervisor -> Supervisor) (n : Node) : Node :=
  mkNode (mkApi (nd_world n) (f (api_sup (nd_api n))) (api_limiter (nd_api n)))
    (inbox n) (closing n) (open_conns n) (used_conns n) (link n).

Definition with_inbox (l : list IncomingMessage) (n : Node) : Node :=
  mkNode (nd_api n) l (closing n) (open_conns n) (used_conns n) (link n).
Definition with_closing (l : list Z) (n : Node) : Node :=
  mkNode (nd_api n) (inbox n) l (open_conns n) (used_conns n) (link n).
Definition with_link (l : option (string * ChanId)) (n : Node) : Node :=
  mkNode (nd_api n) (inbox n) (closing n) (open_conns n) (used_conns n) l.
Definition mark_used (cid : Z) (n : Node) : Node :=
  mkNode (nd_api n) (inbox n) (closing n) (open_conns n) ({[cid]} ∪ used_conns n) (link n).

(** One handler of one task, without interruption. *)
Inductive node_step (n : Node) : Node -> Prop :=
| ns_open cid :
    (** the counters of the two servers stay below the bridge's id for the
        first 10^9 connections *)
    (cid ∉ used_conns n) -> cid < BRIDGE_CONN_ID_BASE ->
    node_step n (mkNode (nd_api n) (inbox n) (closing n) ({[cid]} ∪ open_conns n) ({[cid]} ∪ used_conns n) (link n))
| ns_receive msg :
    (** the read loop of an open connection forwards a frame *)
    m_conn_id msg ∈ open_conns n -> node_step n (with_inbox (inbox n ++ [msg]) n)
| ns_close cid :
    (** the read loop ends: [disconnect_tx.send(conn_id)] *)
    cid ∈ open_conns n ->
    node_step n (mkNode (nd_api n) (inbox n) (closing n ++ [cid]) (open_conns n ∖ {[cid]}) (used_conns n) (link n))
| ns_route env msg rest :
    inbox n = msg :: rest ->
    node_step n (with_inbox rest (on_world (exec (router_step ctx env (Incoming msg))) n))
| ns_tick env : node_step n (on_world (exec (router_step ctx env Tick)) n)
| ns_disconnect env cid l1 l2 :
    (** one of the disconnect loops; the socket server and the gateway have
        a queue each *)
    closing n = l1 ++ cid :: l2 ->
    node_step n (with_closing (l1 ++ l2) (on_world (exec (disconnect_one env cid)) n))
| ns_retry env sid max_retries retention : node_step n (on_world (exec (retry_round env sid max_retries retention)) n)
| ns_watchdog env deadline :
    node_step n (on_world (exec (watchdog_tick env deadline (api_sup (nd_api n)))) n)
| ns_rest clk os rq :
    node_step n (mkNode (serve app clk os rq (nd_api n)).2 (inbox n) (closing n) (open_conns n) (used_conns n) (link n))
| ns_writer f :
    (** a write loop takes from its channel, or ends and closes it *)
    node_step n (on_world (upd_chans f) n)
| ns_load defs spawned :
    (** the loader boots the configured plugins *)
    let run := load_all defs spawned (api_sup (nd_api n)) in
    node_step n (on_sup (fun _ => eval run (nd_world n)) (on_world (exec run) n))
| ns_monitor cfg env ev decision count :
    (** the supervisor's monitor announces the death of a process *)
    node_step n (on_world (exec (monitor_publish cfg env ev decision count)) n)
| ns_supervisor f :
    (** the supervisor changes its process table: an exit, a backoff, a spawn *)
    node_step n (on_sup f n)
| ns_bridge_up clk device_id caps tx :
    (** the host acknowledged: the proxy is registered, or the cycle fails *)
    link n = None ->
    node_step n (with_link (if is_ok (eval (bridge_up clk device_id caps tx) (nd_world n)) then Some (device_id, tx) else None)
                   (mark_used BRIDGE_CONN_ID_BASE (on_world (exec (bridge_up clk device_id caps tx)) n)))
| ns_bridge_receive device_id tx frame cell :
    link n = Some (device_id, tx) ->
    node_step n (with_inbox (inbox n ++ [mkIncoming BRIDGE_CONN_ID_BASE frame tx cell]) n)
| ns_bridge_down device_id tx :
    link n = Some (device_id, tx) ->
    node_step n (with_link None (on_world (exec (bridge_down device_id tx)) n)).

(** A kernel that has just booted, with no plugin registered. *)
Definition booted (n : Node) : Prop :=
  registry (nd_world n) = registry_new /\ event_bus (nd_world n) = bus_new /\
  inbox n = [] /\ closing n = [] /\ open_conns n = ∅ /\ link n = None.

(** ** Which connections a step can register *)

Definition conns (w : World) : gset Z := dom (by_conn_id (registry w)).

(** Only connections of [C] are new. *)
Definition names (C : gset Z) (w w' : World) : Prop := conns w' ⊆ conns w ∪ C.

#[local] Instance names_preorder C : PreOrder (names C).
Proof. split; unfold names; [intros w|intros w1 w2 w3 ? ?]; set_solver. Qed.

Lemma names_same C w w' : by_conn_id (registry w') = by_conn_id (registry w) -> names C w w'.
Proof. unfold names, conns. intros ->. set_solver. Qed.

Lemma names_net {A} C (m : K A) : keeps net_only m -> keeps (names C) m.
Proof. apply keeps_mono. intros w w' (E & _). apply names_same. by rewrite E. Qed.

Lemma names_publish C env e : keeps (names C) (publish env e).
Proof. intros w. destruct (publish_stores env e w) as (_ & E & _). apply names_same. by rewrite E. Qed.

Lemma names_deliver C env e : keeps (names C) (deliver env e).
Proof. apply names_net. intros w. apply deliver_spec. Qed.

Lemma names_limiters C env k cid :
  keeps (names C) (action_limiter_grants env k) /\ keeps (names C) (ipc_limiter_grants env cid).
Proof.
  split; intros w; unfold exec, action_limiter_grants, ipc_limiter_grants.
  - destruct (action_limiter w); [|done]. destruct (check_key _ _ _). by apply names_same.
  - destruct (ipc_limiter w); [|done]. destruct (check_key _ _ _). by apply names_same.
Qed.

Lemma names_op {A} C (f : PluginRegistry -> A * PluginRegistry) :
  (forall r, same_core r (f r).2) -> keeps (names C) (on_registry f).
Proof.
  intros Hf w. unfold exec, on_registry. specialize (Hf (registry w)). destruct (f (registry w)) as [a r].
  destruct Hf as (_ & E & _). by apply names_same.
Qed.

Lemma record_pong_conns clk pid r : by_conn_id (record_pong clk pid r) = by_conn_id r.
Proof. unfold record_pong. cbv zeta. by destruct (_ !! pid). Qed.

Lemma names_register_with_device clk pid cid mf tx meta :
  keeps (names {[cid]}) (on_registry (register_with_device clk pid cid mf tx meta)).
Proof.
  intros w. unfold exec, on_registry. destruct (register_with_device clk pid cid mf tx meta (registry w)) as [[[]|e] r'] eqn:E; cbn [snd].
  - apply register_with_device_add in E as (_ & _ & _ & en & -> & _ & Hc & _).
    destruct (add_entry_fields clk en meta (meta_capabilities meta) (registry w)) as (_ & Ec & _).
    set (r1 := add_entry _ _ _ _ _) in *. clearbody r1. unfold names, conns. cbn. rewrite Ec, dom_insert, Hc. set_solver.
  - apply names_same. by apply register_with_device_err in E as ->.
Qed.

(** A registration registers the connection it came on. *)
Lemma names_register env msg reg mf : keeps (names {[m_conn_id msg]}) (on_registry (do_register env msg reg mf)).
Proof.
  intros w. unfold exec, on_registry. destruct (do_register env msg reg mf (registry w)) as [[[]|e] r'] eqn:E; cbn [snd].
  - assert (exists en meta caps, r' = add_entry (clk env) en meta caps (registry w) /\ conn_id en = m_conn_id msg)
      as (en & meta & caps & -> & Hc).
    { unfold do_register in E. destruct (is_mux_device reg).
      - apply register_device_add in E as (_ & _ & _ & en & -> & _ & ? & _). by eexists _, _, _.
      - apply register_with_device_add in E as (_ & _ & _ & en & -> & _ & ? & _). by eexists _, _, _. }
    destruct (add_entry_fields (clk env) en meta caps (registry w)) as (_ & Ec & _).
    set (r1 := add_entry _ _ _ _ _) in *. clearbody r1. unfold names, conns. cbn. rewrite Ec, dom_insert, Hc. set_solver.
  - apply names_same. unfold do_register in E. cbn.
    destruct (is_mux_device reg); [by apply register_device_err in E as ->|by apply register_with_device_err in E as ->].
Qed.

(** The primitive steps of the handlers of a message [msg]. *)
Ltac names_step :=
  lazymatch goal with
  | |- keeps (names _) (send_envelope _ _ _) => apply names_net, send_envelope_net
  | |- keeps (names _) (send_error _ _ _ _) => apply names_net, send_error_net
  | |- keeps (names _) (send_register_reject _ _ _) => apply names_net, send_envelope_net
  | |- keeps (names _) (try_send_envelope _ _ _) => apply names_net, try_send_envelope_net
  | |- keeps (names _) (chan_try_send _ _) => apply names_net, chan_try_send_net
  | |- keeps (names _) (chan_send_await _ _) => apply names_net, chan_send_await_net
  | |- keeps (names _) (notify_forced_termination _ _ _ _) => apply names_net, notify_net
  | |- keeps (names _) (publish _ _) => apply names_publish
  | |- keeps (names _) (redeliver _ _) => apply names_deliver
  | |- keeps (names _) (action_limiter_grants _ _) => apply (names_limiters _ _ _ 0)
  | |- keeps (names _) (ipc_limiter_grants _ _) => apply (names_limiters _ _ (EmptyString, EmptyString))
  | |- keeps (names _) (on_registry (do_register _ _ _ _)) => apply names_register
  | |- keeps (names _) (on_registry _) =>
      apply names_op; intros ?; first [done|apply resolve_core|apply sweep_expired_core|apply take_all_core]
  | |- keeps (names _) (modify (upd_registry (record_pong _ _))) =>
      intros ?; apply names_same, record_pong_conns
  | |- keeps (names _) (modify _) => intros ?; by apply names_same
  | |- keeps (names _) fetch_action_seq => intros ?; by apply names_same
  | |- keeps (names _) fetch_event_seq => intros ?; by apply names_same
  | |- keeps (names _) _ => auto with conns
  end.

Ltac keep_names := keep_with ltac:(idtac; names_step).

Lemma abort_stream_names C env iid reason : keeps (names C) (abort_stream env iid reason).
Proof. unfold abort_stream. keep_names. Qed.
#[local] Hint Resolve abort_stream_names : conns.

Lemma handle_register_names env msg mid reg : keeps (names {[m_conn_id msg]}) (handle_register ctx env msg mid reg).
Proof. unfold handle_register, finish_register. keep_names. Qed.
#[local] Hint Resolve handle_register_names : conns.

Lemma handle_payload_names env msg mid p : keeps (names {[m_conn_id msg]}) (handle_payload ctx env msg mid p).
Proof.
  unfold handle_payload, handle_ping, handle_pong, handle_subscribe, handle_unsubscribe,
    handle_event_publish, handle_event_ack, handle_action_request, handle_action_response, route_action,
    handle_request_chunk, handle_response_chunk, handle_session_close, handle_kernel_command.
  keep_names.
Qed.
#[local] Hint Resolve handle_payload_names : conns.

(** A message registers at most the connection it came on. *)
Lemma route_names env msg : keeps (names {[m_conn_id msg]}) (router_step ctx env (Incoming msg)).
Proof.
  unfold router_step, handle_message, route, handle_kernel_message, forward, register_direct_pending, relay_to_host,
    broadcast, broadcast_to. keep_names.
Qed.

Lemma tick_names env : keeps (names ∅) (router_step ctx env Tick).
Proof. unfold router_step, prune_tick. keep_names. Qed.

(** ** The other tasks *)

Lemma retry_sim env sid m t : keeps sim (retry_round env sid m t).
Proof.
  unfold retry_round. apply keeps_bind; [apply _|by apply keeps_gets; apply _|]. intros sts.
  destruct (retry_sweep _ _ _ _) as [pending [x st']].
  apply keeps_bind; [apply _|apply stores_sim|]. intros _. apply keeps_for_each; [apply _|]. intros e _. apply deliver_sim.
Qed.

Lemma retry_names env sid m t : keeps (names ∅) (retry_round env sid m t).
Proof. unfold retry_round. keep_names. Qed.

Lemma watchdog_net env deadline s : keeps net_only (watchdog_tick env deadline s).
Proof.
  unfold watchdog_tick. apply keeps_bind; [apply _| |intros fx; apply keeps_ret; apply _].
  induction (map_iter (entries s)) as [|[pid e] l IH]; cbn [watchdog_round]; [apply keeps_ret; apply _|].
  unfold watchdog_one. keep_with ltac:(first [apply chan_try_send_net|exact IH]).
Qed.

Lemma load_keeps R `{!PreOrder R} defs spawned s :
  (forall def, keeps R (set_requirements_of def)) ->
  (forall id ts, keeps R (modify (upd_bus (subscribe id ts)))) -> keeps R (load_all defs spawned s).
Proof.
  intros Hset Hsub. assert (forall ids s, keeps R (load_each defs spawned ids s)) as Heach.
  { induction ids as [|id ids IH]; intros s0; cbn [load_each]; [by apply keeps_ret|].
    unfold load_one. keep_with ltac:(first [apply Hsub|apply IH]). }
  unfold load_all. keep_with ltac:(first [apply Hset|apply Heach]).
Qed.

Lemma load_sim defs spawned s : keeps sim (load_all defs spawned s).
Proof.
  apply load_keeps; [apply _|intros def; unfold set_requirements_of|intros id ts w; apply upd_bus_sim; constructor].
  keep_with ltac:(intros w; apply upd_registry_sim; constructor).
Qed.

Lemma load_names defs spawned s : keeps (names ∅) (load_all defs spawned s).
Proof.
  apply load_keeps; [apply _|intros def; unfold set_requirements_of|intros id ts w; by apply names_same].
  keep_with ltac:(intros w; by apply names_same).
Qed.

Lemma monitor_sim cfg env ev d c : keeps sim (monitor_publish cfg env ev d c).
Proof. unfold monitor_publish. keep_with ltac:(apply publish_sim). Qed.

Lemma monitor_names cfg env ev d c : keeps (names ∅) (monitor_publish cfg env ev d c).
Proof. unfold monitor_publish. keep_with ltac:(apply names_publish). Qed.

Lemma bridge_up_sim clk d caps tx : keeps sim (bridge_up clk d caps tx).
Proof.
  unfold bridge_up, register_conn.
  keep_with ltac:(first [intros w; apply on_registry_sim; constructor|intros w; split; reflexivity]).
Qed.

Lemma bridge_down_sim d tx : keeps sim (bridge_down d tx).
Proof.
  unfold bridge_down, unregister_conn.
  keep_with ltac:(first [intros w; apply upd_registry_sim; constructor|intros w; split; reflexivity]).
Qed.

(** The REST interface leaves the shared state alone or unregisters a plugin. *)
Lemma serve_world clk os rq a :
  api_world (serve app clk os rq a).2 = api_world a \/
  exists id, api_world (serve app clk os rq a).2 = upd_registry (unregister id) (api_world a).
Proof.
  destruct (serve app clk os rq a) as [resp a'] eqn:Hs. cbn [snd].
  destruct (decide (rq_route rq = RHealth)) as [Hh|Hh].
  { unfold serve in Hs. rewrite Hh in Hs. injection Hs as _ <-. by left. }
  destruct (serve_inv _ _ _ _ _ _ _ Hh Hs) as [(st & _ & _ & ->)|(claims & a1 & _ & Hw & _ & Hc)]; [by left|].
  rewrite <- Hw. destruct Hc as [[_ ->]|[(_ & _ & _ & ->)|[_ Hr]]]; [by left..|].
  destruct (is_lifecycle (rq_route rq)) eqn:Hl; 
    [|left; pose proof (handle_route_reads app (instant clk) os _ a1 Hl) as Hread; rewrite Hr in Hread; cbn in Hread; by rewrite Hread].
  clear Hs Hh. destruct (rq_route rq) as [| | | | | |id|id|id]; cbn in Hl, Hr; try done.
  - left. unfold start_plugin in Hr. repeat case_match; by injection Hr as _ <-.
  - unfold Api.stop_plugin, manager_stop in Hr. destruct (get id _); [|injection Hr as _ <-; by left].
    destruct (Supervisor.stop_plugin id _) as [res sp]. injection Hr as _ <-. right. by exists id.
  - left. unfold Api.restart_plugin in Hr. repeat case_match; by injection Hr as _ <-.
Qed.

Lemma disconnect_sim env cid : keeps sim (disconnect_one env cid).
Proof.
  intros w. destruct (get_by_conn_id cid (registry w)) as [e|] eqn:He.
  - destruct (disconnect_run env cid e w He) as [Er Eb]. split; rewrite ?Er, ?Eb; apply rtc_once; constructor.
  - unfold disconnect_one. by rewrite exec_gets, He.
Qed.

(** Every step of every task moves the registry and the bus by their own
    operations. *)
Lemma node_step_sim n n' : node_step n n' -> sim (nd_world n) (nd_world n').
Proof.
  destruct 1; try done.
  - apply router_step_sim.
  - apply router_step_sim.
  - apply disconnect_sim.
  - apply retry_sim.
  - apply net_only_sim, watchdog_net.
  - unfold nd_world. cbn. destruct (serve_world clk os rq (nd_api n)) as [->|(id & ->)]; [done|].
    apply upd_registry_sim. constructor.
  - apply load_sim.
  - apply monitor_sim.
  - apply bridge_up_sim.
  - apply bridge_down_sim.
Qed.

Lemma elem_of_conns cid w : cid ∈ conns w <-> is_registered cid (registry w) = true.
Proof.
  unfold conns, is_registered. rewrite elem_of_dom. destruct (by_conn_id (registry w) !! cid); cbn; [|by split; [intros [? ?]|]].
  split; [done|by eexists].
Qed.

(** Whatever registers, it is no longer the closed connection. *)
Lemma disconnect_conns env cid w :
  registry_ok (registry w) -> conns (exec (disconnect_one env cid) w) ⊆ conns w ∖ {[cid]}.
Proof.
  intros Hok. destruct (get_by_conn_id cid (registry w)) as [e|] eqn:He.
  - destruct (disconnect_run env cid e w He) as [Er _]. destruct (get_by_conn_id_ok _ _ _ Hok He) as [Hp Hcid].
    destruct (unregister_fields (plugin_id e) e (registry w) Hp) as (_ & E2 & _). unfold conns.
    rewrite Er, E2, dom_delete, Hcid. done.
  - replace (exec (disconnect_one env cid) w) with w by (unfold disconnect_one; by rewrite exec_gets, He).
    intros c Hc. apply elem_of_difference. split; [done|]. rewrite elem_of_singleton. intros ->.
    unfold conns in Hc. apply elem_of_dom in Hc as [pid Hpid]. destruct (rok_conn _ Hok _ _ Hpid) as (e' & He' & _).
    unfold get_by_conn_id in He. rewrite Hpid in He. cbn in He. congruence.
Qed.

Lemma unregister_conns pid r : dom (by_conn_id (unregister pid r)) ⊆ dom (by_conn_id r).
Proof.
  destruct (by_plugin_id r !! pid) as [e|] eqn:He.
  - destruct (unregister_fields pid e r He) as (_ & -> & _). rewrite dom_delete. set_solver.
  - unfold unregister. by rewrite He.
Qed.

(** ** The invariants of the running kernel *)

(** A step in which the disconnect loop takes a connection only when no
    message of it is left in the router's queue. *)
Definition orderly (n n' : Node) : Prop :=
  node_step n n' /\
  (forall cid l1 l2, closing n = l1 ++ cid :: l2 -> closing n' = l1 ++ l2 ->
     forall msg, msg ∈ inbox n -> m_conn_id msg <> cid).

Lemma orderly_idle n n' : node_step n n' -> closing n = [] -> orderly n n'.
Proof. intros Hs Hn. split; [done|]. rewrite Hn. by intros cid [] l2. Qed.

(** The connections that may be registered: the open ones, the ones about to
    be cleaned up, and the bridge's once it has been up. *)
Definition present (n : Node) : gset Z :=
  open_conns n ∪ list_to_set (closing n) ∪ used_conns n ∩ {[BRIDGE_CONN_ID_BASE]}.

Record node_ok (n : Node) : Prop := mkNodeOk {
  nok_registry : registry_reachable (registry (nd_world n));
  nok_conns : conns (nd_world n) ⊆ present n;
  nok_inbox : forall msg, msg ∈ inbox n -> m_conn_id msg ∈ present n;
  nok_link : is_Some (link n) -> BRIDGE_CONN_ID_BASE ∈ used_conns n;
}.

Lemma node_ok_booted n : booted n -> node_ok n.
Proof.
  intros (Hr & _ & Hi & Hc & Ho & Hl). split.
  - rewrite Hr. apply rtc_refl.
  - unfold conns. rewrite Hr. cbn. set_solver.
  - rewrite Hi. by intros msg ?%elem_of_nil.
  - rewrite Hl. by intros [? ?].
Qed.

(** A step that registers only connections that are present, with the queues
    and the connections as they were. *)
Lemma node_ok_world f C n :
  node_ok n -> registry_reachable (registry (f (nd_world n))) -> names C (nd_world n) (f (nd_world n)) -> C ⊆ present n ->
  node_ok (on_world f n).
Proof.
  intros [Hr Hc Hi Hl] Hr' Hn HC. split; [done| |done..]. unfold names in Hn. change (nd_world (on_world f n)) with (f (nd_world n)).
  change (present (on_world f n)) with (present n). set_solver.
Qed.

Lemma node_ok_inbox l n : node_ok n -> (forall msg, msg ∈ l -> m_conn_id msg ∈ present n) -> node_ok (with_inbox l n).
Proof. intros [Hr Hc _ Hk] Hl. by split. Qed.

(** More connections are present. *)
Lemma node_ok_grow n n' :
  node_ok n -> nd_world n' = nd_world n -> inbox n' = inbox n -> link n' = link n -> used_conns n ⊆ used_conns n' ->
  present n ⊆ present n' -> node_ok n'.
Proof. intros [Hr Hc Hi Hl] Ew Ei El Hu Hp. split; rewrite ?Ew, ?Ei, ?El; set_solver. Qed.

Lemma node_ok_disconnect env cid l1 l2 n :
  node_ok n -> closing n = l1 ++ cid :: l2 -> (forall msg, msg ∈ inbox n -> m_conn_id msg <> cid) ->
  registry_reachable (registry (exec (disconnect_one env cid) (nd_world n))) ->
  node_ok (with_closing (l1 ++ l2) (on_world (exec (disconnect_one env cid)) n)).
Proof.
  intros [Hr Hc Hi Hl] Hq Hdrain Hr'. set (n' := with_closing _ _).
  assert (Hp : present n ∖ {[cid]} ⊆ present n').
  { unfold present. cbn. rewrite Hq, !list_to_set_app_L. set_solver. }
  pose proof (disconnect_conns env cid (nd_world n) (reachable_ok _ Hr)) as Hd. split; [done|..|done].
  - change (conns (exec (disconnect_one env cid) (nd_world n)) ⊆ present n'). set_solver.
  - intros m Hm. specialize (Hi m Hm). specialize (Hdrain m Hm). set_solver.
Qed.

Lemma bridge_up_names clk d caps tx : keeps (names {[BRIDGE_CONN_ID_BASE]}) (bridge_up clk d caps tx).
Proof.
  unfold bridge_up, register_conn.
  keep_with ltac:(first [apply names_register_with_device|intros w; by apply names_same]).
Qed.

Lemma bridge_up_taken clk d caps tx w :
  is_Some (by_conn_id (registry w) !! BRIDGE_CONN_ID_BASE) -> is_ok (eval (bridge_up clk d caps tx) w) = false.
Proof.
  intros [p Hp]. unfold bridge_up. rewrite eval_bind. unfold eval at 2, on_registry, register_with_device.
  rewrite Hp. by destruct (validate_plugin_id d).
Qed.

Lemma bridge_down_names d tx : keeps (names ∅) (bridge_down d tx).
Proof.
  unfold bridge_down, unregister_conn. apply keeps_bind; [apply _| |intros _ w; by apply names_same].
  intros w. unfold names, conns. cbn. pose proof (unregister_conns d (registry w)). set_solver.
Qed.

Lemma node_ok_bridge_up clk d caps tx n :
  node_ok n -> registry_reachable (registry (exec (bridge_up clk d caps tx) (nd_world n))) ->
  forall l, node_ok (with_link l (mark_used BRIDGE_CONN_ID_BASE (on_world (exec (bridge_up clk d caps tx)) n))).
Proof.
  intros [Hr Hc Hi Hl] Hr' l. set (n' := with_link _ _).
  assert (Hp : present n ∪ {[BRIDGE_CONN_ID_BASE]} ⊆ present n') by (unfold present; cbn; set_solver).
  pose proof (bridge_up_names clk d caps tx (nd_world n)) as Hn. unfold names in Hn. split; [done|..].
  - change (conns (exec (bridge_up clk d caps tx) (nd_world n)) ⊆ present n'). set_solver.
  - intros m Hm. specialize (Hi m Hm). set_solver.
  - intros _. cbn. set_solver.
Qed.

Lemma orderly_ok n n' : orderly n n' -> node_ok n -> node_ok n'.
Proof.
  intros [Hstep Hdrain] Hok. pose proof Hok as [Hr Hc Hi Hl].
  assert (Hr' : registry_reachable (registry (nd_world n'))).
  { pose proof (node_step_sim n n' Hstep) as [Hs _]. unfold registry_reachable in *. by etrans. }
  destruct Hstep as [cid Hn Hb|msg Ho|cid Ho|env msg rest Hq|env|env cid l1 l2 Hq|env sid m t|env dl|clk os rq|f|defs spawned run
    |cfg env ev d c|f|clk d caps tx Hk|d tx frame cell Hk|d tx Hk]; cbn in Hdrain.
  - apply (node_ok_grow n); try done; unfold present; cbn; set_solver.
  - apply node_ok_inbox; [done|]. intros m [Hm|Hm]%elem_of_app; [by apply Hi|]. apply list_elem_of_singleton in Hm as ->.
    unfold present. set_solver.
  - apply (node_ok_grow n); try done. unfold present. cbn. rewrite list_to_set_app_L. intros c Hin.
    destruct (decide (c = cid)); set_solver.
  - apply node_ok_inbox.
    + apply (node_ok_world _ {[m_conn_id msg]}); [done|done|apply route_names|].
      apply singleton_subseteq_l, Hi. rewrite Hq. left.
    + intros m Hm. change (m_conn_id m ∈ present n). apply Hi. rewrite Hq. by right.
  - apply (node_ok_world _ ∅); [done|done|apply tick_names|set_solver].
  - by apply node_ok_disconnect; [..|apply (Hdrain cid l1 l2 Hq eq_refl)|].
  - apply (node_ok_world _ ∅); [done|done|apply retry_names|set_solver].
  - apply (node_ok_world _ ∅); [done|done|apply (names_net ∅), watchdog_net|set_solver].
  - split; [done| |done..]. change (conns (api_world (serve app clk os rq (nd_api n)).2) ⊆ present n). etrans; [|exact Hc].
    destruct (serve_world clk os rq (nd_api n)) as [->|(id & ->)]; [done|]. apply unregister_conns.
  - apply (node_ok_world _ ∅); [done|done|by apply names_same|set_solver].
  - destruct (node_ok_world (exec run) ∅ n) as [_ Hc' Hi' Hl']; [done|done|apply load_names|set_solver|by split].
  - apply (node_ok_world _ ∅); [done|done|apply monitor_names|set_solver].
  - by split.
  - by apply node_ok_bridge_up.
  - apply node_ok_inbox; [done|]. intros m [Hm|Hm]%elem_of_app; [by apply Hi|]. apply list_elem_of_singleton in Hm as ->.
    assert (BRIDGE_CONN_ID_BASE ∈ used_conns n) by (apply Hl; by rewrite Hk). unfold present. cbn. set_solver.
  - destruct (node_ok_world (exec (bridge_down d tx)) ∅ n) as [_ Hc' Hi' Hl']; [done|done|apply bridge_down_names|set_solver|].
    split; try done. by intros [? ?].
Qed.

Lemma node_run_sim n n' : rtc node_step n n' -> sim (nd_world n) (nd_world n').
Proof. induction 1 as [|x y z Hxy _ IH]; [done|]. etrans; [by apply node_step_sim|done]. Qed.

Lemma orderly_run_ok n n' : rtc orderly n n' -> node_ok n -> node_ok n'.
Proof. induction 1 as [|x y z Hxy _ IH]; [done|]. intros Hx. by eapply IH, orderly_ok. Qed.

(** The kernel as a whole keeps the invariants of its parts as long as each
    handler runs uninterrupted: in whatever order the tasks take their turns,
    from a fresh boot on, the registry satisfies its invariant and the
    subscription maps mirror each other.  Handlers that overlap can break both
    ([Races.concurrent_leave_poisons_action],
    [BusRace.overlap_breaks_mirror]). *)
Theorem system_invariant n n' :
  booted n -> rtc node_step n n' -> registry_ok (registry (nd_world n')) /\ bus_ok (event_bus (nd_world n')).
Proof.
  intros (Hr & Hb & _) [Hs1 Hs2]%node_run_sim.
  split; [apply reachable_ok; unfold registry_reachable; by rewrite <- Hr|apply bus_reachable_ok; by rewrite <- Hb].
Qed.

(** No ghosts in orderly runs.  As long as the disconnect loop takes a
    connection only after the router has taken its last message, every
    registered plugin's connection is open, or closed and about to be
    cleaned up, or is the bridge's on a kernel whose bridge has been up. *)
Theorem registered_are_present n n' cid :
  booted n -> rtc orderly n n' -> is_registered cid (registry (nd_world n')) = true ->
  cid ∈ open_conns n' \/ cid ∈ closing n' \/ (cid = BRIDGE_CONN_ID_BASE /\ cid ∈ used_conns n').
Proof.
  intros Hb%node_ok_booted Hrun Hreg. destruct (orderly_run_ok _ _ Hrun Hb) as [_ Hc _ _].
  apply elem_of_conns, Hc in Hreg. unfold present in Hreg. set_solver.
Qed.

End System.

(** ** Runs *)
Module SystemRuns.

Import RouterRuns.Runs.

#[local] Instance wire : WireCrate := toy_wire RouterRuns.Runs.table.
#[local] Instance iter : HashIter := canonical_iter.
#[local] Instance gov : Governor := open_governor.
#[local] Instance json : SerdeJson := toy_json.
#[local] Instance jwt : JwtCrate := JwtRuns.crate.
#[local] Instance store : StoreCrates := CredentialRuns.crates.
#[local] Instance manifests : ManifestCrate := {| path_exists _ := false; validate_manifest _ := Err WFrameMagicMismatch |}.

Definition app : AppState := mkApp None 0 [] EmptyString.

Definition boot : Node :=
  mkNode (mkApi (mkWorld registry_new bus_new ∅ {[109 := Runs.chan; 110 := Runs.chan]} 0 0 0 None None ∅ []) sup_new None)
    [] [] ∅ ∅ None.

Definition opened (cid : Z) (n : Node) : Node :=
  mkNode (nd_api n) (inbox n) (closing n) ({[cid]} ∪ open_conns n) ({[cid]} ∪ used_conns n) (link n).
Definition closed (cid : Z) (n : Node) : Node :=
  mkNode (nd_api n) (inbox n) (closing n ++ [cid]) (open_conns n ∖ {[cid]}) (used_conns n) (link n).
Definition routed (msg : IncomingMessage) (n : Node) : Node :=
  with_inbox [] (on_world (exec (router_step ctx env (Incoming msg))) n).
Definition cleaned (cid : Z) (n : Node) : Node := with_closing [] (on_world (exec (disconnect_one env cid)) n).

(** The plugin [new] registers on connection 9 and later on connection 10. *)
Definition hello (cid tx : Z) : IncomingMessage := incoming cid tx "kernel" 0.

Definition n1 : Node := opened 9 boot.
Definition n2 : Node := with_inbox [hello 9 109] n1.
Definition n3 : Node := routed (hello 9 109) n2.

Lemma boot_booted : booted boot.
Proof. by split_and!. Qed.

Lemma to_n3 : rtc (orderly ctx app) boot n3.
Proof.
  apply (rtc_l _ _ n1); [by apply orderly_idle; [apply (ns_open ctx app boot 9)|]|].
  apply (rtc_l _ _ n2); [apply orderly_idle; [apply (ns_receive ctx app n1 (hello 9 109)); by vm_compute|done]|].
  apply rtc_once, orderly_idle; [by apply (ns_route ctx app n2 env (hello 9 109) [])|done].
Qed.

Lemma registered_witness : is_registered 9 (registry (nd_world n3)) = true /\ 9 ∈ open_conns n3.
Proof.
  split; [by vm_compute|]. destruct (registered_are_present ctx app boot n3 9 boot_booted to_n3) as [?|[[]%elem_of_nil|[? _]]];
    [by vm_compute|done|done].
Defined.

Lemma system_witness : is_registered 9 (registry (nd_world n3)) = true /\ registry_ok (registry (nd_world n3)).
Proof.
  split; [by vm_compute|]. apply (system_invariant ctx app boot n3 boot_booted).
  eapply rtc_subrel; [|exact to_n3]. by intros ? ? [].
Defined.

(** The connection closes while its registration waits for the router, its
    write loop ends, and the disconnect loop is faster. *)
Definition g3 : Node := on_world (upd_chans <[109 := mkChan 64 false []]>) (closed 9 n2).
Definition g4 : Node := cleaned 9 g3.
Definition g5 : Node := routed (hello 9 109) g4.
Definition g6 : Node := opened 10 g5.
Definition g7 : Node := with_inbox [hello 10 110] g6.
Definition g8 : Node := routed (hello 10 110) g7.

(** The ghost registration.  A plugin that closes its connection while its
    registration is still in the router's queue, and whose disconnection is
    handled first, stays registered on the dead connection when both queues
    are empty and nothing can be written to it, and its next attempt to register on a new connection is
    refused. *)
Theorem ghost_registration :
  exists n e, rtc (node_step ctx app) boot n /\ inbox n = [] /\ closing n = [] /\ (9 ∉ open_conns n) /\ 10 ∈ open_conns n /\
    get "new" (registry (nd_world n)) = Some e /\ conn_id e = 9 /\
    chan_open <$> chans (nd_world n) !! write_tx e = Some false /\ is_registered 10 (registry (nd_world n)) = false.
Proof.
  exists g8. eexists. split.
  - apply (rtc_l _ _ n1); [by apply (ns_open ctx app boot 9)|].
    apply (rtc_l _ _ n2); [apply (ns_receive ctx app n1 (hello 9 109)); by vm_compute|].
    apply (rtc_l _ _ (closed 9 n2)); [apply (ns_close ctx app n2 9); by vm_compute|].
    apply (rtc_l _ _ g3); [by apply ns_writer|].
    apply (rtc_l _ _ g4); [by apply (ns_disconnect ctx app g3 env 9 [] [])|].
    apply (rtc_l _ _ g5); [by apply (ns_route ctx app g4 env (hello 9 109) [])|].
    apply (rtc_l _ _ g6); [by apply (ns_open ctx app g5 10); vm_compute|].
    apply (rtc_l _ _ g7); [apply (ns_receive ctx app g6 (hello 10 110)); by vm_compute|].
    apply rtc_once. by apply (ns_route ctx app g7 env (hello 10 110) []).
  - split_and!; [reflexivity..|by vm_compute|by vm_compute|vm_compute; reflexivity|reflexivity|vm_compute; reflexivity|by vm_compute].
Qed.

(** The bridge goes up, the host sends a registration, and the link drops
    before the router handles it. *)
Definition b1 : Node :=
  with_link (Some ("desk", 120)) (mark_used BRIDGE_CONN_ID_BASE (on_world (exec (bridge_up (clk env) "desk" ["mic"] 120)) boot)).
Definition b2 : Node := with_inbox (inbox b1 ++ [hello BRIDGE_CONN_ID_BASE 120]) b1.
Definition b3 : Node := with_link None (on_world (exec (bridge_down "desk" 120)) b2).
Definition b4 : Node := routed (hello BRIDGE_CONN_ID_BASE 120) b3.

(** The ghost on the bridge.  A registration the host sends just before the
    link drops takes the bridge's connection id when it is handled after the
    proxy was taken down; nothing takes it away, and every later attempt of
    the bridge to register its proxy fails. *)
Theorem bridge_ghost :
  exists n e, rtc (node_step ctx app) boot n /\ inbox n = [] /\ link n = None /\
    get "new" (registry (nd_world n)) = Some e /\ conn_id e = BRIDGE_CONN_ID_BASE /\
    forall c d caps tx, is_ok (eval (bridge_up c d caps tx) (nd_world n)) = false.
Proof.
  exists b4. eexists. split.
  - apply (rtc_l _ _ b1).
    { pose proof (ns_bridge_up ctx app boot (clk env) "desk" ["mic"] 120 eq_refl) as Hup.
      replace (is_ok _) with true in Hup by (by vm_compute). exact Hup. }
    apply (rtc_l _ _ b2); [exact (ns_bridge_receive ctx app b1 "desk" 120 (frame "kernel" 0) 120 eq_refl)|].
    apply (rtc_l _ _ b3); [exact (ns_bridge_down ctx app b2 "desk" 120 eq_refl)|].
    apply rtc_once. exact (ns_route ctx app b3 env (hello BRIDGE_CONN_ID_BASE 120) [] eq_refl).
  - split_and!; [reflexivity|reflexivity|vm_compute; reflexivity|vm_compute; reflexivity|]. intros c d caps tx.
    apply bridge_up_taken. vm_compute. by eexists.
Qed.

End SystemRuns.
